(* ===== verification/_CoqProject ===== *)
-Q . S2P
Prelude.v
Words.v
Floats.v
FloatError.v
Machine.v
Regs.v
Sadata.v
Qspi.v
Control.v
ControlFrame.v
ControlTotal.v
ControlSpec.v
Accuracy.v
SettingsSpec.v
PscMsg.v
Listener.v
I2c.v
Main.v
Snapshot.v
SnapshotSpec.v
SadataPush.v
CStr.v
Stdio.v
FatFs.v
Sdcard.v
SdcardSpec.v
Console.v
ConsoleSpec.v
Discover.v
Lstats.v
NetSetup.v
Tftp.v
TftpHandler.v
TftpSpec.v
Typed.v
TxRamptable.v
FastPacket.v
FastSend.v
Setup.v
Diagnostics.v
Smoothing.v
Tasks.v
Concurrent.v
ClientTasks.v
MonitorTasks.v
Defined.v
SnapshotTask.v
Clients.v
Sim.v
SimIo.v
ClientsAny.v
Races.v
Witness.v
WitnessIo.v
WitnessReal.v
