(* ===== verification/Prelude.v ===== *)
(** * Power-supply controller firmware: a verification library (root file)

    The firmware ([src/sw/src/] of the repository) runs on a Zynq under FreeRTOS
    and lwIP.  It connects four power-supply channels, whose regulation is done
    in programmable logic, to a control system: clients send settings over TCP,
    the firmware scales them and writes registers, stores them in a QSPI flash,
    and sends back status data ten times a second and waveforms on triggers.

    ** The parts and their files

    - [Prelude], [Words], [Floats]: results of C code with undefined behaviour as a
      value, lists, machine words and their bytes, byte order ([htonl]), IEEE-754
      arithmetic with the C conversions ([Floats] on the standard library's
      [SpecFloat]), the rounding errors of [float] products and quotients over
      the reals ([FloatError]); shared tactics and hint databases.
    - [Machine]: the state [psc] (the globals of main.c and the device states), the
      monad [M] of firmware code, register access, the log [events] of all effects
      on devices; the classes [Platform] (programmable logic, memory, flash and
      EEPROM drivers), [Runtime] (uninitialised stack, poll bound), [PlainRegisters]
      (registers without read side effects); frame ([keeps]) and total-correctness
      ([total]) rules.
    - [Regs]: pl_regs.h, control.h, snapshot.h, the constants of local.h and
      qspi_flash.h, under their C names.
    - [PscMsg]: pscmsg.c, the message protocol, on the class [Sockets] (lwIP).
    - [Listener]: listener.c, the client slots, transmissions, and the accept loop
      and client threads as the step relation [step].
    - [Control] (control.c): the two message handlers; [ControlFrame] (what a message
      can touch), [ControlTotal] (absence of undefined behaviour), [ControlSpec] (what
      each message does), [Accuracy] (how accurate the scaled values are).
    - [Qspi] (qspi_flash.c): flash commands, the stored structure, save and recall, on
      flash laws ([FlashLaws]); [SettingsSpec]: save and recall, start-up, global
      settings.
    - [I2c] (i2c.c): oscillator, EEPROM (laws [EepromLaws]), hardware flavor.
    - [Main] (main.c): start-up and the callbacks that connect the server to the
      handlers.
    - [Snapshot], [SnapshotSpec] (snapshots.c): triggers, the circular buffer, waveform
      and statistics messages; [SnapshotTask]: the task, alone and among the others.
    - [Sadata] ([ReadAccumSA]), [SadataPush] (sadata.c, sadata.h): the 10 Hz message.
    - [CStr], [Stdio]: C strings in buffers, character classes, and the conversions of
      [scanf], [strtoul] and [strtof].
    - [FatFs]: the classes [FatFs] (files, a library outside of the repository) and
      [Heap], the monad [D] of programs on both the card and the board, and [FatFsLaws].
    - [Sdcard], [SdcardSpec] (sdcard.c): NET.CNF, its in-place parser and a specification
      by words; EEPROM.NEW and EEPROM.DAT.
    - [Console], [ConsoleSpec] (console.c): the monad [K] of programs that read the serial
      port (class [Uart]), the menu and its commands.
    - [Discover] (discover.c), [Lstats] (lstats.c), [NetSetup] (net_setup.c, [realmain]).
    - [Tftp], [TftpSpec] (tftp_server.c, tftp_opts.h): the server on an abstract context
      (class [TftpContext]) and lwIP's buffers (class [Pbuf]); [TftpHandler]
      (tftp_handler.c): the card as such a context.
    - [Typed]: the types of all traffic.
    - [TxRamptable], [FastPacket], [FastSend], [Smoothing] (testing/): the packets of the
      test programs and how they are sent, what the firmware makes of the first one's,
      and the table of a smooth transition.
    - [Setup]: the requests made to drivers, lwIP and FreeRTOS when the firmware starts
      ([init_i2c], [QspiFlashInit], [discover_prep], [tftp_init], [on_startup], ...), with
      their errors; [Diagnostics]: the values that are printed.
    - [Tasks]: programs of [M] cut at their accesses to shared state (class [Threaded],
      derived from the structure of a program) and the pool of tasks [pool_step];
      [Concurrent]: tasks on different register blocks (class [BlockRegisters]) and
      observers; [ClientTasks], [MonitorTasks], [SnapshotTask]: the code of the receive
      callback and of the two periodic tasks as such tasks, and the accesses they make;
      [Defined]: programs that no interference makes undefined; [Clients], [ClientsAny]:
      the theorems for different blocks and for any; [Races]: schedules on the simulated
      board.
    - [Sim], [SimIo]: a simulated board, flash, EEPROM, TCP stack, card and serial port
      that satisfy all the laws; [Witness], [WitnessIo], [WitnessReal]: every theorem
      with hypotheses applied to them.

    ** How the parts interact

    A client thread ([Listener.step]) receives a message ([PscMsg.psc_recvmsg]) into
    its buffer and calls [Main.recv_callback], which runs [Main.client_msg] on the
    state [psc]; that dispatches to [Control].  [Control] reads and writes registers,
    [Qspi] stores and restores them.  The two periodic tasks read registers and
    memory and call [psc_send]: on the state [psc] that is the event [PscSend], and
    [Listener.psc_send] says what it does to the clients.  The client threads, the
    console and the periodic tasks are preempted at any time and share [psc] without a
    lock: [Listener.step] runs the callback of a message in one step, and [Clients] says
    when that is justified.  The console task acts on the
    same state: its calibration command calls the handler of [Control] directly, its
    settings go through [I2c] to the EEPROM.  [NetSetup.realmain] composes [Sdcard],
    the recall of [Qspi] and the network set-up.  [Tftp] reaches files only through its
    context; it shares the card, and no other state, with [Sdcard].

    ** What the theorems show

    - Settings: a table gives for every message its register and encoding
      ([ControlSpec.chan_settings_table]); the rest is specified one by one (mode,
      set point, smooth transition, ramp table, scale factor).  Count limits and
      gains are exact, values in DAC bits are accurate to one unit and 2^-22
      ([Accuracy.dac_accuracy]), thresholds saturate.  A message of one channel cannot touch
      another, and every message returns, a smooth set point apart, for which the
      conditions of its division by zero are given.  [Main.end_to_end_setting] goes
      from the bytes on the wire to the register.
    - Storage: a save followed at any time by a recall restores registers and scale
      factors; the start-up sequence restores all channels, after the defaults.
    - Protocol: sending and receiving are inverse, over every fragmentation; a
      truncated message leaves the stream in step; a bad header is refused; the
      receive function cannot write outside of the message buffer, and its one
      overflow is exhibited.
    - Server: under every interleaving slots are exclusive and the bit mask is
      right; clients' messages are handled in order; a broadcast reaches every
      working client; a double close is exhibited.
    - Concurrency: client threads whose messages are for different blocks, together with
      the two periodic tasks, are serialisable ([Clients.clients_serialisable]), and no schedule
      of their accesses reaches undefined behaviour or goes on for ever
      ([Clients.clients_safe]), which holds for messages of the same channel too, set
      points and ramp tables apart ([ClientsAny.any_clients_safe]); two ramp tables of one
      channel, and two saves of different channels on the shared flash, are not
      serialisable: schedules that store what no sequential order stores ([Races.ramptables_mix], [Races.concurrent_saves_corrupt]).
    - Snapshots: the copied window is the circular one in the order of time; the
      latency of a trigger; the task never reaches undefined behaviour.
    - Data message: field by field the decoding of the registers.
    - Card: the in-place parser of NET.CNF stays inside of its buffer and implements the
      specification for every file ([SdcardSpec.netconf_refines]); what becomes of the
      three files; the configuration reaches the network interface
      ([NetSetup.network_configured]).
    - Console: no key but the calibration command can stop the menu, lines are stored
      within their buffers, a typed command is equivalent to a client's message,
      settings take effect at once, and what the EEPROM commands write.
    - Network: the requests that discovery answers; the layout of the statistics.
    - TFTP: an invariant of all reachable states, downloads and uploads transfer the
      file exactly, with retransmissions, and silent transfers end.
    - Test programs: the ramp table sender's packets are commands of channel 1 for the
      firmware ([TxRamptable.ramp_tool_misread]); fast set points survive encoding, and
      what the fields of the window hold is what is sent ([FastSend.gui_sends_fields]).
    - Set-up: each task is created once, the TFTP server is not started, and what
      happens when a look-up or a bind fails.
    - Types: registers, bytes and bus addresses of all traffic are in range.

    ** Bounds and fuel

    The transfer loops of [PscMsg] carry the number of bytes left as fuel; each
    iteration that continues transfers at least one byte, and totality is proved for
    every network.  [wait_ready] polls at most [poll_fuel] times, and [FlashLaws]
    says that an operation ends within that number of polls; the theorems on saving
    show that it always returns.  The endless loops of the tasks are
    functions of one iteration, iterated any number of times by the theorems.  The
    loops over C strings have the length of the buffer as fuel; reading NET.CNF needs
    one unit for each character of the file and one more, and so does the menu for the
    characters that are received: the theorems ask for no more than that.  A program of
    the console that has used all its input has the outcome [Wait].

    ** Abstractions

    Delays, cache maintenance and the text of console output are left out.  A task is
    preempted between its accesses to shared state: a register access, one flash
    transfer, the reading of a channel's scale factors for one expression, or the update of
    one of them is a single access.  A section that holds the server's mutex, and the receipt of one message with its
    callback, are one step each.  [QspiFlashRead] transmits 256 bytes from a 4-byte
    buffer: the bytes behind it are [stack_bytes], as are the fields of local
    structures that the code does not assign.  Conversions from float to integer
    that C leaves undefined are parameters ([FpEnv]).  The DMA memory is constant
    while one stretch of the circular buffer is copied, which happens in a critical
    section.  (The pool of tasks leaves that section out: it has more interleavings.)

    FatFs, lwIP and [malloc] are parameters with laws; [IN] is the serial port with all
    that will be received.  A name in the static state of the TFTP server stands for
    the file object behind it, and its pending timers are counted.

    ** Not modelled

    The socket options and the bind/listen calls of the server ([psc_run]), which only
    call lwIP; [show_ip_info], which only prints; the layout of the GTK window and the
    parsing of the arguments of the cosine table in testing/.  The console is not
    interleaved with other tasks access by access; its commands run the programs of
    [ClientTasks]. *)

From stdpp Require Export base tactics list list_numbers gmap strings.
From Stdlib Require Export ZArith Lia.

#[global] Open Scope Z_scope.

(** ** Results of C code

    A C expression either has a value or its behaviour is undefined.  [Ub]
    carries the reason, so that a theorem can say which undefined behaviour a
    call reaches. *)

Inductive ub :=
| ub_index (i n : Z)        (** array access [a[i]] where the array has [n] elements *)
| ub_div0                   (** integer division by zero *)
| ub_overflow (x : Z)       (** signed arithmetic whose result is [x] *)
| ub_null                   (** a null pointer that is read, or printed as a string *)
| ub_nonterm.               (** a loop that never leaves *)

Inductive res (A : Type) :=
| Ok (a : A)
| Ub (u : ub).
Arguments Ok {A} a.
Arguments Ub {A} u.

#[export] Instance res_ret : MRet res := λ A a, Ok a.
#[export] Instance res_bind : MBind res := λ A B f m,
  match m with Ok a => f a | Ub u => Ub u end.

#[export] Instance ub_eq_dec : EqDecision ub.
Proof. solve_decision. Defined.

Lemma res_bind_Ok {A B} (f : A → res B) (m : res A) b :
  m ≫= f = Ok b ↔ ∃ a, m = Ok a ∧ f a = Ok b.
Proof.
  destruct m as [a|u]; split; cbn.
  - eauto.
  - by intros (a' & [= ->] & ?).
  - done.
  - by intros (a' & [=] & ?).
Qed.

(** ** The C [switch] statement

    [switch k cases default] runs the body whose label is [k].  A C compiler
    refuses duplicate labels, so the order of the cases does not matter when
    [NoDup cases.*1]. *)

Fixpoint switch {A} (k : Z) (cases : list (Z * A)) (default : A) : A :=
  match cases with
  | [] => default
  | (k', a) :: cases' => if k =? k' then a else switch k cases' default
  end.

Lemma switch_Forall_key {A} (P : A → Prop) k cases d :
  Forall (λ c, c.1 = k → P c.2) cases → P d → P (switch k cases d).
Proof.
  induction 1 as [|[k' a] cases Ha _ IH]; intros Hd; cbn; [done|].
  destruct (Z.eqb_spec k k') as [->|_]; [by apply Ha|by apply IH].
Qed.

Lemma switch_Forall {A} (P : A → Prop) k cases d :
  Forall (λ c, P c.2) cases → P d → P (switch k cases d).
Proof.
  intros Hc. apply switch_Forall_key. eapply Forall_impl; [exact Hc|by intros ???].
Qed.

Lemma switch_app {A} k (l1 l2 : list (Z * A)) d :
  switch k (l1 ++ l2) d = switch k l1 (switch k l2 d).
Proof.
  induction l1 as [|[k' a] l1 IH]; cbn; [done|].
  by destruct (k =? k').
Qed.

Lemma switch_in {A} k a (cases : list (Z * A)) d :
  NoDup cases.*1 → (k, a) ∈ cases → switch k cases d = a.
Proof.
  induction cases as [|[k' a'] cases IH]; cbn; intros Hnd Hin.
  - by apply not_elem_of_nil in Hin.
  - apply NoDup_cons in Hnd as [Hk' Hnd].
    apply elem_of_cons in Hin as [[= -> ->]|Hin].
    + by rewrite Z.eqb_refl.
    + destruct (Z.eqb_spec k k') as [->|_]; [|by apply IH].
      exfalso. apply Hk', list_elem_of_fmap. by exists (k', a).
Qed.

Lemma switch_notin {A} k (cases : list (Z * A)) d :
  k ∉ cases.*1 → switch k cases d = d.
Proof.
  induction cases as [|[k' a'] cases IH]; cbn; intros Hin; [done|].
  apply not_elem_of_cons in Hin as [Hne Hin].
  destruct (Z.eqb_spec k k'); [done|by apply IH].
Qed.

(** ** Reflexive-transitive closure of a step relation, with its invariant rule *)

Section star.
Context {S : Type} (step : S → S → Prop).

Inductive star : S → S → Prop :=
| star_refl s : star s s
| star_step s1 s2 s3 : step s1 s2 → star s2 s3 → star s1 s3.

Lemma star_trans s1 s2 s3 : star s1 s2 → star s2 s3 → star s1 s3.
Proof. induction 1; eauto using star. Qed.

Lemma star_inv (I : S → Prop) s1 s2 :
  (∀ a b, I a → step a b → I b) → star s1 s2 → I s1 → I s2.
Proof. intros Hstep. induction 1; eauto. Qed.
End star.

(** ** Arithmetic automation: [zify_lia] lets [lia] see [/] and [mod]. *)
Ltac div_mod_lia := Z.div_mod_to_equations; nia.
Ltac zmod_lia := Z.div_mod_to_equations; lia.

(** Case analysis on every boolean comparison of a goal. *)
Ltac case_Zb :=
  repeat match goal with
  | |- context [?x =? ?y] => destruct (Z.eqb_spec x y)
  | |- context [?x <? ?y] => destruct (Z.ltb_spec x y)
  | |- context [?x <=? ?y] => destruct (Z.leb_spec x y)
  end.

(** Solves goals [Forall P l] over a concrete list. *)
Ltac forall_list := repeat (apply Forall_cons; split); try apply Forall_nil_2.

(** Membership of an element of a concrete list. *)
Ltac list_elem := repeat first [apply list_elem_of_here | apply list_elem_of_further].

Create HintDb psc discriminated.
Create Rewrite HintDb psc.
