(* ===== verification/Words.v ===== *)
(** * Machine words and bytes

    The integers of the firmware at their width ([u8], [u16], [u32], [s32]),
    memory bytes as [Z] in [0, 256), the little-endian layout of the ARM core
    and the byte-order functions [htons]/[htonl] of the network headers. *)

From S2P Require Import Prelude.

Definition u8 (z : Z) : Z := z mod 2 ^ 8.
Definition u16 (z : Z) : Z := z mod 2 ^ 16.
Definition u32 (z : Z) : Z := z mod 2 ^ 32.
Definition s32 (z : Z) : Z := (z + 2 ^ 31) mod 2 ^ 32 - 2 ^ 31.

Definition is_u8 (z : Z) : Prop := 0 ≤ z < 2 ^ 8.
Definition is_u16 (z : Z) : Prop := 0 ≤ z < 2 ^ 16.
Definition is_u32 (z : Z) : Prop := 0 ≤ z < 2 ^ 32.
Definition is_s32 (z : Z) : Prop := - 2 ^ 31 ≤ z < 2 ^ 31.

Lemma u8_range z : is_u8 (u8 z).
Proof. unfold is_u8, u8. zmod_lia. Qed.
Lemma u16_range z : is_u16 (u16 z).
Proof. unfold is_u16, u16. zmod_lia. Qed.
Lemma u32_range z : is_u32 (u32 z).
Proof. unfold is_u32, u32. zmod_lia. Qed.
Lemma s32_range z : is_s32 (s32 z).
Proof. unfold is_s32, s32. zmod_lia. Qed.

Lemma u8_id z : is_u8 z → u8 z = z.
Proof. unfold is_u8, u8. intros. rewrite Z.mod_small; lia. Qed.
Lemma u16_id z : is_u16 z → u16 z = z.
Proof. unfold is_u16, u16. intros. rewrite Z.mod_small; lia. Qed.
Lemma u32_id z : is_u32 z → u32 z = z.
Proof. unfold is_u32, u32. intros. rewrite Z.mod_small; lia. Qed.
Lemma s32_id z : is_s32 z → s32 z = z.
Proof. unfold is_s32, s32. intros. rewrite Z.mod_small; lia. Qed.

Lemma u32_s32 z : u32 (s32 z) = u32 z.
Proof. unfold u32, s32. Z.div_mod_to_equations. lia. Qed.
Lemma s32_u32 z : s32 (u32 z) = s32 z.
Proof. unfold u32, s32. Z.div_mod_to_equations. lia. Qed.
Lemma u32_u32 z : u32 (u32 z) = u32 z.
Proof. apply u32_id, u32_range. Qed.

#[export] Hint Resolve u8_range u16_range u32_range s32_range : psc.
#[export] Hint Rewrite u32_s32 s32_u32 u32_u32 : psc.

(** ** Little-endian layout *)

Fixpoint le_bytes (n : nat) (z : Z) : list Z :=
  match n with
  | O => []
  | S n => z mod 2 ^ 8 :: le_bytes n (z / 2 ^ 8)
  end.

Fixpoint le_word (bs : list Z) : Z :=
  match bs with
  | [] => 0
  | b :: bs => b + 2 ^ 8 * le_word bs
  end.

Lemma length_le_bytes n z : length (le_bytes n z) = n.
Proof. revert z. induction n; intros; cbn; auto. Qed.

Lemma le_bytes_u8 n z : Forall is_u8 (le_bytes n z).
Proof. revert z. induction n; intros; cbn; constructor; auto. apply u8_range. Qed.

Lemma le_word_bytes n z : le_word (le_bytes n z) = z mod 2 ^ (8 * Z.of_nat n).
Proof.
  revert z. induction n as [|n IH]; intros z; cbn [le_bytes le_word].
  - by rewrite Z.mod_1_r.
  - rewrite IH. replace (8 * Z.of_nat (S n)) with (8 + 8 * Z.of_nat n) by lia.
    rewrite Z.pow_add_r by lia. rewrite Z.rem_mul_r by lia. lia.
Qed.

Lemma le_bytes_word bs : Forall is_u8 bs → le_bytes (length bs) (le_word bs) = bs.
Proof.
  induction 1 as [|b bs Hb Hbs IH]; cbn [length le_bytes le_word]; [done|].
  unfold is_u8 in Hb. rewrite (Z.mul_comm (2 ^ 8)), Z.mod_add by lia.
  rewrite Z.mod_small by lia. f_equal.
  rewrite Z.div_add, Z.div_small by lia. by rewrite Z.add_0_l.
Qed.

Lemma le_word_range bs : Forall is_u8 bs → 0 ≤ le_word bs < 2 ^ (8 * Z.of_nat (length bs)).
Proof.
  intros H. rewrite <- (le_bytes_word _ H) at 1 2.
  rewrite le_word_bytes. apply Z.mod_pos_bound. lia.
Qed.

Lemma le_word_bytes_4 z : is_u32 z → le_word (le_bytes 4 z) = z.
Proof. intros. rewrite le_word_bytes. by apply u32_id. Qed.
Lemma le_word_bytes_2 z : is_u16 z → le_word (le_bytes 2 z) = z.
Proof. intros. rewrite le_word_bytes. by apply u16_id. Qed.

Lemma le_bytes_mod n z : le_bytes n (z mod 2 ^ (8 * Z.of_nat n)) = le_bytes n z.
Proof.
  rewrite <- le_word_bytes.
  replace n with (length (le_bytes n z)) at 1 by apply length_le_bytes.
  apply le_bytes_word, le_bytes_u8.
Qed.

(** ** Byte order

    [htons] and [htonl] on the little-endian core reverse the bytes of a word;
    [ntohs] and [ntohl] are the same functions. *)

Definition htons (x : Z) : Z := le_word (rev (le_bytes 2 x)).
Definition htonl (x : Z) : Z := le_word (rev (le_bytes 4 x)).
Abbreviation ntohs := htons.
Abbreviation ntohl := htonl.

Lemma rev_le_bytes_u8 n x : Forall is_u8 (rev (le_bytes n x)).
Proof. apply Forall_rev, le_bytes_u8. Qed.

Lemma le_bytes_htonl x : le_bytes 4 (htonl x) = rev (le_bytes 4 x).
Proof. exact (le_bytes_word _ (rev_le_bytes_u8 4 x)). Qed.
Lemma le_bytes_htons x : le_bytes 2 (htons x) = rev (le_bytes 2 x).
Proof. exact (le_bytes_word _ (rev_le_bytes_u8 2 x)). Qed.

Lemma htonl_range x : is_u32 (htonl x).
Proof. exact (le_word_range _ (rev_le_bytes_u8 4 x)). Qed.
Lemma htons_range x : is_u16 (htons x).
Proof. exact (le_word_range _ (rev_le_bytes_u8 2 x)). Qed.

Lemma htonl_htonl x : htonl (htonl x) = u32 x.
Proof. unfold htonl at 1. rewrite le_bytes_htonl, rev_involutive. apply le_word_bytes. Qed.
Lemma htons_htons x : htons (htons x) = u16 x.
Proof. unfold htons at 1. rewrite le_bytes_htons, rev_involutive. apply le_word_bytes. Qed.

#[export] Hint Resolve htonl_range htons_range : psc.
#[export] Hint Rewrite htonl_htonl htons_htons le_bytes_htonl le_bytes_htons : psc.

(** ** Words in a byte buffer

    [load32 buf i] is the C expression [((u32 * )buf)[i]]; outside of the
    buffer it is undefined.  [words_of_bytes] and [bytes_of_words] change the
    view of a buffer between [char *] and [u32 *]. *)

Definition bytes_of_words (ws : list Z) : list Z := ws ≫= le_bytes 4.

Definition load32 (buf : list Z) (i : Z) : res Z :=
  if (0 <=? i) && (4 * i + 4 <=? Z.of_nat (length buf))
  then Ok (le_word (take 4 (drop (Z.to_nat (4 * i)) buf)))
  else Ub (ub_index i (Z.of_nat (length buf) / 4)).

(** [((u32 * )buf)[i] = v] *)
Definition store32 (buf : list Z) (i v : Z) : res (list Z) :=
  if (0 <=? i) && (4 * i + 4 <=? Z.of_nat (length buf))
  then Ok (take (Z.to_nat (4 * i)) buf ++ le_bytes 4 v ++ drop (Z.to_nat (4 * i + 4)) buf)
  else Ub (ub_index i (Z.of_nat (length buf) / 4)).

Lemma length_bytes_of_words ws : length (bytes_of_words ws) = (4 * length ws)%nat.
Proof.
  unfold bytes_of_words. induction ws as [|w ws IH]; [done|].
  rewrite bind_cons, length_app, length_le_bytes, IH. cbn. lia.
Qed.

Lemma bytes_of_words_cons w ws : bytes_of_words (w :: ws) = le_bytes 4 w ++ bytes_of_words ws.
Proof. done. Qed.

Lemma bytes_of_words_app ws1 ws2 :
  bytes_of_words (ws1 ++ ws2) = bytes_of_words ws1 ++ bytes_of_words ws2.
Proof. apply bind_app. Qed.

Lemma bytes_of_words_u8 ws : Forall is_u8 (bytes_of_words ws).
Proof.
  induction ws as [|w ws IH]; [constructor|].
  rewrite bytes_of_words_cons. apply Forall_app. split; [apply le_bytes_u8|done].
Qed.

Lemma drop_bytes_of_words k ws : drop (4 * k) (bytes_of_words ws) = bytes_of_words (drop k ws).
Proof.
  revert ws. induction k as [|k IH]; intros ws.
  - by rewrite Nat.mul_0_r, !drop_0.
  - destruct ws as [|w ws]; [by rewrite !drop_nil|].
    rewrite bytes_of_words_cons. cbn [drop].
    replace (4 * S k)%nat with (length (le_bytes 4 w) + 4 * k)%nat
      by (rewrite length_le_bytes; lia).
    rewrite drop_app_add. apply IH.
Qed.

Lemma load32_words ws tl (i : nat) w :
  ws !! i = Some w → is_u32 w → load32 (bytes_of_words ws ++ tl) (Z.of_nat i) = Ok w.
Proof.
  intros Hi Hw. pose proof (lookup_lt_Some _ _ _ Hi) as Hlt. unfold load32.
  rewrite length_app, length_bytes_of_words.
  rewrite (proj2 (Z.leb_le 0 _)), (proj2 (Z.leb_le _ _)) by lia. cbn [andb].
  replace (Z.to_nat (4 * Z.of_nat i)) with (4 * i)%nat by lia.
  rewrite drop_app_le by (rewrite length_bytes_of_words; lia).
  rewrite drop_bytes_of_words, (drop_S _ _ _ Hi), bytes_of_words_cons, <- app_assoc.
  rewrite take_app_length' by (by rewrite length_le_bytes).
  by rewrite le_word_bytes_4.
Qed.

Lemma load32_Ok buf i w : load32 buf i = Ok w → 0 ≤ i ∧ 4 * i + 4 ≤ Z.of_nat (length buf).
Proof. unfold load32. case_Zb; cbn; intros [=]; lia. Qed.

Lemma load32_in buf i :
  0 ≤ i → 4 * i + 4 ≤ Z.of_nat (length buf) → ∃ w, load32 buf i = Ok w.
Proof. intros. unfold load32. case_Zb; cbn; [eauto|lia..]. Qed.

Lemma load32_range buf i w : Forall is_u8 buf → load32 buf i = Ok w → is_u32 w.
Proof.
  intros Hb. unfold load32. case_Zb; cbn; intros [= <-].
  assert (length (take 4 (drop (Z.to_nat (4 * i)) buf)) = 4%nat) as Hlen.
  { rewrite length_take, length_drop. lia. }
  assert (Forall is_u8 (take 4 (drop (Z.to_nat (4 * i)) buf))) as Hf
    by (by apply Forall_take, Forall_drop).
  pose proof (le_word_range _ Hf) as Hr. rewrite Hlen in Hr. exact Hr.
Qed.

#[export] Hint Resolve le_bytes_u8 bytes_of_words_u8 : psc.
