(* ===== verification/Floats.v ===== *)
(** * IEEE-754 arithmetic of the firmware

    [float] (binary32) objects are kept as their 32-bit pattern, because the
    firmware moves them through the union [MsgUnion], through flash pages and
    through message buffers.  Expressions are evaluated on [spec_float], the
    executable IEEE-754 model of the standard library, with one rounding per C
    operation ([float] operands: precision 24; a [double] operand: precision 53).

    Two results are not fixed by the language and are parameters ([FpEnv]): the
    pattern of a NaN produced by an operation, and the integer a floating value
    converts to when it is out of the range of the integer type. *)

From Stdlib Require Import SpecFloat.
From S2P Require Import Prelude Words.

Class FpEnv := {
  fp_nan32 : Z;                       (* pattern of a computed NaN *)
  fp_nan32_u32 : is_u32 fp_nan32;
  fp_s32_invalid : spec_float → Z;    (* (s32)x, x outside the range of s32 *)
  fp_u32_invalid : spec_float → Z;    (* (u32)x, x outside the range of u32 *)
}.

(** ** binary32 patterns *)

Definition float_of_bits (u : Z) : spec_float :=
  let s := Z.testbit u 31 in
  let e := (u / 2 ^ 23) mod 2 ^ 8 in
  let m := u mod 2 ^ 23 in
  if e =? 255 then (if m =? 0 then S754_infinity s else S754_nan)
  else if e =? 0 then
    match m with Zpos p => S754_finite s p (-149) | _ => S754_zero s end
  else
    match m + 2 ^ 23 with Zpos p => S754_finite s p (e - 150) | _ => S754_nan end.

Definition sign_bit (s : bool) : Z := if s then 2 ^ 31 else 0.

Definition bits_of_float `{FpEnv} (x : spec_float) : Z :=
  match x with
  | S754_zero s => sign_bit s
  | S754_infinity s => sign_bit s + 255 * 2 ^ 23
  | S754_nan => fp_nan32
  | S754_finite s m e =>
      if Zpos m <? 2 ^ 23 then sign_bit s + Zpos m
      else sign_bit s + (e + 150) * 2 ^ 23 + (Zpos m - 2 ^ 23)
  end.

(** ** Operations: [f] for [float], [d] for [double] *)

Definition fmul : spec_float → spec_float → spec_float := SFmul 24 128.
Definition fdiv : spec_float → spec_float → spec_float := SFdiv 24 128.
Definition dmul : spec_float → spec_float → spec_float := SFmul 53 1024.
Definition ddiv : spec_float → spec_float → spec_float := SFdiv 53 1024.

(** conversion to a precision: exact from [float] to [double], one rounding from
    [double] to [float] *)
Definition sf_round (prec emax : Z) (x : spec_float) : spec_float :=
  match x with
  | S754_finite s m e => binary_round prec emax s m e
  | _ => x
  end.
Definition d_of_f : spec_float → spec_float := sf_round 53 1024.
Definition f_of_d : spec_float → spec_float := sf_round 24 128.

(** integer to floating *)
Definition f_of_int (z : Z) : spec_float := binary_normalize 24 128 z 0 false.
Definition d_of_int (z : Z) : spec_float := binary_normalize 53 1024 z 0 false.

(** a decimal literal [n / d]: both are exact in binary64, so that the division
    rounds the quotient once, as the literal's conversion does *)
Definition dlit (n d : Z) : spec_float := ddiv (d_of_int n) (d_of_int d).

(** truncation towards zero; [None] for infinities and NaN *)
Definition sf_trunc (x : spec_float) : option Z :=
  match x with
  | S754_zero _ => Some 0
  | S754_finite s m e =>
      let a := if 0 <=? e then Zpos m * 2 ^ e else Zpos m / 2 ^ (- e) in
      Some (if s then - a else a)
  | _ => None
  end.

Definition s32_of_float `{FpEnv} (x : spec_float) : Z :=
  match sf_trunc x with
  | Some z => if (- 2 ^ 31 <=? z) && (z <? 2 ^ 31) then z else s32 (fp_s32_invalid x)
  | None => s32 (fp_s32_invalid x)
  end.

Definition u32_of_float `{FpEnv} (x : spec_float) : Z :=
  match sf_trunc x with
  | Some z => if (0 <=? z) && (z <? 2 ^ 32) then z else u32 (fp_u32_invalid x)
  | None => u32 (fp_u32_invalid x)
  end.

(** comparisons; false when an operand is NaN *)
Definition sf_gt (x y : spec_float) : bool := SFltb y x.
Definition sf_lt (x y : spec_float) : bool := SFltb x y.

(** ** The converted integers are in range *)

Lemma s32_of_float_range `{FpEnv} x : is_s32 (s32_of_float x).
Proof.
  unfold s32_of_float. destruct (sf_trunc x); [|apply s32_range].
  case_Zb; cbn; [unfold is_s32; lia|apply s32_range..].
Qed.

Lemma u32_of_float_range `{FpEnv} x : is_u32 (u32_of_float x).
Proof.
  unfold u32_of_float. destruct (sf_trunc x); [|apply u32_range].
  case_Zb; cbn; [unfold is_u32; lia|apply u32_range..].
Qed.

#[export] Hint Resolve s32_of_float_range u32_of_float_range : psc.

(** ** Patterns and values determine each other (NaN payloads apart) *)

Lemma testbit_31 u : is_u32 u → Z.testbit u 31 = (2 ^ 31 <=? u).
Proof.
  unfold is_u32. intros Hu. rewrite Z.testbit_eqb by lia.
  case_Zb; zmod_lia.
Qed.

Lemma pattern_fields s e m :
  0 ≤ e < 2 ^ 8 → 0 ≤ m < 2 ^ 23 →
  let u := sign_bit s + e * 2 ^ 23 + m in
  is_u32 u ∧ Z.testbit u 31 = s ∧ (u / 2 ^ 23) mod 2 ^ 8 = e ∧ u mod 2 ^ 23 = m.
Proof.
  intros He Hm u. subst u.
  assert (is_u32 (sign_bit s + e * 2 ^ 23 + m)) as Hu.
  { unfold is_u32, sign_bit. destruct s; lia. }
  split; [done|]. rewrite testbit_31 by done.
  unfold sign_bit. destruct s; split_and!; case_Zb; zmod_lia.
Qed.

Lemma bits_of_float_of_bits `{FpEnv} u :
  is_u32 u → float_of_bits u ≠ S754_nan → bits_of_float (float_of_bits u) = u.
Proof.
  intros Hu. pose proof (testbit_31 u Hu) as Hs. unfold is_u32 in Hu.
  assert (u = sign_bit (Z.testbit u 31) + ((u / 2 ^ 23) mod 2 ^ 8) * 2 ^ 23 + u mod 2 ^ 23)
    as Hdec.
  { rewrite Hs. unfold sign_bit. case_Zb; zmod_lia. }
  unfold float_of_bits. set (s := Z.testbit u 31) in *.
  set (e := (u / 2 ^ 23) mod 2 ^ 8) in *. set (m := u mod 2 ^ 23) in *.
  assert (0 ≤ e < 2 ^ 8) by (subst e; zmod_lia).
  assert (0 ≤ m < 2 ^ 23) by (subst m; zmod_lia).
  clearbody s e m. intros Hnan.
  destruct (Z.eqb_spec e 255) as [->|].
  { destruct (Z.eqb_spec m 0) as [->|]; [|done]. cbn -[Z.pow]. lia. }
  destruct (Z.eqb_spec e 0) as [->|].
  { destruct m as [|p|p]; cbn -[Z.pow]; [lia| |lia].
    destruct (Z.ltb_spec (Zpos p) (2 ^ 23)); lia. }
  destruct (m + 2 ^ 23) as [|p|p] eqn:Hp; [lia| |lia]. cbn -[Z.pow].
  destruct (Z.ltb_spec (Zpos p) (2 ^ 23)); lia.
Qed.

(** ** Small integers convert exactly

    [(u32)(float)z = z] for [0 <= z <= 2^24]: the conversion of an integer that
    fits the significand does not round. *)

Lemma digits2_pos_iter m k :
  digits2_pos (Pos.iter xO m k) = (digits2_pos m + k)%positive.
Proof.
  induction k as [|k IH] using Pos.peano_ind; cbn; [by rewrite Pos.add_1_r|].
  rewrite Pos.iter_succ. cbn. by rewrite IH, Pos.add_succ_r.
Qed.

Lemma Pos_iter_xO m k : Zpos (Pos.iter xO m k) = Zpos m * 2 ^ Zpos k.
Proof.
  induction k as [|k IH] using Pos.peano_ind; [cbn; lia|].
  rewrite Pos.iter_succ, Pos2Z.inj_xO, IH, Pos2Z.inj_succ, Z.pow_succ_r by lia. ring.
Qed.

Lemma digits2_pos_bound m : 2 ^ (Zpos (digits2_pos m) - 1) ≤ Zpos m < 2 ^ Zpos (digits2_pos m).
Proof.
  induction m as [m IH|m IH|]; cbn [digits2_pos]; [| |cbn; lia];
    rewrite Pos2Z.inj_succ, Z.pow_succ_r by lia;
    replace (Z.succ (Z.pos (digits2_pos m)) - 1) with (Z.succ (Z.pos (digits2_pos m) - 1)) by lia;
    rewrite Z.pow_succ_r by lia; lia.
Qed.

(** An aligned significand of full width is a fixpoint of the rounding. *)
Lemma binary_round_aux_exact prec emax s mz ez :
  fexp prec emax (Zpos (digits2_pos mz) + ez) = ez → ez ≤ emax - prec →
  binary_round_aux prec emax s (Zpos mz) ez loc_Exact = S754_finite s mz ez.
Proof.
  intros Hf He. unfold binary_round_aux, shr_fexp. cbn [Zdigits2].
  rewrite Hf, Z.sub_diag. cbn. rewrite Hf, Z.sub_diag. cbn.
  by rewrite (proj2 (Z.leb_le _ _)).
Qed.

Lemma f_of_int_pos m :
  Zpos m < 2 ^ 24 →
  f_of_int (Zpos m) =
  match 24 - Zpos (digits2_pos m) with
  | Zpos k => S754_finite false (Pos.iter xO m k) (Zpos (digits2_pos m) - 24)
  | _ => S754_finite false m 0
  end.
Proof.
  intros Hm. pose proof (digits2_pos_bound m) as [Hlo _].
  assert (Zpos (digits2_pos m) ≤ 24) as Hd.
  { destruct (Z.le_gt_cases (Zpos (digits2_pos m)) 24) as [|Hgt]; [done|].
    assert (2 ^ 24 ≤ 2 ^ (Zpos (digits2_pos m) - 1)) by (apply Z.pow_le_mono_r; lia). lia. }
  unfold f_of_int, binary_normalize, binary_round.
  set (d := Zpos (digits2_pos m)) in *.
  assert (fexp 24 128 (d + 0) = d - 24) as -> by (unfold fexp, emin; lia).
  unfold shl_align. destruct (d - 24 - 0) as [|p|p] eqn:E; [|lia|].
  - replace (24 - d) with 0 by lia. apply binary_round_aux_exact; [|lia].
    unfold fexp, emin. lia.
  - replace (24 - d) with (Zpos p) by lia. apply binary_round_aux_exact; [|lia].
    rewrite digits2_pos_iter, Pos2Z.inj_add. unfold fexp, emin. lia.
Qed.

Lemma f_of_int_trunc z : 0 ≤ z < 2 ^ 24 → sf_trunc (f_of_int z) = Some z.
Proof.
  intros Hz. destruct z as [|m|m]; [done| |lia].
  rewrite f_of_int_pos by lia.
  destruct (24 - Zpos (digits2_pos m)) as [|k|k] eqn:E.
  - cbn. f_equal. lia.
  - cbn [sf_trunc]. rewrite (proj2 (Z.leb_gt _ _)) by lia.
    rewrite Pos_iter_xO. replace (- _) with (Zpos k) by lia.
    by rewrite Z.div_mul by lia.
  - cbn. f_equal. lia.
Qed.

Lemma u32_of_f_of_int `{FpEnv} z : 0 ≤ z < 2 ^ 24 → u32_of_float (f_of_int z) = z.
Proof.
  intros Hz. unfold u32_of_float. rewrite f_of_int_trunc by done.
  case_Zb; cbn; lia.
Qed.

(** ** Products that fit the significand are exact

    A significand with trailing zeros loses only zeros when it is rounded, so that
    the product of a [float] and a small integer constant is exact in binary64 and
    its conversion to an integer truncates the mathematical product. *)

(** [floor (m * 2^e)] *)
Definition dyadic (m e : Z) : Z := if 0 <=? e then m * 2 ^ e else m / 2 ^ (- e).

Lemma dyadic_shift m e j : 0 ≤ j → dyadic (m * 2 ^ j) (e - j) = dyadic m e.
Proof.
  intros Hj. unfold dyadic. case_Zb.
  - rewrite <- Z.mul_assoc, <- Z.pow_add_r by lia. do 2 f_equal. lia.
  - lia.
  - replace (- (e - j)) with (j - e) by lia.
    replace (m * 2 ^ j) with (m * 2 ^ e * 2 ^ (j - e)); [by rewrite Z.div_mul by lia|].
    rewrite <- Z.mul_assoc, <- Z.pow_add_r by lia. do 2 f_equal. lia.
  - replace (- (e - j)) with (- e + j) by lia. rewrite Z.pow_add_r by lia.
    by rewrite Z.div_mul_cancel_r by lia.
Qed.

Lemma iter_pos_iter {A} (f : A → A) n x : SpecFloat.iter_pos f n x = Pos.iter f x n.
Proof.
  revert x. induction n as [n IH|n IH|]; intros x; cbn; rewrite ?IH; [|done..].
  by rewrite !Pos.iter_swap.
Qed.

Lemma shr_exact m k :
  0 < m → SpecFloat.iter_pos shr_1 k (Build_shr_record (m * 2 ^ Zpos k) false false) =
          Build_shr_record m false false.
Proof.
  intros Hm. destruct m as [|p|p]; [lia| |lia]. rewrite iter_pos_iter. clear Hm.
  induction k as [|k IH] using Pos.peano_ind.
  - rewrite Z.mul_comm. done.
  - rewrite Pos.iter_succ_r, <- IH. f_equal. rewrite Pos2Z.inj_succ, Z.pow_succ_r by lia.
    replace (Zpos p * (2 * 2 ^ Zpos k)) with (2 * (Zpos p * 2 ^ Zpos k)) by ring.
    destruct (Zpos p * 2 ^ Zpos k) eqn:E; [lia|done|lia].
Qed.

Lemma digits2_pos_mul m k q :
  Zpos q = Zpos m * 2 ^ k → 0 ≤ k → Zpos (digits2_pos q) = Zpos (digits2_pos m) + k.
Proof.
  intros Hq Hk. destruct k as [|k|k]; [|  |lia].
  - replace q with m by lia. lia.
  - rewrite <- Pos_iter_xO in Hq. injection Hq as ->. by rewrite digits2_pos_iter.
Qed.

(** Rounding a significand [p * 2^n] where [p] has at most [prec] digits. *)
Lemma binary_round_aux_fits prec emax s p q n e :
  0 ≤ n → Zpos q = Zpos p * 2 ^ n → Zpos (digits2_pos p) ≤ prec → emin prec emax ≤ e →
  e - n ≤ emax - prec → Zpos (digits2_pos p) + e ≤ emax → 2 ≤ emax →
  ∃ m' j, 0 ≤ j ∧ Zpos m' = Zpos p * 2 ^ j ∧
    binary_round_aux prec emax s (Zpos q) (e - n) loc_Exact = S754_finite s m' (e - j).
Proof.
  intros Hn Hq Hd He Hmax Hmax2 Hmax3. pose proof (digits2_pos_mul _ _ _ Hq Hn) as Hdq.
  set (d := Zpos (digits2_pos p)) in *.
  set (E := fexp prec emax (d + e)).
  assert (E ≤ e) as HE by (unfold E, fexp; lia).
  assert (∀ x dx, dx + x = d + e → fexp prec emax (dx + x) = E) as Hf by (by intros x dx ->).
  unfold binary_round_aux, shr_fexp. cbn [Zdigits2 shr_record_of_loc].
  rewrite Hdq, (Hf (e - n)) by lia. unfold shr at 1.
  destruct (E - (e - n)) as [|k|k] eqn:Hk.
  - cbn. rewrite Hdq, (Hf (e - n)) by lia. rewrite Hk. cbn.
    rewrite (proj2 (Z.leb_le _ _)) by lia. eauto.
  - assert (Zpos q = Zpos p * 2 ^ (n - Zpos k) * 2 ^ Zpos k) as Hq'.
    { rewrite Hq, <- Z.mul_assoc, <- Z.pow_add_r by lia. do 2 f_equal. lia. }
    rewrite Hq', shr_exact by lia. cbn [loc_of_shr_record shr_m round_nearest_even].
    destruct (Zpos p * 2 ^ (n - Zpos k)) as [|m'|m'] eqn:Hm'; [lia| |lia].
    rewrite (Hf (e - n + Zpos k)).
    2:{ cbn [Zdigits2]. symmetry in Hm'. rewrite (digits2_pos_mul p (n - Zpos k) m') by lia. lia. }
    replace (E - _) with 0 by lia. cbn.
    rewrite (proj2 (Z.leb_le _ _)) by (assert (E ≤ emax - prec) by (unfold E, fexp, emin; lia); lia).
    exists m', (n - Zpos k). split; [lia|]. split; [lia|]. f_equal. lia.
  - cbn. rewrite Hdq, (Hf (e - n)) by lia. rewrite Hk. cbn.
    rewrite (proj2 (Z.leb_le _ _)) by lia. eauto.
Qed.

Lemma binary_round_fits prec emax s p e :
  Zpos (digits2_pos p) ≤ prec → emin prec emax ≤ e → e ≤ emax - prec → 2 ≤ emax →
  ∃ m' j, 0 ≤ j ∧ Zpos m' = Zpos p * 2 ^ j ∧
    binary_round prec emax s p e = S754_finite s m' (e - j).
Proof.
  intros Hd He Hmax Hmax2. unfold binary_round, shl_align.
  destruct (fexp prec emax (Zpos (digits2_pos p) + e) - e) as [|k|k] eqn:Hk.
  - destruct (binary_round_aux_fits prec emax s p p 0 e) as (m' & j & Hr);
      [lia..|]. rewrite Z.sub_0_r in Hr. eauto.
  - unfold fexp in Hk. lia.
  - destruct (binary_round_aux_fits prec emax s p (Pos.iter xO p k) (Zpos k) e)
      as (m' & j & Hr); [lia|apply Pos_iter_xO|lia..|].
    replace (fexp prec emax (Zpos (digits2_pos p) + e)) with (e - Zpos k) by lia. eauto.
Qed.

Lemma digits2_pos_le p n : 0 ≤ n → Zpos p < 2 ^ n → Zpos (digits2_pos p) ≤ n.
Proof.
  intros Hn Hp. pose proof (digits2_pos_bound p) as [Hlo _].
  destruct (Z.le_gt_cases (Zpos (digits2_pos p)) n) as [|Hgt]; [done|].
  assert (2 ^ n ≤ 2 ^ (Zpos (digits2_pos p) - 1)) by (apply Z.pow_le_mono_r; lia). lia.
Qed.

(** The finite patterns. *)
Lemma float_of_bits_finite u s m e :
  float_of_bits u = S754_finite s m e → Zpos m < 2 ^ 24 ∧ -149 ≤ e ≤ 104.
Proof.
  unfold float_of_bits. set (x := (u / 2 ^ 23) mod 2 ^ 8). set (y := u mod 2 ^ 23).
  assert (0 ≤ x < 2 ^ 8) as Hx by (subst x; zmod_lia).
  assert (0 ≤ y < 2 ^ 23) as Hy by (subst y; zmod_lia). clearbody x y.
  case_Zb; [done|done|..].
  - destruct y; intros [= <- <- <-]; lia.
  - destruct (y + 2 ^ 23) eqn:E; intros [= <- <- <-]; lia.
Qed.

Definition signed (s : bool) (a : Z) : Z := if s then - a else a.

(** A [float] times an integer constant of at most 20 bits, in binary64. *)
Lemma dmul_exact s m e c b k :
  Zpos m < 2 ^ 24 → -149 ≤ e ≤ 104 → Zpos k < 2 ^ 20 → 0 ≤ b ≤ 100 → Zpos c = Zpos k * 2 ^ b →
  sf_trunc (dmul (d_of_f (S754_finite s m e)) (S754_finite false c (- b))) =
  Some (signed s (dyadic (Zpos m * Zpos k) e)).
Proof.
  intros Hm He Hk Hb Hc. pose proof (digits2_pos_le m 24 ltac:(lia) Hm) as Hdm.
  destruct (binary_round_fits 53 1024 s m e) as (m1 & j & Hj & Hm1 & E1);
    [lia|unfold emin; lia|lia|lia|].
  cbn [d_of_f sf_round]. unfold d_of_f, sf_round. rewrite E1. cbn [dmul SFmul].
  unfold dmul, SFmul. rewrite xorb_false_r.
  assert (Zpos (m * k) < 2 ^ 44) as Hmk by nia. apply digits2_pos_le in Hmk; [|lia].
  destruct (binary_round_aux_fits 53 1024 s (m * k) (m1 * c) (j + b) e)
    as (m' & j' & Hj' & Hm' & E'); [lia| |lia|unfold emin; lia|lia|lia|lia|].
  - rewrite Pos2Z.inj_mul, Hm1, Hc, Pos2Z.inj_mul, Z.pow_add_r by lia. ring.
  - replace (e - j + - b) with (e - (j + b)) by lia. rewrite E'. cbn [sf_trunc].
    change (Some (signed s (dyadic (Zpos m') (e - j'))) = Some (signed s (dyadic (Zpos m * Zpos k) e))).
    by rewrite Hm', dyadic_shift, Pos2Z.inj_mul by lia.
Qed.
