(* ===== verification/FloatError.v ===== *)
(** * Rounding errors of the firmware's arithmetic

    Products and quotients of [float]s are rounded to nearest: in the normal range
    the relative error is at most 2^-24.  The errors are stated over the reals; the
    operations are those of [Floats], evaluated on [spec_float]. *)

From Stdlib Require Import SpecFloat Reals Lra.
From S2P Require Import Prelude Words Floats.

(** Powers of two *)
Definition bp (e : Z) : R := powerRZ 2 e.

Lemma bp_pos e : (0 < bp e)%R.
Proof. apply powerRZ_lt. lra. Qed.
Lemma bp_add a b : bp (a + b) = (bp a * bp b)%R.
Proof. apply powerRZ_add. lra. Qed.
Lemma bp_sub a b : bp (a - b) = (bp a / bp b)%R.
Proof.
  pose proof (bp_pos b). replace a with (a - b + b) at 2 by lia. rewrite bp_add. field. lra.
Qed.
Lemma bp_IZR n : 0 ≤ n → bp n = IZR (2 ^ n).
Proof.
  intros Hn. rewrite <- (Z2Nat.id n) by done. unfold bp. rewrite <- pow_powerRZ, pow_IZR. by f_equal.
Qed.
Lemma bp_mono a b : a ≤ b → (bp a <= bp b)%R.
Proof.
  intros Hab. replace b with (a + (b - a)) by lia. rewrite bp_add. pose proof (bp_pos a).
  rewrite (bp_IZR (b - a)) by lia.
  assert (1 ≤ 2 ^ (b - a)) as H1 by (pose proof (Z.pow_pos_nonneg 2 (b - a)); lia).
  apply IZR_le in H1. nra.
Qed.
Lemma bp_m1 : bp (-1) = (/ 2)%R.
Proof. unfold bp, powerRZ. by rewrite Pos2Nat.inj_1, pow_1. Qed.
Lemma bp_lt_inv a b : (bp a < bp b)%R → a < b.
Proof.
  intros Hab. apply Z.lt_nge. intros Hle%bp_mono. lra.
Qed.

(** ** Shifting a significand out

    [holds X mrs]: the record describes the non-negative number [X] by its integer
    part, whether the rest is a half or more, and whether something else is left. *)

Definition holds (X : R) (mrs : shr_record) : Prop :=
  let m := IZR (shr_m mrs) in
  match shr_r mrs, shr_s mrs with
  | false, false => X = m
  | false, true => m < X < m + / 2
  | true, false => X = m + / 2
  | true, true => m + / 2 < X < m + 1
  end%R.

Lemma holds_shr_1 X mrs : 0 ≤ shr_m mrs → holds X mrs → holds (X / 2) (shr_1 mrs).
Proof.
  unfold holds. destruct mrs as [m r s]. cbn [shr_m shr_r shr_s]. intros Hm HX.
  destruct m as [|p|p]; [|destruct p as [p|p|]|lia]; cbn [shr_1 shr_m shr_r shr_s].
  - destruct r, s; cbn [orb] in *; lra.
  - rewrite Pos2Z.inj_xI, plus_IZR, mult_IZR in HX. revert HX. generalize (IZR (Zpos p)) as k.
    intros k. destruct r, s; cbn [orb] in *; lra.
  - rewrite Pos2Z.inj_xO, mult_IZR in HX. revert HX. generalize (IZR (Zpos p)) as k.
    intros k. destruct r, s; cbn [orb] in *; lra.
  - destruct r, s; cbn [orb] in *; lra.
Qed.

Lemma shr_1_nonneg mrs : 0 ≤ shr_m mrs → 0 ≤ shr_m (shr_1 mrs).
Proof. destruct mrs as [[|[p|p|]|p] r s]; cbn; lia. Qed.

Lemma holds_shr n mrs X :
  0 ≤ shr_m mrs → holds X mrs →
  0 ≤ shr_m (SpecFloat.iter_pos shr_1 n mrs) ∧
  holds (X / bp (Zpos n)) (SpecFloat.iter_pos shr_1 n mrs).
Proof.
  rewrite iter_pos_iter. intros Hm HX. induction n as [|n [IHm IH]] using Pos.peano_ind.
  - split; [by apply shr_1_nonneg|]. change (bp 1) with (2 * 1)%R. rewrite Rmult_1_r. by apply holds_shr_1.
  - rewrite Pos.iter_succ. split; [by apply shr_1_nonneg|].
    replace (X / bp (Zpos (Pos.succ n)))%R with (X / bp (Zpos n) / 2)%R; [by apply holds_shr_1|].
    rewrite Pos2Z.inj_succ, <- Z.add_1_r, bp_add. change (bp 1) with (2 * 1)%R.
    pose proof (bp_pos (Zpos n)). field. lra.
Qed.

Lemma holds_bounds X mrs : holds X mrs → (IZR (shr_m mrs) <= X < IZR (shr_m mrs) + 1)%R.
Proof. unfold holds. destruct (shr_r mrs), (shr_s mrs); lra. Qed.

(** Rounding to nearest. *)
Definition rounded (mrs : shr_record) : Z := round_nearest_even (shr_m mrs) (loc_of_shr_record mrs).

Lemma rounded_near X mrs :
  holds X mrs → (Rabs (IZR (rounded mrs) - X) <= / 2)%R ∧ shr_m mrs ≤ rounded mrs ≤ shr_m mrs + 1.
Proof.
  unfold holds, rounded. destruct mrs as [m [] []];
    cbn [shr_m shr_r shr_s loc_of_shr_record round_nearest_even];
    intros HX; rewrite ?plus_IZR.
  - split; [|lia]. apply Rabs_le. lra.
  - destruct (Z.even m); rewrite ?plus_IZR; (split; [|lia]); apply Rabs_le; lra.
  - split; [|lia]. apply Rabs_le. lra.
  - split; [|lia]. apply Rabs_le. lra.
Qed.

(** ** Rounding a significand *)

(** After rounding the significand has at most one digit too many. *)
Lemma renormalise prec emax R E :
  1 < prec → 0 < R ≤ 2 ^ prec → emin prec emax ≤ E →
  ∃ m e, shr_fexp prec emax R E loc_Exact = (Build_shr_record (Zpos m) false false, e) ∧
    (IZR (Zpos m) * bp e = IZR R * bp E)%R ∧ e ≤ E + 1.
Proof.
  intros Hp HR HE. destruct R as [|p|p]; [lia| |lia]. unfold shr_fexp. cbn [Zdigits2 shr_record_of_loc].
  destruct (Z.eq_dec (Zpos p) (2 ^ prec)) as [Heq|Hne].
  - pose proof (digits2_pos_bound p) as [Hlo Hhi]. rewrite Heq in Hlo, Hhi.
    apply Z.pow_le_mono_r_iff in Hlo; [|lia..]. apply Z.pow_lt_mono_r_iff in Hhi; [|lia..].
    replace (fexp prec emax (Zpos (digits2_pos p) + E) - E) with 1 by (unfold fexp; lia).
    rewrite Heq. cbn [shr].
    replace (2 ^ prec) with (2 ^ (prec - 1) * 2 ^ 1) by (rewrite <- Z.pow_add_r by lia; f_equal; lia).
    rewrite shr_exact by (apply Z.pow_pos_nonneg; lia).
    destruct (2 ^ (prec - 1)) as [|m|m] eqn:Em; [pose proof (Z.pow_pos_nonneg 2 (prec - 1)); lia| |
      pose proof (Z.pow_pos_nonneg 2 (prec - 1)); lia].
    exists m, (E + 1). split; [done|]. split; [|lia].
    rewrite bp_add, mult_IZR, (bp_IZR 1) by lia. ring.
  - assert (Zpos (digits2_pos p) ≤ prec) as Hd by (apply digits2_pos_le; lia).
    exists p, E. split; [|split; [done|lia]]. unfold shr, fexp.
    destruct (Z.max _ _ - E) eqn:Ek; [done|lia|done].
Qed.

(** The second half of [binary_round_aux]: the significand is aligned. *)
Definition round_aligned (prec emax : Z) (s : bool) (mrs : shr_record) (e : Z) : spec_float :=
  let '(mrs'', e'') := shr_fexp prec emax (rounded mrs) e loc_Exact in
  match shr_m mrs'' with
  | Z0 => S754_zero s
  | Zpos m => if e'' <=? emax - prec then S754_finite s m e'' else S754_infinity s
  | _ => S754_nan
  end.

(** [m * 2^e] approximates [V]. *)
Definition approximates (prec : Z) (m : positive) (e : Z) (V : R) : Prop :=
  (Rabs (IZR (Zpos m) * bp e - V) <= V * bp (- prec))%R.

Lemma round_aligned_error prec emax s mrs e X :
  1 < prec → holds X mrs → emin prec emax ≤ e → e + 1 ≤ emax - prec →
  (bp (prec - 1) <= X < bp prec)%R →
  ∃ m e'', round_aligned prec emax s mrs e = S754_finite s m e'' ∧ approximates prec m e'' (X * bp e).
Proof.
  intros Hp HX Hmin Hmax [Hlo Hhi]. pose proof (rounded_near X mrs HX) as [Herr Hr].
  pose proof (holds_bounds X mrs HX) as [Hb1 Hb2].
  assert (HR : 0 < rounded mrs ≤ 2 ^ prec).
  { rewrite !bp_IZR in * by lia. assert (shr_m mrs < 2 ^ prec) by (apply lt_IZR; lra).
    assert (2 ^ (prec - 1) < shr_m mrs + 1) by (apply lt_IZR; rewrite plus_IZR; lra).
    assert (2 ^ 1 ≤ 2 ^ (prec - 1)) by (apply Z.pow_le_mono_r; lia). lia. }
  destruct (renormalise prec emax (rounded mrs) e Hp HR Hmin) as (m & e'' & Es & Ev & He).
  exists m, e''. unfold round_aligned. rewrite Es. cbn [shr_m]. rewrite (proj2 (Z.leb_le _ _)) by lia.
  split; [done|]. unfold approximates. rewrite Ev, <- Rmult_minus_distr_r, Rabs_mult.
  pose proof (bp_pos e) as Hpe. rewrite (Rabs_right (bp e)) by lra.
  assert (bp (prec - 1) * bp (- prec) = / 2)%R as Hhalf.
  { rewrite <- bp_add. replace (prec - 1 + - prec) with (-1) by lia. apply bp_m1. }
  pose proof (bp_pos (- prec)) as Hpp. assert (/ 2 <= X * bp (- prec))%R by nra. nra.
Qed.

(** The value described by a significand, an exponent and a location, in the normal
    range: the result of the rounding has a relative error of at most [2 ^ -prec]. *)
Lemma round_error prec emax s mx ex lx X :
  let d := Zpos (digits2_pos mx) in
  1 < prec → holds X (shr_record_of_loc (Zpos mx) lx) →
  (prec ≤ d ∨ lx = loc_Exact ∧ ex ≤ emax - prec) →
  emin prec emax ≤ d + ex - prec → d + ex ≤ emax - 1 →
  ∃ m e, binary_round_aux prec emax s (Zpos mx) ex lx = S754_finite s m e ∧
    approximates prec m e (X * bp ex).
Proof.
  intros d Hp HX Hcase Hmin Hmax.
  set (E := fexp prec emax (d + ex)). assert (HE : E = d + ex - prec) by (unfold E, fexp; lia).
  pose proof (digits2_pos_bound mx) as [Hlo Hhi]. fold d in Hlo, Hhi.
  pose proof (holds_bounds _ _ HX) as [Hb1 Hb2].
  assert (Hm : shr_m (shr_record_of_loc (Zpos mx) lx) = Zpos mx) by (by destruct lx as [|[]]).
  rewrite Hm in Hb1, Hb2.
  assert (HXd : (bp (d - 1) <= X < bp d)%R).
  { rewrite !bp_IZR by lia. apply IZR_le in Hlo. assert (Zpos mx + 1 ≤ 2 ^ d) as Hhi' by lia.
    apply IZR_le in Hhi'. rewrite plus_IZR in Hhi'. lra. }
  assert (Haux : binary_round_aux prec emax s (Zpos mx) ex lx =
    let '(mrs, e) := shr (shr_record_of_loc (Zpos mx) lx) ex (E - ex) in
    round_aligned prec emax s mrs e).
  { done. }
  rewrite Haux. destruct (E - ex) as [|k|k] eqn:Hk; cbn [shr].
  - apply round_aligned_error; [done|done|lia|lia|]. by replace prec with d by lia.
  - destruct (holds_shr k (shr_record_of_loc (Zpos mx) lx) X) as [Hm' HX']; [by rewrite Hm|done|].
    destruct (round_aligned_error prec emax s _ (ex + Zpos k) _ Hp HX') as (m & e & Er & Ha); [lia|lia| |].
    + replace (X / bp (Zpos k))%R with (X * bp (- Zpos k))%R.
      2:{ replace (- Zpos k) with (0 - Zpos k) by lia. rewrite bp_sub.
          change (bp 0) with 1%R. unfold Rdiv. by rewrite Rmult_1_l. }
      replace (prec - 1) with (d - 1 + - Zpos k) by lia. replace prec with (d + - Zpos k) by lia.
      rewrite !bp_add. pose proof (bp_pos (- Zpos k)). nra.
    + exists m, e. split; [exact Er|].
      replace (X * bp ex)%R with (X / bp (Zpos k) * bp (ex + Zpos k))%R; [done|].
      rewrite bp_add. pose proof (bp_pos (Zpos k)). field. lra.
  - destruct Hcase as [|[-> Hex]]; [lia|]. cbn [shr_record_of_loc] in HX. cbn in HX.
    exists mx, ex. unfold round_aligned, rounded.
    cbn [shr_record_of_loc loc_of_shr_record round_nearest_even shr_m].
    unfold shr_fexp. cbn [Zdigits2 shr_record_of_loc]. fold d. fold E. rewrite Hk. cbn [shr shr_m].
    rewrite (proj2 (Z.leb_le _ _)) by lia. split; [done|]. unfold approximates.
    rewrite HX, Rminus_diag, Rabs_R0. pose proof (bp_pos ex). pose proof (bp_pos (- prec)).
    assert (0 < IZR (Zpos mx))%R by (by apply IZR_lt). apply Rmult_le_pos; [apply Rmult_le_pos|]; lra.
Qed.

(** ** Products and quotients of [float]s *)

(** The value of a finite number. *)
Definition sval (x : spec_float) : R :=
  match x with
  | S754_finite s m e => ((if s then -1 else 1) * (IZR (Zpos m) * bp e))%R
  | _ => 0%R
  end.

Definition finite (x : spec_float) : Prop := match x with S754_finite _ _ _ => True | _ => False end.

(** A significand is full, or the exponent is the smallest. *)
Definition canonical (x : spec_float) : Prop :=
  match x with
  | S754_finite _ m e => Zpos m < 2 ^ 24 ∧ -149 ≤ e ≤ 104 ∧ (2 ^ 23 ≤ Zpos m ∨ e = -149)
  | _ => True
  end.

(** The normal range, with a factor of two at the upper end. *)
Definition normal (V : R) : Prop := (bp (-126) <= Rabs V < bp 127)%R.

(** [x] is [V] with a relative error of at most [2^-24]. *)
Definition near (x : spec_float) (V : R) : Prop :=
  finite x ∧ (Rabs (sval x - V) <= Rabs V * bp (-24))%R.

Lemma float_of_bits_canonical u : canonical (float_of_bits u).
Proof.
  unfold float_of_bits. set (x := (u / 2 ^ 23) mod 2 ^ 8). set (y := u mod 2 ^ 23).
  assert (0 ≤ x < 2 ^ 8) as Hx by (subst x; zmod_lia).
  assert (0 ≤ y < 2 ^ 23) as Hy by (subst y; zmod_lia). clearbody x y.
  case_Zb; [done|done|..].
  - destruct y; cbn -[Z.pow]; lia.
  - destruct (y + 2 ^ 23) eqn:E; cbn -[Z.pow]; lia.
Qed.

(** Digits and exponent of a number in the normal range. *)
Lemma normal_digits m e X :
  let d := Zpos (digits2_pos m) in
  (IZR (Zpos m) <= X < IZR (Zpos m) + 1)%R → (bp (-126) <= X * bp e < bp 127)%R →
  emin 24 128 ≤ d + e - 24 ∧ d + e ≤ 127.
Proof.
  intros d [Hm1 Hm2] [Hlo Hhi]. pose proof (digits2_pos_bound m) as [Hd1 Hd2]. fold d in Hd1, Hd2.
  pose proof (bp_pos e) as Hpe. change (emin 24 128) with (-149).
  assert (X < bp d)%R as HX.
  { rewrite bp_IZR by lia. assert (Zpos m + 1 ≤ 2 ^ d) as H1%IZR_le by lia. rewrite plus_IZR in H1. lra. }
  assert (bp (d - 1) <= X)%R as HX'.
  { rewrite bp_IZR by lia. apply IZR_le in Hd1. lra. }
  assert (-126 < d + e) by (apply bp_lt_inv; rewrite bp_add; nra).
  assert (d - 1 + e < 127) by (apply bp_lt_inv; rewrite bp_add; nra). lia.
Qed.

Lemma near_signed s m e V :
  (0 <= V)%R → approximates 24 m e V →
  near (S754_finite s m e) ((if s then -1 else 1) * V).
Proof.
  intros HV Ha. split; [done|]. cbn [sval]. unfold approximates in Ha. change (- (24)) with (-24) in Ha.
  rewrite <- Rmult_minus_distr_l, !Rabs_mult.
  assert (Rabs (if s then -1 else 1) = 1)%R as ->.
  { destruct s; [rewrite Rabs_left|rewrite Rabs_right]; lra. }
  rewrite (Rabs_right V) by lra. lra.
Qed.

Lemma sval_normal_abs (s : bool) V :
  (0 <= V)%R → normal ((if s then -1 else 1) * V) → (bp (-126) <= V < bp 127)%R.
Proof.
  unfold normal. intros HV. rewrite Rabs_mult, (Rabs_right V) by lra.
  destruct s; [rewrite Rabs_left|rewrite (Rabs_right 1)]; lra.
Qed.

(** Products *)
Lemma fmul_near x y :
  finite x → finite y → canonical x → canonical y → normal (sval x * sval y) →
  near (fmul x y) (sval x * sval y).
Proof.
  destruct x as [| | |sx mx ex]; try done. destruct y as [| | |sy my ey]; try done.
  intros _ _ Hx Hy. cbn [sval canonical] in *.
  set (V := (IZR (Zpos (mx * my)) * bp (ex + ey))%R).
  assert (((if sx then -1 else 1) * (IZR (Zpos mx) * bp ex) * ((if sy then -1 else 1) * (IZR (Zpos my) * bp ey))
    = (if xorb sx sy then -1 else 1) * V)%R) as ->.
  { unfold V. rewrite Pos2Z.inj_mul, mult_IZR, bp_add. destruct sx, sy; cbn [xorb]; ring. }
  assert (0 <= V)%R as HV.
  { unfold V. pose proof (bp_pos (ex + ey)). assert (0 < IZR (Zpos (mx * my)))%R by (by apply IZR_lt). nra. }
  intros Hn. apply (sval_normal_abs _ _ HV) in Hn.
  destruct (normal_digits (mx * my) (ex + ey) (IZR (Zpos (mx * my)))) as [Hd1 Hd2]; [lra|done|].
  unfold fmul, SFmul.
  destruct (round_error 24 128 (xorb sx sy) (mx * my) (ex + ey) loc_Exact (IZR (Zpos (mx * my))))
    as (m & e & -> & Ha); [lia|done| |done|lia|by apply near_signed].
  right. split; [done|]. destruct Hx as (Hx1 & Hx2 & Hx3), Hy as (Hy1 & Hy2 & Hy3).
  destruct (Z.le_gt_cases (ex + ey) 104) as [|Hgt]; [lia|].
  pose proof (digits2_pos_bound (mx * my)) as [_ Hd]. rewrite Pos2Z.inj_mul in Hd.
  assert (2 ^ 46 < 2 ^ Zpos (digits2_pos (mx * my))) as Hd'.
  { destruct Hx3; [|lia]. destruct Hy3; [|lia]. nia. }
  apply Z.pow_lt_mono_r_iff in Hd'; lia.
Qed.

(** Quotients: the integer quotient and the place of the remainder *)
Lemma holds_location q r m2 :
  0 < m2 → 0 ≤ r < m2 →
  holds (IZR q + IZR r / IZR m2) (shr_record_of_loc q (new_location m2 r)).
Proof.
  intros Hm [Hr1 Hr2]. apply IZR_lt in Hm as HmR.
  assert (Hhalf : ∀ a b : R, (0 < b → 2 * a < b → a / b < / 2)%R).
  { intros a b Hb Hab. apply (Rmult_lt_reg_r b); [done|]. unfold Rdiv.
    rewrite Rmult_assoc, Rinv_l by lra. lra. }
  assert (Hhalf' : ∀ a b : R, (0 < b → b < 2 * a → / 2 < a / b)%R).
  { intros a b Hb Hab. apply (Rmult_lt_reg_r b); [done|]. unfold Rdiv.
    rewrite Rmult_assoc, Rinv_l by lra. lra. }
  destruct (Z.eq_dec r 0) as [->|Hr0].
  { unfold new_location, new_location_even, new_location_odd, holds. destruct (Z.even m2); cbn; lra. }
  assert (0 < IZR r / IZR m2)%R as Hpos by (apply Rdiv_lt_0_compat; [apply IZR_lt; lia|done]).
  assert (IZR r / IZR m2 < 1)%R as Hlt1.
  { apply IZR_lt in Hr2. apply (Rmult_lt_reg_r (IZR m2)); [done|]. unfold Rdiv.
    rewrite Rmult_assoc, Rinv_l by lra. lra. }
  assert (Hlt : 2 * r < m2 → (IZR r / IZR m2 < / 2)%R).
  { intros H%IZR_lt. rewrite mult_IZR in H. by apply Hhalf. }
  assert (Hgt : m2 < 2 * r → (/ 2 < IZR r / IZR m2)%R).
  { intros H%IZR_lt. rewrite mult_IZR in H. by apply Hhalf'. }
  assert (Heq : 2 * r = m2 → (IZR r / IZR m2 = / 2)%R).
  { intros <-. rewrite mult_IZR. assert (0 < IZR r)%R by (apply IZR_lt; lia). field. lra. }
  revert Hpos Hlt1 Hlt Hgt Heq. generalize (IZR r / IZR m2)%R as f. intros f Hpos Hlt1 Hlt Hgt Heq.
  assert (Hne : (r =? 0) = false) by lia.
  unfold new_location, holds. destruct (Z.even m2) eqn:Ev;
    unfold new_location_even, new_location_odd; rewrite Hne.
  - destruct (Z.compare_spec (2 * r) m2); cbn [shr_record_of_loc shr_m shr_r shr_s].
    + rewrite Heq by done. lra.
    + specialize (Hlt ltac:(lia)). lra.
    + specialize (Hgt ltac:(lia)). lra.
  - assert (m2 ≠ 2 * r) by (intros ->; by rewrite Z.even_mul in Ev).
    destruct (Z.compare_spec (2 * r + 1) m2); cbn [shr_record_of_loc shr_m shr_r shr_s].
    + specialize (Hlt ltac:(lia)). lra.
    + specialize (Hlt ltac:(lia)). lra.
    + specialize (Hgt ltac:(lia)). lra.
Qed.

Lemma div_magnitude m1 e1 m2 e2 :
  (bp (Zpos (digits2_pos m1) + e1 - (Zpos (digits2_pos m2) + e2) - 1)
   <= IZR (Zpos m1) / IZR (Zpos m2) * bp (e1 - e2))%R.
Proof.
  pose proof (digits2_pos_bound m1) as [H1%IZR_le _]. pose proof (digits2_pos_bound m2) as [_ H2%IZR_lt].
  rewrite <- bp_IZR in H1, H2 by lia. revert H1 H2.
  set (d1 := Zpos (digits2_pos m1)). set (d2 := Zpos (digits2_pos m2)). intros H1 H2.
  replace (d1 + e1 - (d2 + e2) - 1) with (d1 - 1 - d2 + (e1 - e2)) by lia. rewrite bp_add, (bp_sub _ d2).
  apply Rmult_le_compat_r; [apply Rlt_le, bp_pos|].
  pose proof (bp_pos (d1 - 1)). pose proof (bp_pos d2).
  assert (0 < IZR (Zpos m2))%R by (by apply IZR_lt).
  apply Rle_trans with (bp (d1 - 1) / IZR (Zpos m2))%R; unfold Rdiv.
  - apply Rmult_le_compat_l; [lra|]. apply Rinv_le_contravar; lra.
  - apply Rmult_le_compat_r; [apply Rlt_le, Rinv_0_lt_compat; lra|lra].
Qed.

Lemma div_core m1 e1 m2 e2 :
  let V := (IZR (Zpos m1) / IZR (Zpos m2) * bp (e1 - e2))%R in
  (bp (-126) <= V)%R →
  ∃ q e r, SFdiv_core_binary 24 128 (Zpos m1) e1 (Zpos m2) e2 = (Zpos q, e, new_location (Zpos m2) r) ∧
    0 ≤ r < Zpos m2 ∧ 24 ≤ Zpos (digits2_pos q) ∧
    ((IZR (Zpos q) + IZR r / IZR (Zpos m2)) * bp e = V)%R.
Proof.
  intros V HV. unfold SFdiv_core_binary. cbn [Zdigits2].
  set (A := Zpos (digits2_pos m1) + e1 - (Zpos (digits2_pos m2) + e2)).
  set (e := Z.min (fexp 24 128 A) (e1 - e2)).
  assert (He1 : e ≤ e1 - e2) by lia.
  assert (Hm' : match e1 - e2 - e with Z0 => Zpos m1 | Zpos _ => Z.shiftl (Zpos m1) (e1 - e2 - e) | _ => 0 end
    = Zpos m1 * 2 ^ (e1 - e2 - e)).
  { rewrite Z.shiftl_mul_pow2 by lia. destruct (e1 - e2 - e) eqn:Ek; [lia|done|lia]. }
  rewrite Hm'. set (m' := Zpos m1 * 2 ^ (e1 - e2 - e)).
  pose proof (Z_div_mod m' (Zpos m2) ltac:(lia)) as Hdm.
  destruct (Z.div_eucl m' (Zpos m2)) as [q r]. destruct Hdm as [Hm Hr].
  assert (0 < IZR (Zpos m2))%R as Hm2 by (by apply IZR_lt).
  set (X := (IZR q + IZR r / IZR (Zpos m2))%R).
  assert (HX : (X * bp e = V)%R).
  { assert (X = IZR m' / IZR (Zpos m2))%R as ->.
    { unfold X. rewrite Hm, plus_IZR, mult_IZR. field. lra. }
    unfold m', V. rewrite mult_IZR, <- bp_IZR by lia.
    replace (e1 - e2) with (e1 - e2 - e + e) at 2 by lia. rewrite bp_add. field. lra. }
  assert (HVe : (bp (e + 23) <= V)%R).
  { assert (e ≤ A - 24 ∨ e ≤ -149) as [He|He] by (unfold e, fexp; change (emin 24 128) with (-149); lia).
    - apply Rle_trans with (bp (A - 1)); [apply bp_mono; lia|]. by apply div_magnitude.
    - apply Rle_trans with (bp (-126)); [apply bp_mono; lia|done]. }
  assert (HX23 : (bp 23 <= X)%R).
  { rewrite <- HX, bp_add, Rmult_comm in HVe. by apply Rmult_le_reg_r in HVe; [|apply bp_pos]. }
  assert (Hq : 2 ^ 23 ≤ q).
  { assert (X < IZR q + 1)%R as HXq.
    { unfold X. assert (IZR r / IZR (Zpos m2) < 1)%R; [|lra].
      apply (Rmult_lt_reg_r (IZR (Zpos m2))); [done|]. unfold Rdiv.
      rewrite Rmult_assoc, Rinv_l by lra. assert (IZR r < IZR (Zpos m2))%R by (apply IZR_lt; lia). lra. }
    rewrite bp_IZR in HX23 by lia. apply Zlt_succ_le, lt_IZR. rewrite succ_IZR. lra. }
  destruct q as [|q|q]; [lia| |lia]. exists q, e, r. split; [done|]. split; [lia|]. split; [|done].
  pose proof (digits2_pos_bound q) as [_ Hd].
  assert (2 ^ 23 < 2 ^ Zpos (digits2_pos q)) as Hd'%Z.pow_lt_mono_r_iff by lia; lia.
Qed.

Lemma fdiv_near x y :
  finite x → finite y → normal (sval x / sval y) → near (fdiv x y) (sval x / sval y).
Proof.
  destruct x as [| | |sx mx ex]; try done. destruct y as [| | |sy my ey]; try done.
  intros _ _. cbn [sval].
  set (V := (IZR (Zpos mx) / IZR (Zpos my) * bp (ex - ey))%R).
  assert (0 < IZR (Zpos mx) ∧ 0 < IZR (Zpos my))%R as [Hmx Hmy] by (split; by apply IZR_lt).
  assert (((if sx then -1 else 1) * (IZR (Zpos mx) * bp ex) / ((if sy then -1 else 1) * (IZR (Zpos my) * bp ey))
    = (if xorb sx sy then -1 else 1) * V)%R) as ->.
  { unfold V. rewrite bp_sub. pose proof (bp_pos ey). destruct sx, sy; cbn [xorb]; field; lra. }
  assert (0 <= V)%R as HV.
  { unfold V. pose proof (bp_pos (ex - ey)). apply Rmult_le_pos; [|lra].
    apply Rlt_le, Rdiv_lt_0_compat; done. }
  intros Hn. apply (sval_normal_abs _ _ HV) in Hn.
  destruct (div_core mx ex my ey) as (q & e & r & Ec & Hr & Hd & Hq); [fold V; lra|]. fold V in Hq.
  unfold fdiv, SFdiv. rewrite Ec. pose proof (holds_location (Zpos q) r (Zpos my) ltac:(lia) Hr) as Hl.
  pose proof (holds_bounds _ _ Hl) as Hb.
  assert (shr_m (shr_record_of_loc (Zpos q) (new_location (Zpos my) r)) = Zpos q) as Em
    by (by destruct (new_location _ _) as [|[]]).
  rewrite Em in Hb. rewrite <- Hq in Hn.
  destruct (normal_digits q e _ Hb Hn) as [Hd1 Hd2].
  destruct (round_error 24 128 (xorb sx sy) q e _ _ ltac:(lia) Hl) as (m & e' & -> & Ha);
    [by left|done|lia|]. rewrite Hq in Ha. by apply near_signed.
Qed.

(** ** Scaling and conversion to an integer *)

Lemma sf_trunc_near x : finite x → ∃ z, sf_trunc x = Some z ∧ (Rabs (IZR z - sval x) < 1)%R.
Proof.
  destruct x as [| | |s m e]; try done. intros _. cbn [sf_trunc sval].
  set (a := if 0 <=? e then _ else _).
  assert (Ha : (IZR a <= IZR (Zpos m) * bp e < IZR a + 1)%R).
  { unfold a. destruct (Z.leb_spec 0 e) as [He|He].
    - rewrite mult_IZR, <- bp_IZR by done. lra.
    - set (P := 2 ^ (- e)). assert (0 < P) as HP by (apply Z.pow_pos_nonneg; lia).
      pose proof (Z.div_mod (Zpos m) P ltac:(lia)) as Hdm.
      pose proof (Z.mod_pos_bound (Zpos m) P HP) as [Hr1 Hr2].
      apply (f_equal IZR) in Hdm. rewrite plus_IZR, mult_IZR in Hdm. apply IZR_le in Hr1. apply IZR_lt in Hr2.
      assert (IZR P * bp e = 1)%R as HPe.
      { unfold P. rewrite <- bp_IZR, <- bp_add by lia. replace (- e + e) with 0 by lia. done. }
      pose proof (bp_pos e) as Hpe. rewrite Hdm, Rmult_plus_distr_r, (Rmult_comm (IZR P)), Rmult_assoc, HPe.
      pose proof (Rmult_le_compat_r (bp e) _ _ ltac:(lra) Hr1).
      pose proof (Rmult_lt_compat_r (bp e) _ _ Hpe Hr2). lra. }
  exists (if s then - a else a). split; [done|].
  apply Rabs_def1; destruct s; rewrite ?opp_IZR; lra.
Qed.

(** A [float] times a factor, divided by a scale factor, and truncated: less than one
    unit of truncation, and a relative error of less than [2^-22]. *)
Lemma scaled_error `{FpEnv} x v d :
  finite x → finite v → finite d → canonical x → canonical v →
  let exact := (sval x * sval v / sval d)%R in
  normal (sval x * sval v) → (bp (-125) <= Rabs exact <= bp 30)%R →
  (Rabs (IZR (s32_of_float (fdiv (fmul x v) d)) - exact) < 1 + Rabs exact * bp (-22))%R.
Proof.
  intros Hx Hv Hd Cx Cv exact Hn [Hlo Hhi].
  destruct (fmul_near x v Hx Hv Cx Cv Hn) as [Hf He]. set (p := fmul x v) in *.
  assert (sval d ≠ 0)%R as Hd0.
  { destruct d as [| | |s m e]; try done. cbn [sval]. pose proof (bp_pos e).
    assert (0 < IZR (Zpos m))%R by (by apply IZR_lt). destruct s; nra. }
  set (t := bp (-24)) in *. assert (0 < t)%R as Ht0 by apply bp_pos.
  assert (bp (-22) = 4 * t)%R as H22.
  { unfold t. replace (-22) with (2 + -24) by lia. by rewrite bp_add, (bp_IZR 2). }
  assert (t <= / 4)%R as Ht1.
  { unfold t. replace (/ 4)%R with (bp (-2)); [apply bp_mono; lia|].
    replace (-2) with (-1 + -1) by lia. rewrite bp_add, bp_m1. lra. }
  set (E := Rabs exact) in *.
  assert (Hq : (Rabs (sval p / sval d - exact) <= E * t)%R).
  { unfold E, exact. replace (sval p / sval d - sval x * sval v / sval d)%R
      with ((sval p - sval x * sval v) / sval d)%R by (field; done).
    unfold Rdiv. rewrite (Rabs_mult (_ - _)), (Rabs_mult (sval x * sval v)).
    pose proof (Rabs_pos (/ sval d)). nra. }
  set (Q := (sval p / sval d)%R) in *.
  assert (HQ : (E * (1 - t) <= Rabs Q <= E * (1 + t))%R).
  { pose proof (Rabs_triang_inv Q exact) as T1. pose proof (Rabs_triang_inv exact Q) as T2.
    rewrite (Rabs_minus_sym exact) in T2. fold E in T1, T2. lra. }
  assert (0 < E)%R as HE by (pose proof (bp_pos (-125)); lra).
  assert (HEt : (0 <= E * t <= E / 4)%R) by (split; nra).
  assert (HQn : normal Q).
  { unfold normal. split.
    - replace (-126) with (-125 + -1) by lia. rewrite bp_add, bp_m1. lra.
    - apply Rlt_le_trans with (bp 31); [|apply bp_mono; lia].
      replace 31 with (30 + 1) by lia. rewrite bp_add, (bp_IZR 1) by lia. change (IZR (2 ^ 1)) with 2%R. lra. }
  destruct (fdiv_near p d Hf Hd HQn) as [Hr Her]. fold Q in Her. fold t in Her.
  destruct (sf_trunc_near _ Hr) as (z & Ez & Hz). set (r := sval (fdiv p d)) in *.
  assert (Hre : (Rabs (r - exact) <= E * (3 * t))%R).
  { replace (r - exact)%R with ((r - Q) + (Q - exact))%R by ring.
    apply Rle_trans with (Rabs (r - Q) + Rabs (Q - exact))%R; [apply Rabs_triang|]. nra. }
  assert (Hze : (Rabs (IZR z - exact) < 1 + E * (3 * t))%R).
  { replace (IZR z - exact)%R with ((IZR z - r) + (r - exact))%R by ring.
    apply Rle_lt_trans with (Rabs (IZR z - r) + Rabs (r - exact))%R; [apply Rabs_triang|]. lra. }
  unfold s32_of_float. rewrite Ez.
  assert (- 2 ^ 31 ≤ z < 2 ^ 31) as Hzr.
  { assert (Rabs (IZR z) < IZR (2 ^ 31))%R as Hz31.
    { replace (IZR z) with ((IZR z - exact) + exact)%R by ring.
      apply Rle_lt_trans with (Rabs (IZR z - exact) + Rabs exact)%R; [apply Rabs_triang|]. fold E.
      assert (2 < bp 29 ∧ bp 30 = 2 * bp 29 ∧ bp 31 = 4 * bp 29)%R as (H29 & H30 & H31).
      { rewrite !bp_IZR by lia. split; [by apply IZR_lt|]. split; by rewrite <- mult_IZR. }
      rewrite <- bp_IZR by lia. lra. }
    apply Rabs_def2 in Hz31 as [Hz1 Hz2]. rewrite <- opp_IZR in Hz2.
    apply lt_IZR in Hz1, Hz2. lia. }
  rewrite (proj2 (Z.leb_le _ _)), (proj2 (Z.ltb_lt _ _)) by lia. cbn [andb]. rewrite H22. nra.
Qed.
