(* ===== verification/Machine.v ===== *)
(** * The machine the firmware runs on

    The programmable logic, the QSPI flash and the I2C EEPROM are reached through
    drivers that are not part of the repository: they are the operations of the
    class [Platform], on abstract device states.  The firmware's own globals
    ([scalefactors], [CONVVOLTSTODACBITS], ...) and the device states form the
    record [psc].  Firmware functions are programs of the monad [M]: state
    passing, with undefined behaviour as an error.  Every effect on a device is
    also appended to [events], so that a theorem can speak about the order of the
    effects. *)

From S2P Require Import Prelude Words Floats.

Class Platform := {
  PL : Type;                                     (* programmable logic and its DMA memory *)
  XPAR_M_AXI_BASEADDR : Z;                       (* xparameters.h, generated with the gateware *)
  pl_in32 : Z → PL → Z * PL;
  pl_out32 : Z → Z → PL → PL;
  pl_ddr : PL → Z → Z;                           (* word of the DMA memory at a byte address *)
  FLASH : Type;
  flash_xfer : list Z → FLASH → list Z * FLASH;  (* bytes sent, bytes received meanwhile *)
  EEPROM : Type;
  eeprom_send : list Z → EEPROM → EEPROM;
  eeprom_recv : nat → EEPROM → list Z * EEPROM;
}.

(** What the C abstract machine leaves open: the contents of uninitialised stack
    memory, and the number of iterations after which a busy-wait loop is regarded
    as never leaving. *)
Class Runtime := {
  stack_bytes : nat → list Z;
  stack_bytes_length : ∀ n, length (stack_bytes n) = n;
  stack_bytes_u8 : ∀ n, Forall is_u8 (stack_bytes n);
  poll_fuel : nat;
}.

(** [local.h]: the scale factors of a channel, [float] patterns. *)
Record ScaleFactorType := MkSF {
  ampspersec : Z;
  dac_dccts : Z;
  vout : Z;
  ignd : Z;
  spare : Z;
  regulator : Z;
  error : Z;
}.

Inductive event :=
| Out32 (addr val : Z)               (** Xil_Out32 *)
| QspiXfer (tx : list Z)             (** XQspiPs_PolledTransfer *)
| I2cSend (tx : list Z)              (** XIicPs_MasterSendPolled to the EEPROM *)
| I2c0Send (addr : Z) (tx : list Z)  (** XIicPs_MasterSendPolled, bus 0 *)
| I2c0Recv (addr len : Z)            (** XIicPs_MasterRecvPolled, bus 0 *)
| PscSend (msgid : Z) (body : list Z) (** psc_send(the_server, ...) *).

#[export] Instance event_eq_dec : EqDecision event.
Proof. solve_decision. Defined.

Record psc `{Platform} := MkPsc {
  pl : PL;
  flash : FLASH;
  eeprom : EEPROM;
  events : list event;
  scalefactors : list ScaleFactorType;
  CONVVOLTSTODACBITS : Z;
  CONVDACBITSTOVOLTS : Z;
}.

Definition set_pl `{Platform} (f : PL → PL) (s : psc) : psc :=
  MkPsc _ (f (pl s)) (flash s) (eeprom s) (events s) (scalefactors s)
    (CONVVOLTSTODACBITS s) (CONVDACBITSTOVOLTS s).
Definition set_flash `{Platform} (x : FLASH) (s : psc) : psc :=
  MkPsc _ (pl s) x (eeprom s) (events s) (scalefactors s)
    (CONVVOLTSTODACBITS s) (CONVDACBITSTOVOLTS s).
Definition set_eeprom `{Platform} (x : EEPROM) (s : psc) : psc :=
  MkPsc _ (pl s) (flash s) x (events s) (scalefactors s)
    (CONVVOLTSTODACBITS s) (CONVDACBITSTOVOLTS s).
Definition add_event `{Platform} (e : event) (s : psc) : psc :=
  MkPsc _ (pl s) (flash s) (eeprom s) (events s ++ [e]) (scalefactors s)
    (CONVVOLTSTODACBITS s) (CONVDACBITSTOVOLTS s).
Definition set_scalefactors `{Platform} (x : list ScaleFactorType) (s : psc) : psc :=
  MkPsc _ (pl s) (flash s) (eeprom s) (events s) x
    (CONVVOLTSTODACBITS s) (CONVDACBITSTOVOLTS s).
Definition set_conv `{Platform} (v2b b2v : Z) (s : psc) : psc :=
  MkPsc _ (pl s) (flash s) (eeprom s) (events s) (scalefactors s) v2b b2v.

(** ** The monad of firmware functions *)

Definition M `{Platform} (A : Type) : Type := psc → res (A * psc).

Section monad.
Context `{Platform}.

#[global] Instance M_ret : MRet M := λ A a s, Ok (a, s).
#[global] Instance M_bind : MBind M := λ A B f m s,
  match m s with Ok (a, s') => f a s' | Ub u => Ub u end.

Definition undefined {A} (u : ub) : M A := λ s, Ub u.
Definition gets {A} (f : psc → A) : M A := λ s, Ok (f s, s).
Definition modify (f : psc → psc) : M unit := λ s, Ok (tt, f s).
Definition lift {A} (r : res A) : M A := λ s,
  match r with Ok a => Ok (a, s) | Ub u => Ub u end.
Definition when (b : bool) (m : M unit) : M unit := if b then m else mret tt.

(** [for (i = from; i < from + n; i++) body(i)] *)
Fixpoint for_range (from : Z) (n : nat) (body : Z → M unit) : M unit :=
  match n with
  | O => mret tt
  | S n => body from;; for_range (from + 1) n body
  end.

(** *** Device accesses *)

(** Xil_In32 returns a [u32] *)
Definition Xil_In32 (addr : Z) : M Z := λ s,
  let '(v, p) := pl_in32 (u32 addr) (pl s) in
  Ok (u32 v, set_pl (λ _, p) s).

(** Xil_Out32 takes [u32] arguments *)
Definition out32 (addr v : Z) (s : psc) : psc :=
  add_event (Out32 (u32 addr) (u32 v)) (set_pl (pl_out32 (u32 addr) (u32 v)) s).
Definition Xil_Out32 (addr v : Z) : M unit := modify (out32 addr v).

(** XQspiPs_PolledTransfer(&QspiInstance, tx, rx, |tx|) *)
Definition PolledTransfer (tx : list Z) : M (list Z) := λ s,
  let '(rx, f) := flash_xfer tx (flash s) in
  Ok (rx, add_event (QspiXfer tx) (set_flash f s)).

Definition i2c1_write (tx : list Z) : M unit :=
  modify (λ s, add_event (I2cSend tx) (set_eeprom (eeprom_send tx (eeprom s)) s)).

Definition i2c1_read (len : nat) : M (list Z) := λ s,
  let '(rx, e) := eeprom_recv len (eeprom s) in
  Ok (rx, set_eeprom e s).

(** The DMA memory: the word at a byte address. *)
Definition dma_memory (s : psc) : Z → Z := pl_ddr (pl s).

(** psc_send(the_server, msgid, |body|, body): the listener's operation *)
Definition psc_send_event (msgid : Z) (body : list Z) : M unit :=
  modify (add_event (PscSend msgid body)).

(** *** The global [scalefactors[4]]: indexing outside is undefined *)

Definition sf_index (i : Z) (l : list ScaleFactorType) : option nat :=
  if (0 <=? i) && (i <? Z.of_nat (length l)) then Some (Z.to_nat i) else None.

Definition get_scalefactor (i : Z) : M ScaleFactorType := λ s,
  match sf_index (u32 i) (scalefactors s) ≫= λ k, scalefactors s !! k with
  | Some sf => Ok (sf, s)
  | None => Ub (ub_index (u32 i) (Z.of_nat (length (scalefactors s))))
  end.

Definition update_scalefactor (i : Z) (f : ScaleFactorType → ScaleFactorType) : M unit := λ s,
  match sf_index (u32 i) (scalefactors s) with
  | Some k => Ok (tt, set_scalefactors (alter f k (scalefactors s)) s)
  | None => Ub (ub_index (u32 i) (Z.of_nat (length (scalefactors s))))
  end.

(** *** Signed arithmetic whose overflow is undefined *)

Definition sub_s32 (a b : Z) : M Z :=
  if (- 2 ^ 31 <=? a - b) && (a - b <? 2 ^ 31) then mret (a - b)
  else undefined (ub_overflow (a - b)).

(** abs() of stdlib.h *)
Definition abs_s32 (a : Z) : M Z :=
  if a =? - 2 ^ 31 then undefined (ub_overflow (2 ^ 31)) else mret (Z.abs a).

(** unsigned division *)
Definition div_u32 (a b : Z) : M Z :=
  if b =? 0 then undefined ub_div0 else mret (a / b).
End monad.

(** ** Frames

    [keeps R m]: whenever [m] returns, the final state is related to the initial
    one by [R].  For a preorder [R] this is closed under sequencing, so that a
    frame of a whole handler follows from the frames of the device accesses. *)

Section keeps.
Context `{Platform}.

Definition keeps {A} (R : psc → psc → Prop) (m : M A) : Prop :=
  ∀ s a s', m s = Ok (a, s') → R s s'.

Context (R : psc → psc → Prop) `{!PreOrder R}.

Lemma keeps_ret {A} (a : A) : keeps R (mret a).
Proof. by intros s a' s' [= <- <-]. Qed.
Lemma keeps_undefined {A} u : keeps R (undefined (A:=A) u).
Proof. by intros s a s'. Qed.
Lemma keeps_gets {A} (f : psc → A) : keeps R (gets f).
Proof. by intros s a s' [= <- <-]. Qed.
Lemma keeps_lift {A} (r : res A) : keeps R (lift r).
Proof. by intros s a s'; unfold lift; destruct r; intros [= <- <-]. Qed.
Lemma keeps_bind {A B} (m : M A) (f : A → M B) :
  keeps R m → (∀ a, keeps R (f a)) → keeps R (m ≫= f).
Proof.
  intros Hm Hf s b s'. unfold mbind, M_bind.
  destruct (m s) as [[a s1]|] eqn:E; [|done].
  intros E2. transitivity s1; [by eapply Hm|by eapply Hf].
Qed.
Lemma keeps_when b m : keeps R m → keeps R (when b m).
Proof. destruct b; [done|]. intros _. apply keeps_ret. Qed.
Lemma keeps_if {A} (b : bool) (m1 m2 : M A) :
  keeps R m1 → keeps R m2 → keeps R (if b then m1 else m2).
Proof. by destruct b. Qed.
Lemma keeps_for from n body :
  (∀ i, keeps R (body i)) → keeps R (for_range from n body).
Proof.
  intros Hb. revert from. induction n as [|n IH]; intros from; cbn.
  - apply keeps_ret.
  - by apply keeps_bind.
Qed.
Lemma keeps_get_scalefactor i : keeps R (get_scalefactor i).
Proof.
  intros s a s'. unfold get_scalefactor.
  by destruct (_ ≫= _); intros [= <- <-].
Qed.
Lemma keeps_sub_s32 a b : keeps R (sub_s32 a b).
Proof. apply keeps_if; [apply keeps_ret|apply keeps_undefined]. Qed.
Lemma keeps_abs_s32 a : keeps R (abs_s32 a).
Proof. apply keeps_if; [apply keeps_undefined|apply keeps_ret]. Qed.
Lemma keeps_div_u32 a b : keeps R (div_u32 a b).
Proof. apply keeps_if; [apply keeps_undefined|apply keeps_ret]. Qed.
End keeps.

Create HintDb frame discriminated.
#[export] Hint Resolve keeps_ret keeps_undefined keeps_gets keeps_lift keeps_bind keeps_when
  keeps_if keeps_for keeps_get_scalefactor keeps_sub_s32 keeps_abs_s32 keeps_div_u32 : frame.

(** ** Absence of undefined behaviour

    [total I m Q]: from a state with the invariant [I], [m] returns (no undefined
    behaviour, no endless loop), re-establishes [I], and its result has [Q]. *)

Section total.
Context `{Platform}.

Definition total (I : psc → Prop) {A} (m : M A) (Q : A → Prop) : Prop :=
  ∀ s, I s → ∃ a s', m s = Ok (a, s') ∧ I s' ∧ Q a.

Context (I : psc → Prop).

Lemma total_ret {A} (a : A) (Q : A → Prop) : Q a → total I (mret a) Q.
Proof. intros Ha s Hs. by exists a, s. Qed.
Lemma total_gets {A} (f : psc → A) : total I (gets f) (λ _, True).
Proof. intros s Hs. by exists (f s), s. Qed.
Lemma total_bind {A B} (m : M A) (f : A → M B) Q Q' :
  total I m Q → (∀ a, Q a → total I (f a) Q') → total I (m ≫= f) Q'.
Proof.
  intros Hm Hf s Hs. destruct (Hm s Hs) as (a & s1 & E & Hs1 & Ha).
  destruct (Hf a Ha s1 Hs1) as (b & s2 & E2 & Hs2 & Hb).
  exists b, s2. split; [|done]. unfold mbind, M_bind. by rewrite E.
Qed.
Lemma total_weaken {A} (m : M A) (Q Q' : A → Prop) :
  total I m Q → (∀ a, Q a → Q' a) → total I m Q'.
Proof. intros Hm HQ s Hs. destruct (Hm s Hs) as (a & s' & E & Hs' & Ha). eauto 6. Qed.
Lemma total_lift_Ok {A} (r : res A) a : r = Ok a → total I (lift r) (λ b, b = a).
Proof. intros -> s Hs. by exists a, s. Qed.
Lemma total_when b m : total I m (λ _, True) → total I (when b m) (λ _, True).
Proof. destruct b; [done|]. intros _. by apply total_ret. Qed.
Lemma total_if {A} (b : bool) (m1 m2 : M A) Q :
  total I m1 Q → total I m2 Q → total I (if b then m1 else m2) Q.
Proof. by destruct b. Qed.
Lemma total_for from n (body : Z → M unit) :
  (∀ i, from ≤ i < from + Z.of_nat n → total I (body i) (λ _, True)) →
  total I (for_range from n body) (λ _, True).
Proof.
  revert from. induction n as [|n IH]; intros from Hb; cbn; [by apply total_ret|].
  eapply total_bind; [apply Hb; lia|]. intros _ _. apply IH. intros i Hi. apply Hb. lia.
Qed.
End total.

(** ** Running a program step by step *)

Section run.
Context `{Platform}.

Lemma run_bind {A B} (m : M A) (f : A → M B) s a s' :
  m s = Ok (a, s') → (m ≫= f) s = f a s'.
Proof. intros E. unfold mbind, M_bind. by rewrite E. Qed.

Lemma run_bind_ext {A B} (m : M A) (f g : A → M B) s :
  (∀ a s, f a s = g a s) → (m ≫= f) s = (m ≫= g) s.
Proof. intros E. unfold mbind, M_bind. by destruct (m s) as [[a s']|]. Qed.

Lemma run_bind_inv {A B} (m : M A) (f : A → M B) s b s2 :
  (m ≫= f) s = Ok (b, s2) → ∃ a s1, m s = Ok (a, s1) ∧ f a s1 = Ok (b, s2).
Proof.
  unfold mbind, M_bind. destruct (m s) as [[a s1]|]; [|done]. eauto.
Qed.

Lemma run_get_scalefactor i s sf :
  0 ≤ i < 2 ^ 32 → scalefactors s !! Z.to_nat i = Some sf → get_scalefactor i s = Ok (sf, s).
Proof.
  intros Hi Hl. unfold get_scalefactor, sf_index.
  pose proof (lookup_lt_Some _ _ _ Hl). rewrite u32_id by done.
  rewrite (proj2 (Z.leb_le _ _)), (proj2 (Z.ltb_lt _ _)) by lia. cbn. by rewrite Hl.
Qed.

Lemma run_get_scalefactor_oob i s :
  Z.of_nat (length (scalefactors s)) ≤ u32 i →
  get_scalefactor i s = Ub (ub_index (u32 i) (Z.of_nat (length (scalefactors s)))).
Proof.
  intros Hi. unfold get_scalefactor, sf_index.
  rewrite (proj2 (Z.ltb_ge _ _)) by lia. by rewrite andb_false_r.
Qed.

Lemma run_out32 {A} addr v (k : unit → M A) s : (Xil_Out32 addr v ≫= k) s = k tt (out32 addr v s).
Proof. done. Qed.

Lemma out32_scalefactors addr v s : scalefactors (out32 addr v s) = scalefactors s.
Proof. done. Qed.

(** Several register writes in a row. *)
Definition out_all (ws : list (Z * Z)) (s : psc) : psc :=
  foldl (λ s w, out32 w.1 w.2 s) s ws.

Lemma out_all_cons a v ws s : out_all ((a, v) :: ws) s = out_all ws (out32 a v s).
Proof. done. Qed.
Lemma out_all_app ws1 ws2 s : out_all (ws1 ++ ws2) s = out_all ws2 (out_all ws1 s).
Proof. apply foldl_app. Qed.

Lemma out_all_events ws s :
  events (out_all ws s) = events s ++ ((λ w, Out32 (u32 w.1) (u32 w.2)) <$> ws).
Proof.
  revert s. induction ws as [|[a v] ws IH]; intros s.
  - cbn. by rewrite app_nil_r.
  - rewrite out_all_cons, IH. cbn. by rewrite <- app_assoc.
Qed.

Lemma out_all_globals ws s :
  scalefactors (out_all ws s) = scalefactors s ∧ flash (out_all ws s) = flash s ∧
  eeprom (out_all ws s) = eeprom s ∧
  CONVVOLTSTODACBITS (out_all ws s) = CONVVOLTSTODACBITS s ∧
  CONVDACBITSTOVOLTS (out_all ws s) = CONVDACBITSTOVOLTS s.
Proof.
  revert s. induction ws as [|[a v] ws IH]; intros s; [done|].
  rewrite out_all_cons. destruct (IH (out32 a v s)) as (-> & -> & -> & -> & ->). done.
Qed.

Lemma out_all_pl ws s :
  pl (out_all ws s) = foldl (λ p w, pl_out32 (u32 w.1) (u32 w.2) p) (pl s) ws.
Proof. revert s. induction ws as [|[a v] ws IH]; intros s; [done|]. apply IH. Qed.

Lemma run_update_scalefactor i f s :
  0 ≤ i < 2 ^ 32 → i < Z.of_nat (length (scalefactors s)) →
  update_scalefactor i f s = Ok (tt, set_scalefactors (alter f (Z.to_nat i) (scalefactors s)) s).
Proof.
  intros Hi Hl. unfold update_scalefactor, sf_index. rewrite u32_id by done.
  by rewrite (proj2 (Z.leb_le _ _)), (proj2 (Z.ltb_lt _ _)) by lia.
Qed.
End run.

(** ** Documented behaviour of plain registers

    A [plain] address is a configuration register of the gateware: reading it
    has no side effect, and the write of the value it reads back changes no
    plain register.  (Registers narrower than 32 bits read back what they hold.) *)

Class PlainRegisters (P : Platform) (plain : Z → Prop) := {
  plain_read : ∀ a p, plain a → (pl_in32 a p).2 = p;
  plain_u32 : ∀ a p, plain a → is_u32 (pl_in32 a p).1;
  plain_write_back : ∀ a b p, plain a → plain b →
    (pl_in32 b (pl_out32 a (pl_in32 a p).1 p)).1 = (pl_in32 b p).1;
}.

Lemma plain_write_back_all `{Platform} plain `{!PlainRegisters _ plain} regs ws p0 p :
  Forall plain (u32 <$> regs) →
  (∀ b, plain b → (pl_in32 b p).1 = (pl_in32 b p0).1) →
  ws = zip regs ((λ a, (pl_in32 (u32 a) p0).1) <$> regs) →
  ∀ b, plain b → (pl_in32 b (foldl (λ p w, pl_out32 (u32 w.1) (u32 w.2) p) p ws)).1 = (pl_in32 b p0).1.
Proof.
  intros Hregs Hp ->. revert p Hp. induction regs as [|a regs IH]; intros p Hp; [done|].
  cbn in Hregs |- *. apply Forall_cons in Hregs as [Ha Hregs]. apply IH; [done|].
  intros b Hb. rewrite (u32_id (pl_in32 _ _).1) by (by apply plain_u32).
  rewrite <- (Hp _ Ha). rewrite plain_write_back by done. by apply Hp.
Qed.

