(* ===== verification/Regs.v ===== *)
(** * Register map and message numbers

    [pl_regs.h] (registers of the programmable logic, byte offsets),
    [control.h] (message numbers and DAC modes), [qspi_flash.h], [snapshot.h]
    and the numeric constants of [local.h], under their names in the C headers. *)

From S2P Require Import Prelude Floats.

(** ** [pl_regs.h] *)

Definition AXI_CIRBUFBASE : Z := 0x10000000.
Definition CHBASEADDR : Z := 0x200.
Definition FPGAVER_REG : Z := 0x0.
Definition LEDS_REG : Z := 0x4.
Definition RESOLUTION_REG : Z := 0x8.
Definition NUMCHANS_REG : Z := 0xC.
Definition BANDWIDTH_REG : Z := 0x10.
Definition POLARITY_REG : Z := 0x14.
Definition NCO_STEPSIZE_REG : Z := 0x18.
Definition TENKHZ_FREQ_REG : Z := 0x1C.
Definition EVR_INJ_EVENTNUM_REG : Z := 0x20.
Definition EVR_PM_EVENTNUM_REG : Z := 0x24.
Definition EVR_1HZ_EVENTNUM_REG : Z := 0x28.
Definition EVR_10HZ_EVENTNUM_REG : Z := 0x2C.
Definition EVR_10KHZ_EVENTNUM_REG : Z := 0x30.
Definition ONEHZ_FREQ_REG : Z := 0x34.
Definition EVR_TS_S_REG : Z := 0x40.
Definition EVR_TS_NS_REG : Z := 0x44.
Definition EVR_RESET_REG : Z := 0x48.
Definition IOC_ACCESS_REG : Z := 0x50.
Definition TENHZ_DATASEND_REG : Z := 0x54.
Definition FOFB_IPADDR_REG : Z := 0x60.
Definition FOFB_PACKETS_RCVD_REG : Z := 0x64.
Definition FOFB_COMMAND_REG : Z := 0x68.
Definition FOFB_NONCE_REG : Z := 0x6C.
Definition DCCT1_REG : Z := 0x00.
Definition DCCT2_REG : Z := 0x04.
Definition DACMON_REG : Z := 0x08.
Definition VOLT_REG : Z := 0x0C.
Definition GND_REG : Z := 0x10.
Definition SPARE_REG : Z := 0x14.
Definition REG_REG : Z := 0x18.
Definition ERR_REG : Z := 0x1C.
Definition DAC_SETPT_OFFSET_REG : Z := 0x20.
Definition DAC_SETPT_GAIN_REG : Z := 0x24.
Definition DAC_SETPT_REG : Z := 0x28.
Definition DAC_OPMODE_REG : Z := 0x2C.
Definition DAC_CNTRL_REG : Z := 0x30.
Definition DAC_RESET_REG : Z := 0x34.
Definition DAC_RAMPLEN_REG : Z := 0x38.
Definition DAC_RAMPADDR_REG : Z := 0x3C.
Definition DAC_RAMPDATA_REG : Z := 0x40.
Definition DAC_RUNRAMP_REG : Z := 0x44.
Definition DAC_RAMPACTIVE_REG : Z := 0x48.
Definition DAC_CURRSETPT_REG : Z := 0x4C.
Definition DCCT1_OFFSET_REG : Z := 0x50.
Definition DCCT1_GAIN_REG : Z := 0x54.
Definition DCCT2_OFFSET_REG : Z := 0x58.
Definition DCCT2_GAIN_REG : Z := 0x5C.
Definition DACMON_OFFSET_REG : Z := 0x60.
Definition DACMON_GAIN_REG : Z := 0x64.
Definition VOLT_OFFSET_REG : Z := 0x68.
Definition VOLT_GAIN_REG : Z := 0x6C.
Definition GND_OFFSET_REG : Z := 0x70.
Definition GND_GAIN_REG : Z := 0x74.
Definition SPARE_OFFSET_REG : Z := 0x78.
Definition SPARE_GAIN_REG : Z := 0x7C.
Definition REG_OFFSET_REG : Z := 0x80.
Definition REG_GAIN_REG : Z := 0x84.
Definition ERR_OFFSET_REG : Z := 0x88.
Definition ERR_GAIN_REG : Z := 0x8C.
Definition OVC1_THRESH_REG : Z := 0x90.
Definition OVC2_THRESH_REG : Z := 0x94.
Definition OVV_THRESH_REG : Z := 0x98.
Definition ERR1_THRESH_REG : Z := 0x9C.
Definition ERR2_THRESH_REG : Z := 0xA0.
Definition IGND_THRESH_REG : Z := 0xA4.
Definition OVC1_CNTLIM_REG : Z := 0xA8.
Definition OVC2_CNTLIM_REG : Z := 0xAC.
Definition OVV_CNTLIM_REG : Z := 0xB0.
Definition ERR1_CNTLIM_REG : Z := 0xB4.
Definition ERR2_CNTLIM_REG : Z := 0xB8.
Definition IGND_CNTLIM_REG : Z := 0xBC.
Definition DCCT_CNTLIM_REG : Z := 0xC0.
Definition FLT1_CNTLIM_REG : Z := 0xC4.
Definition FLT2_CNTLIM_REG : Z := 0xC8.
Definition FLT3_CNTLIM_REG : Z := 0xCC.
Definition ON_CNTLIM_REG : Z := 0xD0.
Definition FAULT_CLEAR_REG : Z := 0xD4.
Definition FAULT_MASK_REG : Z := 0xD8.
Definition HEARTBEAT_CNTLIM_REG : Z := 0xDC.
Definition DIGOUT_ON1_REG : Z := 0xE0.
Definition DIGOUT_ON2_REG : Z := 0xE4.
Definition DIGOUT_RESET_REG : Z := 0xE8.
Definition DIGOUT_SPARE_REG : Z := 0xEC.
Definition DIGOUT_PARK_REG : Z := 0xF0.
Definition DIGIN_REG : Z := 0xF4.
Definition FAULTS_LIVE_REG : Z := 0xF8.
Definition FAULTS_LAT_REG : Z := 0xFC.
Definition AVEMODE_REG : Z := 0x100.
Definition SMOOTH_PHASEINC_REG : Z := 0x104.
Definition DIGOUT_ON2_PULSEENB_REG : Z := 0x108.
Definition FOFB_FASTADDR_REG : Z := 0x120.
Definition FOFB_DACSETPT_REG : Z := 0x124.
Definition FOFB_SCALEFACTOR_REG : Z := 0x128.
Definition SNAPSHOT_ADDRPTR : Z := 0xA00.
Definition SNAPSHOT_TOTALTRIGS : Z := 0xA04.
Definition SOFTTRIG : Z := 0xA08.
Definition TESTTRIG : Z := 0xA0C.
Definition USR1TRIG_BUFPTR : Z := 0xA20.
Definition USR1TRIG_TS_S : Z := 0xA24.
Definition USR1TRIG_TS_NS : Z := 0xA28.
Definition USR2TRIG_BUFPTR : Z := 0xA30.
Definition USR2TRIG_TS_S : Z := 0xA34.
Definition USR2TRIG_TS_NS : Z := 0xA38.
Definition USR3TRIG_BUFPTR : Z := 0xA40.
Definition USR3TRIG_TS_S : Z := 0xA44.
Definition USR3TRIG_TS_NS : Z := 0xA48.
Definition USR4TRIG_BUFPTR : Z := 0xA50.
Definition USR4TRIG_TS_S : Z := 0xA54.
Definition USR4TRIG_TS_NS : Z := 0xA58.
Definition FLT1TRIG_BUFPTR : Z := 0xA60.
Definition FLT1TRIG_TS_S : Z := 0xA64.
Definition FLT1TRIG_TS_NS : Z := 0xA68.
Definition FLT2TRIG_BUFPTR : Z := 0xA70.
Definition FLT2TRIG_TS_S : Z := 0xA74.
Definition FLT2TRIG_TS_NS : Z := 0xA78.
Definition FLT3TRIG_BUFPTR : Z := 0xA80.
Definition FLT3TRIG_TS_S : Z := 0xA84.
Definition FLT3TRIG_TS_NS : Z := 0xA88.
Definition FLT4TRIG_BUFPTR : Z := 0xA90.
Definition FLT4TRIG_TS_S : Z := 0xA94.
Definition FLT4TRIG_TS_NS : Z := 0xA98.
Definition ERR1TRIG_BUFPTR : Z := 0xAA0.
Definition ERR1TRIG_TS_S : Z := 0xAA4.
Definition ERR1TRIG_TS_NS : Z := 0xAA8.
Definition ERR2TRIG_BUFPTR : Z := 0xAB0.
Definition ERR2TRIG_TS_S : Z := 0xAB4.
Definition ERR2TRIG_TS_NS : Z := 0xAB8.
Definition ERR3TRIG_BUFPTR : Z := 0xAC0.
Definition ERR3TRIG_TS_S : Z := 0xAC4.
Definition ERR3TRIG_TS_NS : Z := 0xAC8.
Definition ERR4TRIG_BUFPTR : Z := 0xAD0.
Definition ERR4TRIG_TS_S : Z := 0xAD4.
Definition ERR4TRIG_TS_NS : Z := 0xAD8.
Definition INJ1TRIG_BUFPTR : Z := 0xAE0.
Definition INJ1TRIG_TS_S : Z := 0xAE4.
Definition INJ1TRIG_TS_NS : Z := 0xAE8.
Definition INJ2TRIG_BUFPTR : Z := 0xAF0.
Definition INJ2TRIG_TS_S : Z := 0xAF4.
Definition INJ2TRIG_TS_NS : Z := 0xAF8.
Definition INJ3TRIG_BUFPTR : Z := 0xB00.
Definition INJ3TRIG_TS_S : Z := 0xB04.
Definition INJ3TRIG_TS_NS : Z := 0xB08.
Definition INJ4TRIG_BUFPTR : Z := 0xB10.
Definition INJ4TRIG_TS_S : Z := 0xB14.
Definition INJ4TRIG_TS_NS : Z := 0xB18.
Definition EVRTRIG_BUFPTR : Z := 0xB20.
Definition EVRTRIG_TS_S : Z := 0xB24.
Definition EVRTRIG_TS_NS : Z := 0xB28.
Definition ID : Z := 0xC00.
Definition VERSION : Z := 0xC04.
Definition PRJ_ID : Z := 0xC08.
Definition PRJ_VERSION : Z := 0xC0C.
Definition PRJ_SHASUM : Z := 0xC10.
Definition PRJ_TIMESTAMP : Z := 0xC14.

(** ** [control.h] *)

Definition SMOOTH : Z := 0.
Definition RAMP : Z := 1.
Definition FOFB : Z := 2.
Definition JUMP : Z := 3.
Definition SOFT_TRIG_MSG : Z := 0.
Definition TEST_TRIG_MSG : Z := 4.
Definition FP_LED_MSG : Z := 8.
Definition EVR_RESET_MSG : Z := 16.
Definition EVR_INJ_EVENTNUM_MSG : Z := 20.
Definition EVR_PM_EVENTNUM_MSG : Z := 24.
Definition EVR_1HZ_EVENTNUM_MSG : Z := 28.
Definition EVR_10HZ_EVENTNUM_MSG : Z := 32.
Definition EVR_10KHZ_EVENTNUM_MSG : Z := 36.
Definition FOFB_IPADDR_MSG : Z := 50.
Definition DAC_OPMODE_MSG : Z := 100.
Definition DAC_SETPT_MSG : Z := 104.
Definition DAC_RUNRAMP_MSG : Z := 108.
Definition DAC_RAMPLEN_MSG : Z := 112.
Definition DAC_SETPT_GAIN_MSG : Z := 116.
Definition DAC_SETPT_OFFSET_MSG : Z := 120.
Definition DCCT1_OFFSET_MSG : Z := 124.
Definition DCCT1_GAIN_MSG : Z := 128.
Definition DCCT2_OFFSET_MSG : Z := 132.
Definition DCCT2_GAIN_MSG : Z := 136.
Definition DACMON_OFFSET_MSG : Z := 140.
Definition DACMON_GAIN_MSG : Z := 144.
Definition VOLT_OFFSET_MSG : Z := 148.
Definition VOLT_GAIN_MSG : Z := 152.
Definition GND_OFFSET_MSG : Z := 156.
Definition GND_GAIN_MSG : Z := 160.
Definition SPARE_OFFSET_MSG : Z := 164.
Definition SPARE_GAIN_MSG : Z := 168.
Definition REG_OFFSET_MSG : Z := 172.
Definition REG_GAIN_MSG : Z := 176.
Definition ERR_OFFSET_MSG : Z := 180.
Definition ERR_GAIN_MSG : Z := 184.
Definition OVC1_THRESH_MSG : Z := 188.
Definition OVC2_THRESH_MSG : Z := 192.
Definition OVV_THRESH_MSG : Z := 196.
Definition ERR1_THRESH_MSG : Z := 200.
Definition ERR2_THRESH_MSG : Z := 204.
Definition IGND_THRESH_MSG : Z := 208.
Definition OVC1_CNTLIM_MSG : Z := 212.
Definition OVC2_CNTLIM_MSG : Z := 216.
Definition OVV_CNTLIM_MSG : Z := 220.
Definition ERR1_CNTLIM_MSG : Z := 224.
Definition ERR2_CNTLIM_MSG : Z := 228.
Definition IGND_CNTLIM_MSG : Z := 232.
Definition DCCT_CNTLIM_MSG : Z := 236.
Definition FLT1_CNTLIM_MSG : Z := 240.
Definition FLT2_CNTLIM_MSG : Z := 244.
Definition FLT3_CNTLIM_MSG : Z := 248.
Definition ON_CNTLIM_MSG : Z := 252.
Definition HEART_CNTLIM_MSG : Z := 256.
Definition FAULT_CLEAR_MSG : Z := 260.
Definition FAULT_MASK_MSG : Z := 264.
Definition DIGOUT_ON1_MSG : Z := 268.
Definition DIGOUT_ON2_MSG : Z := 272.
Definition DIGOUT_RESET_MSG : Z := 276.
Definition DIGOUT_SPARE_MSG : Z := 280.
Definition DIGOUT_PARK_MSG : Z := 284.
Definition SF_AMPS_PER_SEC_MSG : Z := 300.
Definition SF_DAC_DCCTS_MSG : Z := 304.
Definition SF_VOUT_MSG : Z := 308.
Definition SF_IGND_MSG : Z := 312.
Definition SF_SPARE_MSG : Z := 316.
Definition SF_REGULATOR_MSG : Z := 320.
Definition SF_ERROR_MSG : Z := 324.
Definition FOFB_FASTADDR_MSG : Z := 330.
Definition USR_TRIG_MSG : Z := 340.
Definition AVE_MODE_MSG : Z := 350.
Definition WRITE_QSPI_MSG : Z := 400.
Definition READ_QSPI_MSG : Z := 404.
Definition DUMP_ADCS_MSG : Z := 500.
Definition WRITE_RAMPTABLE_MSG : Z := 1000.

(** ** [qspi_flash.h] *)

Definition FLASH_WRITE_CMD : Z := 0x02.
Definition FLASH_READ_CMD : Z := 0x03.
Definition FLASH_SECTOR_ERASE_CMD : Z := 0xD8.
Definition FLASH_SECTOR_ERASE_SIZE : Z := 4.
Definition FLASH_WRITE_ENABLE_CMD : Z := 0x06.
Definition FLASH_READ_STATUS_CMD : Z := 0x05.
Definition FLASH_READ_FLAG_STATUS_CMD : Z := 0x70.
Definition FLASH_SECTOR_SIZE : Z := 0x10000.
Definition FLASH_PAGE_SIZE : Z := 256.

(** ** [snapshot.h] *)

Definition MSGWFMSTATS : Z := 50.
Definition MSGWFMSTATSLEN : Z := 500.
Definition MSGUSRCH1 : Z := 60.
Definition MSGUSRCH2 : Z := 61.
Definition MSGUSRCH3 : Z := 62.
Definition MSGUSRCH4 : Z := 63.
Definition MSGFLTCH1 : Z := 70.
Definition MSGFLTCH2 : Z := 71.
Definition MSGFLTCH3 : Z := 72.
Definition MSGFLTCH4 : Z := 73.
Definition MSGERRCH1 : Z := 80.
Definition MSGERRCH2 : Z := 81.
Definition MSGERRCH3 : Z := 82.
Definition MSGERRCH4 : Z := 83.
Definition MSGINJCH1 : Z := 90.
Definition MSGINJCH2 : Z := 91.
Definition MSGINJCH3 : Z := 92.
Definition MSGINJCH4 : Z := 93.
Definition MSGEVRCH1 : Z := 100.
Definition MSGEVRCH2 : Z := 101.
Definition MSGEVRCH3 : Z := 102.
Definition MSGEVRCH4 : Z := 103.
Definition MSGWFMLEN : Z := 4000000.

Definition THREAD_STACKSIZE : Z := 1024.
Definition EE_SIZE : Z := 256.
Definition MS_RES : Z := 0.
Definition HS_RES : Z := 1.

(** ** Decimal constants of [local.h] ([double]) *)

Definition GAIN20BITFRACT := dlit 1048575 1.
Definition CONVVOLTSTO16BITS := dlit 32768 10.
Definition CONV16BITSTOVOLTS := ddiv (d_of_int 1) CONVVOLTSTO16BITS.
Definition CONVVOLTSTO18BITS := dlit 131072 10.
Definition CONV18BITSTOVOLTS := ddiv (d_of_int 1) CONVVOLTSTO18BITS.
Definition CONVVOLTSTO20BITS := dlit 524288 10.
Definition CONV20BITSTOVOLTS := ddiv (d_of_int 1) CONVVOLTSTO20BITS.
Definition SAMPLERATE := dlit 10000 1.
