(* ===== verification/Sadata.v ===== *)
(** * 10 Hz data: averaged monitor readings ([sadata.c])

    [ReadAccumSA] reads a monitor register, which holds a sample or the sum of
    167 or 500 samples depending on the channel's averaging mode. *)

From Stdlib Require Import SpecFloat.
From S2P Require Import Prelude Words Floats Machine Regs.

Section sadata.
Context `{Platform, FpEnv}.

Definition ReadAccumSA (reg_addr ave_mode : Z) : M spec_float :=
  v ← Xil_In32 reg_addr;
  let raw := s32 v in
  mret (if ave_mode =? 0 then f_of_int raw
        else if ave_mode =? 1 then f_of_d (ddiv (d_of_int raw) (dlit 167 1))
        else if ave_mode =? 2 then f_of_d (ddiv (d_of_int raw) (dlit 500 1))
        else S754_nan).
End sadata.
