(* ===== verification/Qspi.v ===== *)
(** * QSPI flash storage of the channel settings ([qspi_flash.c])

    Every channel owns one 64 KB sector (channel 1 sector 1, ...).  A page of 256
    bytes is programmed and read in one transfer; the structure [QspiData_t] is
    copied into it byte for byte.  [QspiGatherData] reads the channel's registers
    and scale factors, [QspiDisperseData] writes them back. *)

From S2P Require Import Prelude Words Floats Machine Regs.

Record QspiData_t := MkQspiData {
  header : Z;  (* u32 *)
  dac_setpt_offset : Z;  (* s32 *)
  dac_setpt_gain : Z;  (* s32 *)
  dcct1_offset : Z;  (* u32 *)
  dcct1_gain : Z;  (* u32 *)
  dcct2_offset : Z;  (* u32 *)
  dcct2_gain : Z;  (* u32 *)
  dacmon_offset : Z;  (* s32 *)
  dacmon_gain : Z;  (* s32 *)
  volt_offset : Z;  (* s32 *)
  volt_gain : Z;  (* s32 *)
  gnd_offset : Z;  (* s32 *)
  gnd_gain : Z;  (* s32 *)
  spare_offset : Z;  (* s32 *)
  spare_gain : Z;  (* s32 *)
  reg_offset : Z;  (* s32 *)
  reg_gain : Z;  (* s32 *)
  error_offset : Z;  (* s32 *)
  error_gain : Z;  (* s32 *)
  ovc1_thresh : Z;  (* u32 *)
  ovc2_thresh : Z;  (* u32 *)
  ovv_thresh : Z;  (* u32 *)
  err1_thresh : Z;  (* u32 *)
  err2_thresh : Z;  (* u32 *)
  ignd_thresh : Z;  (* u32 *)
  ovc1_cntlim : Z;  (* u32 *)
  ovc2_cntlim : Z;  (* u32 *)
  ovv_cntlim : Z;  (* u32 *)
  err1_cntlim : Z;  (* u32 *)
  err2_cntlim : Z;  (* u32 *)
  ignd_cntlim : Z;  (* u32 *)
  dcct_cntlim : Z;  (* u32 *)
  flt1_cntlim : Z;  (* u32 *)
  flt2_cntlim : Z;  (* u32 *)
  flt3_cntlim : Z;  (* u32 *)
  on_cntlim : Z;  (* u32 *)
  heartbeat_cntlim : Z;  (* u32 *)
  fault_mask : Z;  (* u32 *)
  sf_ampspersec : Z;  (* float *)
  sf_dac_dccts : Z;  (* float *)
  sf_vout : Z;  (* float *)
  sf_ignd : Z;  (* float *)
  sf_spare : Z;  (* float *)
  sf_regulator : Z;  (* float *)
  sf_error : Z;  (* float *)
}.

(** The structure in memory: 45 words without padding. *)
Definition qspi_words (d : QspiData_t) : list Z := [
  d.(header); u32 (d.(dac_setpt_offset)); u32 (d.(dac_setpt_gain)); d.(dcct1_offset); d.(dcct1_gain); d.(dcct2_offset); d.(dcct2_gain); u32 (d.(dacmon_offset)); u32 (d.(dacmon_gain)); u32 (d.(volt_offset)); u32 (d.(volt_gain)); u32 (d.(gnd_offset)); u32 (d.(gnd_gain)); u32 (d.(spare_offset)); u32 (d.(spare_gain)); u32 (d.(reg_offset)); u32 (d.(reg_gain)); u32 (d.(error_offset)); u32 (d.(error_gain)); d.(ovc1_thresh); d.(ovc2_thresh); d.(ovv_thresh); d.(err1_thresh); d.(err2_thresh); d.(ignd_thresh); d.(ovc1_cntlim); d.(ovc2_cntlim); d.(ovv_cntlim); d.(err1_cntlim); d.(err2_cntlim); d.(ignd_cntlim); d.(dcct_cntlim); d.(flt1_cntlim); d.(flt2_cntlim); d.(flt3_cntlim); d.(on_cntlim); d.(heartbeat_cntlim); d.(fault_mask); d.(sf_ampspersec); d.(sf_dac_dccts); d.(sf_vout); d.(sf_ignd); d.(sf_spare); d.(sf_regulator); d.(sf_error) ].

Definition qspi_of_words (w : list Z) : option QspiData_t :=
  match w with
  | [w0; w1; w2; w3; w4; w5; w6; w7; w8; w9; w10; w11; w12; w13; w14; w15; w16; w17; w18; w19; w20; w21; w22; w23; w24; w25; w26; w27; w28; w29; w30; w31; w32; w33; w34; w35; w36; w37; w38; w39; w40; w41; w42; w43; w44] =>
      Some (MkQspiData w0 (s32 w1) (s32 w2) w3 w4 w5 w6 (s32 w7) (s32 w8) (s32 w9) (s32 w10) (s32 w11) (s32 w12) (s32 w13) (s32 w14) (s32 w15) (s32 w16) (s32 w17) (s32 w18) w19 w20 w21 w22 w23 w24 w25 w26 w27 w28 w29 w30 w31 w32 w33 w34 w35 w36 w37 w38 w39 w40 w41 w42 w43 w44)
  | _ => None
  end.

Definition QSPI_WORDS : nat := 45.

(** [memcpy(writebuf, &qspidata, sizeof(qspidata))] and back *)
Definition qspi_store (d : QspiData_t) (buf : list Z) : res (list Z) :=
  if (4 * QSPI_WORDS <=? length buf)%nat
  then Ok (bytes_of_words (qspi_words d) ++ drop (4 * QSPI_WORDS) buf)
  else Ub (ub_index (Z.of_nat (length buf)) (Z.of_nat (length buf))).

Definition qspi_load (buf : list Z) : res QspiData_t :=
  match mapM (load32 buf) (Z.of_nat <$> seq 0 QSPI_WORDS) with
  | Ok ws => match qspi_of_words ws with Some d => Ok d | None => Ub (ub_index 0 0) end
  | Ub u => Ub u
  end.

Section qspi.
Context `{Platform, Runtime}.

Definition address_bytes (Address : Z) : list Z :=
  [ u8 (Z.shiftr (Z.land Address 0xFF0000) 16);
    u8 (Z.shiftr (Z.land Address 0xFF00) 8);
    u8 (Z.land Address 0xFF) ].

(** The transfer sends [ByteCount] bytes starting at the four-byte array
    [WriteBuf]: the bytes after the command come from the stack behind it. *)
Definition QspiFlashRead (Address : Z) (ByteCount : nat) : M (list Z) :=
  PolledTransfer (FLASH_READ_CMD :: address_bytes Address ++ stack_bytes (ByteCount - 4)).

(** The busy-wait loop on bit 0 of the flash status register. *)
Fixpoint wait_ready (fuel : nat) : M unit :=
  match fuel with
  | O => undefined ub_nonterm
  | S fuel =>
      FlashStatus ← PolledTransfer [FLASH_READ_STATUS_CMD; 0];
      if Z.land (default 0 (FlashStatus !! 1%nat)) 0x01 =? 0
      then mret tt else wait_ready fuel
  end.

(** The command overwrites the first four bytes of [WriteBuf], which is returned. *)
Definition QspiFlashWrite (Address : Z) (WriteBuf : list Z) : M (list Z) :=
  _ ← PolledTransfer [FLASH_WRITE_ENABLE_CMD];
  let WriteBuf := FLASH_WRITE_CMD :: address_bytes Address ++ drop 4 WriteBuf in
  _ ← PolledTransfer WriteBuf;
  wait_ready poll_fuel;;
  mret WriteBuf.

Definition QspiFlashEraseSect (sector : Z) : M unit :=
  let Address := u32 (sector * FLASH_SECTOR_SIZE) in
  _ ← PolledTransfer [FLASH_WRITE_ENABLE_CMD];
  _ ← PolledTransfer
        [ FLASH_SECTOR_ERASE_CMD;
          u8 (Z.land (Z.shiftr Address 16) 0xFF);
          u8 (Z.land (Z.shiftr Address 8) 0xFF);
          u8 (Z.land Address 0xFF) ];
  wait_ready poll_fuel.

(** [header] of the local structure is never assigned. *)
Definition QspiGatherData (chan : Z) (writebuf : list Z) : M (list Z) :=
  let base := XPAR_M_AXI_BASEADDR + chan * CHBASEADDR in
  dac_setpt_offset0 ← Xil_In32 (base + DAC_SETPT_OFFSET_REG);
  dac_setpt_gain0 ← Xil_In32 (base + DAC_SETPT_GAIN_REG);
  dcct1_offset0 ← Xil_In32 (base + DCCT1_OFFSET_REG);
  dcct1_gain0 ← Xil_In32 (base + DCCT1_GAIN_REG);
  dcct2_offset0 ← Xil_In32 (base + DCCT2_OFFSET_REG);
  dcct2_gain0 ← Xil_In32 (base + DCCT2_GAIN_REG);
  dacmon_offset0 ← Xil_In32 (base + DACMON_OFFSET_REG);
  dacmon_gain0 ← Xil_In32 (base + DACMON_GAIN_REG);
  volt_offset0 ← Xil_In32 (base + VOLT_OFFSET_REG);
  volt_gain0 ← Xil_In32 (base + VOLT_GAIN_REG);
  gnd_offset0 ← Xil_In32 (base + GND_OFFSET_REG);
  gnd_gain0 ← Xil_In32 (base + GND_GAIN_REG);
  spare_offset0 ← Xil_In32 (base + SPARE_OFFSET_REG);
  spare_gain0 ← Xil_In32 (base + SPARE_GAIN_REG);
  reg_offset0 ← Xil_In32 (base + REG_OFFSET_REG);
  reg_gain0 ← Xil_In32 (base + REG_GAIN_REG);
  error_offset0 ← Xil_In32 (base + ERR_OFFSET_REG);
  error_gain0 ← Xil_In32 (base + ERR_GAIN_REG);
  ovc1_thresh0 ← Xil_In32 (base + OVC1_THRESH_REG);
  ovc2_thresh0 ← Xil_In32 (base + OVC2_THRESH_REG);
  ovv_thresh0 ← Xil_In32 (base + OVV_THRESH_REG);
  err1_thresh0 ← Xil_In32 (base + ERR1_THRESH_REG);
  err2_thresh0 ← Xil_In32 (base + ERR2_THRESH_REG);
  ignd_thresh0 ← Xil_In32 (base + IGND_THRESH_REG);
  ovc1_cntlim0 ← Xil_In32 (base + OVC1_CNTLIM_REG);
  ovc2_cntlim0 ← Xil_In32 (base + OVC2_CNTLIM_REG);
  ovv_cntlim0 ← Xil_In32 (base + OVV_CNTLIM_REG);
  err1_cntlim0 ← Xil_In32 (base + ERR1_CNTLIM_REG);
  err2_cntlim0 ← Xil_In32 (base + ERR2_CNTLIM_REG);
  ignd_cntlim0 ← Xil_In32 (base + IGND_CNTLIM_REG);
  dcct_cntlim0 ← Xil_In32 (base + DCCT_CNTLIM_REG);
  flt1_cntlim0 ← Xil_In32 (base + FLT1_CNTLIM_REG);
  flt2_cntlim0 ← Xil_In32 (base + FLT2_CNTLIM_REG);
  flt3_cntlim0 ← Xil_In32 (base + FLT3_CNTLIM_REG);
  on_cntlim0 ← Xil_In32 (base + ON_CNTLIM_REG);
  heartbeat_cntlim0 ← Xil_In32 (base + HEARTBEAT_CNTLIM_REG);
  fault_mask0 ← Xil_In32 (base + FAULT_MASK_REG);
  sf ← get_scalefactor (chan - 1);
  let qspidata := MkQspiData (le_word (stack_bytes 4))
    (s32 dac_setpt_offset0) (s32 dac_setpt_gain0) (u32 (s32 dcct1_offset0)) (u32 (s32 dcct1_gain0))
    (u32 (s32 dcct2_offset0)) (u32 (s32 dcct2_gain0)) (s32 dacmon_offset0) (s32 dacmon_gain0)
    (s32 volt_offset0) (s32 volt_gain0) (s32 gnd_offset0) (s32 gnd_gain0) (s32 spare_offset0)
    (s32 spare_gain0) (s32 reg_offset0) (s32 reg_gain0) (s32 error_offset0) (s32 error_gain0)
    (u32 (s32 ovc1_thresh0)) (u32 (s32 ovc2_thresh0)) ovv_thresh0 err1_thresh0 err2_thresh0
    ignd_thresh0 ovc1_cntlim0 ovc2_cntlim0 ovv_cntlim0 err1_cntlim0 err2_cntlim0 ignd_cntlim0
    dcct_cntlim0 flt1_cntlim0 flt2_cntlim0 flt3_cntlim0 on_cntlim0 heartbeat_cntlim0
    fault_mask0
    (sf.(ampspersec)) (sf.(dac_dccts)) (sf.(vout)) (sf.(ignd)) (sf.(spare)) (sf.(regulator)) (sf.(error)) in
  lift (qspi_store qspidata writebuf).

Definition QspiDisperseData (chan : Z) (readbuf : list Z) : M unit :=
  qspidata ← lift (qspi_load readbuf);
  let base := XPAR_M_AXI_BASEADDR + chan * CHBASEADDR in
  Xil_Out32 (base + DAC_SETPT_OFFSET_REG) (qspidata.(dac_setpt_offset));;
  Xil_Out32 (base + DAC_SETPT_GAIN_REG) (qspidata.(dac_setpt_gain));;
  Xil_Out32 (base + DCCT1_OFFSET_REG) (qspidata.(dcct1_offset));;
  Xil_Out32 (base + DCCT1_GAIN_REG) (qspidata.(dcct1_gain));;
  Xil_Out32 (base + DCCT2_OFFSET_REG) (qspidata.(dcct2_offset));;
  Xil_Out32 (base + DCCT2_GAIN_REG) (qspidata.(dcct2_gain));;
  Xil_Out32 (base + DACMON_OFFSET_REG) (qspidata.(dacmon_offset));;
  Xil_Out32 (base + DACMON_GAIN_REG) (qspidata.(dacmon_gain));;
  Xil_Out32 (base + VOLT_OFFSET_REG) (qspidata.(volt_offset));;
  Xil_Out32 (base + VOLT_GAIN_REG) (qspidata.(volt_gain));;
  Xil_Out32 (base + GND_OFFSET_REG) (qspidata.(gnd_offset));;
  Xil_Out32 (base + GND_GAIN_REG) (qspidata.(gnd_gain));;
  Xil_Out32 (base + SPARE_OFFSET_REG) (qspidata.(spare_offset));;
  Xil_Out32 (base + SPARE_GAIN_REG) (qspidata.(spare_gain));;
  Xil_Out32 (base + REG_OFFSET_REG) (qspidata.(reg_offset));;
  Xil_Out32 (base + REG_GAIN_REG) (qspidata.(reg_gain));;
  Xil_Out32 (base + ERR_OFFSET_REG) (qspidata.(error_offset));;
  Xil_Out32 (base + ERR_GAIN_REG) (qspidata.(error_gain));;
  Xil_Out32 (base + OVC1_THRESH_REG) (qspidata.(ovc1_thresh));;
  Xil_Out32 (base + OVC2_THRESH_REG) (qspidata.(ovc2_thresh));;
  Xil_Out32 (base + OVV_THRESH_REG) (qspidata.(ovv_thresh));;
  Xil_Out32 (base + ERR1_THRESH_REG) (qspidata.(err1_thresh));;
  Xil_Out32 (base + ERR2_THRESH_REG) (qspidata.(err2_thresh));;
  Xil_Out32 (base + IGND_THRESH_REG) (qspidata.(ignd_thresh));;
  Xil_Out32 (base + OVC1_CNTLIM_REG) (qspidata.(ovc1_cntlim));;
  Xil_Out32 (base + OVC2_CNTLIM_REG) (qspidata.(ovc2_cntlim));;
  Xil_Out32 (base + OVV_CNTLIM_REG) (qspidata.(ovv_cntlim));;
  Xil_Out32 (base + ERR1_CNTLIM_REG) (qspidata.(err1_cntlim));;
  Xil_Out32 (base + ERR2_CNTLIM_REG) (qspidata.(err2_cntlim));;
  Xil_Out32 (base + IGND_CNTLIM_REG) (qspidata.(ignd_cntlim));;
  Xil_Out32 (base + DCCT_CNTLIM_REG) (qspidata.(dcct_cntlim));;
  Xil_Out32 (base + FLT1_CNTLIM_REG) (qspidata.(flt1_cntlim));;
  Xil_Out32 (base + FLT2_CNTLIM_REG) (qspidata.(flt2_cntlim));;
  Xil_Out32 (base + FLT3_CNTLIM_REG) (qspidata.(flt3_cntlim));;
  Xil_Out32 (base + ON_CNTLIM_REG) (qspidata.(on_cntlim));;
  Xil_Out32 (base + HEARTBEAT_CNTLIM_REG) (qspidata.(heartbeat_cntlim));;
  Xil_Out32 (base + FAULT_MASK_REG) (qspidata.(fault_mask));;
  update_scalefactor (chan - 1) (λ sf, MkSF (qspidata.(sf_ampspersec)) (sf.(dac_dccts)) (sf.(vout)) (sf.(ignd)) (sf.(spare)) (sf.(regulator)) (sf.(error)));;
  update_scalefactor (chan - 1) (λ sf, MkSF (sf.(ampspersec)) (qspidata.(sf_dac_dccts)) (sf.(vout)) (sf.(ignd)) (sf.(spare)) (sf.(regulator)) (sf.(error)));;
  update_scalefactor (chan - 1) (λ sf, MkSF (sf.(ampspersec)) (sf.(dac_dccts)) (qspidata.(sf_vout)) (sf.(ignd)) (sf.(spare)) (sf.(regulator)) (sf.(error)));;
  update_scalefactor (chan - 1) (λ sf, MkSF (sf.(ampspersec)) (sf.(dac_dccts)) (sf.(vout)) (qspidata.(sf_ignd)) (sf.(spare)) (sf.(regulator)) (sf.(error)));;
  update_scalefactor (chan - 1) (λ sf, MkSF (sf.(ampspersec)) (sf.(dac_dccts)) (sf.(vout)) (sf.(ignd)) (qspidata.(sf_spare)) (sf.(regulator)) (sf.(error)));;
  update_scalefactor (chan - 1) (λ sf, MkSF (sf.(ampspersec)) (sf.(dac_dccts)) (sf.(vout)) (sf.(ignd)) (sf.(spare)) (qspidata.(sf_regulator)) (sf.(error)));;
  update_scalefactor (chan - 1) (λ sf, MkSF (sf.(ampspersec)) (sf.(dac_dccts)) (sf.(vout)) (sf.(ignd)) (sf.(spare)) (sf.(regulator)) (qspidata.(sf_error))).

Definition InitSettingsfromQspi : M unit :=
  Xil_Out32 (XPAR_M_AXI_BASEADDR + EVR_INJ_EVENTNUM_REG) 10;;
  Xil_Out32 (XPAR_M_AXI_BASEADDR + EVR_PM_EVENTNUM_REG) 10;;
  for_range 1 4 (λ chan,
    readbuf ← QspiFlashRead (chan * FLASH_SECTOR_SIZE) (Z.to_nat FLASH_PAGE_SIZE);
    QspiDisperseData chan readbuf).
End qspi.

(** ** Layout of the stored structure *)

Definition qspi_sf (sf : ScaleFactorType) : list Z :=
  [ampspersec sf; dac_dccts sf; vout sf; ignd sf; spare sf; regulator sf; error sf].

(** The registers a channel's settings consist of, in the order of the structure. *)
Definition qspi_regs : list Z := [
  DAC_SETPT_OFFSET_REG; DAC_SETPT_GAIN_REG; DCCT1_OFFSET_REG; DCCT1_GAIN_REG;
  DCCT2_OFFSET_REG; DCCT2_GAIN_REG; DACMON_OFFSET_REG; DACMON_GAIN_REG;
  VOLT_OFFSET_REG; VOLT_GAIN_REG; GND_OFFSET_REG; GND_GAIN_REG;
  SPARE_OFFSET_REG; SPARE_GAIN_REG; REG_OFFSET_REG; REG_GAIN_REG;
  ERR_OFFSET_REG; ERR_GAIN_REG; OVC1_THRESH_REG; OVC2_THRESH_REG;
  OVV_THRESH_REG; ERR1_THRESH_REG; ERR2_THRESH_REG; IGND_THRESH_REG;
  OVC1_CNTLIM_REG; OVC2_CNTLIM_REG; OVV_CNTLIM_REG; ERR1_CNTLIM_REG;
  ERR2_CNTLIM_REG; IGND_CNTLIM_REG; DCCT_CNTLIM_REG; FLT1_CNTLIM_REG;
  FLT2_CNTLIM_REG; FLT3_CNTLIM_REG; ON_CNTLIM_REG; HEARTBEAT_CNTLIM_REG;
  FAULT_MASK_REG ].

(** What the page holds from byte 4 on: the register words, then the scale factors. *)
Definition qspi_body (regs : list Z) (sf : ScaleFactorType) : list Z :=
  bytes_of_words (regs ++ qspi_sf sf).

Definition sf_wf (sf : ScaleFactorType) : Prop := Forall is_u32 (qspi_sf sf).

(** The structure read from a page whose words are [hdr :: regs ++ qspi_sf sf]. *)
Lemma mapM_load32 ws tl :
  Forall is_u32 ws →
  mapM (load32 (bytes_of_words ws ++ tl)) (Z.of_nat <$> seq 0 (length ws)) = Ok ws.
Proof.
  intros Hws.
  assert (∀ k pre suf, ws = pre ++ suf → length pre = k →
    mapM (load32 (bytes_of_words ws ++ tl)) (Z.of_nat <$> seq k (length suf)) = Ok suf) as Hgen.
  { intros k pre suf. revert k pre. induction suf as [|w suf IH]; intros k pre Hsplit Hk; [done|].
    cbn [length seq fmap list_fmap mapM].
    assert (ws !! k = Some w) as Hw.
    { rewrite Hsplit, lookup_app_r, Hk, Nat.sub_diag by lia. done. }
    rewrite (load32_words _ _ _ _ Hw) by (by eapply Forall_lookup_1).
    cbn [mbind res_bind]. rewrite (IH (S k) (pre ++ [w])); [done| |].
    - by rewrite <- app_assoc.
    - rewrite length_app. cbn. lia. }
  by apply (Hgen 0%nat []).
Qed.

(** Projections of a concrete structure. *)
Ltac qspi_proj :=
  cbn [header dac_setpt_offset dac_setpt_gain dcct1_offset dcct1_gain dcct2_offset
       dcct2_gain dacmon_offset dacmon_gain volt_offset volt_gain gnd_offset gnd_gain
       spare_offset spare_gain reg_offset reg_gain error_offset error_gain
       ovc1_thresh ovc2_thresh ovv_thresh err1_thresh err2_thresh ignd_thresh
       ovc1_cntlim ovc2_cntlim ovv_cntlim err1_cntlim err2_cntlim ignd_cntlim
       dcct_cntlim flt1_cntlim flt2_cntlim flt3_cntlim on_cntlim heartbeat_cntlim
       fault_mask sf_ampspersec sf_dac_dccts sf_vout sf_ignd sf_spare sf_regulator
       sf_error].

Section qspi_lemmas.
Context `{Platform, Runtime}.

Definition chan_addr (chan r : Z) : Z := XPAR_M_AXI_BASEADDR + chan * CHBASEADDR + r.

Lemma out32_s32 a v s : out32 a (s32 v) s = out32 a v s.
Proof. unfold out32. by rewrite u32_s32. Qed.

Lemma run_in32_plain {A} plain `{!PlainRegisters _ plain} a (k : Z → M A) s :
  plain (u32 a) → (Xil_In32 a ≫= k) s = k (pl_in32 (u32 a) (pl s)).1 s.
Proof.
  intros Ha. unfold mbind, M_bind, Xil_In32.
  pose proof (plain_read _ (pl s) Ha) as Hr. pose proof (plain_u32 _ (pl s) Ha) as Hv.
  destruct (pl_in32 (u32 a) (pl s)) as [v p]; cbn in *. subst p.
  rewrite u32_id by done. by destruct s.
Qed.

Definition read_regs (regs : list Z) (p : PL) : list Z :=
  (λ r, (pl_in32 (u32 r) p).1) <$> regs.

Lemma run_Gather plain `{!PlainRegisters _ plain} chan wb s sf :
  1 ≤ chan ≤ 4 → scalefactors s !! Z.to_nat (chan - 1) = Some sf →
  Forall plain (u32 <$> (chan_addr chan <$> qspi_regs)) →
  (180 ≤ length wb)%nat →
  QspiGatherData chan wb s =
  Ok (bytes_of_words (le_word (stack_bytes 4) ::
        read_regs (chan_addr chan <$> qspi_regs) (pl s) ++ qspi_sf sf) ++ drop 180 wb, s).
Proof.
  intros Hchan Hsf Hplain Hwb. unfold QspiGatherData.
  assert (∀ r, r ∈ qspi_regs → plain (u32 (chan_addr chan r))) as Hp.
  { intros r Hr. rewrite Forall_fmap, Forall_fmap in Hplain.
    by eapply (Forall_forall _ _) in Hplain. }
  assert (∀ r, r ∈ qspi_regs → is_u32 (pl_in32 (u32 (chan_addr chan r)) (pl s)).1) as Hu.
  { intros r Hr. by apply plain_u32, Hp. }
  unfold chan_addr in Hp.
  repeat (rewrite (run_in32_plain plain) by (apply Hp; list_elem)).
  rewrite (run_bind _ _ _ _ _ (run_get_scalefactor (chan - 1) s sf ltac:(lia) Hsf)).
  unfold qspi_store, QSPI_WORDS.
  assert ((4 * 45 <=? length wb)%nat = true) as -> by (apply Nat.leb_le; lia).
  unfold lift.
  lazymatch goal with
  | |- Ok (bytes_of_words ?x ++ _, _) = Ok (bytes_of_words ?y ++ _, _) =>
      enough (x = y) as -> by done
  end.
  unfold qspi_words, read_regs, qspi_regs, qspi_sf, chan_addr.
  qspi_proj. cbn [fmap list_fmap app].
  repeat (apply (f_equal2 cons);
          [first [rewrite u32_s32; apply u32_id, Hu; list_elem | reflexivity]|]).
  reflexivity.
Qed.

(** The load of a page [hdr ++ qspi_body vs sf ++ tl]. *)
Definition qspi_page (hdr vs : list Z) (sf : ScaleFactorType) (tl : list Z) : list Z :=
  hdr ++ qspi_body vs sf ++ tl.

Lemma qspi_page_words hdr vs sf tl :
  length hdr = 4%nat → Forall is_u8 hdr →
  qspi_page hdr vs sf tl = bytes_of_words (le_word hdr :: vs ++ qspi_sf sf) ++ tl.
Proof.
  intros Hl Hu. unfold qspi_page, qspi_body. rewrite bytes_of_words_cons, <- Hl.
  rewrite le_bytes_word by done. by rewrite <- app_assoc.
Qed.

Lemma qspi_load_page hdr vs sf tl :
  length hdr = 4%nat → Forall is_u8 hdr → length vs = 37%nat → Forall is_u32 vs → sf_wf sf →
  ∃ d, qspi_of_words (le_word hdr :: vs ++ qspi_sf sf) = Some d ∧
       qspi_load (qspi_page hdr vs sf tl) = Ok d.
Proof.
  intros Hl Hu Hvl Hvs Hsf. rewrite qspi_page_words by done.
  assert (length (le_word hdr :: vs ++ qspi_sf sf) = QSPI_WORDS) as Hlen.
  { cbn. rewrite length_app, Hvl. done. }
  assert (Forall is_u32 (le_word hdr :: vs ++ qspi_sf sf)) as Hall.
  { constructor; [|by apply Forall_app].
    pose proof (le_word_range _ Hu) as Hr. rewrite Hl in Hr. exact Hr. }
  unfold qspi_load. rewrite <- Hlen, mapM_load32 by done.
  destruct (qspi_of_words (le_word hdr :: vs ++ qspi_sf sf)) as [d|] eqn:E; [eauto|].
  exfalso. clear -E Hvl.
  do 37 (destruct vs as [|? vs]; [discriminate Hvl|]).
  destruct vs; [discriminate E|discriminate Hvl].
Qed.

Lemma run_update_sf_chain k sf (l : list ScaleFactorType) sf0 :
  l !! k = Some sf0 →
  alter (λ x, MkSF (ampspersec x) (dac_dccts x) (vout x) (ignd x) (spare x) (regulator x) (error sf)) k
 (alter (λ x, MkSF (ampspersec x) (dac_dccts x) (vout x) (ignd x) (spare x) (regulator sf) (error x)) k
 (alter (λ x, MkSF (ampspersec x) (dac_dccts x) (vout x) (ignd x) (spare sf) (regulator x) (error x)) k
 (alter (λ x, MkSF (ampspersec x) (dac_dccts x) (vout x) (ignd sf) (spare x) (regulator x) (error x)) k
 (alter (λ x, MkSF (ampspersec x) (dac_dccts x) (vout sf) (ignd x) (spare x) (regulator x) (error x)) k
 (alter (λ x, MkSF (ampspersec x) (dac_dccts sf) (vout x) (ignd x) (spare x) (regulator x) (error x)) k
 (alter (λ x, MkSF (ampspersec sf) (dac_dccts x) (vout x) (ignd x) (spare x) (regulator x) (error x)) k l))))))
  = <[k := sf]> l.
Proof.
  intros Hl. destruct sf. revert k Hl. induction l as [|x l IH]; intros [|k] Hl; try done.
  cbn in Hl |- *. f_equal. by apply IH.
Qed.

Lemma run_update_then {A} chan f (k : unit → M A) s :
  1 ≤ chan ≤ 4 → (Z.to_nat (chan - 1) < length (scalefactors s))%nat →
  (update_scalefactor (chan - 1) f ≫= k) s =
  k tt (set_scalefactors (alter f (Z.to_nat (chan - 1)) (scalefactors s)) s).
Proof.
  intros Hc Hl. eapply run_bind, run_update_scalefactor; lia.
Qed.

Definition restore_sf (chan : Z) (sf : ScaleFactorType) : M unit :=
  update_scalefactor (chan - 1) (λ x, MkSF (ampspersec sf) (dac_dccts x) (vout x) (ignd x) (spare x) (regulator x) (error x));;
  update_scalefactor (chan - 1) (λ x, MkSF (ampspersec x) (dac_dccts sf) (vout x) (ignd x) (spare x) (regulator x) (error x));;
  update_scalefactor (chan - 1) (λ x, MkSF (ampspersec x) (dac_dccts x) (vout sf) (ignd x) (spare x) (regulator x) (error x));;
  update_scalefactor (chan - 1) (λ x, MkSF (ampspersec x) (dac_dccts x) (vout x) (ignd sf) (spare x) (regulator x) (error x));;
  update_scalefactor (chan - 1) (λ x, MkSF (ampspersec x) (dac_dccts x) (vout x) (ignd x) (spare sf) (regulator x) (error x));;
  update_scalefactor (chan - 1) (λ x, MkSF (ampspersec x) (dac_dccts x) (vout x) (ignd x) (spare x) (regulator sf) (error x));;
  update_scalefactor (chan - 1) (λ x, MkSF (ampspersec x) (dac_dccts x) (vout x) (ignd x) (spare x) (regulator x) (error sf)).

Lemma run_restore_sf chan sf s sf0 :
  1 ≤ chan ≤ 4 → scalefactors s !! Z.to_nat (chan - 1) = Some sf0 →
  restore_sf chan sf s =
  Ok (tt, set_scalefactors (<[Z.to_nat (chan - 1) := sf]> (scalefactors s)) s).
Proof.
  intros Hc Hl. pose proof (lookup_lt_Some _ _ _ Hl) as Hlt. unfold restore_sf.
  do 6 (rewrite run_update_then by (cbn; rewrite ?length_alter; lia)).
  rewrite run_update_scalefactor by (cbn; rewrite ?length_alter; lia).
  cbn. rewrite (run_update_sf_chain _ _ _ _ Hl). done.
Qed.

Definition settings_writes (chan : Z) (vs : list Z) : list (Z * Z) :=
  zip (chan_addr chan <$> qspi_regs) vs.

Lemma run_Disperse chan hdr vs sf tl s sf0 :
  1 ≤ chan ≤ 4 → scalefactors s !! Z.to_nat (chan - 1) = Some sf0 →
  length hdr = 4%nat → Forall is_u8 hdr → length vs = 37%nat → Forall is_u32 vs → sf_wf sf →
  QspiDisperseData chan (qspi_page hdr vs sf tl) s =
  Ok (tt, set_scalefactors (<[Z.to_nat (chan - 1) := sf]> (scalefactors s))
            (out_all (settings_writes chan vs) s)).
Proof.
  intros Hchan Hsf0 Hl Hu Hvl Hvs Hsf.
  destruct (qspi_load_page hdr vs sf tl) as (d & Hd & Hload); [done..|].
  unfold QspiDisperseData. rewrite (run_bind _ _ s d s) by (unfold lift; by rewrite Hload).
  do 37 (destruct vs as [|? vs]; [discriminate Hvl|]).
  destruct vs; [|discriminate Hvl]. clear Hvl Hvs Hload.
  cbn [app qspi_sf qspi_of_words] in Hd. injection Hd as <-.
  unfold settings_writes, qspi_regs, chan_addr. cbn [fmap list_fmap zip].
  repeat rewrite run_out32. qspi_proj. rewrite !out32_s32.
  repeat rewrite out_all_cons. cbn [out_all foldl].
  etransitivity; [eapply (run_restore_sf chan sf _ sf0 Hchan); exact Hsf0|reflexivity].
Qed.
End qspi_lemmas.

(** ** Documented behaviour of the flash device

    A serial NOR flash with 24-bit addresses, 64 KB erase sectors and 256-byte
    program pages (the commands of [qspi_flash.h]).  [fl_busy] counts the status
    polls until a started erase or program operation is finished. *)

Definition addr24 (a : Z) : list Z := [a / 2 ^ 16; (a / 2 ^ 8) mod 2 ^ 8; a mod 2 ^ 8].

Class FlashLaws `{Platform, Runtime} := {
  fl_mem : FLASH → Z → Z;
  fl_wel : FLASH → bool;
  fl_busy : FLASH → nat;
  fl_mem_u8 : ∀ f x, is_u8 (fl_mem f x);
  fl_write_enable : ∀ f, fl_busy f = 0%nat →
    let f' := (flash_xfer [FLASH_WRITE_ENABLE_CMD] f).2 in
    (∀ x, fl_mem f' x = fl_mem f x) ∧ fl_wel f' = true ∧ fl_busy f' = 0%nat;
  fl_sector_erase : ∀ f a, fl_busy f = 0%nat → fl_wel f = true → 0 ≤ a < 2 ^ 24 →
    let f' := (flash_xfer (FLASH_SECTOR_ERASE_CMD :: addr24 a) f).2 in
    (∀ x, fl_mem f' x =
       if x / FLASH_SECTOR_SIZE =? a / FLASH_SECTOR_SIZE then 0xFF else fl_mem f x) ∧
    (fl_busy f' < poll_fuel)%nat;
  fl_page_program : ∀ f a data, fl_busy f = 0%nat → fl_wel f = true → 0 ≤ a < 2 ^ 24 →
    a mod FLASH_PAGE_SIZE = 0 → Z.of_nat (length data) ≤ FLASH_PAGE_SIZE →
    let f' := (flash_xfer (FLASH_WRITE_CMD :: addr24 a ++ data) f).2 in
    (∀ x, fl_mem f' x =
       match (if a <=? x then data !! Z.to_nat (x - a) else None) with
       | Some d => Z.land (fl_mem f x) d
       | None => fl_mem f x
       end) ∧
    (fl_busy f' < poll_fuel)%nat;
  fl_status : ∀ f dummy,
    let '(rx, f') := flash_xfer [FLASH_READ_STATUS_CMD; dummy] f in
    (∃ b0 st, rx = [b0; st] ∧ Z.testbit st 0 = (0 <? fl_busy f)%nat) ∧
    (∀ x, fl_mem f' x = fl_mem f x) ∧ fl_busy f' = pred (fl_busy f);
  fl_read : ∀ f a rest, fl_busy f = 0%nat → 0 ≤ a < 2 ^ 24 →
    let '(rx, f') := flash_xfer (FLASH_READ_CMD :: addr24 a ++ rest) f in
    (∃ hdr, length hdr = 4%nat ∧ Forall is_u8 hdr ∧
       rx = hdr ++ ((λ i, fl_mem f (a + Z.of_nat i)) <$> seq 0 (length rest))) ∧
    (∀ x, fl_mem f' x = fl_mem f x) ∧ fl_busy f' = 0%nat;
}.

Section flash.
Context `{Platform, Runtime, !FlashLaws}.

(** A state that differs from [s] by flash transfers only. *)
Definition flash_only (s s' : psc) : Prop :=
  pl s' = pl s ∧ eeprom s' = eeprom s ∧ scalefactors s' = scalefactors s ∧
  CONVVOLTSTODACBITS s' = CONVVOLTSTODACBITS s ∧ CONVDACBITSTOVOLTS s' = CONVDACBITSTOVOLTS s.

#[global] Instance flash_only_preorder : PreOrder flash_only.
Proof.
  split; [done|]. intros s1 s2 s3 (?&?&?&?&?) (?&?&?&?&?). repeat split; congruence.
Qed.

Lemma flash_only_PolledTransfer tx : keeps flash_only (PolledTransfer tx).
Proof.
  intros s a s'. unfold PolledTransfer. destruct (flash_xfer tx (flash s)).
  by intros [= <- <-].
Qed.

Lemma address_bytes_addr24 a : 0 ≤ a < 2 ^ 24 → address_bytes a = addr24 a.
Proof.
  intros Ha. unfold address_bytes, addr24, u8.
  change 0xFF0000 with (Z.shiftl (Z.ones 8) 16). change 0xFF00 with (Z.shiftl (Z.ones 8) 8).
  rewrite !Z.shiftr_land, !Z.shiftr_shiftl_l by lia.
  change 0xFF with (Z.ones 8). rewrite !Z.sub_diag, !Z.shiftl_0_r.
  rewrite !Z.land_ones, !Z.shiftr_div_pow2 by lia.
  rewrite !Z.mod_mod by lia.
  f_equal. apply Z.mod_small. zmod_lia.
Qed.

Lemma erase_bytes_addr24 a : 0 ≤ a < 2 ^ 24 →
  [u8 (Z.land (Z.shiftr a 16) 0xFF); u8 (Z.land (Z.shiftr a 8) 0xFF); u8 (Z.land a 0xFF)]
  = addr24 a.
Proof.
  intros Ha. unfold addr24, u8. change 0xFF with (Z.ones 8).
  rewrite !Z.land_ones, !Z.shiftr_div_pow2 by lia. rewrite !Z.mod_mod by lia.
  f_equal. apply Z.mod_small. zmod_lia.
Qed.

(** The wait loop leaves when the device is ready, without undefined behaviour. *)
Lemma run_wait_ready fuel s :
  (fl_busy (flash s) < fuel)%nat →
  ∃ s', wait_ready fuel s = Ok (tt, s') ∧ flash_only s s' ∧
        (∀ x, fl_mem (flash s') x = fl_mem (flash s) x) ∧ fl_busy (flash s') = 0%nat.
Proof.
  revert s. induction fuel as [|fuel IH]; intros s Hb; [lia|].
  cbn [wait_ready]. pose proof (fl_status (flash s) 0) as Hst.
  destruct (flash_xfer [FLASH_READ_STATUS_CMD; 0] (flash s)) as [rx f'] eqn:E.
  destruct Hst as ((b0 & st & -> & Hbit) & Hmem & Hbusy).
  set (s1 := add_event (QspiXfer [FLASH_READ_STATUS_CMD; 0]) (set_flash f' s)).
  assert (PolledTransfer [FLASH_READ_STATUS_CMD; 0] s = Ok ([b0; st], s1)) as Hrun.
  { unfold PolledTransfer. by rewrite E. }
  rewrite (run_bind _ _ _ _ _ Hrun). cbn [lookup list_lookup default from_option id].
  change 0x01 with (Z.ones 1). rewrite Z.land_ones, <- Z.bit0_mod, Hbit by lia.
  destruct (Nat.ltb_spec 0 (fl_busy (flash s))) as [Hpos|Hz]; cbn.
  - destruct (IH s1) as (s' & Hr & Hfo & Hm & Hb'); [cbn; lia|].
    exists s'. split; [exact Hr|]. split; [exact Hfo|]. split; [|done].
    intros x. rewrite Hm. apply Hmem.
  - exists s1. split; [done|]. split; [done|]. split; [exact Hmem|cbn; lia].
Qed.

Lemma run_PolledTransfer tx s :
  ∃ s1, PolledTransfer tx s = Ok ((flash_xfer tx (flash s)).1, s1) ∧
        flash s1 = (flash_xfer tx (flash s)).2 ∧ flash_only s s1.
Proof.
  destruct (flash_xfer tx (flash s)) as [rx f] eqn:E.
  exists (add_event (QspiXfer tx) (set_flash f s)).
  split; [|by split]. unfold PolledTransfer. by rewrite E.
Qed.

Lemma run_EraseSect c s :
  0 ≤ c < 256 → fl_busy (flash s) = 0%nat →
  ∃ s', QspiFlashEraseSect c s = Ok (tt, s') ∧ flash_only s s' ∧
    fl_busy (flash s') = 0%nat ∧
    (∀ x, fl_mem (flash s') x =
       if x / FLASH_SECTOR_SIZE =? c then 0xFF else fl_mem (flash s) x).
Proof.
  intros Hc Hb. unfold QspiFlashEraseSect.
  assert (u32 (c * FLASH_SECTOR_SIZE) = c * FLASH_SECTOR_SIZE) as ->.
  { apply u32_id. unfold is_u32, FLASH_SECTOR_SIZE. lia. }
  rewrite erase_bytes_addr24 by (unfold FLASH_SECTOR_SIZE; lia).
  destruct (run_PolledTransfer [FLASH_WRITE_ENABLE_CMD] s) as (s1 & Hr1 & Hf1 & Ho1).
  rewrite (run_bind _ _ _ _ _ Hr1).
  destruct (fl_write_enable _ Hb) as (Hm1 & Hw1 & Hb1). rewrite <- Hf1 in Hm1, Hw1, Hb1.
  destruct (run_PolledTransfer (FLASH_SECTOR_ERASE_CMD :: addr24 (c * FLASH_SECTOR_SIZE)) s1)
    as (s2 & Hr2 & Hf2 & Ho2). rewrite (run_bind _ _ _ _ _ Hr2).
  destruct (fl_sector_erase _ (c * FLASH_SECTOR_SIZE) Hb1 Hw1) as (Hm2 & Hb2);
    [unfold FLASH_SECTOR_SIZE; lia|]. rewrite <- Hf2 in Hm2, Hb2.
  destruct (run_wait_ready poll_fuel s2 Hb2) as (s' & -> & Ho3 & Hm3 & Hb3).
  exists s'. split; [done|]. split; [by etrans; [|etrans]|]. split; [done|].
  intros x. rewrite Hm3, Hm2, Hm1. unfold FLASH_SECTOR_SIZE.
  by rewrite (Z.div_mul c) by lia.
Qed.

Lemma run_FlashWrite a wb s :
  0 ≤ a < 2 ^ 24 → a mod FLASH_PAGE_SIZE = 0 → length wb = Z.to_nat FLASH_PAGE_SIZE →
  fl_busy (flash s) = 0%nat →
  ∃ s' wb', QspiFlashWrite a wb s = Ok (wb', s') ∧ flash_only s s' ∧
    fl_busy (flash s') = 0%nat ∧ length wb' = length wb ∧
    (∀ x, fl_mem (flash s') x =
       match (if a <=? x then drop 4 wb !! Z.to_nat (x - a) else None) with
       | Some d => Z.land (fl_mem (flash s) x) d
       | None => fl_mem (flash s) x
       end).
Proof.
  intros Ha Hp Hl Hb. unfold QspiFlashWrite. rewrite address_bytes_addr24 by done.
  destruct (run_PolledTransfer [FLASH_WRITE_ENABLE_CMD] s) as (s1 & Hr1 & Hf1 & Ho1).
  rewrite (run_bind _ _ _ _ _ Hr1).
  destruct (fl_write_enable _ Hb) as (Hm1 & Hw1 & Hb1). rewrite <- Hf1 in Hm1, Hw1, Hb1.
  cbv zeta.
  destruct (run_PolledTransfer (FLASH_WRITE_CMD :: addr24 a ++ drop 4 wb) s1)
    as (s2 & Hr2 & Hf2 & Ho2). rewrite (run_bind _ _ _ _ _ Hr2).
  destruct (fl_page_program _ a (drop 4 wb) Hb1 Hw1 Ha Hp) as (Hm2 & Hb2).
  { rewrite length_drop, Hl. unfold FLASH_PAGE_SIZE. lia. }
  rewrite <- Hf2 in Hm2, Hb2.
  destruct (run_wait_ready poll_fuel s2 Hb2) as (s' & Hr & Ho3 & Hm3 & Hb3).
  rewrite (run_bind _ _ _ _ _ Hr). eexists _, _. split; [done|].
  split; [by etrans; [|etrans]|]. split; [done|]. split.
  - cbn. rewrite length_drop, Hl. unfold FLASH_PAGE_SIZE. lia.
  - intros x. by rewrite Hm3, Hm2, Hm1.
Qed.

Lemma run_FlashRead a n s :
  0 ≤ a < 2 ^ 24 → (4 ≤ n)%nat → fl_busy (flash s) = 0%nat →
  ∃ s' hdr, length hdr = 4%nat ∧ Forall is_u8 hdr ∧
    QspiFlashRead a n s =
      Ok (hdr ++ ((λ i, fl_mem (flash s) (a + Z.of_nat i)) <$> seq 0 (n - 4)), s') ∧
    flash_only s s' ∧ fl_busy (flash s') = 0%nat ∧
    (∀ x, fl_mem (flash s') x = fl_mem (flash s) x) ∧
    events s' = events s ++
      [QspiXfer (FLASH_READ_CMD :: addr24 a ++ stack_bytes (n - 4))].
Proof.
  intros Ha Hn Hb. unfold QspiFlashRead. rewrite address_bytes_addr24 by done.
  pose proof (fl_read (flash s) a (stack_bytes (n - 4)) Hb Ha) as Hr.
  rewrite stack_bytes_length in Hr.
  set (tx := FLASH_READ_CMD :: addr24 a ++ stack_bytes (n - 4)) in *.
  destruct (flash_xfer tx (flash s)) as [rx f'] eqn:E.
  destruct Hr as ((hdr & Hl & Hu & ->) & Hm & Hb').
  exists (add_event (QspiXfer tx) (set_flash f' s)), hdr.
  split; [done|]. split; [done|]. split; [|by split].
  unfold PolledTransfer. by rewrite E.
Qed.

(** Sector [c] holds the settings [vs], [sf]. *)
Definition stored (c : Z) (vs : list Z) (sf : ScaleFactorType) (f : FLASH) : Prop :=
  ∃ tl, length (qspi_body vs sf ++ tl) = 252%nat ∧
    ∀ i b, (qspi_body vs sf ++ tl) !! i = Some b →
      fl_mem f (c * FLASH_SECTOR_SIZE + Z.of_nat i) = b.

Lemma stored_mem c vs sf f f' :
  (∀ x, x / FLASH_SECTOR_SIZE = c → fl_mem f' x = fl_mem f x) →
  stored c vs sf f → stored c vs sf f'.
Proof.
  intros Hm (tl & Hlen & Hs). exists tl. split; [done|]. intros i b Hi.
  rewrite Hm; [by apply Hs|]. apply lookup_lt_Some in Hi. rewrite Hlen in Hi.
  unfold FLASH_SECTOR_SIZE. zmod_lia.
Qed.

(** Programming a gathered page into the erased sector of its channel. *)
Lemma run_save_page chan hdr vs sf tl s :
  1 ≤ chan ≤ 4 → fl_busy (flash s) = 0%nat → length hdr = 4%nat →
  (∀ x, x / FLASH_SECTOR_SIZE = chan → fl_mem (flash s) x = 0xFF) →
  length (qspi_page hdr vs sf tl) = Z.to_nat FLASH_PAGE_SIZE →
  Forall is_u8 (qspi_page hdr vs sf tl) →
  ∃ s' wb, QspiFlashWrite (u32 (chan * FLASH_SECTOR_SIZE)) (qspi_page hdr vs sf tl) s
           = Ok (wb, s') ∧
    flash_only s s' ∧ fl_busy (flash s') = 0%nat ∧ stored chan vs sf (flash s') ∧
    (∀ x, x / FLASH_SECTOR_SIZE ≠ chan → fl_mem (flash s') x = fl_mem (flash s) x).
Proof.
  intros Hc Hb Hh Her Hl Hu. unfold FLASH_SECTOR_SIZE, FLASH_PAGE_SIZE in *.
  rewrite u32_id by (unfold is_u32; lia).
  destruct (run_FlashWrite (chan * 0x10000) (qspi_page hdr vs sf tl) s)
    as (s' & wb & Hr & Ho & Hb' & _ & Hm); [lia|unfold FLASH_PAGE_SIZE; zmod_lia|done|done|].
  unfold qspi_page in Hm, Hl, Hu. rewrite drop_app_length' in Hm by done.
  apply Forall_app in Hu as [_ Hu]. rewrite length_app, Hh in Hl.
  exists s', wb. split; [done|]. split; [done|]. split; [done|]. split.
  - exists tl. split; [lia|]. intros i b Hi. unfold FLASH_SECTOR_SIZE. rewrite Hm.
    pose proof (lookup_lt_Some _ _ _ Hi) as Hlt.
    rewrite (proj2 (Z.leb_le _ _)) by lia.
    replace (Z.to_nat _) with i by lia. rewrite Hi, Her by zmod_lia.
    pose proof (Forall_lookup_1 _ _ _ _ Hu Hi) as Hb8.
    rewrite Z.land_comm. change 0xFF with (Z.ones 8). rewrite Z.land_ones by lia.
    by apply Z.mod_small.
  - intros x Hx. rewrite Hm. destruct (Z.leb_spec (chan * 0x10000) x) as [Hge|]; [|done].
    destruct (_ !! _) as [b|] eqn:E; [|done]. exfalso. apply Hx.
    apply lookup_lt_Some in E. zmod_lia.
Qed.

Lemma run_read_stored chan vs sf s :
  1 ≤ chan ≤ 4 → fl_busy (flash s) = 0%nat → stored chan vs sf (flash s) →
  ∃ s' hdr tl, length hdr = 4%nat ∧ Forall is_u8 hdr ∧
    QspiFlashRead (u32 (chan * FLASH_SECTOR_SIZE)) (Z.to_nat FLASH_PAGE_SIZE) s
      = Ok (qspi_page hdr vs sf tl, s') ∧
    flash_only s s' ∧ fl_busy (flash s') = 0%nat ∧
    (∀ x, fl_mem (flash s') x = fl_mem (flash s) x) ∧
    events s' = events s ++
      [QspiXfer (FLASH_READ_CMD :: addr24 (chan * FLASH_SECTOR_SIZE) ++ stack_bytes 252)].
Proof.
  intros Hc Hb (tl & Hlen & Hs). unfold FLASH_SECTOR_SIZE in *.
  rewrite u32_id by (unfold is_u32; lia).
  destruct (run_FlashRead (chan * 0x10000) (Z.to_nat FLASH_PAGE_SIZE) s)
    as (s' & hdr & Hh & Hu & Hr & Ho & Hb' & Hm & He); [lia|unfold FLASH_PAGE_SIZE; lia|done|].
  exists s', hdr, tl. split; [done|]. split; [done|]. split; [|by split_and!].
  rewrite Hr. unfold qspi_page. do 3 f_equal. apply list_eq. intros i.
  rewrite list_lookup_fmap. destruct ((qspi_body vs sf ++ tl) !! i) as [b|] eqn:E.
  - pose proof (lookup_lt_Some _ _ _ E) as Hlt. rewrite Hlen in Hlt.
    rewrite lookup_seq_lt by (unfold FLASH_PAGE_SIZE; lia). cbn. by rewrite (Hs _ _ E).
  - apply lookup_ge_None in E. rewrite Hlen in E. by rewrite lookup_seq_ge by (unfold FLASH_PAGE_SIZE; lia).
Qed.

(** The whole recall: one flash read, then the stored words into the registers
    in the order of the structure. *)
Lemma run_recall chan vs sf sf0 s :
  1 ≤ chan ≤ 4 → fl_busy (flash s) = 0%nat → stored chan vs sf (flash s) →
  scalefactors s !! Z.to_nat (chan - 1) = Some sf0 →
  length vs = 37%nat → Forall is_u32 vs → sf_wf sf →
  ∃ s1, (readbuf ← QspiFlashRead (u32 (chan * FLASH_SECTOR_SIZE)) (Z.to_nat FLASH_PAGE_SIZE);
         QspiDisperseData chan readbuf) s
      = Ok (tt, set_scalefactors (<[Z.to_nat (chan - 1) := sf]> (scalefactors s))
                  (out_all (settings_writes chan vs) s1)) ∧
    flash_only s s1 ∧ fl_busy (flash s1) = 0%nat ∧
    (∀ x, fl_mem (flash s1) x = fl_mem (flash s) x) ∧
    events s1 = events s ++
      [QspiXfer (FLASH_READ_CMD :: addr24 (chan * FLASH_SECTOR_SIZE) ++ stack_bytes 252)].
Proof.
  intros Hc Hb Hst Hsf0 Hvl Hvs Hsf.
  destruct (run_read_stored chan vs sf s Hc Hb Hst)
    as (s1 & hdr & tl & Hh & Hu & Hr & Ho & Hb1 & Hm1 & He1).
  pose proof Ho as (_ & _ & Hsfs & _).
  exists s1. rewrite (run_bind _ _ _ _ _ Hr).
  rewrite (run_Disperse _ _ _ _ _ _ sf0) by (rewrite ?Hsfs; done).
  rewrite Hsfs. by split_and!.
Qed.
End flash.
