(* ===== verification/Control.v ===== *)
(** * Control messages ([control.c])

    [glob_settings] and [chan_settings] execute one received message: the first
    word of the payload selects the setting, the second is its value.  Values of
    [float] type are scaled to DAC bits with the channel's scale factors.
    Console output is not modelled.  The cases of the C [switch] are lists of
    (label, body); [chan_settings] is the [switch] over their concatenation. *)

From Stdlib Require Import SpecFloat.
From S2P Require Import Prelude Words Floats Machine Regs Sadata Qspi.

Section control.
Context `{Platform, Runtime, FpEnv}.

(** ** Helpers for the repeated expressions of the cases *)

(** [Xil_Out32(XPAR_M_AXI_BASEADDR + reg + chan*CHBASEADDR, v)] *)
Definition out (chan reg v : Z) : M unit :=
  Xil_Out32 (XPAR_M_AXI_BASEADDR + reg + chan * CHBASEADDR) v.

(** [(s32)(f * CONVVOLTSTODACBITS / scalefactors[chan-1].field)], in [float] *)
Definition volts_to_dacbits (chan : Z) (field : ScaleFactorType → Z) (f : spec_float) : M Z :=
  v2b ← gets CONVVOLTSTODACBITS;
  sf ← get_scalefactor (chan - 1);
  mret (s32_of_float (fdiv (fmul f (float_of_bits v2b)) (float_of_bits (field sf)))).

(** [(s32)(f * CONVVOLTSTO16BITS / scalefactors[chan-1].field)], in [double] *)
Definition volts_to_16bits (chan : Z) (field : ScaleFactorType → Z) (f : spec_float) : M Z :=
  sf ← get_scalefactor (chan - 1);
  mret (s32_of_float
          (ddiv (dmul (d_of_f f) CONVVOLTSTO16BITS) (d_of_f (float_of_bits (field sf))))).

(** [1 << k] on [int] *)
Definition shift_one (k : Z) : M Z :=
  if (0 <=? k) && (k <? 31) then mret (Z.shiftl 1 k) else undefined (ub_overflow k).

(** ** The operations *)

Definition set_fpleds (msgVal : Z) : M unit :=
  Xil_Out32 (XPAR_M_AXI_BASEADDR + LEDS_REG) msgVal.

Definition soft_trig (msgVal : Z) : M unit :=
  Xil_Out32 (XPAR_M_AXI_BASEADDR + SOFTTRIG) msgVal;;
  Xil_Out32 (XPAR_M_AXI_BASEADDR + SOFTTRIG) 0.

(** The values printed, in order. *)
Definition dump_adcs (chan : Z) : M (list spec_float) :=
  let base := XPAR_M_AXI_BASEADDR + chan * CHBASEADDR in
  ave_mode ← Xil_In32 (base + AVEMODE_REG);
  b2v ← gets CONVDACBITSTOVOLTS;
  let dacbits reg (sf : ScaleFactorType) :=
    a ← ReadAccumSA (base + reg) ave_mode;
    mret (d_of_f (fmul (fmul a (float_of_bits b2v)) (float_of_bits (dac_dccts sf)))) in
  let bits16 reg (field : ScaleFactorType → Z) sf :=
    a ← ReadAccumSA (base + reg) ave_mode;
    mret (dmul (dmul (d_of_f a) CONV16BITSTOVOLTS) (d_of_f (float_of_bits (field sf)))) in
  sf ← get_scalefactor (chan - 1);
  v1 ← dacbits DCCT1_REG sf;
  v2 ← dacbits DCCT2_REG sf;
  v3 ← bits16 DACMON_REG dac_dccts sf;
  v4 ← bits16 VOLT_REG vout sf;
  v5 ← bits16 GND_REG ignd sf;
  v6 ← bits16 SPARE_REG spare sf;
  v7 ← bits16 REG_REG regulator sf;
  v8 ← bits16 ERR_REG error sf;
  raw ← Xil_In32 (base + DAC_CURRSETPT_REG);
  raw' ← Xil_In32 (base + DAC_CURRSETPT_REG);
  mret [v1; v2; v3; v4; v5; v6; v7; v8; d_of_int (s32 raw);
        d_of_f (fmul (fmul (f_of_int (s32 raw')) (float_of_bits b2v))
                  (float_of_bits (dac_dccts sf)))].

(** Saturation of a ramp point for the hardware resolution (0: 18 bit, 1: 20 bit). *)
Definition saturate_ramp (psc_resolution scaled_val : Z) : M Z :=
  over20 ← (if psc_resolution =? 1
            then a ← abs_s32 scaled_val; mret (Z.shiftl 1 20 <? a) else mret false);
  if over20 : bool then mret (if 0 <? scaled_val then Z.shiftl 1 20 - 1 else - Z.shiftl 1 20)
  else
    over18 ← (if psc_resolution =? 0
              then a ← abs_s32 scaled_val; mret (Z.shiftl 1 18 <? a) else mret false);
    if over18 : bool then mret (if 0 <? scaled_val then Z.shiftl 1 18 - 1 else - Z.shiftl 1 18)
    else mret scaled_val.

Definition write_ramptable (chan : Z) (msg : list Z) (msglen : Z) : M unit :=
  let ramp_len := msglen / 4 in
  for_range 0 (Z.to_nat (Z.min 20 ramp_len)) (λ i, _ ← lift (load32 msg i); mret tt);;
  if 50000 <? ramp_len then mret tt
  else
    let dpram_addr := DAC_RAMPADDR_REG + chan * CHBASEADDR in
    let dpram_data := DAC_RAMPDATA_REG + chan * CHBASEADDR in
    Xil_Out32 (XPAR_M_AXI_BASEADDR + DAC_RAMPLEN_REG + chan * CHBASEADDR) ramp_len;;
    psc_resolution ← Xil_In32 (XPAR_M_AXI_BASEADDR + RESOLUTION_REG);
    _ ← get_scalefactor (chan - 1);
    for_range 0 (Z.to_nat ramp_len) (λ i,
      w ← lift (load32 msg i);
      scaled_val ← volts_to_dacbits chan dac_dccts (float_of_bits (htonl w));
      scaled_val ← saturate_ramp psc_resolution scaled_val;
      Xil_Out32 (XPAR_M_AXI_BASEADDR + dpram_addr) i;;
      Xil_Out32 (XPAR_M_AXI_BASEADDR + dpram_data) scaled_val).

Definition CORDIC_INIT_PHASE : Z := 421657300.

(** [smooth_len] is only printed. *)
Definition Calc_WriteSmooth (chan new_setpt : Z) : M unit :=
  v ← Xil_In32 (XPAR_M_AXI_BASEADDR + DAC_CURRSETPT_REG + chan * CHBASEADDR);
  let cur_setpt := s32 v in
  sf ← get_scalefactor (chan - 1);
  v2b ← gets CONVVOLTSTODACBITS;
  let ramp_rate :=
    fmul (fdiv (float_of_bits (ampspersec sf)) (float_of_bits (dac_dccts sf)))
      (float_of_bits v2b) in
  diff ← sub_s32 new_setpt cur_setpt;
  dist ← abs_s32 diff;
  let ramp_duration := fdiv (f_of_int dist) ramp_rate in
  let num_samples := u32_of_float (dmul (d_of_f ramp_duration) SAMPLERATE) in
  q ← div_u32 CORDIC_INIT_PHASE num_samples;
  let phase_inc := f_of_int q in
  Xil_Out32 (XPAR_M_AXI_BASEADDR + SMOOTH_PHASEINC_REG + chan * CHBASEADDR)
    (u32_of_float phase_inc);;
  Xil_Out32 (XPAR_M_AXI_BASEADDR + DAC_SETPT_REG + chan * CHBASEADDR) new_setpt.

Definition Set_dacOpmode (chan new_opmode : Z) : M unit :=
  when (new_opmode =? JUMP) (out chan DAC_OPMODE_REG JUMP);;
  when (new_opmode =? FOFB)
    (sf ← get_scalefactor (chan - 1);
     v2b ← gets CONVVOLTSTODACBITS;
     let data_f := fmul (fdiv (f_of_int 1) (float_of_bits (dac_dccts sf))) (float_of_bits v2b) in
     out chan FOFB_SCALEFACTOR_REG (bits_of_float data_f);;
     out chan DAC_OPMODE_REG FOFB);;
  when ((new_opmode =? SMOOTH) || (new_opmode =? RAMP)) (out chan DAC_OPMODE_REG new_opmode).

(** The set point limited to [-10, 9.9999] volts at the DAC, in amps. *)
Definition limit_setpt (new_setpt_amps dccts : spec_float) : spec_float :=
  let hi := dmul (dlit 99999 10000) (d_of_f dccts) in
  let lo := fmul (f_of_int (-10)) dccts in
  if sf_gt (d_of_f new_setpt_amps) hi then f_of_d hi
  else if sf_lt new_setpt_amps lo then lo
  else new_setpt_amps.

Definition Set_dac (chan : Z) (new_setpt_amps : spec_float) : M unit :=
  dac_mode ← Xil_In32 (XPAR_M_AXI_BASEADDR + DAC_OPMODE_REG + chan * CHBASEADDR);
  sf ← get_scalefactor (chan - 1);
  let dccts := float_of_bits (dac_dccts sf) in
  let new_setpt_amps := limit_setpt new_setpt_amps dccts in
  v2b ← gets CONVVOLTSTODACBITS;
  let new_setpt := s32_of_float (fdiv (fmul new_setpt_amps (float_of_bits v2b)) dccts) in
  if dac_mode =? SMOOTH then Calc_WriteSmooth chan new_setpt
  else when (dac_mode =? JUMP) (out chan DAC_SETPT_REG new_setpt).

(** ** Global settings *)

Definition glob_cases (u : Z) : list (Z * M unit) := [
    (SOFT_TRIG_MSG, soft_trig u);
    (TEST_TRIG_MSG,
     Xil_Out32 (XPAR_M_AXI_BASEADDR + TESTTRIG) u;;
     Xil_Out32 (XPAR_M_AXI_BASEADDR + TESTTRIG) 0);
    (FP_LED_MSG, set_fpleds u);
    (EVR_RESET_MSG,
     Xil_Out32 (XPAR_M_AXI_BASEADDR + EVR_RESET_REG) (if u =? 1 then 0xFF else 0));
    (EVR_INJ_EVENTNUM_MSG, Xil_Out32 (XPAR_M_AXI_BASEADDR + EVR_INJ_EVENTNUM_REG) u);
    (EVR_PM_EVENTNUM_MSG, Xil_Out32 (XPAR_M_AXI_BASEADDR + EVR_PM_EVENTNUM_REG) u);
    (EVR_1HZ_EVENTNUM_MSG, Xil_Out32 (XPAR_M_AXI_BASEADDR + EVR_1HZ_EVENTNUM_REG) u);
    (EVR_10HZ_EVENTNUM_MSG, Xil_Out32 (XPAR_M_AXI_BASEADDR + EVR_10HZ_EVENTNUM_REG) u);
    (EVR_10KHZ_EVENTNUM_MSG, Xil_Out32 (XPAR_M_AXI_BASEADDR + EVR_10KHZ_EVENTNUM_REG) u);
    (FOFB_IPADDR_MSG, Xil_Out32 (XPAR_M_AXI_BASEADDR + FOFB_IPADDR_REG) u) ].

Definition glob_settings (msg : list Z) : M unit :=
  w0 ← lift (load32 msg 0);
  w1 ← lift (load32 msg 1);
  switch (htonl w0) (glob_cases (htonl w1)) (mret tt).

(** ** Channel settings *)

(** body of [WRITE_QSPI_MSG]; [qspibuf] is an uninitialised local *)
Definition save_settings (chan : Z) : M unit :=
  QspiFlashEraseSect chan;;
  qspibuf ← QspiGatherData chan (stack_bytes (Z.to_nat FLASH_PAGE_SIZE));
  _ ← QspiFlashWrite (u32 (chan * FLASH_SECTOR_SIZE)) qspibuf;
  qspibuf ← QspiFlashRead (u32 (chan * FLASH_SECTOR_SIZE)) (Z.to_nat FLASH_PAGE_SIZE);
  QspiDisperseData chan qspibuf.

(** body of [READ_QSPI_MSG] *)
Definition recall_settings (chan : Z) : M unit :=
  qspibuf ← QspiFlashRead (u32 (chan * FLASH_SECTOR_SIZE)) (Z.to_nat FLASH_PAGE_SIZE);
  QspiDisperseData chan qspibuf.

(** DAC operating mode, set point and ramp *)
Definition chan_cases_dac (chan u : Z) : list (Z * M unit) :=
  let f := float_of_bits u in [
    (DAC_OPMODE_MSG, Set_dacOpmode chan (s32 u));
    (DAC_SETPT_MSG, _ ← volts_to_dacbits chan dac_dccts f; Set_dac chan f);
    (DAC_RAMPLEN_MSG, out chan DAC_RAMPLEN_REG u);
    (DAC_RUNRAMP_MSG, out chan DAC_RUNRAMP_REG u);
    (DAC_SETPT_GAIN_MSG,
     out chan DAC_SETPT_GAIN_REG (u32_of_float (dmul (d_of_f f) GAIN20BITFRACT)));
    (DAC_SETPT_OFFSET_MSG,
     scaled_val ← volts_to_dacbits chan dac_dccts f;
     out chan DAC_SETPT_OFFSET_REG scaled_val) ].

(** ADC gains and offsets *)
Definition chan_cases_adc (chan u : Z) : list (Z * M unit) :=
  let f := float_of_bits u in [
    (DCCT1_GAIN_MSG,
     out chan DCCT1_GAIN_REG (u32_of_float (dmul (d_of_f f) GAIN20BITFRACT)));
    (DCCT1_OFFSET_MSG,
     scaled_val ← volts_to_dacbits chan dac_dccts f;
     out chan DCCT1_OFFSET_REG scaled_val);
    (DCCT2_GAIN_MSG,
     out chan DCCT2_GAIN_REG (u32_of_float (dmul (d_of_f f) GAIN20BITFRACT)));
    (DCCT2_OFFSET_MSG,
     scaled_val ← volts_to_dacbits chan dac_dccts f;
     out chan DCCT2_OFFSET_REG scaled_val);
    (DACMON_GAIN_MSG,
     out chan DACMON_GAIN_REG (u32_of_float (dmul (d_of_f f) GAIN20BITFRACT)));
    (DACMON_OFFSET_MSG,
     scaled_val ← volts_to_16bits chan dac_dccts f;
     out chan DACMON_OFFSET_REG scaled_val);
    (VOLT_GAIN_MSG, out chan VOLT_GAIN_REG (u32_of_float (dmul (d_of_f f) GAIN20BITFRACT)));
    (VOLT_OFFSET_MSG,
     scaled_val ← volts_to_16bits chan vout f;
     out chan VOLT_OFFSET_REG scaled_val);
    (GND_GAIN_MSG, out chan GND_GAIN_REG (u32_of_float (dmul (d_of_f f) GAIN20BITFRACT)));
    (GND_OFFSET_MSG,
     scaled_val ← volts_to_16bits chan ignd f;
     out chan GND_OFFSET_REG scaled_val);
    (SPARE_GAIN_MSG,
     out chan SPARE_GAIN_REG (u32_of_float (dmul (d_of_f f) GAIN20BITFRACT)));
    (SPARE_OFFSET_MSG,
     scaled_val ← volts_to_16bits chan spare f;
     out chan SPARE_OFFSET_REG scaled_val);
    (REG_GAIN_MSG, out chan REG_GAIN_REG (u32_of_float (dmul (d_of_f f) GAIN20BITFRACT)));
    (REG_OFFSET_MSG,
     scaled_val ← volts_to_16bits chan regulator f;
     out chan REG_OFFSET_REG scaled_val);
    (ERR_GAIN_MSG, out chan ERR_GAIN_REG (u32_of_float (dmul (d_of_f f) GAIN20BITFRACT)));
    (ERR_OFFSET_MSG,
     scaled_val ← volts_to_16bits chan error f;
     out chan ERR_OFFSET_REG scaled_val) ].

(** fault thresholds, fault counters and fault registers *)
Definition chan_cases_fault (chan u : Z) : list (Z * M unit) :=
  let f := float_of_bits u in [
    (OVC1_THRESH_MSG,
     scaled_val ← volts_to_dacbits chan dac_dccts f;
     out chan OVC1_THRESH_REG scaled_val);
    (OVC2_THRESH_MSG,
     scaled_val ← volts_to_dacbits chan dac_dccts f;
     out chan OVC2_THRESH_REG scaled_val);
    (OVV_THRESH_MSG,
     scaled_val ← volts_to_16bits chan vout f;
     out chan OVV_THRESH_REG (if 32767 <=? scaled_val then 32767 else scaled_val));
    (ERR1_THRESH_MSG,
     scaled_val ← volts_to_16bits chan error f;
     out chan ERR1_THRESH_REG (if 32767 <=? scaled_val then 32767 else scaled_val));
    (ERR2_THRESH_MSG,
     scaled_val ← volts_to_16bits chan error f;
     out chan ERR2_THRESH_REG (if 32767 <=? scaled_val then 32767 else scaled_val));
    (IGND_THRESH_MSG,
     scaled_val ← volts_to_16bits chan error f;
     out chan IGND_THRESH_REG (if 32767 <=? scaled_val then 32767 else scaled_val));
    (OVC1_CNTLIM_MSG, out chan OVC1_CNTLIM_REG (s32_of_float (dmul (d_of_f f) SAMPLERATE)));
    (OVC2_CNTLIM_MSG, out chan OVC2_CNTLIM_REG (s32_of_float (dmul (d_of_f f) SAMPLERATE)));
    (OVV_CNTLIM_MSG, out chan OVV_CNTLIM_REG (s32_of_float (dmul (d_of_f f) SAMPLERATE)));
    (ERR1_CNTLIM_MSG, out chan ERR1_CNTLIM_REG (s32_of_float (dmul (d_of_f f) SAMPLERATE)));
    (ERR2_CNTLIM_MSG, out chan ERR2_CNTLIM_REG (s32_of_float (dmul (d_of_f f) SAMPLERATE)));
    (IGND_CNTLIM_MSG, out chan IGND_CNTLIM_REG (s32_of_float (dmul (d_of_f f) SAMPLERATE)));
    (DCCT_CNTLIM_MSG, out chan DCCT_CNTLIM_REG (s32_of_float (dmul (d_of_f f) SAMPLERATE)));
    (FLT1_CNTLIM_MSG, out chan FLT1_CNTLIM_REG (s32_of_float (dmul (d_of_f f) SAMPLERATE)));
    (FLT2_CNTLIM_MSG, out chan FLT2_CNTLIM_REG (s32_of_float (dmul (d_of_f f) SAMPLERATE)));
    (FLT3_CNTLIM_MSG, out chan FLT3_CNTLIM_REG (s32_of_float (dmul (d_of_f f) SAMPLERATE)));
    (ON_CNTLIM_MSG, out chan ON_CNTLIM_REG (s32_of_float (dmul (d_of_f f) SAMPLERATE)));
    (HEART_CNTLIM_MSG,
     out chan HEARTBEAT_CNTLIM_REG (s32_of_float (dmul (d_of_f f) SAMPLERATE)));
    (FAULT_CLEAR_MSG, out chan FAULT_CLEAR_REG u);
    (FAULT_MASK_MSG, out chan FAULT_MASK_REG u) ].

(** digital outputs *)
Definition chan_cases_digital (chan u : Z) : list (Z * M unit) :=
  let f := float_of_bits u in [
    (DIGOUT_ON1_MSG, out chan DIGOUT_ON1_REG u);
    (DIGOUT_ON2_MSG, out chan DIGOUT_ON2_REG u);
    (DIGOUT_RESET_MSG, out chan DIGOUT_RESET_REG u);
    (DIGOUT_SPARE_MSG, out chan DIGOUT_SPARE_REG u);
    (DIGOUT_PARK_MSG, out chan DIGOUT_PARK_REG u) ].

(** scale factors *)
Definition chan_cases_sf (chan u : Z) : list (Z * M unit) :=
  let f := float_of_bits u in [
    (SF_AMPS_PER_SEC_MSG,
     update_scalefactor (chan - 1)
       (λ sf, MkSF u (dac_dccts sf) (vout sf) (ignd sf) (spare sf) (regulator sf) (error sf)));
    (SF_DAC_DCCTS_MSG, update_scalefactor (chan - 1) (λ sf, MkSF (ampspersec sf) u (vout sf) (ignd sf)
       (spare sf) (regulator sf) (error sf));;
     v2b ← gets CONVVOLTSTODACBITS;
     out chan FOFB_SCALEFACTOR_REG
       (bits_of_float (fmul (fdiv (f_of_int 1) f) (float_of_bits v2b))));
    (SF_VOUT_MSG,
     update_scalefactor (chan - 1)
       (λ sf, MkSF (ampspersec sf) (dac_dccts sf) u (ignd sf) (spare sf) (regulator sf) (error sf)));
    (SF_IGND_MSG,
     update_scalefactor (chan - 1)
       (λ sf, MkSF (ampspersec sf) (dac_dccts sf) (vout sf) u (spare sf) (regulator sf) (error sf)));
    (SF_SPARE_MSG,
     update_scalefactor (chan - 1)
       (λ sf, MkSF (ampspersec sf) (dac_dccts sf) (vout sf) (ignd sf) u (regulator sf) (error sf)));
    (SF_REGULATOR_MSG,
     update_scalefactor (chan - 1)
       (λ sf, MkSF (ampspersec sf) (dac_dccts sf) (vout sf) (ignd sf) (spare sf) u (error sf)));
    (SF_ERROR_MSG,
     update_scalefactor (chan - 1)
       (λ sf, MkSF (ampspersec sf) (dac_dccts sf) (vout sf) (ignd sf) (spare sf) (regulator sf) u)) ].

(** trigger, averaging, flash and diagnostics *)
Definition chan_cases_misc (chan u : Z) : list (Z * M unit) :=
  let f := float_of_bits u in [
    (FOFB_FASTADDR_MSG, out chan FOFB_FASTADDR_REG u);
    (USR_TRIG_MSG, when (u =? 1) (trig ← shift_one (u32 (chan - 1)); soft_trig trig));
    (AVE_MODE_MSG, out chan AVEMODE_REG u);
    (WRITE_QSPI_MSG, when (u =? 1) (save_settings chan));
    (READ_QSPI_MSG, when (u =? 1) (recall_settings chan));
    (DUMP_ADCS_MSG, _ ← dump_adcs chan; mret tt) ].
Definition chan_cases (chan u : Z) : list (Z * M unit) :=
  chan_cases_dac chan u ++ chan_cases_adc chan u ++ chan_cases_fault chan u ++
  chan_cases_digital chan u ++ chan_cases_sf chan u ++ chan_cases_misc chan u.

(** [msglen] is only printed. *)
Definition chan_settings (chan : Z) (msg : list Z) (msglen : Z) : M unit :=
  w0 ← lift (load32 msg 0);
  w1 ← lift (load32 msg 1);
  switch (htonl w0) (chan_cases chan (htonl w1)) (mret tt).
End control.
