(* ===== verification/ControlFrame.v ===== *)
(** * What a control message can touch

    [chan_frame chan] relates two states when the second is reached by effects on
    channel [chan] only: registers of the channel's 512-byte block, the soft
    trigger with the channel's bit, flash transfers addressed to the channel's
    sector, the channel's scale factors.  Every program of [control.c] that
    handles a channel message keeps it.  The second half is the absence of
    undefined behaviour. *)

From S2P Require Import Prelude Words Floats Machine Regs Sadata Qspi Control.

Section frame.
Context `{Platform, Runtime, FpEnv}.

(** The addresses of a channel's registers, as the bus sees them. *)
Definition in_block (chan a : Z) : Prop :=
  ∃ off, 0 ≤ off < CHBASEADDR ∧ a = u32 (chan_addr chan off).

(** Flash commands without an address, or with the address of the channel's sector. *)
Definition flash_cmd (chan : Z) (tx : list Z) : Prop :=
  tx = [FLASH_WRITE_ENABLE_CMD] ∨ tx = [FLASH_READ_STATUS_CMD; 0] ∨
  ∃ cmd rest, tx = cmd :: addr24 (chan * FLASH_SECTOR_SIZE) ++ rest.

Definition chan_event (chan : Z) (e : event) : Prop :=
  match e with
  | Out32 a v =>
      in_block chan a ∨
      (a = u32 (XPAR_M_AXI_BASEADDR + SOFTTRIG) ∧ (v = 0 ∨ v = 2 ^ (chan - 1)))
  | QspiXfer tx => flash_cmd chan tx
  | _ => False
  end.

Record chan_frame (chan : Z) (s s' : psc) : Prop := {
  cf_events : ∃ evs, events s' = events s ++ evs ∧ Forall (chan_event chan) evs;
  cf_eeprom : eeprom s' = eeprom s;
  cf_v2b : CONVVOLTSTODACBITS s' = CONVVOLTSTODACBITS s;
  cf_b2v : CONVDACBITSTOVOLTS s' = CONVDACBITSTOVOLTS s;
  cf_length : length (scalefactors s') = length (scalefactors s);
  cf_other : ∀ i, i ≠ Z.to_nat (chan - 1) → scalefactors s' !! i = scalefactors s !! i;
}.

#[global] Instance chan_frame_preorder chan : PreOrder (chan_frame chan).
Proof.
  split.
  - intros s. split; try done. exists []. by rewrite app_nil_r.
  - intros s1 s2 s3 [(e1 & E1 & F1) A1 B1 C1 D1 G1] [(e2 & E2 & F2) A2 B2 C2 D2 G2].
    split; try congruence.
    + exists (e1 ++ e2). rewrite E2, E1, app_assoc. split; [done|by apply Forall_app].
    + intros i Hi. by rewrite G2, G1.
Qed.

Lemma frame_event chan e s s' :
  chan_event chan e → events s' = events s ++ [e] → eeprom s' = eeprom s →
  CONVVOLTSTODACBITS s' = CONVVOLTSTODACBITS s → CONVDACBITSTOVOLTS s' = CONVDACBITSTOVOLTS s →
  scalefactors s' = scalefactors s → chan_frame chan s s'.
Proof.
  intros He Ev ? ? ? Hsf. split; try done; [|by rewrite Hsf..].
  exists [e]. by rewrite Forall_singleton.
Qed.

Lemma keeps_In32 chan a : keeps (chan_frame chan) (Xil_In32 a).
Proof.
  intros s v s'. unfold Xil_In32. destruct (pl_in32 (u32 a) (pl s)).
  intros [= <- <-]. split; try done. exists []. by rewrite app_nil_r.
Qed.

Lemma keeps_Out32 chan a v :
  chan_event chan (Out32 (u32 a) (u32 v)) → keeps (chan_frame chan) (Xil_Out32 a v).
Proof. intros He s x s' [= <- <-]. by eapply frame_event. Qed.

Lemma keeps_block chan a off v :
  a = chan_addr chan off → 0 ≤ off < CHBASEADDR → keeps (chan_frame chan) (Xil_Out32 a v).
Proof. intros -> Hoff. apply keeps_Out32. left. by exists off. Qed.

Lemma keeps_out chan reg v :
  0 ≤ reg < CHBASEADDR → keeps (chan_frame chan) (out chan reg v).
Proof. intros. apply (keeps_block chan _ reg); [|done]. unfold chan_addr. lia. Qed.

Lemma keeps_transfer chan tx : flash_cmd chan tx → keeps (chan_frame chan) (PolledTransfer tx).
Proof.
  intros Hc s a s'. unfold PolledTransfer. destruct (flash_xfer tx (flash s)).
  intros [= <- <-]. by apply (frame_event _ (QspiXfer tx)).
Qed.

Lemma keeps_update chan f :
  1 ≤ chan ≤ 4 → keeps (chan_frame chan) (update_scalefactor (chan - 1) f).
Proof.
  intros Hc s a s'. unfold update_scalefactor, sf_index.
  rewrite u32_id by (unfold is_u32; lia).
  destruct (_ && _); [|done]. intros [= <- <-].
  split; cbn; try done.
  - exists []. by rewrite app_nil_r.
  - apply length_alter.
  - intros i Hi. by apply list_lookup_alter_ne.
Qed.

Lemma keeps_volts_to_dacbits chan c field f :
  keeps (chan_frame chan) (volts_to_dacbits c field f).
Proof.
  unfold volts_to_dacbits. apply keeps_bind; [typeclasses eauto|by apply keeps_gets, _|].
  intros ?. apply keeps_bind; [typeclasses eauto|by apply keeps_get_scalefactor, _|].
  intros ?. by apply keeps_ret, _.
Qed.

Lemma keeps_volts_to_16bits chan c field f :
  keeps (chan_frame chan) (volts_to_16bits c field f).
Proof.
  unfold volts_to_16bits.
  apply keeps_bind; [typeclasses eauto|by apply keeps_get_scalefactor, _|].
  intros ?. by apply keeps_ret, _.
Qed.
End frame.

(** Structural proof of [keeps (chan_frame chan) m]: a program with a lemma of its
    own in the database [chan_frame], or the rule of its outermost construct. *)
Create HintDb chan_frame discriminated.
Ltac reg_lia := cbv -[Z.le Z.lt]; lia.
Ltac keeps_step :=
  first
    [ apply keeps_bind; [typeclasses eauto| |intros ?]
    | apply keeps_ret; typeclasses eauto
    | apply keeps_undefined
    | apply keeps_gets; typeclasses eauto
    | apply keeps_lift; typeclasses eauto
    | apply keeps_when; [typeclasses eauto|]
    | apply keeps_for; [typeclasses eauto|intros ?]
    | apply keeps_get_scalefactor; typeclasses eauto
    | apply keeps_sub_s32; typeclasses eauto
    | apply keeps_abs_s32; typeclasses eauto
    | apply keeps_div_u32; typeclasses eauto
    | apply keeps_In32
    | apply keeps_volts_to_dacbits
    | apply keeps_volts_to_16bits
    | apply keeps_out; reg_lia
    | apply keeps_update; assumption
    | apply keeps_if ].
Ltac keeps_reg :=
  lazymatch goal with
  | |- keeps _ (Xil_Out32 (_ + _ * CHBASEADDR + ?r) _) => eapply (keeps_block _ _ r)
  | |- keeps _ (Xil_Out32 (_ + ?r + _ * CHBASEADDR) _) => eapply (keeps_block _ _ r)
  | |- keeps _ (Xil_Out32 (_ + (?r + _ * CHBASEADDR)) _) => eapply (keeps_block _ _ r)
  end; [unfold chan_addr; ring|reg_lia].
Ltac keeps_tac := cbv zeta; repeat first [solve [auto 2 with chan_frame nocore] | keeps_reg | keeps_step].

Section programs.
Context `{Platform, Runtime, FpEnv}.
Context (chan : Z) (Hchan : 1 ≤ chan ≤ 4).

Lemma sector_id : u32 (chan * FLASH_SECTOR_SIZE) = chan * FLASH_SECTOR_SIZE.
Proof. apply u32_id. unfold is_u32, FLASH_SECTOR_SIZE. lia. Qed.

Lemma sector_bytes :
  address_bytes (u32 (chan * FLASH_SECTOR_SIZE)) = addr24 (chan * FLASH_SECTOR_SIZE).
Proof.
  rewrite sector_id. apply address_bytes_addr24. unfold FLASH_SECTOR_SIZE. lia.
Qed.

Lemma keeps_wait_ready fuel : keeps (chan_frame chan) (wait_ready fuel).
Proof.
  induction fuel as [|fuel IH]; cbn [wait_ready]; [apply keeps_undefined|].
  apply keeps_bind; [typeclasses eauto|apply keeps_transfer; right; by left|intros st].
  apply keeps_if; [by apply keeps_ret, _|done].
Qed.
#[local] Hint Resolve keeps_wait_ready : chan_frame.

Lemma keeps_FlashRead n :
  keeps (chan_frame chan) (QspiFlashRead (u32 (chan * FLASH_SECTOR_SIZE)) n).
Proof.
  unfold QspiFlashRead. rewrite sector_bytes. apply keeps_transfer. right; right. by eexists _, _.
Qed.
#[local] Hint Resolve keeps_FlashRead : chan_frame.

Lemma keeps_FlashWrite wb :
  keeps (chan_frame chan) (QspiFlashWrite (u32 (chan * FLASH_SECTOR_SIZE)) wb).
Proof.
  unfold QspiFlashWrite. rewrite sector_bytes. cbv zeta.
  repeat keeps_step; [apply keeps_transfer; by left| |apply keeps_wait_ready].
  apply keeps_transfer. right; right. by eexists _, _.
Qed.
#[local] Hint Resolve keeps_FlashWrite : chan_frame.

Lemma keeps_EraseSect : keeps (chan_frame chan) (QspiFlashEraseSect chan).
Proof.
  unfold QspiFlashEraseSect. rewrite sector_id, erase_bytes_addr24
    by (unfold FLASH_SECTOR_SIZE; lia). cbv zeta.
  repeat keeps_step; [apply keeps_transfer; by left| |apply keeps_wait_ready].
  apply keeps_transfer. right; right. exists FLASH_SECTOR_ERASE_CMD, []. by rewrite app_nil_r.
Qed.
#[local] Hint Resolve keeps_EraseSect : chan_frame.

Lemma keeps_Gather wb : keeps (chan_frame chan) (QspiGatherData chan wb).
Proof. unfold QspiGatherData. keeps_tac. Qed.
#[local] Hint Resolve keeps_Gather : chan_frame.

Lemma keeps_Disperse rb : keeps (chan_frame chan) (QspiDisperseData chan rb).
Proof.
  unfold QspiDisperseData. keeps_tac.
Qed.
#[local] Hint Resolve keeps_Disperse : chan_frame.

Lemma keeps_save : keeps (chan_frame chan) (save_settings chan).
Proof.
  unfold save_settings. keeps_tac.
Qed.
#[local] Hint Resolve keeps_save : chan_frame.

Lemma keeps_recall : keeps (chan_frame chan) (recall_settings chan).
Proof. unfold recall_settings. keeps_tac. Qed.
#[local] Hint Resolve keeps_recall : chan_frame.

Lemma keeps_ReadAccumSA a m : keeps (chan_frame chan) (ReadAccumSA a m).
Proof. unfold ReadAccumSA. keeps_tac. Qed.
#[local] Hint Resolve keeps_ReadAccumSA : chan_frame.

Lemma keeps_dump_adcs : keeps (chan_frame chan) (dump_adcs chan).
Proof. unfold dump_adcs. keeps_tac. Qed.
#[local] Hint Resolve keeps_dump_adcs : chan_frame.

Lemma keeps_Calc_WriteSmooth v : keeps (chan_frame chan) (Calc_WriteSmooth chan v).
Proof.
  unfold Calc_WriteSmooth. keeps_tac.
Qed.
#[local] Hint Resolve keeps_Calc_WriteSmooth : chan_frame.

Lemma keeps_Set_dacOpmode m : keeps (chan_frame chan) (Set_dacOpmode chan m).
Proof. unfold Set_dacOpmode. keeps_tac. Qed.
#[local] Hint Resolve keeps_Set_dacOpmode : chan_frame.

Lemma keeps_Set_dac f : keeps (chan_frame chan) (Set_dac chan f).
Proof. unfold Set_dac. keeps_tac. Qed.
#[local] Hint Resolve keeps_Set_dac : chan_frame.

Lemma keeps_usr_trig :
  keeps (chan_frame chan) (trig ← shift_one (u32 (chan - 1)); soft_trig trig).
Proof.
  rewrite u32_id by (unfold is_u32; lia). unfold shift_one.
  assert ((0 <=? chan - 1) && (chan - 1 <? 31) = true) as -> by (case_Zb; cbn; lia).
  rewrite Z.shiftl_1_l.
  assert (is_u32 (2 ^ (chan - 1))) as Hu.
  { pose proof (Z.pow_le_mono_r 2 (chan - 1) 3). unfold is_u32. lia. }
  assert (∀ v, v = 0 ∨ v = 2 ^ (chan - 1) →
    keeps (chan_frame chan) (Xil_Out32 (XPAR_M_AXI_BASEADDR + SOFTTRIG) v)) as Hk.
  { intros v Hv. apply keeps_Out32. right. split; [done|].
    rewrite u32_id; [done|]. destruct Hv as [->| ->]; [done|exact Hu]. }
  intros s a s' Hr. change (soft_trig (2 ^ (chan - 1)) s = Ok (a, s')) in Hr. revert Hr.
  apply (keeps_bind (chan_frame chan)); auto.
Qed.
#[local] Hint Resolve keeps_usr_trig : chan_frame.

Lemma keeps_saturate r v : keeps (chan_frame chan) (saturate_ramp r v).
Proof. unfold saturate_ramp. keeps_tac. Qed.
#[local] Hint Resolve keeps_saturate : chan_frame.

Lemma keeps_write_ramptable msg n : keeps (chan_frame chan) (write_ramptable chan msg n).
Proof.
  unfold write_ramptable. keeps_tac.
Qed.

Lemma keeps_chan_cases u :
  Forall (λ c, keeps (chan_frame chan) c.2) (chan_cases chan u).
Proof.
  unfold chan_cases. repeat apply Forall_app_2; forall_list; cbn [snd]; keeps_tac.
Qed.

Lemma keeps_chan_settings msg n : keeps (chan_frame chan) (chan_settings chan msg n).
Proof.
  unfold chan_settings.
  do 2 (apply keeps_bind; [typeclasses eauto|by apply keeps_lift, _|intros ?]).
  by apply (switch_Forall (keeps (chan_frame chan))); [apply keeps_chan_cases|apply keeps_ret, _].
Qed.
End programs.
