(* ===== verification/ControlTotal.v ===== *)
(** * Control messages return

    A well-formed controller has the scale factors of its four channels and an
    idle flash.  Every control message with at least two words keeps it so and
    returns, except a set point in smooth mode, whose arithmetic can divide by
    zero ([Calc_WriteSmooth]). *)

From S2P Require Import Prelude Words Floats Machine Regs Sadata Qspi Control ControlFrame.

Section total.
Context `{Platform, Runtime, FpEnv, !FlashLaws}.

Record psc_wf (s : psc) : Prop := {
  wf_sf : length (scalefactors s) = 4%nat;
  wf_idle : fl_busy (flash s) = 0%nat;
}.

Abbreviation T m := (total psc_wf m (λ _, True)).

Lemma total_In32 a : T (Xil_In32 a).
Proof.
  intros s [Hl Hb]. unfold Xil_In32. destruct (pl_in32 (u32 a) (pl s)).
  eexists _, _. by split.
Qed.

Lemma total_Out32 a v : T (Xil_Out32 a v).
Proof. intros s [Hl Hb]. eexists _, _. by split. Qed.

Lemma total_out chan r v : T (out chan r v).
Proof. apply total_Out32. Qed.

Lemma total_flash_only {A} (m : M A) Q :
  (∀ s, fl_busy (flash s) = 0%nat → ∃ a s', m s = Ok (a, s') ∧ flash_only s s' ∧
     fl_busy (flash s') = 0%nat ∧ Q a) → total psc_wf m Q.
Proof.
  intros Hm s [Hl Hb]. destruct (Hm s Hb) as (a & s' & E & (_ & _ & Hsf & _) & Hb' & HQ).
  exists a, s'. split; [done|]. split; [|done]. split; [by rewrite Hsf|done].
Qed.

Context (chan : Z) (Hchan : 1 ≤ chan ≤ 4).

Lemma total_get_scalefactor : T (get_scalefactor (chan - 1)).
Proof.
  intros s [Hl Hb]. destruct (lookup_lt_is_Some_2 (scalefactors s) (Z.to_nat (chan - 1)))
    as [sf Hsf]; [lia|].
  exists sf, s. split; [|done]. apply run_get_scalefactor; [lia|done].
Qed.

Lemma total_update f : T (update_scalefactor (chan - 1) f).
Proof.
  intros s [Hl Hb]. eexists tt, _. split; [apply run_update_scalefactor; lia|].
  split; [|done]. split; [|done]. cbn. by rewrite length_alter.
Qed.

Lemma total_EraseSect : T (QspiFlashEraseSect chan).
Proof.
  apply total_flash_only. intros s Hb.
  destruct (run_EraseSect chan s) as (s' & ? & ? & ? & _); [lia|done|]. eauto 6.
Qed.

Lemma total_FlashRead :
  total psc_wf (QspiFlashRead (u32 (chan * FLASH_SECTOR_SIZE)) (Z.to_nat FLASH_PAGE_SIZE))
    (λ buf, length buf = 256%nat).
Proof.
  apply total_flash_only. intros s Hb. rewrite sector_id by done.
  destruct (run_FlashRead (chan * FLASH_SECTOR_SIZE) (Z.to_nat FLASH_PAGE_SIZE) s)
    as (s' & hdr & Hh & _ & E & Ho & Hb' & _); [unfold FLASH_SECTOR_SIZE; lia| |done|].
  { unfold FLASH_PAGE_SIZE; lia. }
  eexists _, s'. split; [exact E|]. split; [done|]. split; [done|].
  by rewrite length_app, Hh, length_fmap, length_seq.
Qed.

Lemma total_FlashWrite wb :
  length wb = 256%nat → T (QspiFlashWrite (u32 (chan * FLASH_SECTOR_SIZE)) wb).
Proof.
  intros Hl. apply total_flash_only. intros s Hb. rewrite sector_id by done.
  destruct (run_FlashWrite (chan * FLASH_SECTOR_SIZE) wb s) as (s' & wb' & E & Ho & Hb' & _);
    [unfold FLASH_SECTOR_SIZE; lia| | |done|eauto 6].
  - unfold FLASH_SECTOR_SIZE, FLASH_PAGE_SIZE. zmod_lia.
  - by rewrite Hl.
Qed.

(** A page of 256 bytes holds the structure. *)
Lemma qspi_load_total buf : length buf = 256%nat → ∃ d, qspi_load buf = Ok d.
Proof.
  intros Hl. unfold qspi_load.
  assert (∀ k, (k ≤ 45)%nat → ∃ ws, length ws = k ∧
    mapM (load32 buf) (Z.of_nat <$> seq (45 - k) k) = Ok ws) as Hgen.
  { induction k as [|k IH]; intros Hk; [by exists []|].
    destruct (load32_in buf (Z.of_nat (45 - S k))) as [w Hw]; [lia|lia|].
    destruct IH as (ws & Hws & E); [lia|].
    exists (w :: ws). split; [by cbn; f_equal|].
    change (seq (45 - S k) (S k)) with ((45 - S k)%nat :: seq (S (45 - S k)) k).
    replace (S (45 - S k)) with (45 - k)%nat by lia.
    rewrite fmap_cons. cbn [mapM]. rewrite Hw. cbn [mbind res_bind]. rewrite E. done. }
  destruct (Hgen 45%nat) as (ws & Hws & E); [lia|].
  change (mapM (load32 buf) (Z.of_nat <$> seq 0 QSPI_WORDS)) with
    (mapM (load32 buf) (Z.of_nat <$> seq (45 - 45) 45)). rewrite E.
  do 45 (destruct ws as [|? ws]; [discriminate Hws|]). destruct ws; [|discriminate Hws].
  cbn. eauto.
Qed.
End total.

Create HintDb chan_total discriminated.
#[export] Hint Resolve total_In32 total_Out32 total_out total_gets total_get_scalefactor
  total_update total_EraseSect : chan_total.

Ltac total_step :=
  first
    [ solve [auto 2 with chan_total nocore]
    | apply (total_bind _ _ _ (λ _, True)); [|intros ? _]
    | apply total_ret; done
    | apply total_when
    | apply total_if ].
Ltac total_tac := cbv zeta; repeat total_step.

Section programs.
Context `{Platform, Runtime, FpEnv, !FlashLaws}.
Context (chan : Z) (Hchan : 1 ≤ chan ≤ 4).
Abbreviation T m := (total psc_wf m (λ _, True)).

Lemma total_volts_to_dacbits field f : T (volts_to_dacbits chan field f).
Proof. unfold volts_to_dacbits. total_tac. Qed.
Lemma total_volts_to_16bits field f : T (volts_to_16bits chan field f).
Proof. unfold volts_to_16bits. total_tac. Qed.
#[local] Hint Resolve total_volts_to_dacbits total_volts_to_16bits : chan_total.

Lemma total_Gather wb :
  length wb = 256%nat → total psc_wf (QspiGatherData chan wb) (λ buf, length buf = 256%nat).
Proof.
  intros Hl. unfold QspiGatherData. cbv zeta.
  do 38 (eapply total_bind; [total_step|intros ? _]).
  unfold qspi_store. rewrite (proj2 (Nat.leb_le _ _)) by (rewrite Hl; cbv; lia).
  eapply total_weaken; [by apply total_lift_Ok|]. intros ? ->.
  rewrite length_app, length_bytes_of_words, length_drop, Hl. done.
Qed.

Lemma total_Disperse rb : length rb = 256%nat → T (QspiDisperseData chan rb).
Proof.
  intros Hl. destruct (qspi_load_total rb Hl) as [d Hd]. unfold QspiDisperseData.
  eapply total_bind; [by apply (total_lift_Ok _ _ d)|intros ? ->]. total_tac.
Qed.

Lemma total_recall : T (recall_settings chan).
Proof.
  unfold recall_settings. eapply total_bind; [by apply total_FlashRead|].
  intros buf Hbuf. by apply total_Disperse.
Qed.

Lemma total_save : T (save_settings chan).
Proof.
  unfold save_settings. eapply total_bind; [by apply total_EraseSect|intros _ _].
  eapply total_bind; [apply total_Gather, stack_bytes_length|intros wb Hwb].
  eapply total_bind; [by apply total_FlashWrite|intros _ _]. apply total_recall.
Qed.

Lemma total_ReadAccumSA a m : T (ReadAccumSA a m).
Proof. unfold ReadAccumSA. total_tac. Qed.
#[local] Hint Resolve total_ReadAccumSA total_recall total_save : chan_total.

Lemma total_dump_adcs : T (dump_adcs chan).
Proof. unfold dump_adcs. total_tac. Qed.

Lemma total_Set_dacOpmode m : T (Set_dacOpmode chan m).
Proof. unfold Set_dacOpmode. total_tac. Qed.

Lemma total_usr_trig : T (trig ← shift_one (u32 (chan - 1)); soft_trig trig).
Proof.
  unfold shift_one. rewrite u32_id by (unfold is_u32; lia).
  assert ((0 <=? chan - 1) && (chan - 1 <? 31) = true) as -> by (case_Zb; cbn; lia).
  eapply total_bind; [by apply (total_ret _ _ (λ _, True))|intros ? _].
  unfold soft_trig. total_tac.
Qed.
#[local] Hint Resolve total_dump_adcs total_Set_dacOpmode total_usr_trig : chan_total.

(** Every case but the set point. *)
Lemma total_chan_cases u :
  Forall (λ c, c.1 ≠ DAC_SETPT_MSG → T c.2) (chan_cases chan u).
Proof.
  unfold chan_cases. repeat apply Forall_app_2; forall_list; cbn [fst snd]; intros Hne;
    try (by destruct Hne); clear Hne; total_tac.
Qed.

(** The set point, outside of smooth mode. *)
Definition setpt_mode (s : psc) : Z :=
  u32 (pl_in32 (u32 (XPAR_M_AXI_BASEADDR + DAC_OPMODE_REG + chan * CHBASEADDR)) (pl s)).1.

Lemma total_Set_dac f s :
  psc_wf s → setpt_mode s ≠ SMOOTH → ∃ s', Set_dac chan f s = Ok (tt, s') ∧ psc_wf s'.
Proof.
  intros Hs Hm. unfold Set_dac, setpt_mode in *.
  set (a := XPAR_M_AXI_BASEADDR + DAC_OPMODE_REG + chan * CHBASEADDR) in *.
  destruct (pl_in32 (u32 a) (pl s)) as [v p] eqn:E. cbn [fst] in Hm.
  assert (Xil_In32 a s = Ok (u32 v, set_pl (λ _, p) s)) as Hr
    by (unfold Xil_In32; by rewrite E).
  rewrite (run_bind _ _ _ _ _ Hr). cbv beta.
  rewrite (proj2 (Z.eqb_neq (u32 v) SMOOTH) Hm).
  assert (psc_wf (set_pl (λ _, p) s)) as Hs1 by (by destruct Hs; split).
  lazymatch goal with |- ∃ s', ?m _ = _ ∧ _ => assert (T m) as Ht by total_tac end.
  destruct (Ht _ Hs1) as ([] & s' & Er & Hs' & _). eauto.
Qed.

Lemma total_chan_settings msg n s :
  psc_wf s → 8 ≤ Z.of_nat (length msg) →
  (∃ w, load32 msg 0 = Ok w ∧ (htonl w = DAC_SETPT_MSG → setpt_mode s ≠ SMOOTH)) →
  ∃ s', chan_settings chan msg n s = Ok (tt, s') ∧ psc_wf s'.
Proof.
  intros Hs Hl (w0 & Hw0 & Hmode).
  destruct (load32_in msg 1) as [w1 Hw1]; [lia|lia|].
  unfold chan_settings. rewrite (run_bind _ _ s w0 s) by (unfold lift; by rewrite Hw0).
  rewrite (run_bind _ _ s w1 s) by (unfold lift; by rewrite Hw1).
  destruct (Z.eq_dec (htonl w0) DAC_SETPT_MSG) as [Heq|Hne].
  - destruct (total_volts_to_dacbits dac_dccts (float_of_bits (htonl w1)) s Hs)
      as (a & s1 & E & Hs1 & _).
    assert (s1 = s) as ->.
    { revert E. unfold volts_to_dacbits, gets, mbind, M_bind, get_scalefactor.
      destruct (_ ≫= _); [|done]. by intros [= _ <-]. }
    destruct (total_Set_dac (float_of_bits (htonl w1)) s Hs (Hmode Heq)) as (s' & Er & Hs').
    exists s'. split; [|done]. rewrite Heq. etransitivity; [exact (run_bind _ _ _ _ _ E)|exact Er].
  - assert (T (switch (htonl w0) (chan_cases chan (htonl w1)) (mret tt))) as Ht.
    { apply (switch_Forall_key (λ m, T m)); [|by apply total_ret].
      eapply Forall_impl; [apply (total_chan_cases (htonl w1))|].
      intros [k b] Hb Hk. apply Hb. cbn in Hk |- *. by rewrite Hk. }
    destruct (Ht s Hs) as ([] & s' & E & Hs' & _). eauto.
Qed.
End programs.
