(* ===== verification/ControlSpec.v ===== *)
(** * What the control messages do

    The specification of [chan_settings] is a table: a message number, the
    register it sets and the encoding of the value.  The handler refines the
    table; the encodings of gains and count limits are exact.  The remaining
    messages (operating mode, set point, ramp table, flash) are specified one by
    one. *)

From Stdlib Require Import SpecFloat.
From S2P Require Import Prelude Words Floats Machine Regs Sadata Qspi Control ControlFrame.
From S2P Require Import ControlTotal.

(** ** The table of register settings *)

Inductive encoding :=
| Raw                                          (** the word of the message *)
| Gain                                         (** [float] to 20 fractional bits *)
| CountLimit                                   (** seconds to samples *)
| DacBits                                      (** amps to DAC bits, in [float] *)
| Bits16 (field : ScaleFactorType → Z)         (** to 16 bits, in [double] *)
| Threshold16 (field : ScaleFactorType → Z).   (** the same, at most 32767 *)

Section spec.
Context `{Platform, Runtime, FpEnv}.

Definition bits16 (field : ScaleFactorType → Z) (sf : ScaleFactorType) (u : Z) : Z :=
  s32_of_float (ddiv (dmul (d_of_f (float_of_bits u)) CONVVOLTSTO16BITS)
                  (d_of_f (float_of_bits (field sf)))).

Definition encode (enc : encoding) (v2b : Z) (sf : ScaleFactorType) (u : Z) : Z :=
  match enc with
  | Raw => u
  | Gain => u32_of_float (dmul (d_of_f (float_of_bits u)) GAIN20BITFRACT)
  | CountLimit => s32_of_float (dmul (d_of_f (float_of_bits u)) SAMPLERATE)
  | DacBits => s32_of_float (fdiv (fmul (float_of_bits u) (float_of_bits v2b))
                               (float_of_bits (dac_dccts sf)))
  | Bits16 field => bits16 field sf u
  | Threshold16 field => Z.min 32767 (bits16 field sf u)
  end.

Definition setting_table : list (Z * (Z * encoding)) := [
  (DAC_RAMPLEN_MSG, (DAC_RAMPLEN_REG, Raw));
  (DAC_RUNRAMP_MSG, (DAC_RUNRAMP_REG, Raw));
  (DAC_SETPT_GAIN_MSG, (DAC_SETPT_GAIN_REG, Gain));
  (DAC_SETPT_OFFSET_MSG, (DAC_SETPT_OFFSET_REG, DacBits));
  (DCCT1_GAIN_MSG, (DCCT1_GAIN_REG, Gain));
  (DCCT1_OFFSET_MSG, (DCCT1_OFFSET_REG, DacBits));
  (DCCT2_GAIN_MSG, (DCCT2_GAIN_REG, Gain));
  (DCCT2_OFFSET_MSG, (DCCT2_OFFSET_REG, DacBits));
  (DACMON_GAIN_MSG, (DACMON_GAIN_REG, Gain));
  (DACMON_OFFSET_MSG, (DACMON_OFFSET_REG, Bits16 dac_dccts));
  (VOLT_GAIN_MSG, (VOLT_GAIN_REG, Gain));
  (VOLT_OFFSET_MSG, (VOLT_OFFSET_REG, Bits16 vout));
  (GND_GAIN_MSG, (GND_GAIN_REG, Gain));
  (GND_OFFSET_MSG, (GND_OFFSET_REG, Bits16 ignd));
  (SPARE_GAIN_MSG, (SPARE_GAIN_REG, Gain));
  (SPARE_OFFSET_MSG, (SPARE_OFFSET_REG, Bits16 spare));
  (REG_GAIN_MSG, (REG_GAIN_REG, Gain));
  (REG_OFFSET_MSG, (REG_OFFSET_REG, Bits16 regulator));
  (ERR_GAIN_MSG, (ERR_GAIN_REG, Gain));
  (ERR_OFFSET_MSG, (ERR_OFFSET_REG, Bits16 error));
  (OVC1_THRESH_MSG, (OVC1_THRESH_REG, DacBits));
  (OVC2_THRESH_MSG, (OVC2_THRESH_REG, DacBits));
  (OVV_THRESH_MSG, (OVV_THRESH_REG, Threshold16 vout));
  (ERR1_THRESH_MSG, (ERR1_THRESH_REG, Threshold16 error));
  (ERR2_THRESH_MSG, (ERR2_THRESH_REG, Threshold16 error));
  (IGND_THRESH_MSG, (IGND_THRESH_REG, Threshold16 error));
  (OVC1_CNTLIM_MSG, (OVC1_CNTLIM_REG, CountLimit));
  (OVC2_CNTLIM_MSG, (OVC2_CNTLIM_REG, CountLimit));
  (OVV_CNTLIM_MSG, (OVV_CNTLIM_REG, CountLimit));
  (ERR1_CNTLIM_MSG, (ERR1_CNTLIM_REG, CountLimit));
  (ERR2_CNTLIM_MSG, (ERR2_CNTLIM_REG, CountLimit));
  (IGND_CNTLIM_MSG, (IGND_CNTLIM_REG, CountLimit));
  (DCCT_CNTLIM_MSG, (DCCT_CNTLIM_REG, CountLimit));
  (FLT1_CNTLIM_MSG, (FLT1_CNTLIM_REG, CountLimit));
  (FLT2_CNTLIM_MSG, (FLT2_CNTLIM_REG, CountLimit));
  (FLT3_CNTLIM_MSG, (FLT3_CNTLIM_REG, CountLimit));
  (ON_CNTLIM_MSG, (ON_CNTLIM_REG, CountLimit));
  (HEART_CNTLIM_MSG, (HEARTBEAT_CNTLIM_REG, CountLimit));
  (FAULT_CLEAR_MSG, (FAULT_CLEAR_REG, Raw));
  (FAULT_MASK_MSG, (FAULT_MASK_REG, Raw));
  (DIGOUT_ON1_MSG, (DIGOUT_ON1_REG, Raw));
  (DIGOUT_ON2_MSG, (DIGOUT_ON2_REG, Raw));
  (DIGOUT_RESET_MSG, (DIGOUT_RESET_REG, Raw));
  (DIGOUT_SPARE_MSG, (DIGOUT_SPARE_REG, Raw));
  (DIGOUT_PARK_MSG, (DIGOUT_PARK_REG, Raw));
  (FOFB_FASTADDR_MSG, (FOFB_FASTADDR_REG, Raw));
  (AVE_MODE_MSG, (AVEMODE_REG, Raw)) ].

(** A message on the wire: two big-endian words, then anything. *)
Definition message (id u : Z) (rest : list Z) : list Z :=
  bytes_of_words [htonl id; htonl u] ++ rest.

Lemma load_message id u rest :
  load32 (message id u rest) 0 = Ok (htonl id) ∧ load32 (message id u rest) 1 = Ok (htonl u).
Proof.
  unfold message. split.
  - apply (load32_words _ _ 0%nat); [done|auto with psc].
  - apply (load32_words _ _ 1%nat); [done|auto with psc].
Qed.

Lemma chan_labels_nodup chan u : NoDup (chan_cases chan u).*1.
Proof.
  change ((chan_cases chan u).*1) with
    ((chan_cases_dac 0 0 ++ chan_cases_adc 0 0 ++ chan_cases_fault 0 0 ++
      chan_cases_digital 0 0 ++ chan_cases_sf 0 0 ++ chan_cases_misc 0 0).*1).
  cbn. apply (bool_decide_unpack _). by vm_compute.
Qed.

Lemma run_chan_settings chan id u rest n s :
  is_u32 id → is_u32 u →
  chan_settings chan (message id u rest) n s = switch id (chan_cases chan u) (mret tt) s.
Proof.
  intros Hid Hu. destruct (load_message id u rest) as [E0 E1]. unfold chan_settings.
  rewrite (run_bind _ _ s (htonl id) s) by (unfold lift; by rewrite E0).
  rewrite (run_bind _ _ s (htonl u) s) by (unfold lift; by rewrite E1).
  by rewrite !htonl_htonl, !u32_id.
Qed.

Lemma run_volts_to_dacbits chan field f s sf :
  1 ≤ chan ≤ 4 → scalefactors s !! Z.to_nat (chan - 1) = Some sf →
  volts_to_dacbits chan field f s =
  Ok (s32_of_float (fdiv (fmul f (float_of_bits (CONVVOLTSTODACBITS s)))
                      (float_of_bits (field sf))), s).
Proof.
  intros Hc Hsf. unfold volts_to_dacbits.
  rewrite (run_bind (gets _) _ s (CONVVOLTSTODACBITS s) s) by done.
  by rewrite (run_bind _ _ _ _ _ (run_get_scalefactor (chan - 1) s sf ltac:(lia) Hsf)).
Qed.

Lemma run_volts_to_16bits chan field f s sf :
  1 ≤ chan ≤ 4 → scalefactors s !! Z.to_nat (chan - 1) = Some sf →
  volts_to_16bits chan field f s =
  Ok (s32_of_float (ddiv (dmul (d_of_f f) CONVVOLTSTO16BITS)
                      (d_of_f (float_of_bits (field sf)))), s).
Proof.
  intros Hc Hsf. unfold volts_to_16bits.
  by rewrite (run_bind _ _ _ _ _ (run_get_scalefactor (chan - 1) s sf ltac:(lia) Hsf)).
Qed.

Lemma run_out chan reg v s : out chan reg v s = Ok (tt, out32 (chan_addr chan reg) v s).
Proof.
  unfold out, chan_addr. by replace (XPAR_M_AXI_BASEADDR + reg + chan * CHBASEADDR)
    with (XPAR_M_AXI_BASEADDR + chan * CHBASEADDR + reg) by lia.
Qed.

(** The body of each table entry writes the encoded value. *)
Definition implements (chan : Z) (s : psc) (sf : ScaleFactorType) (u : Z)
    (t : Z * (Z * encoding)) : Prop :=
  ∃ body, (t.1, body) ∈ chan_cases chan u ∧
    body s = Ok (tt, out32 (chan_addr chan t.2.1)
                       (encode t.2.2 (CONVVOLTSTODACBITS s) sf u) s).

Lemma threshold_min x : (if 32767 <=? x then 32767 else x) = Z.min 32767 x.
Proof. case_Zb; lia. Qed.

Lemma table_implements chan s sf u :
  1 ≤ chan ≤ 4 → scalefactors s !! Z.to_nat (chan - 1) = Some sf →
  Forall (implements chan s sf u) setting_table.
Proof.
  intros Hc Hsf. unfold setting_table.
  forall_list; eexists; cbn [fst snd];
    (split; [unfold chan_cases, chan_cases_dac, chan_cases_adc, chan_cases_fault,
               chan_cases_digital, chan_cases_sf, chan_cases_misc; cbn [app]; list_elem|]);
    rewrite <- run_out; cbn [encode]; unfold bits16; rewrite <- ?threshold_min;
    first [ reflexivity
          | rewrite (run_bind _ _ _ _ _ (run_volts_to_dacbits chan _ _ s sf Hc Hsf)); reflexivity
          | rewrite (run_bind _ _ _ _ _ (run_volts_to_16bits chan _ _ s sf Hc Hsf)); reflexivity ].
Qed.

Lemma setting_ids : Forall (λ t, is_u32 t.1) setting_table.
Proof. unfold setting_table, is_u32. forall_list; by vm_compute. Qed.

(** A message of the table has the effect of its row. *)
Lemma run_table chan id reg enc u rest n s sf :
  1 ≤ chan ≤ 4 → (id, (reg, enc)) ∈ setting_table → is_u32 u →
  scalefactors s !! Z.to_nat (chan - 1) = Some sf →
  chan_settings chan (message id u rest) n s =
  Ok (tt, out32 (chan_addr chan reg) (encode enc (CONVVOLTSTODACBITS s) sf u) s).
Proof.
  intros Hc Hin Hu Hsf. rewrite run_chan_settings; [| |done].
  - destruct (proj1 (Forall_forall _ _) (table_implements chan s sf u Hc Hsf) _ Hin)
      as (body & Hbody & Hrun).
    by rewrite (switch_in id body) by (apply chan_labels_nodup || done).
  - exact (proj1 (Forall_forall _ _) setting_ids _ Hin).
Qed.

(** C2: every message of the table writes exactly one register,
    the table's register of the message's channel, with the table's encoding of
    the value; nothing else changes. *)
Theorem chan_settings_table chan id reg enc u rest n s sf :
  1 ≤ chan ≤ 4 → (id, (reg, enc)) ∈ setting_table → is_u32 u →
  scalefactors s !! Z.to_nat (chan - 1) = Some sf →
  chan_settings chan (message id u rest) n s =
  Ok (tt, out32 (chan_addr chan reg) (encode enc (CONVVOLTSTODACBITS s) sf u) s).
Proof. apply run_table. Qed.

Lemma SAMPLERATE_value :
  ∃ c, SAMPLERATE = S754_finite false c (- (39)) ∧ Zpos c = 10000 * 2 ^ 39.
Proof. eexists. split; vm_compute; reflexivity. Qed.

Lemma GAIN20BITFRACT_value :
  ∃ c, GAIN20BITFRACT = S754_finite false c (- (33)) ∧ Zpos c = 1048575 * 2 ^ 33.
Proof. eexists. split; vm_compute; reflexivity. Qed.

Lemma encode_count_limit v2b sf u sgn m e :
  float_of_bits u = S754_finite sgn m e →
  is_s32 (signed sgn (dyadic (Zpos m * 10000) e)) →
  encode CountLimit v2b sf u = signed sgn (dyadic (Zpos m * 10000) e).
Proof.
  intros Hf [Hlo Hhi]. destruct (float_of_bits_finite _ _ _ _ Hf) as [Hm He].
  destruct SAMPLERATE_value as (c & Es & Hc).
  cbn [encode]. rewrite Hf. unfold s32_of_float.
  rewrite Es, (dmul_exact sgn m e c 39 10000) by lia.
  by rewrite (proj2 (Z.leb_le _ _)), (proj2 (Z.ltb_lt _ _)).
Qed.

Lemma encode_gain v2b sf u sgn m e :
  float_of_bits u = S754_finite sgn m e →
  is_u32 (signed sgn (dyadic (Zpos m * 1048575) e)) →
  encode Gain v2b sf u = signed sgn (dyadic (Zpos m * 1048575) e).
Proof.
  intros Hf [Hlo Hhi]. destruct (float_of_bits_finite _ _ _ _ Hf) as [Hm He].
  destruct GAIN20BITFRACT_value as (c & Es & Hc).
  cbn [encode]. rewrite Hf. unfold u32_of_float.
  rewrite Es, (dmul_exact sgn m e c 33 1048575) by lia.
  by rewrite (proj2 (Z.leb_le _ _)), (proj2 (Z.ltb_lt _ _)).
Qed.

(** A fault counter limit of [(-1)^sgn * m * 2^e] seconds is
    stored as the exact number of 10 kHz samples, truncated towards zero: no
    rounding error enters through the floating-point product. *)
Theorem count_limit_exact chan id reg u rest n s sf sgn m e :
  1 ≤ chan ≤ 4 → (id, (reg, CountLimit)) ∈ setting_table → is_u32 u →
  scalefactors s !! Z.to_nat (chan - 1) = Some sf →
  float_of_bits u = S754_finite sgn m e →
  is_s32 (signed sgn (dyadic (Zpos m * 10000) e)) →
  chan_settings chan (message id u rest) n s =
  Ok (tt, out32 (chan_addr chan reg) (signed sgn (dyadic (Zpos m * 10000) e)) s).
Proof.
  intros Hc Hin Hu Hsf Hf Hr. rewrite (run_table _ _ _ _ _ _ _ _ _ Hc Hin Hu Hsf).
  by rewrite (encode_count_limit _ _ _ _ _ _ Hf Hr).
Qed.

(** A non-negative gain [m * 2^e] is stored as the exact product with
    2^20-1, truncated; a unit gain is stored as 2^20-1. *)
Theorem gain_exact chan id reg u rest n s sf sgn m e :
  1 ≤ chan ≤ 4 → (id, (reg, Gain)) ∈ setting_table → is_u32 u →
  scalefactors s !! Z.to_nat (chan - 1) = Some sf →
  float_of_bits u = S754_finite sgn m e →
  is_u32 (signed sgn (dyadic (Zpos m * 1048575) e)) →
  chan_settings chan (message id u rest) n s =
  Ok (tt, out32 (chan_addr chan reg) (signed sgn (dyadic (Zpos m * 1048575) e)) s).
Proof.
  intros Hc Hin Hu Hsf Hf Hr. rewrite (run_table _ _ _ _ _ _ _ _ _ Hc Hin Hu Hsf).
  by rewrite (encode_gain _ _ _ _ _ _ Hf Hr).
Qed.

(** The 16-bit fault thresholds are written saturated: the
    register receives a signed value of at most 32767, whatever the message says. *)
Theorem threshold_bounded chan id reg field u rest n s sf :
  1 ≤ chan ≤ 4 → (id, (reg, Threshold16 field)) ∈ setting_table → is_u32 u →
  scalefactors s !! Z.to_nat (chan - 1) = Some sf →
  ∃ v, chan_settings chan (message id u rest) n s =
       Ok (tt, out32 (chan_addr chan reg) v s) ∧ - 2 ^ 31 ≤ v ≤ 32767.
Proof.
  intros Hc Hin Hu Hsf. eexists. split; [by eapply run_table|].
  cbn [encode]. unfold bits16.
  pose proof (s32_of_float_range (ddiv (dmul (d_of_f (float_of_bits u)) CONVVOLTSTO16BITS)
    (d_of_f (float_of_bits (field sf))))) as [Hlo Hhi]. lia.
Qed.

(** A message number that is no case of the switch leaves
    the whole state as it is. *)
Theorem chan_settings_unknown chan id u rest n s :
  is_u32 id → is_u32 u → id ∉ (chan_cases 0 0).*1 →
  chan_settings chan (message id u rest) n s = Ok (tt, s).
Proof.
  intros Hid Hu Hnot. rewrite run_chan_settings by done. by rewrite switch_notin.
Qed.
End spec.

(** ** Isolation and totality of the handler *)

Section handler.
Context `{Platform, Runtime, FpEnv}.

Lemma u32_add_inj b x y : Z.abs (x - y) < 2 ^ 32 → u32 (b + x) = u32 (b + y) → x = y.
Proof. unfold u32. intros Ha Hm. Z.div_mod_to_equations. lia. Qed.

(** Registers of different channels have different bus addresses, wherever the
    register file is mapped; the soft trigger belongs to no channel. *)
Lemma block_disjoint chan chan' a :
  1 ≤ chan ≤ 4 → 1 ≤ chan' ≤ 4 → in_block chan a → in_block chan' a → chan = chan'.
Proof.
  unfold in_block, chan_addr, CHBASEADDR. intros Hc Hc' (o & Ho & ->) (o' & Ho' & Heq).
  rewrite <- !Z.add_assoc in Heq. apply u32_add_inj in Heq; lia.
Qed.

Lemma softtrig_not_block chan :
  1 ≤ chan ≤ 4 → ¬ in_block chan (u32 (XPAR_M_AXI_BASEADDR + SOFTTRIG)).
Proof.
  unfold in_block, chan_addr, CHBASEADDR, SOFTTRIG. intros Hc (o & Ho & Heq).
  rewrite <- Z.add_assoc in Heq. apply u32_add_inj in Heq; lia.
Qed.

Lemma frame_other_registers chan chan' s s' :
  1 ≤ chan ≤ 4 → 1 ≤ chan' ≤ 4 → chan ≠ chan' → chan_frame chan s s' →
  ∃ evs, events s' = events s ++ evs ∧ Forall (chan_event chan) evs ∧
    (∀ a v, Out32 a v ∈ evs → ¬ in_block chan' a).
Proof.
  intros Hc Hc' Hne [(evs & Ev & Hevs) _ _ _ _ _]. exists evs. split; [done|]. split; [done|].
  intros a v Hin Hb. apply (proj1 (Forall_forall _ _) Hevs) in Hin as [Hin|[-> _]].
  - by apply Hne, (block_disjoint chan chan' a).
  - by apply (softtrig_not_block chan').
Qed.

(** C13: whatever the message, [chan_settings] of one channel
    writes no register of another channel, addresses no other flash sector, sends
    nothing to the EEPROM or the network and keeps the scale factors of the other
    channels and the conversion constants. *)
Theorem chan_settings_isolated chan chan' msg n s s' :
  1 ≤ chan ≤ 4 → 1 ≤ chan' ≤ 4 → chan ≠ chan' → chan_settings chan msg n s = Ok (tt, s') →
  (∃ evs, events s' = events s ++ evs ∧ Forall (chan_event chan) evs ∧
     (∀ a v, Out32 a v ∈ evs → ¬ in_block chan' a)) ∧
  scalefactors s' !! Z.to_nat (chan' - 1) = scalefactors s !! Z.to_nat (chan' - 1) ∧
  length (scalefactors s') = length (scalefactors s) ∧ eeprom s' = eeprom s ∧
  CONVVOLTSTODACBITS s' = CONVVOLTSTODACBITS s ∧ CONVDACBITSTOVOLTS s' = CONVDACBITSTOVOLTS s.
Proof.
  intros Hc Hc' Hne Hr. pose proof (keeps_chan_settings chan Hc msg n s tt s' Hr) as Hf.
  split; [by apply (frame_other_registers chan chan')|].
  destruct Hf as [_ ? ? ? ? Hother]. split; [apply Hother; lia|done].
Qed.


(** ** Operating mode and set point *)

Definition fofb_scale (s : psc) (sf : ScaleFactorType) : Z :=
  bits_of_float (fmul (fdiv (f_of_int 1) (float_of_bits (dac_dccts sf)))
                   (float_of_bits (CONVVOLTSTODACBITS s))).

(** A mode change writes the mode register; switching to FOFB first
    writes the FOFB scale factor of the channel, then the mode; a number that is
    no mode writes nothing. *)
Theorem opmode_switch chan mode s sf :
  1 ≤ chan ≤ 4 → scalefactors s !! Z.to_nat (chan - 1) = Some sf →
  Set_dacOpmode chan mode s =
  Ok (tt, out_all (if mode =? FOFB
                   then [(chan_addr chan FOFB_SCALEFACTOR_REG, fofb_scale s sf);
                         (chan_addr chan DAC_OPMODE_REG, FOFB)]
                   else if (mode =? JUMP) || (mode =? SMOOTH) || (mode =? RAMP)
                   then [(chan_addr chan DAC_OPMODE_REG, mode)] else []) s).
Proof.
  intros Hc Hsf. unfold Set_dacOpmode.
  destruct (Z.eqb_spec mode FOFB) as [->|].
  { rewrite (run_bind _ _ s tt s) by done. cbn [when].
    rewrite (run_bind _ _ s tt (out_all [(chan_addr chan FOFB_SCALEFACTOR_REG, fofb_scale s sf);
      (chan_addr chan DAC_OPMODE_REG, FOFB)] s)); [done|]. cbn.
    rewrite (run_bind _ _ _ _ _ (run_get_scalefactor (chan - 1) s sf ltac:(lia) Hsf)).
    rewrite (run_bind (gets _) _ s (CONVVOLTSTODACBITS s) s) by done.
    rewrite (run_bind _ _ _ _ _ (run_out _ _ _ _)). by rewrite run_out. }
  destruct (Z.eqb_spec mode JUMP) as [->|]; cbn [orb when].
  { by rewrite (run_bind _ _ _ _ _ (run_out _ _ _ _)). }
  rewrite (run_bind _ _ s tt s) by done. rewrite (run_bind _ _ s tt s) by done.
  destruct (Z.eqb_spec mode SMOOTH) as [->|]; cbn [orb]; [apply run_out|].
  destruct (Z.eqb_spec mode RAMP) as [->|]; [apply run_out|done].
Qed.
End handler.

Section operations.
Context `{Platform, Runtime, FpEnv}.

(** [Xil_In32] where the read has no side effect on the logic. *)
Lemma run_in32 {A} a (k : Z → M A) s v :
  pl_in32 (u32 a) (pl s) = (v, pl s) → (Xil_In32 a ≫= k) s = k (u32 v) s.
Proof.
  intros E. unfold mbind, M_bind, Xil_In32. rewrite E. by destruct s.
Qed.

(** ** Scale factors *)

(** Setting the amps-per-volt factor stores it for the
    channel and keeps the other factors, and writes to the FOFB scale register the
    value that a switch to FOFB mode would compute from the new factor. *)
Theorem sf_dac_dccts_consistent chan u rest n s sf :
  1 ≤ chan ≤ 4 → is_u32 u → scalefactors s !! Z.to_nat (chan - 1) = Some sf →
  let sf' := MkSF (ampspersec sf) u (vout sf) (ignd sf) (spare sf) (regulator sf) (error sf) in
  let s' := set_scalefactors (<[Z.to_nat (chan - 1) := sf']> (scalefactors s)) s in
  chan_settings chan (message SF_DAC_DCCTS_MSG u rest) n s =
  Ok (tt, out32 (chan_addr chan FOFB_SCALEFACTOR_REG) (fofb_scale s' sf') s').
Proof.
  intros Hc Hu Hsf sf' s'. rewrite run_chan_settings by done.
  pose proof (lookup_lt_Some _ _ _ Hsf) as Hlt.
  lazymatch goal with |- switch _ _ _ _ = Ok (_, ?r) => set (st := r) end. cbn.
  rewrite run_update_then by done.
  assert (alter (λ sf, MkSF (ampspersec sf) u (vout sf) (ignd sf) (spare sf) (regulator sf)
    (error sf)) (Z.to_nat (chan - 1)) (scalefactors s)
    = <[Z.to_nat (chan - 1) := sf']> (scalefactors s)) as ->.
  { apply list_eq. intros i. destruct (decide (i = Z.to_nat (chan - 1))) as [->|Hi].
    - by rewrite list_lookup_alter_eq, Hsf, list_lookup_insert_eq.
    - by rewrite list_lookup_alter_ne, list_lookup_insert_ne. }
  rewrite (run_bind (gets _) _ s' (CONVVOLTSTODACBITS s') s') by done. apply run_out.
Qed.

(** ** The set point *)

(** The arithmetic of [Calc_WriteSmooth]. *)
Definition ramp_rate (s : psc) (sf : ScaleFactorType) : spec_float :=
  fmul (fdiv (float_of_bits (ampspersec sf)) (float_of_bits (dac_dccts sf)))
    (float_of_bits (CONVVOLTSTODACBITS s)).
Definition num_samples (s : psc) (sf : ScaleFactorType) (dist : Z) : Z :=
  u32_of_float (dmul (d_of_f (fdiv (f_of_int dist) (ramp_rate s sf))) SAMPLERATE).

Lemma run_smooth chan new_setpt s sf cur :
  1 ≤ chan ≤ 4 → scalefactors s !! Z.to_nat (chan - 1) = Some sf →
  pl_in32 (u32 (chan_addr chan DAC_CURRSETPT_REG)) (pl s) = (cur, pl s) →
  - 2 ^ 31 < new_setpt - s32 cur < 2 ^ 31 →
  Calc_WriteSmooth chan new_setpt s =
  let ns := num_samples s sf (Z.abs (new_setpt - s32 cur)) in
  if ns =? 0 then Ub ub_div0
  else Ok (tt, out_all [(chan_addr chan SMOOTH_PHASEINC_REG,
                         u32_of_float (f_of_int (CORDIC_INIT_PHASE / ns)));
                        (chan_addr chan DAC_SETPT_REG, new_setpt)] s).
Proof.
  intros Hc Hsf Hin Hd. unfold Calc_WriteSmooth, chan_addr in *.
  replace (XPAR_M_AXI_BASEADDR + DAC_CURRSETPT_REG + chan * CHBASEADDR)
    with (XPAR_M_AXI_BASEADDR + chan * CHBASEADDR + DAC_CURRSETPT_REG) by lia.
  rewrite (run_in32 _ _ _ _ Hin). cbv zeta. rewrite s32_u32.
  rewrite (run_bind _ _ _ _ _ (run_get_scalefactor (chan - 1) s sf ltac:(lia) Hsf)).
  rewrite (run_bind (gets _) _ s (CONVVOLTSTODACBITS s) s) by done.
  rewrite (run_bind (sub_s32 _ _) _ s (new_setpt - s32 cur) s).
  2:{ unfold sub_s32. by rewrite (proj2 (Z.leb_le _ _)), (proj2 (Z.ltb_lt _ _)) by lia. }
  rewrite (run_bind (abs_s32 _) _ s (Z.abs (new_setpt - s32 cur)) s).
  2:{ unfold abs_s32. by rewrite (proj2 (Z.eqb_neq _ _)) by lia. }
  fold (ramp_rate s sf). fold (num_samples s sf (Z.abs (new_setpt - s32 cur))).
  set (ns := num_samples s sf _). unfold div_u32.
  destruct (ns =? 0); [done|].
  rewrite (run_bind _ _ s (CORDIC_INIT_PHASE / ns) s) by done.
  rewrite run_out32. cbn [out_all foldl fst snd].
  by replace (XPAR_M_AXI_BASEADDR + SMOOTH_PHASEINC_REG + chan * CHBASEADDR)
    with (XPAR_M_AXI_BASEADDR + chan * CHBASEADDR + SMOOTH_PHASEINC_REG) by lia;
  replace (XPAR_M_AXI_BASEADDR + DAC_SETPT_REG + chan * CHBASEADDR)
    with (XPAR_M_AXI_BASEADDR + chan * CHBASEADDR + DAC_SETPT_REG) by lia.
Qed.

(** C36: a smooth set point change writes the CORDIC phase increment
    before the new set point, which starts the transition; when the number of
    samples is zero the increment divides by zero, which is undefined. *)
Theorem smooth_writes chan new_setpt s sf cur :
  1 ≤ chan ≤ 4 → scalefactors s !! Z.to_nat (chan - 1) = Some sf →
  pl_in32 (u32 (chan_addr chan DAC_CURRSETPT_REG)) (pl s) = (cur, pl s) →
  - 2 ^ 31 < new_setpt - s32 cur < 2 ^ 31 →
  let ns := num_samples s sf (Z.abs (new_setpt - s32 cur)) in
  (ns = 0 → Calc_WriteSmooth chan new_setpt s = Ub ub_div0) ∧
  (ns ≠ 0 → Calc_WriteSmooth chan new_setpt s =
     Ok (tt, out_all [(chan_addr chan SMOOTH_PHASEINC_REG,
                       u32_of_float (f_of_int (CORDIC_INIT_PHASE / ns)));
                      (chan_addr chan DAC_SETPT_REG, new_setpt)] s)).
Proof.
  intros Hc Hsf Hin Hd ns. rewrite (run_smooth chan new_setpt s sf cur) by done.
  fold ns. cbv zeta. by split; intros Hns; destruct (Z.eqb_spec ns 0).
Qed.

(** A set point equal to the present one makes
    [Calc_WriteSmooth] divide by zero, for every finite non-zero ramp rate. *)
Theorem smooth_same_setpoint_div0 chan s sf cur sg m e :
  1 ≤ chan ≤ 4 → scalefactors s !! Z.to_nat (chan - 1) = Some sf →
  pl_in32 (u32 (chan_addr chan DAC_CURRSETPT_REG)) (pl s) = (cur, pl s) →
  ramp_rate s sf = S754_finite sg m e →
  Calc_WriteSmooth chan (s32 cur) s = Ub ub_div0.
Proof.
  intros Hc Hsf Hin Hrate. rewrite (run_smooth chan (s32 cur) s sf cur) by (done || lia).
  rewrite Z.sub_diag. unfold num_samples. by rewrite Hrate; destruct sg.
Qed.

(** The set point in DAC bits. *)
Definition setpt_bits (s : psc) (sf : ScaleFactorType) (amps : spec_float) : Z :=
  let dccts := float_of_bits (dac_dccts sf) in
  s32_of_float (fdiv (fmul (limit_setpt amps dccts) (float_of_bits (CONVVOLTSTODACBITS s))) dccts).

Lemma run_set_point chan u rest n s sf mode :
  1 ≤ chan ≤ 4 → is_u32 u → scalefactors s !! Z.to_nat (chan - 1) = Some sf →
  pl_in32 (u32 (chan_addr chan DAC_OPMODE_REG)) (pl s) = (mode, pl s) → is_u32 mode →
  let bits := setpt_bits s sf (float_of_bits u) in
  chan_settings chan (message DAC_SETPT_MSG u rest) n s =
  (if mode =? SMOOTH then Calc_WriteSmooth chan bits s
   else if mode =? JUMP then Ok (tt, out32 (chan_addr chan DAC_SETPT_REG) bits s)
   else Ok (tt, s)).
Proof.
  intros Hc Hu Hsf Hin Hmode bits. rewrite run_chan_settings by done.
  lazymatch goal with |- _ = ?r => set (rhs := r) end. cbn.
  rewrite (run_bind _ _ _ _ _ (run_volts_to_dacbits _ _ _ _ _ Hc Hsf)). unfold Set_dac.
  replace (XPAR_M_AXI_BASEADDR + DAC_OPMODE_REG + chan * CHBASEADDR)
    with (chan_addr chan DAC_OPMODE_REG) by (unfold chan_addr; lia).
  rewrite (run_in32 _ _ _ _ Hin), u32_id by done.
  rewrite (run_bind _ _ _ _ _ (run_get_scalefactor (chan - 1) s sf ltac:(lia) Hsf)).
  rewrite (run_bind (gets _) _ s (CONVVOLTSTODACBITS s) s) by done. subst rhs.
  unfold bits, setpt_bits. destruct (mode =? SMOOTH); [done|].
  destruct (mode =? JUMP); [|done]. apply run_out.
Qed.

End operations.

(** ** The ramp table *)

Section ramp.
Context `{Platform, Runtime, FpEnv}.

(** A loop whose iterations only write registers. *)
Lemma run_for_out (I : psc → Prop) (body : Z → M unit) (ws : Z → list (Z * Z)) n from s :
  (∀ w s, I s → I (out_all w s)) →
  (∀ i s, from ≤ i < from + Z.of_nat n → I s → body i s = Ok (tt, out_all (ws i) s)) →
  I s →
  for_range from n body s = Ok (tt, out_all (mjoin (ws <$> seqZ from (Z.of_nat n))) s).
Proof.
  intros HI. revert from s. induction n as [|n IH]; intros from s Hb Hs; [done|].
  cbn [for_range]. rewrite (run_bind _ _ _ _ _ (Hb from s ltac:(lia) Hs)).
  rewrite IH; [|intros; apply Hb; [lia|done]|by apply HI].
  rewrite (seqZ_cons from (Z.of_nat (S n))) by lia. rewrite fmap_cons. cbn [mjoin list_join].
  rewrite out_all_app. by replace (Z.pred (Z.of_nat (S n))) with (Z.of_nat n) by lia.
Qed.

Definition saturated (psc_resolution v : Z) : Z :=
  if (psc_resolution =? 1) && (2 ^ 20 <? Z.abs v) then (if 0 <? v then 2 ^ 20 - 1 else - 2 ^ 20)
  else if (psc_resolution =? 0) && (2 ^ 18 <? Z.abs v)
  then (if 0 <? v then 2 ^ 18 - 1 else - 2 ^ 18) else v.

Lemma run_saturate r v s : v ≠ - 2 ^ 31 → saturate_ramp r v s = Ok (saturated r v, s).
Proof.
  intros Hv. unfold saturate_ramp, saturated, abs_s32.
  rewrite (proj2 (Z.eqb_neq v _)) by done.
  change (Z.shiftl 1 20) with (2 ^ 20). change (Z.shiftl 1 18) with (2 ^ 18).
  destruct (r =? 1); cbn [andb].
  - rewrite (run_bind _ _ s (2 ^ 20 <? Z.abs v) s) by done.
    destruct (2 ^ 20 <? Z.abs v); [done|].
    destruct (r =? 0); cbn [andb].
    + rewrite (run_bind _ _ s (2 ^ 18 <? Z.abs v) s) by done. by destruct (2 ^ 18 <? Z.abs v).
    + by rewrite (run_bind _ _ s false s) by done.
  - rewrite (run_bind _ _ s false s) by done.
    destruct (r =? 0); cbn [andb].
    + rewrite (run_bind _ _ s (2 ^ 18 <? Z.abs v) s) by done. by destruct (2 ^ 18 <? Z.abs v).
    + by rewrite (run_bind _ _ s false s) by done.
Qed.

Definition ramp_msg (pts rest : list Z) : list Z := bytes_of_words (htonl <$> pts) ++ rest.

Lemma load_ramp pts rest (i : nat) p :
  pts !! i = Some p → load32 (ramp_msg pts rest) (Z.of_nat i) = Ok (htonl p).
Proof.
  intros Hp. apply load32_words; [|auto with psc]. by rewrite list_lookup_fmap, Hp.
Qed.

Definition ramp_point (s : psc) (sf : ScaleFactorType) (p : Z) : Z :=
  s32_of_float (fdiv (fmul (float_of_bits p) (float_of_bits (CONVVOLTSTODACBITS s)))
                  (float_of_bits (dac_dccts sf))).

(** The register writes of a table: each point as (address, data). *)
Definition ramp_writes (chan res : Z) (s : psc) (sf : ScaleFactorType) (pts : list Z) (i : Z)
    : list (Z * Z) :=
  [(chan_addr chan DAC_RAMPADDR_REG, i);
   (chan_addr chan DAC_RAMPDATA_REG,
    saturated res (ramp_point s sf (default 0 (pts !! Z.to_nat i))))].

Lemma run_print_loop pts rest k s :
  (k ≤ length pts)%nat →
  for_range 0 k (λ i, _ ← lift (load32 (ramp_msg pts rest) i); mret tt) s = Ok (tt, s).
Proof.
  intros Hk.
  rewrite (run_for_out (λ _, True) _ (λ _, [])).
  - by induction (seqZ 0 (Z.of_nat k)).
  - done.
  - intros i s0 Hi _. destruct (lookup_lt_is_Some_2 pts (Z.to_nat i)) as [p Hp]; [lia|].
    pose proof (load_ramp pts rest _ _ Hp) as Hl. rewrite Z2Nat.id in Hl by lia.
    by rewrite Hl.
  - done.
Qed.

(** A table of more than 50,000 points is refused: no register
    is written. *)
Theorem ramptable_too_long chan pts rest r s :
  50000 < Z.of_nat (length pts) → 0 ≤ r < 4 →
  write_ramptable chan (ramp_msg pts rest) (4 * Z.of_nat (length pts) + r) s = Ok (tt, s).
Proof.
  intros Hlen Hr. unfold write_ramptable.
  replace ((4 * Z.of_nat (length pts) + r) / 4) with (Z.of_nat (length pts)) by zmod_lia.
  cbv zeta. rewrite (run_bind _ _ s tt s) by (apply run_print_loop; lia).
  by rewrite (proj2 (Z.ltb_lt _ _)).
Qed.

(** C29: a table of at most 50,000 points is written completely and
    in order: the length, then for every point its index and its scaled and
    saturated value; the bytes behind the last whole word are ignored. *)
Theorem ramptable_written chan pts rest r s sf res :
  1 ≤ chan ≤ 4 → Z.of_nat (length pts) ≤ 50000 → 0 ≤ r < 4 → Forall is_u32 pts →
  scalefactors s !! Z.to_nat (chan - 1) = Some sf → is_u32 res →
  (let s1 := out32 (chan_addr chan DAC_RAMPLEN_REG) (Z.of_nat (length pts)) s in
   pl_in32 (u32 (XPAR_M_AXI_BASEADDR + RESOLUTION_REG)) (pl s1) = (res, pl s1)) →
  Forall (λ p, ramp_point s sf p ≠ - 2 ^ 31) pts →
  write_ramptable chan (ramp_msg pts rest) (4 * Z.of_nat (length pts) + r) s =
  Ok (tt, out_all ((chan_addr chan DAC_RAMPLEN_REG, Z.of_nat (length pts)) ::
            mjoin (ramp_writes chan res s sf pts <$> seqZ 0 (Z.of_nat (length pts)))) s).
Proof.
  intros Hc Hlen Hr Hpts Hsf Hres Hin Hmin. unfold write_ramptable.
  replace ((4 * Z.of_nat (length pts) + r) / 4) with (Z.of_nat (length pts)) by zmod_lia.
  cbv zeta. rewrite (run_bind _ _ s tt s) by (apply run_print_loop; lia).
  rewrite (proj2 (Z.ltb_ge _ _)) by done. rewrite run_out32, out_all_cons.
  replace (XPAR_M_AXI_BASEADDR + DAC_RAMPLEN_REG + chan * CHBASEADDR)
    with (chan_addr chan DAC_RAMPLEN_REG) by (unfold chan_addr; lia).
  set (s1 := out32 (chan_addr chan DAC_RAMPLEN_REG) (Z.of_nat (length pts)) s) in *.
  rewrite (run_in32 _ _ _ _ Hin), u32_id by done.
  rewrite (run_bind _ _ s1 sf s1) by (apply run_get_scalefactor; [lia|done]).
  rewrite Nat2Z.id.
  apply (run_for_out (λ s', scalefactors s' = scalefactors s ∧
    CONVVOLTSTODACBITS s' = CONVVOLTSTODACBITS s)).
  - intros w s' [Hs1 Hs2]. destruct (out_all_globals w s') as (-> & _ & _ & -> & _). done.
  - intros i s' Hi [Hs1 Hs2].
    destruct (lookup_lt_is_Some_2 pts (Z.to_nat i)) as [p Hp]; [lia|].
    pose proof (load_ramp pts rest _ _ Hp) as Hl. rewrite Z2Nat.id in Hl by lia.
    rewrite (run_bind _ _ s' (htonl p) s') by (unfold lift; by rewrite Hl).
    rewrite <- Hs1 in Hsf.
    rewrite (run_bind _ _ _ _ _ (run_volts_to_dacbits chan _ _ _ _ Hc Hsf)).
    rewrite htonl_htonl, (u32_id p) by (by eapply Forall_lookup_1).
    rewrite Hs2. fold (ramp_point s sf p).
    rewrite (run_bind _ _ _ _ _ (run_saturate res _ s'
      (Forall_lookup_1 _ _ _ _ Hmin Hp))).
    rewrite run_out32. unfold ramp_writes. rewrite Hp. cbn [default from_option id].
    cbn [out_all foldl fst snd].
    replace (XPAR_M_AXI_BASEADDR + (DAC_RAMPADDR_REG + chan * CHBASEADDR))
      with (chan_addr chan DAC_RAMPADDR_REG) by (unfold chan_addr; lia).
    by replace (XPAR_M_AXI_BASEADDR + (DAC_RAMPDATA_REG + chan * CHBASEADDR))
      with (chan_addr chan DAC_RAMPDATA_REG) by (unfold chan_addr; lia).
  - done.
Qed.

(** The saturation keeps a point within 2^20 (20-bit hardware) or
    2^18 (18-bit hardware); both limits lie outside of the range of a signed DAC
    word of that width, and the positive limit itself passes unclamped. *)
Theorem ramp_saturation v s :
  v ≠ - 2 ^ 31 →
  (∃ w, saturate_ramp 1 v s = Ok (w, s) ∧ - 2 ^ 20 ≤ w ≤ 2 ^ 20) ∧
  (∃ w, saturate_ramp 0 v s = Ok (w, s) ∧ - 2 ^ 18 ≤ w ≤ 2 ^ 18) ∧
  saturate_ramp 1 (2 ^ 20) s = Ok (2 ^ 20, s) ∧ saturate_ramp 0 (2 ^ 18) s = Ok (2 ^ 18, s).
Proof.
  intros Hv. split; [|split; [|by split]]; eexists; (split; [by apply run_saturate|]);
    unfold saturated; rewrite Z.eqb_refl, ?(proj2 (Z.eqb_neq 0 1)), ?(proj2 (Z.eqb_neq 1 0)) by lia;
    cbn [andb]; case_Zb; lia.
Qed.
End ramp.
