(* ===== verification/Accuracy.v ===== *)
(** * The accuracy of set points, offsets and thresholds ([control.c])

    Amperes are converted to DAC bits in [float], with two roundings and a
    truncation.  The register differs from the exact quotient by less than one unit
    and a relative error of [2^-22]: less than 1.25 units over a 20-bit range. *)

From Stdlib Require Import SpecFloat Reals.
From S2P Require Import Prelude Words Floats FloatError Machine Regs Qspi Control ControlFrame.
From S2P Require Import ControlTotal ControlSpec.

Section accuracy.
Context `{Platform, Runtime, FpEnv}.

Definition pattern_value (u : Z) : R := sval (float_of_bits u).

(** Amperes to DAC bits, exactly. *)
Definition exact_bits (v2b dccts u : Z) : R :=
  (pattern_value u * pattern_value v2b / pattern_value dccts)%R.

(** No operand is zero, infinite or NaN, and no intermediate result leaves the normal
    range. *)
Record scalable (v2b dccts u : Z) : Prop := {
  sc_value : finite (float_of_bits u);
  sc_factor : finite (float_of_bits v2b);
  sc_scale : finite (float_of_bits dccts);
  sc_product : normal (pattern_value u * pattern_value v2b);
  sc_result : (bp (-125) <= Rabs (exact_bits v2b dccts u) <= bp 30)%R;
}.

Definition accurate (w : Z) (exact : R) : Prop := (Rabs (IZR w - exact) < 1 + Rabs exact * bp (-22))%R.

Lemma scaled_accurate v2b dccts u :
  scalable v2b dccts u →
  accurate (s32_of_float (fdiv (fmul (float_of_bits u) (float_of_bits v2b)) (float_of_bits dccts)))
    (exact_bits v2b dccts u).
Proof. intros []. apply scaled_error; auto using float_of_bits_canonical. Qed.

(** C34: every message that is scaled to DAC bits (offsets and over-current
    thresholds), and the set point in jump mode when it is within its limits, writes an
    integer within one unit and a relative error of [2^-22] of the exact quotient. *)
Theorem dac_accuracy chan u rest n s sf :
  1 ≤ chan ≤ 4 → is_u32 u → scalefactors s !! Z.to_nat (chan - 1) = Some sf →
  scalable (CONVVOLTSTODACBITS s) (dac_dccts sf) u →
  (∀ id reg, (id, (reg, DacBits)) ∈ setting_table →
   ∃ w, chan_settings chan (message id u rest) n s = Ok (tt, out32 (chan_addr chan reg) w s) ∧
     accurate w (exact_bits (CONVVOLTSTODACBITS s) (dac_dccts sf) u)) ∧
  (pl_in32 (u32 (chan_addr chan DAC_OPMODE_REG)) (pl s) = (JUMP, pl s) →
   limit_setpt (float_of_bits u) (float_of_bits (dac_dccts sf)) = float_of_bits u →
   ∃ w, chan_settings chan (message DAC_SETPT_MSG u rest) n s
       = Ok (tt, out32 (chan_addr chan DAC_SETPT_REG) w s) ∧
     accurate w (exact_bits (CONVVOLTSTODACBITS s) (dac_dccts sf) u)).
Proof.
  intros Hc Hu Hsf Hs. pose proof (scaled_accurate _ _ _ Hs) as Ha. split.
  - intros id reg Hin. eexists. split; [by apply (run_table chan id reg DacBits u rest n s sf)|exact Ha].
  - intros Hmode Hlim. eexists. split; [|exact Ha].
    rewrite (run_set_point chan u rest n s sf JUMP) by done. unfold setpt_bits. by rewrite Hlim.
Qed.
End accuracy.
