(* ===== verification/SettingsSpec.v ===== *)
(** * Saving and recalling channel settings; global settings

    A saved channel can be recalled: the sector holds the words the registers and
    scale factors had, the recall writes exactly these words, and the other
    channels' sectors are untouched.  The start-up sequence recalls all channels. *)

From S2P Require Import Prelude Words Floats Machine Regs Sadata Qspi Control ControlFrame.
From S2P Require Import ControlTotal ControlSpec.

Section settings.
Context `{Platform, Runtime, FpEnv, !FlashLaws}.
Context (plain : Z → Prop) `{!PlainRegisters _ plain}.

(** The configuration registers of a channel are plain. *)
Definition plain_channel (chan : Z) : Prop :=
  Forall plain (u32 <$> (chan_addr chan <$> qspi_regs)).

Definition settings_of (chan : Z) (s : psc) : list Z :=
  read_regs (chan_addr chan <$> qspi_regs) (pl s).

Lemma settings_of_u32 chan s :
  plain_channel chan → length (settings_of chan s) = 37%nat ∧ Forall is_u32 (settings_of chan s).
Proof.
  intros Hp. split; [done|]. unfold settings_of, read_regs, plain_channel in *.
  rewrite Forall_fmap in Hp. apply Forall_fmap. eapply Forall_impl; [exact Hp|].
  intros r Hr. by apply plain_u32.
Qed.

Lemma run_save chan s sf :
  1 ≤ chan ≤ 4 → plain_channel chan → fl_busy (flash s) = 0%nat →
  scalefactors s !! Z.to_nat (chan - 1) = Some sf → sf_wf sf →
  ∃ s1 s', save_settings chan s = Ok (tt, s') ∧
    s' = set_scalefactors (scalefactors s)
           (out_all (settings_writes chan (settings_of chan s)) s1) ∧
    flash_only s s1 ∧ fl_busy (flash s1) = 0%nat ∧
    stored chan (settings_of chan s) sf (flash s1) ∧
    (∀ x, x / FLASH_SECTOR_SIZE ≠ chan → fl_mem (flash s1) x = fl_mem (flash s) x).
Proof.
  intros Hc Hp Hb Hsf Hwf. unfold save_settings.
  destruct (settings_of_u32 chan s Hp) as [Hvl Hvu].
  destruct (run_EraseSect chan s) as (s1 & E1 & Ho1 & Hb1 & Hm1); [lia|done|].
  rewrite (run_bind _ _ _ _ _ E1).
  pose proof Ho1 as (Hpl1 & _ & Hsf1 & _).
  pose proof (stack_bytes_length 256) as Hlen. pose proof (stack_bytes_u8 256) as Hu8.
  rewrite (run_bind _ _ s1 (qspi_page (stack_bytes 4) (settings_of chan s) sf
    (drop 180 (stack_bytes 256))) s1).
  2:{ change (Z.to_nat FLASH_PAGE_SIZE) with 256%nat.
      rewrite (run_Gather plain chan (stack_bytes 256) s1 sf); [|lia|by rewrite Hsf1|done|lia].
      rewrite Hpl1. fold (settings_of chan s).
      by rewrite (qspi_page_words (stack_bytes 4)) by (apply stack_bytes_length || apply stack_bytes_u8). }
  destruct (run_save_page chan (stack_bytes 4) (settings_of chan s) sf
    (drop 180 (stack_bytes 256)) s1) as (s2 & wb & E2 & Ho2 & Hb2 & Hst2 & Hm2);
    [lia|done|apply stack_bytes_length| | | |].
  { intros x Hx. rewrite Hm1. by rewrite (proj2 (Z.eqb_eq _ _)). }
  { unfold qspi_page, qspi_body.
    rewrite !length_app, stack_bytes_length, length_bytes_of_words, length_app, Hvl, length_drop, Hlen.
    done. }
  { unfold qspi_page. apply Forall_app. split; [apply stack_bytes_u8|].
    apply Forall_app. split; [apply bytes_of_words_u8|by apply Forall_drop]. }
  rewrite (run_bind _ _ _ _ _ E2).
  pose proof Ho2 as (_ & _ & Hsf2 & _).
  destruct (run_recall chan (settings_of chan s) sf sf s2)
    as (s3 & E3 & Ho3 & Hb3 & Hm3 & _); [done|done|done|by rewrite Hsf2, Hsf1|done..|].
  exists s3. eexists. split; [exact E3|]. split; [|split; [by etrans; [|etrans]|]].
  { f_equal. rewrite Hsf2, Hsf1. by apply list_insert_id. }
  split; [done|]. split.
  - eapply stored_mem; [|exact Hst2]. intros x _. apply Hm3.
  - intros x Hx. rewrite Hm3, Hm2, Hm1 by done. by rewrite (proj2 (Z.eqb_neq _ _)).
Qed.

(** C30: saving a channel leaves the controller as it was: every plain
    register reads as before, the scale factors are the same, the sectors of the
    other channels are untouched, the flash is idle, and the channel's sector
    holds the present settings. *)
Theorem save_preserves chan rest n s sf :
  1 ≤ chan ≤ 4 → plain_channel chan → psc_wf s →
  scalefactors s !! Z.to_nat (chan - 1) = Some sf → sf_wf sf →
  ∃ s', chan_settings chan (message WRITE_QSPI_MSG 1 rest) n s = Ok (tt, s') ∧ psc_wf s' ∧
    (∀ a, plain a → (pl_in32 a (pl s')).1 = (pl_in32 a (pl s)).1) ∧
    scalefactors s' = scalefactors s ∧
    stored chan (settings_of chan s) sf (flash s') ∧
    (∀ x, x / FLASH_SECTOR_SIZE ≠ chan → fl_mem (flash s') x = fl_mem (flash s) x).
Proof.
  intros Hc Hp [Hl Hb] Hsf Hwf. rewrite run_chan_settings by done.
  destruct (run_save chan s sf Hc Hp Hb Hsf Hwf) as (s1 & s' & E & -> & Ho & Hb1 & Hst & Hm).
  eexists. split; [exact E|].
  destruct (out_all_globals (settings_writes chan (settings_of chan s)) s1)
    as (Hsf1 & Hfl & _ & _ & _).
  change (flash (set_scalefactors (scalefactors s) ?x)) with (flash x). rewrite Hfl.
  split; [by split; [|rewrite <- Hb1, <- Hfl]|]. split; [|done].
  intros a Ha.
  change (pl (set_scalefactors (scalefactors s) ?x)) with (pl x). rewrite out_all_pl. destruct Ho as (-> & _).
  by apply (plain_write_back_all plain (chan_addr chan <$> qspi_regs) _ (pl s)).
Qed.

(** C3: after a save, a recall at any later time in which the
    channel's sector was not written brings back the saved settings: it writes to
    every settings register the word it had when the channel was saved, in the
    order of the structure, and restores the scale factors; it changes nothing
    else. *)
Theorem save_recall_roundtrip chan rest rest' n n' s s' t sf sf0 :
  1 ≤ chan ≤ 4 → plain_channel chan → psc_wf s →
  scalefactors s !! Z.to_nat (chan - 1) = Some sf → sf_wf sf →
  chan_settings chan (message WRITE_QSPI_MSG 1 rest) n s = Ok (tt, s') →
  psc_wf t → scalefactors t !! Z.to_nat (chan - 1) = Some sf0 →
  (∀ x, x / FLASH_SECTOR_SIZE = chan → fl_mem (flash t) x = fl_mem (flash s') x) →
  ∃ t1, flash_only t t1 ∧
    events t1 = events t ++
      [QspiXfer (FLASH_READ_CMD :: addr24 (chan * FLASH_SECTOR_SIZE) ++ stack_bytes 252)] ∧
    (∀ x, fl_mem (flash t1) x = fl_mem (flash t) x) ∧
    chan_settings chan (message READ_QSPI_MSG 1 rest') n' t =
    Ok (tt, set_scalefactors (<[Z.to_nat (chan - 1) := sf]> (scalefactors t))
              (out_all (settings_writes chan (settings_of chan s)) t1)).
Proof.
  intros Hc Hp [Hl Hb] Hsf Hwf Hsave [Hlt Hbt] Hsft Hmem.
  rewrite run_chan_settings in Hsave by done.
  destruct (run_save chan s sf Hc Hp Hb Hsf Hwf) as (s1 & s'' & E & Heq & _ & _ & Hst & _).
  assert (s'' = s') as -> by (cbn in Hsave; congruence).
  assert (flash s' = flash s1) as Hfl.
  { rewrite Heq. change (flash (set_scalefactors (scalefactors s) ?x)) with (flash x).
    by destruct (out_all_globals (settings_writes chan (settings_of chan s)) s1) as (_ & -> & _). }
  destruct (settings_of_u32 chan s Hp) as [Hvl Hvu].
  destruct (run_recall chan (settings_of chan s) sf sf0 t)
    as (t1 & Er & Ho & Hb1 & Hm1 & Hev); [done|done| |done..|].
  { apply (stored_mem _ _ _ (flash s1)); [|done]. intros x Hx. by rewrite Hmem, Hfl. }
  exists t1. split; [done|]. split; [done|]. split; [done|].
  rewrite run_chan_settings by done. exact Er.
Qed.
End settings.

(** ** Start-up: all channels are recalled *)

Section startup.
Context `{Platform, Runtime, FpEnv, !FlashLaws}.

(** What one recall leaves in the event log. *)
Definition recall_events (chan : Z) (vs : list Z) : list event :=
  QspiXfer (FLASH_READ_CMD :: addr24 (chan * FLASH_SECTOR_SIZE) ++ stack_bytes 252)
  :: ((λ w, Out32 (u32 w.1) (u32 w.2)) <$> settings_writes chan vs).

Lemma run_recall_events chan vs sf s :
  1 ≤ chan ≤ 4 → psc_wf s → stored chan vs sf (flash s) →
  length vs = 37%nat → Forall is_u32 vs → sf_wf sf →
  ∃ s', (readbuf ← QspiFlashRead (chan * FLASH_SECTOR_SIZE) (Z.to_nat FLASH_PAGE_SIZE);
         QspiDisperseData chan readbuf) s = Ok (tt, s') ∧ psc_wf s' ∧
    (∀ x, fl_mem (flash s') x = fl_mem (flash s) x) ∧
    scalefactors s' = <[Z.to_nat (chan - 1) := sf]> (scalefactors s) ∧
    events s' = events s ++ recall_events chan vs.
Proof.
  intros Hc [Hl Hb] Hst Hvl Hvu Hwf.
  destruct (lookup_lt_is_Some_2 (scalefactors s) (Z.to_nat (chan - 1))) as [sf0 Hsf0]; [lia|].
  destruct (run_recall chan vs sf sf0 s) as (s1 & E & Ho & Hb1 & Hm & Hev); [done..|].
  rewrite <- sector_id by done. eexists. split; [exact E|].
  destruct (out_all_globals (settings_writes chan vs) s1) as (_ & Hfl & _).
  change (flash (set_scalefactors ?y ?x)) with (flash x).
  change (events (set_scalefactors ?y ?x)) with (events x).
  change (scalefactors (set_scalefactors ?y ?x)) with y.
  split; [split|].
  - change (scalefactors (set_scalefactors ?y ?x)) with y. by rewrite length_insert.
  - change (flash (set_scalefactors ?y ?x)) with (flash x). by rewrite Hfl.
  - rewrite Hfl, out_all_events, Hev. split; [done|]. split; [done|]. by rewrite <- app_assoc.
Qed.

Lemma run_startup vs1 vs2 vs3 vs4 sf1 sf2 sf3 sf4 s :
  psc_wf s →
  Forall (λ v, length v = 37%nat ∧ Forall is_u32 v) [vs1; vs2; vs3; vs4] →
  Forall sf_wf [sf1; sf2; sf3; sf4] →
  stored 1 vs1 sf1 (flash s) → stored 2 vs2 sf2 (flash s) →
  stored 3 vs3 sf3 (flash s) → stored 4 vs4 sf4 (flash s) →
  ∃ s', InitSettingsfromQspi s = Ok (tt, s') ∧ psc_wf s' ∧
    scalefactors s' = [sf1; sf2; sf3; sf4] ∧
    (∀ x, fl_mem (flash s') x = fl_mem (flash s) x) ∧
    events s' = events s ++
      [Out32 (u32 (XPAR_M_AXI_BASEADDR + EVR_INJ_EVENTNUM_REG)) 10;
       Out32 (u32 (XPAR_M_AXI_BASEADDR + EVR_PM_EVENTNUM_REG)) 10] ++
      recall_events 1 vs1 ++ recall_events 2 vs2 ++ recall_events 3 vs3 ++ recall_events 4 vs4.
Proof.
  intros Hwf Hvs Hsf St1 St2 St3 St4.
  repeat (apply Forall_cons in Hvs as [[? ?] Hvs]). clear Hvs.
  repeat (apply Forall_cons in Hsf as [? Hsf]). clear Hsf.
  unfold InitSettingsfromQspi. rewrite !run_out32. cbn [for_range].
  set (s0 := out32 _ 10 (out32 _ 10 s)).
  assert (psc_wf s0) as Hwf0 by (by destruct Hwf; split).
  assert (∀ c vs sf f, (∀ x, fl_mem f x = fl_mem (flash s) x) → stored c vs sf (flash s) →
    stored c vs sf f) as Hkeep.
  { intros c vs sf f Hm. apply stored_mem. intros x _. apply Hm. }
  destruct (run_recall_events 1 vs1 sf1 s0) as (s1 & E1 & W1 & M1 & S1 & V1);
    [lia|done|by apply Hkeep|done..|].
  rewrite (run_bind _ _ _ _ _ E1). cbn [Z.add Pos.add Pos.succ].
  destruct (run_recall_events 2 vs2 sf2 s1) as (s2 & E2 & W2 & M2 & S2 & V2);
    [lia|done|by apply Hkeep|done..|].
  rewrite (run_bind _ _ _ _ _ E2).
  destruct (run_recall_events 3 vs3 sf3 s2) as (s3 & E3 & W3 & M3 & S3 & V3);
    [lia|done|apply Hkeep; [intros x; by rewrite M2, M1|done]|done..|].
  rewrite (run_bind _ _ _ _ _ E3).
  destruct (run_recall_events 4 vs4 sf4 s3) as (s4 & E4 & W4 & M4 & S4 & V4);
    [lia|done|apply Hkeep; [intros x; by rewrite M3, M2, M1|done]|done..|].
  rewrite (run_bind _ _ _ _ _ E4). exists s4. split; [done|]. split; [done|].
  split; [|split; [intros x; by rewrite M4, M3, M2, M1|]].
  - rewrite S4, S3, S2, S1. change (scalefactors s0) with (scalefactors s).
    destruct Hwf as [Hl _]. by destruct (scalefactors s) as [|? [|? [|? [|? [|]]]]].
  - rewrite V4, V3, V2, V1. unfold s0, out32. cbn [events add_event set_pl].
    change (u32 10) with 10. rewrite <- !app_assoc. done.
Qed.

(** At start-up the event numbers are set, and then every channel
    is recalled from its sector, in the order 1 to 4; with all four sectors
    written before, the scale factors are the saved ones and the log shows
    exactly the register writes of the four saved settings. *)
Theorem startup_recall vs1 vs2 vs3 vs4 sf1 sf2 sf3 sf4 s :
  psc_wf s →
  Forall (λ v, length v = 37%nat ∧ Forall is_u32 v) [vs1; vs2; vs3; vs4] →
  Forall sf_wf [sf1; sf2; sf3; sf4] →
  stored 1 vs1 sf1 (flash s) → stored 2 vs2 sf2 (flash s) →
  stored 3 vs3 sf3 (flash s) → stored 4 vs4 sf4 (flash s) →
  ∃ s', InitSettingsfromQspi s = Ok (tt, s') ∧ psc_wf s' ∧
    scalefactors s' = [sf1; sf2; sf3; sf4] ∧
    (∀ x, fl_mem (flash s') x = fl_mem (flash s) x) ∧
    events s' = events s ++
      [Out32 (u32 (XPAR_M_AXI_BASEADDR + EVR_INJ_EVENTNUM_REG)) 10;
       Out32 (u32 (XPAR_M_AXI_BASEADDR + EVR_PM_EVENTNUM_REG)) 10] ++
      recall_events 1 vs1 ++ recall_events 2 vs2 ++ recall_events 3 vs3 ++ recall_events 4 vs4.
Proof. apply run_startup. Qed.
End startup.

(** ** Global settings *)

Section global.
Context `{Platform, Runtime, FpEnv}.

Definition glob_table (u : Z) : list (Z * list (Z * Z)) := [
  (SOFT_TRIG_MSG, [(SOFTTRIG, u); (SOFTTRIG, 0)]);
  (TEST_TRIG_MSG, [(TESTTRIG, u); (TESTTRIG, 0)]);
  (FP_LED_MSG, [(LEDS_REG, u)]);
  (EVR_RESET_MSG, [(EVR_RESET_REG, if u =? 1 then 0xFF else 0)]);
  (EVR_INJ_EVENTNUM_MSG, [(EVR_INJ_EVENTNUM_REG, u)]);
  (EVR_PM_EVENTNUM_MSG, [(EVR_PM_EVENTNUM_REG, u)]);
  (EVR_1HZ_EVENTNUM_MSG, [(EVR_1HZ_EVENTNUM_REG, u)]);
  (EVR_10HZ_EVENTNUM_MSG, [(EVR_10HZ_EVENTNUM_REG, u)]);
  (EVR_10KHZ_EVENTNUM_MSG, [(EVR_10KHZ_EVENTNUM_REG, u)]);
  (FOFB_IPADDR_MSG, [(FOFB_IPADDR_REG, u)]) ].

Lemma run_glob_settings id u rest s :
  is_u32 id → is_u32 u →
  glob_settings (message id u rest) s =
  Ok (tt, out_all ((λ w, (XPAR_M_AXI_BASEADDR + w.1, w.2)) <$> switch id (glob_table u) []) s).
Proof.
  intros Hid Hu. destruct (load_message id u rest) as [E0 E1]. unfold glob_settings.
  rewrite (run_bind _ _ s (htonl id) s) by (unfold lift; by rewrite E0).
  rewrite (run_bind _ _ s (htonl u) s) by (unfold lift; by rewrite E1).
  rewrite !htonl_htonl, !u32_id by done.
  unfold glob_cases, glob_table. cbn [switch].
  repeat (lazymatch goal with |- context [id =? ?k] => destruct (id =? k) end; [done|]). done.
Qed.

(** C38: a global message writes the registers of its row (a
    trigger is a pulse that ends with 0), an unknown one writes nothing; no other
    state changes and the handler always returns. *)
Theorem glob_settings_spec id u rest s :
  is_u32 id → is_u32 u →
  glob_settings (message id u rest) s =
  Ok (tt, out_all ((λ w, (XPAR_M_AXI_BASEADDR + w.1, w.2)) <$> switch id (glob_table u) []) s).
Proof. apply run_glob_settings. Qed.
End global.
