(* ===== verification/PscMsg.v ===== *)
(** * The PSC message protocol ([pscmsg.c])

    A message on a TCP stream is an 8-byte header ('P', 'S', 16-bit identifier,
    32-bit length, in network order) and the body.  The functions loop over the
    socket calls until everything is transferred, whatever portions the stack
    hands out.  The socket layer is lwIP, which is not part of the repository: it
    is the class [Sockets]; its documented behaviour is [SocketLaws] (every call)
    and [TcpStream] (a connection that works). *)

From S2P Require Import Prelude Words.

(** [send] and [recv] return the count, or -1 with [errno]; the error numbers are
    those of the C library. *)
Class Sockets := {
  ENOTCONN : Z;
  EIO : Z;
  NET : Type;
  sk_send : Z → list Z → Z → NET → (Z + nat) * NET;          (* sock, bytes, flags *)
  sk_recv : Z → Z → Z → NET → (Z + list Z) * NET;            (* sock, length, flags *)
  sk_close : Z → NET → NET;
  sk_accept : Z → NET → (Z * Z) * NET;                       (* sock; (new sock or -1, peer) *)
}.

Class SocketLaws (S : Sockets) := {
  send_count : ∀ sock data flags net n net',
    sk_send sock data flags net = (inr n, net') → (n ≤ length data)%nat;
  recv_count : ∀ sock len flags net data net',
    sk_recv sock len flags net = (inr data, net') → 0 ≤ len →
    Z.of_nat (length data) ≤ len ∧ Forall is_u8 data;
  enotconn_error : ENOTCONN ≠ 0;
  eio_error : EIO ≠ 0;
  send_errno : ∀ sock data flags net e net', sk_send sock data flags net = (inl e, net') → e ≠ 0;
  recv_errno : ∀ sock len flags net e net', sk_recv sock len flags net = (inl e, net') → e ≠ 0;
}.

(** Programs over the network state, with undefined behaviour. *)
Definition N `{Sockets} (A : Type) : Type := NET → res (A * NET).

Section pscmsg.
Context `{Sockets}.

#[global] Instance N_ret : MRet N := λ A a net, Ok (a, net).
#[global] Instance N_bind : MBind N := λ A B f m net,
  match m net with Ok (a, net') => f a net' | Ub u => Ub u end.
Definition nub {A} (u : ub) : N A := λ _, Ub u.

(** One iteration per [send]; [fuel] bounds the iterations, each of which makes
    progress or leaves. *)
Fixpoint sendall_loop (fuel : nat) (sock : Z) (buf : list Z) (flags : Z) : N Z :=
  match buf with
  | [] => mret 0
  | _ :: _ =>
      match fuel with
      | O => nub ub_nonterm
      | S fuel =>
          ret ← (λ net, Ok (sk_send sock buf flags net));
          match ret with
          | inl errno => mret errno
          | inr O => mret ENOTCONN
          | inr n =>
              if (length buf <? n)%nat
              then nub (ub_index (Z.of_nat n) (Z.of_nat (length buf)))
              else sendall_loop fuel sock (drop n buf) flags
          end
      end
  end.

Definition psc_sendall (sock : Z) (buf : list Z) (flags : Z) : N Z :=
  sendall_loop (length buf) sock buf flags.

(** [buf] is the memory behind the pointer, [buflen] the bytes to receive.
    Returns the code and the memory afterwards; a [recv] that delivers more than
    the memory holds is a buffer overflow. *)
Fixpoint recvall_loop (fuel : nat) (sock : Z) (buf : list Z) (buflen flags : Z)
    : N (Z * list Z) :=
  if buflen =? 0 then mret (0, buf)
  else
    match fuel with
    | O => nub ub_nonterm
    | S fuel =>
        ret ← (λ net, Ok (sk_recv sock buflen flags net));
        match ret with
        | inl errno => mret (errno, buf)
        | inr [] => mret (ENOTCONN, buf)
        | inr data =>
            if Z.of_nat (length buf) <? Z.of_nat (length data)
            then nub (ub_index (Z.of_nat (length data)) (Z.of_nat (length buf)))
            else
              r ← recvall_loop fuel sock (drop (length data) buf)
                    (u32 (buflen - Z.of_nat (length data))) flags;
              mret (r.1, data ++ r.2)
        end
    end.

Definition psc_recvall (sock : Z) (buf : list Z) (buflen flags : Z) : N (Z * list Z) :=
  recvall_loop (Z.to_nat buflen) sock buf buflen flags.

(** [while(len>128 && !(ret=psc_recvall(sock, buf, 128, flags))) len -= 128;]
    returns the remaining [len] and the buffer. *)
Fixpoint recvskip_loop (fuel : nat) (sock : Z) (buf : list Z) (len flags : Z)
    : N (Z * list Z) :=
  if 128 <? len then
    match fuel with
    | O => nub ub_nonterm
    | S fuel =>
        r ← psc_recvall sock buf 128 flags;
        if r.1 =? 0 then recvskip_loop fuel sock r.2 (len - 128) flags
        else mret (len, r.2)
    end
  else mret (len, buf).

(** [stack] is the uninitialised [char buf[128]]. *)
Definition psc_recvskip (stack : list Z) (sock len flags : Z) : N Z :=
  r ← recvskip_loop (Z.to_nat len) sock stack len flags;
  r ← psc_recvall sock r.2 r.1 flags;
  mret r.1.

(** The [struct psc_header] in memory: no padding, little-endian fields. *)
Definition psc_header (msgid msglen : Z) : list Z :=
  [0x50; 0x53] ++ le_bytes 2 (htons msgid) ++ le_bytes 4 (htonl msglen).

Definition psc_sendhead (sock msgid msglen flags : Z) : N Z :=
  psc_sendall sock (psc_header msgid msglen) flags.

(** [buf] holds at least [msglen] bytes. *)
Definition psc_sendmsg (sock msgid : Z) (buf : list Z) (msglen flags : Z) : N Z :=
  ret ← psc_sendhead sock msgid msglen flags;
  if negb (ret =? 0) then mret ret
  else psc_sendall sock (take (Z.to_nat msglen) buf) flags.

Definition psc_sendmsgsingle (sock msgid regid : Z) (buf : list Z) (msglen flags : Z) : N Z :=
  ret ← psc_sendhead sock msgid (u32 (msglen + 4)) 0;
  if negb (ret =? 0) then mret ret
  else
    let regid := htonl regid in
    ret ← psc_sendall sock (le_bytes 4 regid) 0;
    if negb (ret =? 0) then mret ret
    else psc_sendall sock (take (Z.to_nat msglen) buf) 0.

(** Returns the code and, on success, (msgid, msglen). *)
Definition psc_recvhead (stack : list Z) (sock flags : Z) : N (Z * option (Z * Z)) :=
  r ← psc_recvall sock stack 8 flags;
  let '(ret, B) := r in
  if negb (ret =? 0) then mret (ret, None)
  else
    let byte i := default 0 (B !! i) in
    if negb (byte 0%nat =? 0x50) || negb (byte 1%nat =? 0x53) then mret (EIO, None)
    else
      mret (0, Some (ntohs (le_word (take 2 (drop 2 B))), ntohl (le_word (take 4 (drop 4 B))))).

(** The out-parameters of [psc_recvmsg] and the receive buffer. *)
Record rxmsg := MkRx {
  rx_msgid : Z;
  rx_msglen : Z;
  rx_buf : list Z;
}.

(** [m] carries the values before the call, the result those after it.  The
    stack bytes are the uninitialised header and skip buffers. *)
Definition psc_recvmsg (hstack sstack : list Z) (sock : Z) (m : rxmsg) (flags : Z)
    : N (Z * rxmsg) :=
  let maxlen := rx_msglen m in
  h ← psc_recvhead hstack sock flags;
  match h with
  | (ret, None) => mret (ret, m)
  | (_, Some (mid, mlen)) =>
      let rlen := if maxlen <? mlen then maxlen else mlen in
      r ← psc_recvall sock (rx_buf m) rlen flags;
      let '(ret, buf) := r in
      if negb (ret =? 0) then mret (ret, MkRx (rx_msgid m) (rx_msglen m) buf)
      else
        ret ← (if rlen <? mlen then psc_recvskip sstack sock (mlen - rlen) flags else mret 0);
        mret (ret, MkRx mid rlen buf)
  end.
End pscmsg.

(** ** A connection that works

    [rx_pending] are the bytes the peer sends, in order; every [recv] delivers a
    non-empty portion of them of any size up to the requested length.  [tx_sent]
    are the bytes handed to the stack; every [send] takes a non-empty portion. *)

Class TcpStream (S : Sockets) := {
  rx_pending : Z → NET → list Z;
  tx_sent : Z → NET → list Z;
  up : Z → NET → Prop;
  stream_recv : ∀ sock len flags net,
    up sock net → 0 < len → rx_pending sock net ≠ [] →
    ∃ data net', sk_recv sock len flags net = (inr data, net') ∧ data ≠ [] ∧
      rx_pending sock net = data ++ rx_pending sock net' ∧
      tx_sent sock net' = tx_sent sock net ∧ up sock net';
  stream_send : ∀ sock data flags net,
    up sock net → data ≠ [] →
    ∃ n net', sk_send sock data flags net = (inr n, net') ∧ n ≠ 0%nat ∧
      tx_sent sock net' = tx_sent sock net ++ take n data ∧
      rx_pending sock net' = rx_pending sock net ∧ up sock net';
}.

Section laws.
Context `{Sockets, !SocketLaws _}.

Lemma nrun_bind {A B} (m : N A) (f : A → N B) net a net' :
  m net = Ok (a, net') → (m ≫= f) net = f a net'.
Proof. intros E. unfold mbind, N_bind. by rewrite E. Qed.

Lemma nrun_bind_ub {A B} (m : N A) (f : A → N B) net u :
  m net = Ub u → (m ≫= f) net = Ub u.
Proof. intros E. unfold mbind, N_bind. by rewrite E. Qed.

(** *** Every call returns, within the buffer *)

Lemma recvall_total_loop fuel sock buf buflen flags net :
  0 ≤ buflen < 2 ^ 32 → (Z.to_nat buflen ≤ fuel)%nat → buflen ≤ Z.of_nat (length buf) →
  Forall is_u8 buf →
  ∃ ret buf' net', recvall_loop fuel sock buf buflen flags net = Ok ((ret, buf'), net') ∧
    length buf' = length buf ∧ drop (Z.to_nat buflen) buf' = drop (Z.to_nat buflen) buf ∧
    Forall is_u8 buf'.
Proof.
  revert buf buflen net. induction fuel as [|fuel IH]; intros buf buflen net Hb Hf Hl Hu; cbn.
  { destruct (Z.eqb_spec buflen 0); [eauto 8|lia]. }
  destruct (Z.eqb_spec buflen 0) as [|Hne]; [eauto 8|].
  destruct (sk_recv sock buflen flags net) as [[e|data] net1] eqn:E;
    (erewrite nrun_bind; [|by rewrite E]); [eauto 8|].
  destruct (recv_count _ _ _ _ _ _ E ltac:(lia)) as [Hcnt Hdu].
  destruct data as [|b data]; [eauto 8|]. cbv iota. set (d := b :: data) in *.
  assert (0 < Z.of_nat (length d)) as Hpos by (cbn; lia). clearbody d.
  rewrite (proj2 (Z.ltb_ge _ _)) by lia.
  destruct (IH (drop (length d) buf) (u32 (buflen - Z.of_nat (length d))) net1)
    as (ret & buf' & net' & Er & Hlen & Hdrop & Hu').
  { apply u32_range. }
  { rewrite u32_id by (unfold is_u32; lia). lia. }
  { rewrite u32_id by (unfold is_u32; lia). rewrite length_drop. lia. }
  { by apply Forall_drop. }
  rewrite (nrun_bind _ _ _ _ _ Er). eexists ret, (d ++ buf'), net'. split; [done|].
  rewrite u32_id in Hdrop by (unfold is_u32; lia). rewrite length_drop in Hlen.
  split; [rewrite length_app; lia|]. split; [|by apply Forall_app].
  rewrite drop_app_ge by lia. rewrite drop_drop in Hdrop.
  replace (Z.to_nat buflen - length d)%nat with (Z.to_nat (buflen - Z.of_nat (length d))) by lia.
  rewrite Hdrop. f_equal. lia.
Qed.

Lemma recvall_total sock buf buflen flags net :
  0 ≤ buflen < 2 ^ 32 → buflen ≤ Z.of_nat (length buf) → Forall is_u8 buf →
  ∃ ret buf' net', psc_recvall sock buf buflen flags net = Ok ((ret, buf'), net') ∧
    length buf' = length buf ∧ drop (Z.to_nat buflen) buf' = drop (Z.to_nat buflen) buf ∧
    Forall is_u8 buf'.
Proof. intros. by apply recvall_total_loop. Qed.

Lemma sendall_total sock buf flags net :
  ∃ ret net', psc_sendall sock buf flags net = Ok (ret, net').
Proof.
  unfold psc_sendall. set (fuel := length buf) at 1.
  assert (length buf ≤ fuel)%nat as Hf by done. clearbody fuel.
  revert buf net Hf. induction fuel as [|fuel IH]; intros buf net Hf.
  { destruct buf; cbn in *; [eauto|lia]. }
  destruct buf as [|b buf]; [cbn; eauto|]. cbn [sendall_loop].
  unfold mbind, N_bind.
  destruct (sk_send sock (b :: buf) flags net) as [[e|[|n]] net1] eqn:E; [eauto|eauto|].
  pose proof (send_count _ _ _ _ _ _ E) as Hc.
  rewrite (proj2 (Nat.ltb_ge _ _)) by done.
  apply IH. rewrite length_drop. cbn in *. lia.
Qed.
End laws.

Section stream.
Context `{Sockets, !SocketLaws _, !TcpStream _}.

Lemma recvall_stream_loop fuel sock buf d tl flags net :
  (length d ≤ fuel)%nat → Z.of_nat (length d) < 2 ^ 32 → (length d ≤ length buf)%nat →
  up sock net → rx_pending sock net = d ++ tl →
  ∃ net', recvall_loop fuel sock buf (Z.of_nat (length d)) flags net
          = Ok ((0, d ++ drop (length d) buf), net') ∧
    up sock net' ∧ rx_pending sock net' = tl ∧ tx_sent sock net' = tx_sent sock net.
Proof.
  revert buf d net. induction fuel as [|fuel IH]; intros buf d net Hf Hmax Hl Hup Hp.
  { destruct d; cbn in Hf; [|lia]. cbn. rewrite drop_0. eauto. }
  destruct d as [|b d0]; [cbn; rewrite drop_0; eauto|].
  set (d := b :: d0) in *. assert (0 < length d)%nat as Hpos by (cbn; lia).
  assert (rx_pending sock net ≠ []) as Hne by (by rewrite Hp). clearbody d.
  cbn [recvall_loop]. rewrite (proj2 (Z.eqb_neq _ _)) by lia.
  destruct (stream_recv sock (Z.of_nat (length d)) flags net) as (data & net1 & E & Hd & Hp1 & Ht1 & Hup1);
    [done|lia|done|].
  rewrite (nrun_bind _ _ net (inr data) net1) by (by rewrite E).
  destruct (recv_count _ _ _ _ _ _ E ltac:(lia)) as [Hcnt _].
  destruct data as [|x data0]; [done|]. cbv iota. set (data := x :: data0) in *.
  assert (0 < length data)%nat as Hdpos by (cbn; lia). clearbody data.
  rewrite (proj2 (Z.ltb_ge _ _)) by lia.
  assert (∃ k, d = data ++ k ∧ rx_pending sock net1 = k ++ tl) as (k & -> & Hk).
  { rewrite Hp in Hp1. apply app_eq_inv in Hp1 as [(k & -> & Htl)|(k & -> & Htl)].
    - by exists k.
    - assert (k = []) as -> by (apply length_zero_iff_nil; rewrite length_app in Hcnt; lia).
      exists []. by rewrite !app_nil_r, Htl. }
  rewrite length_app in *.
  destruct (IH (drop (length data) buf) k net1) as (net' & Er & Hup' & Hp' & Ht');
    [lia|lia|rewrite length_drop; lia|done|done|].
  rewrite u32_id by (unfold is_u32; lia).
  replace (Z.of_nat (length data + length k) - Z.of_nat (length data))
    with (Z.of_nat (length k)) by lia.
  rewrite (nrun_bind _ _ _ _ _ Er). exists net'. rewrite Ht'. split; [|done].
  cbn [fst snd]. unfold mret, N_ret. by rewrite drop_drop, app_assoc.
Qed.

Lemma recvall_stream sock buf d tl flags net n :
  n = Z.of_nat (length d) → n < 2 ^ 32 → (length d ≤ length buf)%nat →
  up sock net → rx_pending sock net = d ++ tl →
  ∃ net', psc_recvall sock buf n flags net = Ok ((0, d ++ drop (length d) buf), net') ∧
    up sock net' ∧ rx_pending sock net' = tl ∧ tx_sent sock net' = tx_sent sock net.
Proof. intros -> ? ? ? ?. unfold psc_recvall. rewrite Nat2Z.id. by apply recvall_stream_loop. Qed.

Lemma sendall_stream sock buf flags net :
  up sock net →
  ∃ net', psc_sendall sock buf flags net = Ok (0, net') ∧ up sock net' ∧
    tx_sent sock net' = tx_sent sock net ++ buf ∧ rx_pending sock net' = rx_pending sock net.
Proof.
  unfold psc_sendall. set (fuel := length buf) at 1.
  assert (length buf ≤ fuel)%nat as Hf by done. clearbody fuel.
  revert buf net Hf. induction fuel as [|fuel IH]; intros buf net Hf Hup.
  { destruct buf; cbn in *; [|lia]. rewrite app_nil_r. eauto. }
  destruct buf as [|b buf]; [cbn; rewrite app_nil_r; eauto|]. cbn [sendall_loop].
  destruct (stream_send sock (b :: buf) flags net) as (n & net1 & E & Hn & Ht & Hp & Hup1); [done..|].
  rewrite (nrun_bind _ _ net (inr n) net1) by (by rewrite E).
  pose proof (send_count _ _ _ _ _ _ E) as Hc. destruct n as [|n]; [done|].
  rewrite (proj2 (Nat.ltb_ge _ _)) by done.
  destruct (IH (drop (S n) (b :: buf)) net1) as (net' & Er & Hup' & Ht' & Hp');
    [rewrite length_drop; cbn in *; lia|done|].
  exists net'. split; [done|]. split; [done|]. rewrite Hp', Ht', Ht, <- app_assoc, take_drop. done.
Qed.

(** Skipping on a working connection discards exactly [len] bytes. *)
Lemma recvskip_loop_stream fuel sock buf d tl flags net :
  (length d ≤ fuel)%nat → length buf = 128%nat →
  up sock net → rx_pending sock net = d ++ tl →
  ∃ d' buf' net', recvskip_loop fuel sock buf (Z.of_nat (length d)) flags net
          = Ok ((Z.of_nat (length d'), buf'), net') ∧ (length d' ≤ 128)%nat ∧
    length buf' = 128%nat ∧ up sock net' ∧ rx_pending sock net' = d' ++ tl ∧
    tx_sent sock net' = tx_sent sock net.
Proof.
  revert buf d net. induction fuel as [|fuel IH]; intros buf d net Hf Hl Hup Hp; cbn.
  { destruct d; cbn in Hf; [|lia]. exists [], buf, net. split_and!; [done|cbn; lia|done..]. }
  destruct (Z.ltb_spec 128 (Z.of_nat (length d))) as [Hlt|Hge].
  2:{ exists d, buf, net. split_and!; [done|lia|done..]. }
  destruct (recvall_stream sock buf (take 128 d) (drop 128 d ++ tl) flags net 128)
    as (net1 & E & Hup1 & Hp1 & Ht1); [| |rewrite length_take; lia|done| |].
  { rewrite length_take. lia. } { lia. } { by rewrite app_assoc, take_drop. }
  rewrite (nrun_bind _ _ _ _ _ E). cbn [fst snd]. rewrite Z.eqb_refl.
  destruct (IH (take 128 d ++ drop (length (take 128 d)) buf) (drop 128 d) net1)
    as (d' & buf' & net' & Er & Hd' & Hb' & Hup' & Hp' & Ht'); [| |done|done|].
  { rewrite length_drop. lia. } { rewrite length_app, length_drop, length_take. lia. }
  exists d', buf', net'. rewrite Ht', Ht1. split_and!; try done.
  rewrite length_drop in Er. by replace (Z.of_nat (length d) - 128) with (Z.of_nat (length d - 128)) by lia.
Qed.

Lemma recvskip_stream stack sock d tl flags net n :
  n = Z.of_nat (length d) → length stack = 128%nat →
  up sock net → rx_pending sock net = d ++ tl →
  ∃ net', psc_recvskip stack sock n flags net = Ok (0, net') ∧ up sock net' ∧
    rx_pending sock net' = tl ∧ tx_sent sock net' = tx_sent sock net.
Proof.
  intros -> Hl Hup Hp. unfold psc_recvskip. rewrite Nat2Z.id.
  destruct (recvskip_loop_stream (length d) sock stack d tl flags net)
    as (d' & buf' & net1 & E & Hd' & Hb' & Hup1 & Hp1 & Ht1); [done..|].
  rewrite (nrun_bind _ _ _ _ _ E). cbn [fst snd].
  destruct (recvall_stream sock buf' d' tl flags net1 (Z.of_nat (length d')))
    as (net2 & E2 & Hup2 & Hp2 & Ht2); [done|lia|lia|done|done|].
  rewrite (nrun_bind _ _ _ _ _ E2). exists net2. by rewrite Ht2, Ht1.
Qed.
End stream.

(** ** Framing *)

Section framing.
Context `{Sockets, !SocketLaws _, !TcpStream _}.

(** A message as it appears on the stream. *)
Definition frame (msgid : Z) (body : list Z) : list Z :=
  psc_header msgid (Z.of_nat (length body)) ++ body.

Lemma length_psc_header mid mlen : length (psc_header mid mlen) = 8%nat.
Proof. done. Qed.

Lemma psc_header_fields mid mlen tl :
  is_u16 mid → is_u32 mlen →
  let B := psc_header mid mlen ++ tl in
  B !! 0%nat = Some 0x50 ∧ B !! 1%nat = Some 0x53 ∧
  ntohs (le_word (take 2 (drop 2 B))) = mid ∧ ntohl (le_word (take 4 (drop 4 B))) = mlen.
Proof.
  intros Hmid Hmlen B.
  assert (take 2 (drop 2 B) = le_bytes 2 (htons mid)) as -> by done.
  assert (take 4 (drop 4 B) = le_bytes 4 (htonl mlen)) as -> by done.
  rewrite le_word_bytes_2, le_word_bytes_4 by auto with psc.
  rewrite htons_htons, htonl_htonl, u16_id, u32_id by done. done.
Qed.

Lemma recvhead_stream stack sock mid mlen tl flags net :
  is_u16 mid → is_u32 mlen → length stack = 8%nat →
  up sock net → rx_pending sock net = psc_header mid mlen ++ tl →
  ∃ net', psc_recvhead stack sock flags net = Ok ((0, Some (mid, mlen)), net') ∧
    up sock net' ∧ rx_pending sock net' = tl ∧ tx_sent sock net' = tx_sent sock net.
Proof.
  intros Hmid Hmlen Hs Hup Hp. unfold psc_recvhead.
  destruct (recvall_stream sock stack (psc_header mid mlen) tl flags net 8)
    as (net' & E & Hup' & Hp' & Ht'); [done|lia|by rewrite Hs, length_psc_header|done|done|].
  rewrite (nrun_bind _ _ _ _ _ E). exists net'. split; [|done].
  destruct (psc_header_fields mid mlen (drop (length (psc_header mid mlen)) stack))
    as (-> & -> & -> & ->); done.
Qed.

Lemma run_sendmsg sock mid body flags net :
  Z.of_nat (length body) < 2 ^ 32 → up sock net →
  ∃ net', psc_sendmsg sock mid body (Z.of_nat (length body)) flags net = Ok (0, net') ∧
    up sock net' ∧ tx_sent sock net' = tx_sent sock net ++ frame mid body ∧
    rx_pending sock net' = rx_pending sock net.
Proof.
  intros Hl Hup. unfold psc_sendmsg, psc_sendhead.
  destruct (sendall_stream sock (psc_header mid (Z.of_nat (length body))) flags net Hup)
    as (net1 & E1 & Hup1 & Ht1 & Hp1).
  rewrite (nrun_bind _ _ _ _ _ E1). cbn [Z.eqb negb].
  rewrite Nat2Z.id, firstn_all.
  destruct (sendall_stream sock body flags net1 Hup1) as (net2 & E2 & Hup2 & Ht2 & Hp2).
  exists net2. split; [exact E2|]. split; [done|]. rewrite Hp2, Ht2, Ht1, <- app_assoc. done.
Qed.

Lemma run_recvmsg hstack sstack sock mid body tl m flags net :
  is_u16 mid → Z.of_nat (length body) < 2 ^ 32 →
  length hstack = 8%nat → length sstack = 128%nat →
  0 ≤ rx_msglen m ≤ Z.of_nat (length (rx_buf m)) → rx_msglen m < 2 ^ 32 →
  up sock net → rx_pending sock net = frame mid body ++ tl →
  let got := take (Z.to_nat (rx_msglen m)) body in
  ∃ net', psc_recvmsg hstack sstack sock m flags net =
      Ok ((0, MkRx mid (Z.of_nat (length got)) (got ++ drop (length got) (rx_buf m))), net') ∧
    up sock net' ∧ rx_pending sock net' = tl ∧ tx_sent sock net' = tx_sent sock net.
Proof.
  intros Hmid Hl Hh Hs Hm Hm2 Hup Hp got. unfold psc_recvmsg.
  unfold frame in Hp. rewrite <- app_assoc in Hp.
  destruct (recvhead_stream hstack sock mid (Z.of_nat (length body)) (body ++ tl) flags net)
    as (net1 & E1 & Hup1 & Hp1 & Ht1); [done|unfold is_u32; lia|done|done|done|].
  rewrite (nrun_bind _ _ _ _ _ E1). cbv zeta iota.
  set (rlen := if rx_msglen m <? Z.of_nat (length body) then _ else _).
  assert (rlen = Z.of_nat (length got)) as Hr.
  { unfold rlen, got. rewrite length_take. case_Zb; lia. }
  assert (length got ≤ length (rx_buf m))%nat as Hgot
    by (unfold got; rewrite length_take; lia).
  destruct (recvall_stream sock (rx_buf m) got (drop (Z.to_nat (rx_msglen m)) body ++ tl) flags net1 rlen)
    as (net2 & E2 & Hup2 & Hp2 & Ht2); [done| |done|done| |].
  { rewrite Hr. unfold got. rewrite length_take. lia. }
  { rewrite Hp1. unfold got. by rewrite app_assoc, take_drop. }
  rewrite (nrun_bind _ _ _ _ _ E2). cbn [Z.eqb negb].
  destruct (Z.ltb_spec rlen (Z.of_nat (length body))) as [Hlt|Hge].
  - destruct (recvskip_stream sstack sock (drop (Z.to_nat (rx_msglen m)) body) tl flags net2
      (Z.of_nat (length body) - rlen)) as (net3 & E3 & Hup3 & Hp3 & Ht3); [|done|done|done|].
    { rewrite length_drop, Hr. unfold got. rewrite length_take.
      rewrite Hr in Hlt. unfold got in Hlt. rewrite length_take in Hlt. lia. }
    rewrite (nrun_bind _ _ _ _ _ E3). exists net3. rewrite Hr, Ht3, Ht2, Ht1. done.
  - exists net2. rewrite (nrun_bind _ _ _ 0 net2) by done. rewrite Hr, Ht2, Ht1.
    split; [done|]. split; [done|]. split; [|done]. rewrite Hp2.
    rewrite drop_ge; [done|]. rewrite Hr in Hge. unfold got in Hge. rewrite length_take in Hge. lia.
Qed.

(** C5: a message sent with [psc_sendmsg] over a working connection
    and received with [psc_recvmsg] arrives with its identifier and its body,
    whatever portions the two TCP stacks transfer.  A body longer than the
    receive buffer is truncated to it, and the stream is left exactly behind the
    message, so that the next message is received intact. *)
Theorem message_roundtrip hstack sstack ssock rsock mid body tl m flags net net' rnet :
  is_u16 mid → Z.of_nat (length body) < 2 ^ 32 →
  length hstack = 8%nat → length sstack = 128%nat →
  0 ≤ rx_msglen m ≤ Z.of_nat (length (rx_buf m)) → rx_msglen m < 2 ^ 32 →
  up ssock net →
  psc_sendmsg ssock mid body (Z.of_nat (length body)) flags net = Ok (0, net') →
  up rsock rnet →
  rx_pending rsock rnet = drop (length (tx_sent ssock net)) (tx_sent ssock net') ++ tl →
  let got := take (Z.to_nat (rx_msglen m)) body in
  ∃ rnet', psc_recvmsg hstack sstack rsock m flags rnet =
      Ok ((0, MkRx mid (Z.of_nat (length got)) (got ++ drop (length got) (rx_buf m))), rnet') ∧
    up rsock rnet' ∧ rx_pending rsock rnet' = tl.
Proof.
  intros Hmid Hl Hh Hs Hm Hm2 Hup Esend Hrup Hp got.
  destruct (run_sendmsg ssock mid body flags net Hl Hup) as (net1 & E & _ & Ht & _).
  rewrite Esend in E. injection E as <-. rewrite Ht, drop_app_length in Hp.
  destruct (run_recvmsg hstack sstack rsock mid body tl m flags rnet)
    as (rnet' & Er & ? & ? & _); [done..|]. eauto.
Qed.

(** Eight bytes that do not start with 'P' 'S' are refused with EIO;
    the message buffer and the out-parameters are not touched. *)
Theorem recv_bad_magic hstack sstack sock h tl m flags net :
  length h = 8%nat → take 2 h ≠ [0x50; 0x53] → length hstack = 8%nat →
  up sock net → rx_pending sock net = h ++ tl →
  ∃ net', psc_recvmsg hstack sstack sock m flags net = Ok ((EIO, m), net') ∧
    up sock net' ∧ rx_pending sock net' = tl.
Proof.
  intros Hh Hps Hs Hup Hp. unfold psc_recvmsg, psc_recvhead.
  destruct (recvall_stream sock hstack h tl flags net 8) as (net' & E & Hup' & Hp' & _);
    [by rewrite Hh|lia|by rewrite Hs, Hh|done|done|].
  exists net'. split; [|done]. unfold mbind at 1, N_bind at 1.
  rewrite (nrun_bind _ _ _ _ _ E). cbn [Z.eqb negb].
  destruct h as [|p [|q h]]; [done|done|]. cbn [app lookup list_lookup default from_option id].
  destruct (Z.eqb_spec p 0x50) as [->|]; cbn [negb orb]; [|done].
  by destruct (Z.eqb_spec q 0x53) as [->|].
Qed.
End framing.

(** ** Any network behaviour *)

Section safety.
Context `{Sockets, !SocketLaws _}.

(** Either the call returns, or it ran over the end of a buffer that is smaller
    than the requested length. *)
Lemma recvall_outcome fuel sock buf buflen flags net :
  0 ≤ buflen < 2 ^ 32 → (Z.to_nat buflen ≤ fuel)%nat →
  (∃ ret buf' net', recvall_loop fuel sock buf buflen flags net = Ok ((ret, buf'), net') ∧
     length buf' = length buf) ∨
  (∃ i n, recvall_loop fuel sock buf buflen flags net = Ub (ub_index i n) ∧
     n ≤ Z.of_nat (length buf) < buflen).
Proof.
  revert buf buflen net. induction fuel as [|fuel IH]; intros buf buflen net Hb Hf; cbn.
  { destruct (Z.eqb_spec buflen 0); [left; eauto|lia]. }
  destruct (Z.eqb_spec buflen 0) as [|Hne]; [left; eauto|].
  destruct (sk_recv sock buflen flags net) as [[e|data] net1] eqn:E;
    (erewrite nrun_bind; [|by rewrite E]); [left; eauto|].
  destruct (recv_count _ _ _ _ _ _ E ltac:(lia)) as [Hcnt _].
  destruct data as [|b data]; [left; eauto|]. cbv iota. set (d := b :: data) in *.
  assert (0 < Z.of_nat (length d)) as Hpos by (cbn; lia). clearbody d.
  destruct (Z.ltb_spec (Z.of_nat (length buf)) (Z.of_nat (length d))) as [Hlt|Hge].
  { right. eexists _, _. split; [done|]. lia. }
  destruct (IH (drop (length d) buf) (u32 (buflen - Z.of_nat (length d))) net1)
    as [(ret & buf' & net' & Er & Hlen)|(i & n & Er & Hn)].
  { apply u32_range. }
  { rewrite u32_id by (unfold is_u32; lia). lia. }
  - left. rewrite (nrun_bind _ _ _ _ _ Er). eexists _, _, _. split; [done|].
    cbn. rewrite length_app, Hlen, length_drop. lia.
  - right. rewrite u32_id in Hn by (unfold is_u32; lia). rewrite length_drop in Hn.
    rewrite (nrun_bind_ub _ _ _ _ Er). eexists _, _. split; [done|]. lia.
Qed.

Lemma recvskip_loop_total fuel sock buf len flags net :
  length buf = 128%nat → 0 ≤ len < 2 ^ 32 → (Z.to_nat len ≤ fuel)%nat → Forall is_u8 buf →
  ∃ len' buf' net', recvskip_loop fuel sock buf len flags net = Ok ((len', buf'), net') ∧
    length buf' = 128%nat ∧ 0 ≤ len' ≤ len.
Proof.
  revert buf len net. induction fuel as [|fuel IH]; intros buf len net Hl Hlen Hf Hu; cbn.
  { destruct (Z.ltb_spec 128 len); [lia|]. eexists _, _, _. split; [done|]. lia. }
  destruct (Z.ltb_spec 128 len); [|eexists _, _, _; split; [done|lia]].
  destruct (recvall_total sock buf 128 flags net) as (ret & buf' & net1 & E & Hb' & _ & Hu');
    [lia|lia|done|].
  rewrite (nrun_bind _ _ _ _ _ E). cbn [fst snd].
  destruct (ret =? 0); [|eexists _, _, _; split; [done|lia]].
  destruct (IH buf' (len - 128) net1) as (len' & b & net' & Er & Hb & Hl'); [lia|lia|lia|done|].
  eexists _, _, _. split; [exact Er|]. lia.
Qed.

Lemma recvskip_outcome stack sock len flags net :
  length stack = 128%nat → Forall is_u8 stack → 0 ≤ len < 2 ^ 32 →
  (∃ ret net', psc_recvskip stack sock len flags net = Ok (ret, net')) ∨
  (∃ i n, psc_recvskip stack sock len flags net = Ub (ub_index i n) ∧ n ≤ 128 < len).
Proof.
  intros Hl Hu Hlen. unfold psc_recvskip.
  destruct (recvskip_loop_total (Z.to_nat len) sock stack len flags net)
    as (len' & buf' & net1 & E & Hb' & Hle); [done..|].
  rewrite (nrun_bind _ _ _ _ _ E). cbn [fst snd]. unfold psc_recvall.
  destruct (recvall_outcome (Z.to_nat len') sock buf' len' flags net1)
    as [(ret & b & net' & Er & _)|(i & n & Er & Hn)]; [lia|done| |].
  - left. rewrite (nrun_bind _ _ _ _ _ Er). by eexists _, _.
  - right. rewrite (nrun_bind_ub _ _ _ _ Er). eexists _, _. split; [done|]. lia.
Qed.

Lemma recvhead_total stack sock flags net :
  length stack = 8%nat → Forall is_u8 stack →
  ∃ ret o net', psc_recvhead stack sock flags net = Ok ((ret, o), net') ∧
    (∀ mid mlen, o = Some (mid, mlen) → is_u32 mlen).
Proof.
  intros Hl Hu. unfold psc_recvhead.
  destruct (recvall_total sock stack 8 flags net) as (r1 & B & net1 & E1 & _); [lia|lia|done|].
  rewrite (nrun_bind _ _ _ _ _ E1). cbv zeta iota.
  destruct (r1 =? 0); cbn [negb]; [|by eexists _, _, _].
  destruct (_ || _); [by eexists _, _, _|]. eexists _, _, _. split; [done|].
  intros mid mlen [= <- <-]. apply htonl_range.
Qed.

Lemma run_recvmsg_any hstack sstack sock m flags net :
  length hstack = 8%nat → Forall is_u8 hstack → length sstack = 128%nat → Forall is_u8 sstack →
  0 ≤ rx_msglen m ≤ Z.of_nat (length (rx_buf m)) → rx_msglen m < 2 ^ 32 →
  Forall is_u8 (rx_buf m) →
  (∃ ret m' net', psc_recvmsg hstack sstack sock m flags net = Ok ((ret, m'), net') ∧
     length (rx_buf m') = length (rx_buf m) ∧ Forall is_u8 (rx_buf m') ∧
     rx_msglen m' ≤ rx_msglen m ∧
     drop (Z.to_nat (rx_msglen m)) (rx_buf m') = drop (Z.to_nat (rx_msglen m)) (rx_buf m)) ∨
  (∃ i n, psc_recvmsg hstack sstack sock m flags net = Ub (ub_index i n) ∧ n ≤ 128).
Proof.
  intros Hh Hhu Hs Hsu Hm Hm2 Hbu. unfold psc_recvmsg.
  destruct (recvhead_total hstack sock flags net) as (r1 & o & net1 & E1 & Ho); [done..|].
  rewrite (nrun_bind _ _ _ _ _ E1). cbv zeta iota.
  destruct o as [[mid mlen]|]; [|left; by eexists _, m, _].
  set (rlen := if rx_msglen m <? mlen then _ else _).
  pose proof (Ho _ _ eq_refl) as Hml. unfold is_u32 in Hml.
  assert (0 ≤ rlen ≤ rx_msglen m) as Hrl by (unfold rlen; case_Zb; lia).
  destruct (recvall_total sock (rx_buf m) rlen flags net1)
    as (r2 & buf & net2 & E2 & Hb2 & Hd2 & Hu2); [lia|lia|done|].
  rewrite (nrun_bind _ _ _ _ _ E2). cbv iota.
  assert (drop (Z.to_nat (rx_msglen m)) buf = drop (Z.to_nat (rx_msglen m)) (rx_buf m)) as Hd.
  { replace (Z.to_nat (rx_msglen m))
      with (Z.to_nat rlen + (Z.to_nat (rx_msglen m) - Z.to_nat rlen))%nat by lia.
    by rewrite <- !drop_drop, Hd2. }
  destruct (r2 =? 0); cbn [negb].
  2:{ left. eexists _, _, _. split; [done|]. cbn. by split_and!. }
  destruct (Z.ltb_spec rlen mlen) as [Hlt|Hge].
  2:{ left. eexists _, _, _. split; [done|]. cbn. split_and!; [done..|lia|done]. }
  destruct (recvskip_outcome sstack sock (mlen - rlen) flags net2)
    as [(r3 & net3 & E3)|(i & n & E3 & Hn)]; [done|done|lia| |].
  - left. rewrite (nrun_bind _ _ _ _ _ E3). eexists _, _, _. split; [done|]. cbn.
    split_and!; [done..|lia|done].
  - right. rewrite (nrun_bind_ub _ _ _ _ E3). eexists _, _. split; [done|]. lia.
Qed.

(** C25: whatever the network does, [psc_recvmsg] terminates and never
    writes outside of the receive buffer, nor behind the received bytes in it; the
    only undefined behaviour it can reach is the overflow of the 128-byte skip
    buffer of [psc_recvskip]. *)
Theorem recvmsg_outcomes hstack sstack sock m flags net :
  length hstack = 8%nat → Forall is_u8 hstack → length sstack = 128%nat → Forall is_u8 sstack →
  0 ≤ rx_msglen m ≤ Z.of_nat (length (rx_buf m)) → rx_msglen m < 2 ^ 32 →
  Forall is_u8 (rx_buf m) →
  (∃ ret m' net', psc_recvmsg hstack sstack sock m flags net = Ok ((ret, m'), net') ∧
     length (rx_buf m') = length (rx_buf m) ∧ Forall is_u8 (rx_buf m') ∧
     rx_msglen m' ≤ rx_msglen m ∧
     drop (Z.to_nat (rx_msglen m)) (rx_buf m') = drop (Z.to_nat (rx_msglen m)) (rx_buf m)) ∨
  (∃ i n, psc_recvmsg hstack sstack sock m flags net = Ub (ub_index i n) ∧ n ≤ 128).
Proof. apply run_recvmsg_any. Qed.
End safety.

(** ** The overflow of the skip buffer

    A receive timeout ([SO_RCVTIMEO] is set by the listener) makes the first
    [recv] of a skipped part fail; the last [psc_recvall] of [psc_recvskip] then
    asks for the whole rest into the 128-byte buffer. *)

(** A socket layer whose connection delivers [data], with one time-out before it. *)
Definition TimeoutSockets : Sockets := {|
  ENOTCONN := 128; EIO := 5;
  NET := bool * list Z;
  sk_send := λ _ data _ net, (inr (length data), net);
  sk_recv := λ _ len _ net,
    if net.1 : bool then (inl 11, (false, net.2))
    else (inr (u8 <$> take (Z.to_nat len) net.2), (false, drop (Z.to_nat len) net.2));
  sk_close := λ _ net, net;
  sk_accept := λ _ net, ((-1, 0), net);
|}.

#[export] Instance timeout_sockets_laws : SocketLaws TimeoutSockets.
Proof.
  split; cbn; try done.
  - by intros ? data ? net n net' [= <- <-].
  - intros sock len flags [[] q] data net'; cbn; intros [= <- <-] Hlen.
    rewrite length_fmap, length_take. split; [lia|].
    apply Forall_fmap, Forall_true. intros x. apply u8_range.
  - intros sock len flags [[] q] e net'; cbn; by intros [= <- <-].
Qed.

(** Skipping 300 bytes on a connection whose first [recv] times out
    and whose second delivers 300 bytes (a behaviour [SocketLaws] allows) writes
    behind the 128-byte buffer. *)
Theorem recvskip_overflow :
  @psc_recvskip TimeoutSockets (replicate 128 0) 3 300 0 (true, replicate 300 7)
  = Ub (ub_index 300 128).
Proof. vm_compute. reflexivity. Qed.
