(* ===== verification/Listener.v ===== *)
(** * The server: client slots and their threads ([listener.c])

    The server keeps four client slots.  [clients_used] is a bit mask; allocation,
    release and every transmission run under the mutex [sendguard] and are one
    step here.  The accept loop and the client threads are interleaved by the step
    relation [step]; the accesses of [listener.c] outside of the mutex are steps of
    their own ([C->sock = client] after the allocation, [close(sock)] after the
    release). *)

From S2P Require Import Prelude Words Regs PscMsg.

Definition PSC_MAX_CLIENTS : nat := 4.
Definition PSC_MAX_RX_MSG_LEN : Z := 200000.
Definition RXBUF_SIZE : Z := 8 + PSC_MAX_RX_MSG_LEN.

Record psc_client := MkClient {
  cl_index : Z;
  cl_sock : Z;
  cl_peeraddr : Z;
  cl_PSC : bool;                 (* the back pointer is set *)
  cl_rxbuf : list Z;
}.

(** [memset(cli, 0, sizeof( *cli))] *)
Definition zero_client : psc_client :=
  MkClient 0 0 0 false (replicate (Z.to_nat RXBUF_SIZE) 0).

Record psc_key := MkKey {
  clients_used : Z;
  clients : list psc_client;
}.

(** [mem_calloc] *)
Definition new_key : psc_key := MkKey 0 (replicate PSC_MAX_CLIENTS zero_client).

(** [key->clients_used & (1u<<i)] *)
Definition slot_used (key : psc_key) (i : Z) : bool :=
  negb (Z.land (clients_used key) (Z.shiftl 1 i) =? 0).

(** The loop of [psc_client_alloc] from index [i] on, [n] iterations left. *)
Fixpoint alloc_loop (n : nat) (i : nat) (key : psc_key) : psc_key * option nat :=
  match n with
  | O => (key, None)
  | S n =>
      if slot_used key (Z.of_nat i) then alloc_loop n (S i) key
      else
        (MkKey (Z.lor (clients_used key) (Z.shiftl 1 (Z.of_nat i)))
           (<[i := MkClient (Z.of_nat i) 0 0 true (cl_rxbuf zero_client)]> (clients key)),
         Some i)
  end.

Definition psc_client_alloc (key : psc_key) : psc_key * option nat :=
  alloc_loop PSC_MAX_CLIENTS 0 key.

(** [i] is the slot [cli] points to; the bit comes from [cli->index]. *)
Definition psc_client_free (i : nat) (key : psc_key) : psc_key :=
  match clients key !! i with
  | Some cli =>
      MkKey (Z.land (clients_used key) (u32 (Z.lnot (Z.shiftl 1 (cl_index cli)))))
        (<[i := zero_client]> (clients key))
  | None => key
  end.

Definition set_sock (sock : Z) (c : psc_client) : psc_client :=
  MkClient (cl_index c) sock (cl_peeraddr c) (cl_PSC c) (cl_rxbuf c).

Section listener.
Context `{Sockets}.

Definition close (sock : Z) : N unit := λ net, Ok (tt, sk_close sock net).

(** One transmission to slot [i], with the reaction to a send error. *)
Definition send_slot (msgid : Z) (msg : list Z) (msglen : Z) (i : nat) (key : psc_key)
    : N psc_key :=
  match clients key !! i with
  | Some C =>
      if cl_sock C =? -1 then mret key
      else
        ret ← psc_sendmsg (cl_sock C) msgid msg msglen 0;
        if ret =? 0 then mret key
        else
          _ ← close (cl_sock C);
          mret (MkKey (clients_used key) (alter (set_sock (-1)) i (clients key)))
  | None => mret key
  end.

(** The loop of [psc_send] from index [i] on, [n] iterations left. *)
Fixpoint send_loop (n i : nat) (msgid : Z) (msg : list Z) (msglen : Z) (key : psc_key)
    : N psc_key :=
  match n with
  | O => mret key
  | S n =>
      key ← (if slot_used key (Z.of_nat i) then send_slot msgid msg msglen i key else mret key);
      send_loop n (S i) msgid msg msglen key
  end.

(** [psc_send] with a server; a null pointer returns at once. *)
Definition psc_send (PSC : option psc_key) (msgid msglen : Z) (msg : list Z)
    : N (option psc_key) :=
  match PSC with
  | None => mret None
  | Some key =>
      key ← send_loop PSC_MAX_CLIENTS 0 msgid msg msglen key;
      mret (Some key)
  end.

Definition psc_send_one (i : nat) (msgid msglen : Z) (msg : list Z) (key : psc_key) : N psc_key :=
  send_slot msgid msg msglen i key.

(** [vsnprintf] has produced [text]; [stack] is the uninitialised [msg]. *)
Definition psc_verror (stack text : list Z) (PSC : option psc_key) (code : Z)
    : N (option psc_key) :=
  let size := Z.to_nat (THREAD_STACKSIZE / 32) in
  let text := take (size - 1) text ++ [0] in
  let msg := <[(size - 1)%nat := 0]> (text ++ drop (length text) stack) in
  psc_send PSC code (Z.of_nat size) msg.
End listener.

(** ** The threads of the server *)

Inductive thread :=
| HStart                            (** created by [sys_thread_new] *)
| HRecv (sock : Z)                  (** in the receive loop, with its local [sock] *)
| HDone (sock : Z)                  (** receive error: about to release the slot *)
| HClosing (sock : Z).              (** slot released: about to close its socket *)

Section server.
Context `{Sockets}.

(** The application behind the server: the callbacks of [psc_config] on the
    application state [X].  [conf_conn] is the part of the connect callback that
    uses the server ([None]: it sends nothing). *)
Context {X : Type} (conf_conn : X → option (Z * list Z))
  (conf_recv : Z → Z → list Z → X → res X).
Context (hstack sstack : list Z) (listen_sock : Z).

Record server := MkServer {
  srv_key : psc_key;
  srv_net : NET;
  srv_app : X;
  accepting : option (nat * (Z * Z));     (* slot allocated for (socket, peer) *)
  threads : list (nat * thread);          (* slot and thread of each client *)
}.

Definition set_rxbuf (buf : list Z) (c : psc_client) : psc_client :=
  MkClient (cl_index c) (cl_sock c) (cl_peeraddr c) (cl_PSC c) buf.

Inductive step : server → server → Prop :=
| s_accept_error key net app ths peer net' :
    sk_accept listen_sock net = ((-1, peer), net') →
    step (MkServer key net app None ths) (MkServer key net' app None ths)
| s_accept_drop key key' net app ths client peer net' :
    sk_accept listen_sock net = ((client, peer), net') → client ≠ -1 →
    psc_client_alloc key = (key', None) →
    step (MkServer key net app None ths) (MkServer key' (sk_close client net') app None ths)
| s_accept_alloc key key' net app ths client peer net' i :
    sk_accept listen_sock net = ((client, peer), net') → client ≠ -1 →
    psc_client_alloc key = (key', Some i) →
    step (MkServer key net app None ths) (MkServer key' net' app (Some (i, (client, peer))) ths)
| s_accept_assign key net app ths i client peer :
    step (MkServer key net app (Some (i, (client, peer))) ths)
         (MkServer (MkKey (clients_used key)
            (alter (λ C, MkClient (cl_index C) client peer (cl_PSC C) (cl_rxbuf C)) i (clients key)))
            net app None ((i, HStart) :: ths))
| s_handler_start key key' net net' app acc ths1 ths2 i C :
    clients key !! i = Some C →
    (match conf_conn app with
     | Some (mid, msg) => psc_send_one i mid (Z.of_nat (length msg)) msg key
     | None => mret key
     end) net = Ok (key', net') →
    step (MkServer key net app acc (ths1 ++ (i, HStart) :: ths2))
         (MkServer key' net' app acc (ths1 ++ (i, HRecv (cl_sock C)) :: ths2))
| s_handler_msg key net net' app app' acc ths1 ths2 i sock C msgid0 m :
    clients key !! i = Some C →
    psc_recvmsg hstack sstack sock (MkRx msgid0 RXBUF_SIZE (cl_rxbuf C)) 0 net = Ok ((0, m), net') →
    conf_recv (rx_msgid m) (rx_msglen m) (rx_buf m) app = Ok app' →
    step (MkServer key net app acc (ths1 ++ (i, HRecv sock) :: ths2))
         (MkServer (MkKey (clients_used key) (alter (set_rxbuf (rx_buf m)) i (clients key)))
            net' app' acc (ths1 ++ (i, HRecv sock) :: ths2))
| s_handler_break key net net' app acc ths1 ths2 i sock C msgid0 ret m :
    clients key !! i = Some C →
    psc_recvmsg hstack sstack sock (MkRx msgid0 RXBUF_SIZE (cl_rxbuf C)) 0 net = Ok ((ret, m), net') →
    ret ≠ 0 →
    step (MkServer key net app acc (ths1 ++ (i, HRecv sock) :: ths2))
         (MkServer (MkKey (clients_used key) (alter (set_rxbuf (rx_buf m)) i (clients key)))
            net' app acc (ths1 ++ (i, HDone sock) :: ths2))
| s_handler_free key net app acc ths1 ths2 i sock :
    step (MkServer key net app acc (ths1 ++ (i, HDone sock) :: ths2))
         (MkServer (psc_client_free i key) net app acc (ths1 ++ (i, HClosing sock) :: ths2))
| s_handler_close key net app acc ths1 ths2 i sock :
    step (MkServer key net app acc (ths1 ++ (i, HClosing sock) :: ths2))
         (MkServer key (sk_close sock net) app acc (ths1 ++ ths2))
| s_send key key' net net' app acc ths msgid msg :
    psc_send (Some key) msgid (Z.of_nat (length msg)) msg net = Ok (Some key', net') →
    step (MkServer key net app acc ths) (MkServer key' net' app acc ths).

(** [psc_run] before the first connection *)
Definition server_start (net : NET) (app : X) : server := MkServer new_key net app None [].
End server.

(** ** Bits of the client mask *)

Lemma slot_used_testbit key (i : nat) :
  slot_used key (Z.of_nat i) = Z.testbit (clients_used key) (Z.of_nat i).
Proof.
  unfold slot_used. rewrite Z.shiftl_1_l.
  destruct (Z.eqb_spec (Z.land (clients_used key) (2 ^ Z.of_nat i)) 0) as [E|E]; cbn.
  - apply (f_equal (λ z, Z.testbit z (Z.of_nat i))) in E.
    rewrite Z.land_spec, Z.pow2_bits_true, Z.bits_0, andb_true_r in E by lia. by rewrite E.
  - destruct (Z.testbit (clients_used key) (Z.of_nat i)) eqn:Ht; [done|].
    exfalso. apply E. apply Z.bits_inj'. intros n Hn. rewrite Z.land_spec, Z.bits_0.
    destruct (Z.eq_dec n (Z.of_nat i)) as [->|Hne]; [by rewrite Ht|].
    by rewrite Z.pow2_bits_false, andb_false_r.
Qed.

Lemma set_bit_testbit used (i n : nat) :
  Z.testbit (Z.lor used (Z.shiftl 1 (Z.of_nat i))) (Z.of_nat n) =
  Z.testbit used (Z.of_nat n) || bool_decide (n = i).
Proof.
  rewrite Z.lor_spec, Z.shiftl_1_l, Z.pow2_bits_eqb by lia. f_equal.
  case_bool_decide as Hn; [subst; by rewrite Z.eqb_refl|]. apply Z.eqb_neq. lia.
Qed.

Lemma clear_bit_testbit used (i n : nat) :
  0 ≤ used < 2 ^ 32 → (i < 32)%nat →
  Z.testbit (Z.land used (u32 (Z.lnot (Z.shiftl 1 (Z.of_nat i))))) (Z.of_nat n) =
  Z.testbit used (Z.of_nat n) && negb (bool_decide (n = i)).
Proof.
  intros Hu Hi. rewrite Z.land_spec, Z.shiftl_1_l. unfold u32.
  destruct (Z.lt_ge_cases (Z.of_nat n) 32) as [Hlt|Hge].
  - rewrite Z.mod_pow2_bits_low, Z.lnot_spec, Z.pow2_bits_eqb by lia. do 2 f_equal.
    case_bool_decide as Hn; [subst; by rewrite Z.eqb_refl|]. apply Z.eqb_neq. lia.
  - assert (Z.testbit used (Z.of_nat n) = false) as ->; [|done].
    destruct (Z.eq_dec used 0) as [->|Hne]; [apply Z.bits_0|].
    apply Z.bits_above_log2; [lia|]. apply Z.log2_lt_pow2; [lia|].
    pose proof (Z.pow_le_mono_r 2 32 (Z.of_nat n)). lia.
Qed.

(** ** The slot operations *)

Lemma alloc_loop_spec n i key :
  alloc_loop n i key = (key, None) ∧
    (∀ k, (i ≤ k < i + n)%nat → Z.testbit (clients_used key) (Z.of_nat k) = true) ∨
  ∃ j, (i ≤ j < i + n)%nat ∧ Z.testbit (clients_used key) (Z.of_nat j) = false ∧
    alloc_loop n i key =
      (MkKey (Z.lor (clients_used key) (Z.shiftl 1 (Z.of_nat j)))
         (<[j := MkClient (Z.of_nat j) 0 0 true (cl_rxbuf zero_client)]> (clients key)), Some j).
Proof.
  revert i. induction n as [|n IH]; intros i; cbn [alloc_loop].
  { left. split; [done|]. lia. }
  rewrite slot_used_testbit. destruct (Z.testbit (clients_used key) (Z.of_nat i)) eqn:Ht.
  - destruct (IH (S i)) as [[E Hall]|(j & Hj & Hf & E)].
    + left. split; [done|]. intros k Hk. destruct (decide (k = i)) as [->|]; [done|].
      apply Hall. lia.
    + right. exists j. split; [lia|done].
  - right. exists i. split; [lia|done].
Qed.

(** A client record that differs from another by a socket reset to -1 at most. *)
Definition same_client (c c' : psc_client) : Prop := c' = c ∨ c' = set_sock (-1) c.

Record sends_only (key key' : psc_key) : Prop := {
  so_used : clients_used key' = clients_used key;
  so_clients : Forall2 same_client (clients key) (clients key');
  so_free : ∀ i : nat, Z.testbit (clients_used key) (Z.of_nat i) = false →
    clients key' !! i = clients key !! i;
}.

Section ops.
Context `{Sockets}.

#[global] Instance same_client_trans : Transitive same_client.
Proof.
  intros c1 c2 c3 [->| ->] [->| ->]; unfold same_client; auto.
Qed.

#[global] Instance sends_only_preorder : PreOrder sends_only.
Proof.
  split.
  - intros key. split; [done| |done]. apply Forall2_same_length_lookup_2; [done|].
    intros i x y Hx Hy. rewrite Hx in Hy. injection Hy as ->. by left.
  - intros k1 k2 k3 [U1 C1 F1] [U2 C2 F2]. split; [congruence|by etrans|].
    intros i Hi. rewrite F2 by congruence. by apply F1.
Qed.

Lemma send_slot_sends msgid msg msglen (i : nat) key net key' net' :
  Z.testbit (clients_used key) (Z.of_nat i) = true →
  send_slot msgid msg msglen i key net = Ok (key', net') → sends_only key key'.
Proof.
  intros Hbit. unfold send_slot. destruct (clients key !! i) as [C|] eqn:HC.
  2:{ by intros [= -> ->]. }
  destruct (cl_sock C =? -1); [by intros [= -> ->]|].
  unfold mbind, N_bind. destruct (psc_sendmsg _ _ _ _ _ net) as [[r net1]|]; [|done].
  destruct (r =? 0); [by intros [= -> ->]|]. intros [= <- <-].
  split; cbn; [done| |].
  - apply Forall2_same_length_lookup_2; [by rewrite length_alter|].
    intros k x y Hx Hy. destruct (decide (k = i)) as [->|Hk].
    + rewrite list_lookup_alter_eq, Hx in Hy. injection Hy as <-. by right.
    + rewrite list_lookup_alter_ne, Hx in Hy by done. injection Hy as <-. by left.
  - intros k Hk. apply list_lookup_alter_ne. intros ->. congruence.
Qed.

Lemma send_loop_sends n i msgid msg msglen key net key' net' :
  send_loop n i msgid msg msglen key net = Ok (key', net') → sends_only key key'.
Proof.
  revert i key net. induction n as [|n IH]; intros i key net; cbn [send_loop].
  { by intros [= -> ->]. }
  rewrite slot_used_testbit.
  destruct (Z.testbit (clients_used key) (Z.of_nat i)) eqn:Ht.
  - unfold mbind, N_bind.
    destruct (send_slot msgid msg msglen i key net) as [[k1 net1]|] eqn:E; [|done].
    intros Er. etrans; [by eapply send_slot_sends|by eapply IH].
  - apply IH.
Qed.
End ops.

(** ** Slot ownership

    A slot belongs to the accept loop between allocation and thread creation, then
    to the client thread until it is released.  A thread that only has its socket
    left to close owns nothing. *)

Definition live (th : thread) : bool :=
  match th with HClosing _ => false | _ => true end.

Fixpoint live_slots (ths : list (nat * thread)) : list nat :=
  match ths with
  | [] => []
  | (i, th) :: ths => if live th then i :: live_slots ths else live_slots ths
  end.

Lemma live_slots_app l1 l2 : live_slots (l1 ++ l2) = live_slots l1 ++ live_slots l2.
Proof.
  induction l1 as [|[i th] l1 IH]; cbn; [done|]. rewrite IH. by destruct (live th).
Qed.

Section invariant.
Context `{Sockets} {X : Type}.

Definition owners (acc : option (nat * (Z * Z))) (ths : list (nat * thread)) : list nat :=
  match acc with Some (i, _) => [i] | None => [] end ++ live_slots ths.

(** The record of an owned slot. *)
Definition owned (i : nat) (C : psc_client) : Prop :=
  cl_index C = Z.of_nat i ∧ cl_PSC C = true ∧
  length (cl_rxbuf C) = Z.to_nat RXBUF_SIZE ∧ Forall is_u8 (cl_rxbuf C).

Record slots_ok (key : psc_key) (own : list nat) : Prop := {
  ok_length : length (clients key) = PSC_MAX_CLIENTS;
  ok_range : 0 ≤ clients_used key < 2 ^ 32;
  ok_nodup : NoDup own;
  ok_bits : ∀ i : nat, Z.testbit (clients_used key) (Z.of_nat i) = true ↔ i ∈ own;
  ok_bound : ∀ i, i ∈ own → (i < PSC_MAX_CLIENTS)%nat;
  ok_owned : ∀ i, i ∈ own → ∃ C, clients key !! i = Some C ∧ owned i C;
  ok_free : ∀ i, (i < PSC_MAX_CLIENTS)%nat → i ∉ own → clients key !! i = Some zero_client;
}.

Definition server_ok (s : server (X:=X)) : Prop :=
  slots_ok (srv_key s) (owners (accepting s) (threads s)).

Lemma slots_ok_perm key own own' : own ≡ₚ own' → slots_ok key own → slots_ok key own'.
Proof.
  intros Hp [L R D B U O F]. split; try done.
  - by rewrite <- Hp.
  - intros i. by rewrite B, Hp.
  - intros i Hi. apply U. by rewrite Hp.
  - intros i Hi. apply O. by rewrite Hp.
  - intros i Hi Hn. apply F; [done|]. by rewrite Hp.
Qed.

#[global] Instance slots_ok_proper key : Proper (Permutation ==> iff) (slots_ok key).
Proof. intros o o' Hp. split; by apply slots_ok_perm. Qed.

Lemma length_zero_rxbuf : length (cl_rxbuf zero_client) = Z.to_nat RXBUF_SIZE.
Proof. apply length_replicate. Qed.
Lemma zero_rxbuf_u8 : Forall is_u8 (cl_rxbuf zero_client).
Proof. apply Forall_replicate. unfold is_u8. lia. Qed.

Lemma slots_ok_new : slots_ok new_key [].
Proof.
  split; cbn [clients clients_used new_key].
  - apply length_replicate.
  - lia.
  - constructor.
  - intros i. rewrite Z.bits_0. split; [done|]. by intros ?%not_elem_of_nil.
  - by intros i ?%not_elem_of_nil.
  - by intros i ?%not_elem_of_nil.
  - intros i Hi _. by apply lookup_replicate_2.
Qed.

Lemma lor_range a b : 0 ≤ a < 2 ^ 32 → 0 ≤ b < 2 ^ 32 → 0 ≤ Z.lor a b < 2 ^ 32.
Proof.
  intros Ha Hb. assert (0 ≤ Z.lor a b) as Hn by (apply Z.lor_nonneg; lia).
  split; [done|]. destruct (Z.eq_dec (Z.lor a b) 0) as [->|Hne]; [lia|].
  apply Z.log2_lt_pow2; [lia|]. rewrite Z.log2_lor by lia. apply Z.max_lub_lt.
  - destruct (Z.eq_dec a 0) as [->|]; [cbn; lia|]. apply Z.log2_lt_pow2; lia.
  - destruct (Z.eq_dec b 0) as [->|]; [cbn; lia|]. apply Z.log2_lt_pow2; lia.
Qed.

Lemma land_range a b : 0 ≤ a < 2 ^ 32 → 0 ≤ b < 2 ^ 32 → 0 ≤ Z.land a b < 2 ^ 32.
Proof.
  intros Ha Hb. assert (0 ≤ Z.land a b) as Hn by (apply Z.land_nonneg; lia).
  split; [done|]. destruct (Z.eq_dec (Z.land a b) 0) as [->|Hne]; [lia|].
  assert (a ≠ 0) by (intros ->; by rewrite Z.land_0_l in Hne).
  apply Z.log2_lt_pow2; [lia|]. pose proof (Z.log2_land a b).
  assert (Z.log2 a < 32) by (apply Z.log2_lt_pow2; lia). lia.
Qed.

Lemma slots_ok_alloc key key' own i :
  slots_ok key own → psc_client_alloc key = (key', Some i) → slots_ok key' (i :: own).
Proof.
  intros [L R D B U O F] E. unfold psc_client_alloc in E.
  destruct (alloc_loop_spec PSC_MAX_CLIENTS 0 key) as [[E0 _]|(j & Hj & Hbit & E0)];
    rewrite E0 in E; apply pair_equal_spec in E as [<- E]; [done|].
  apply Some_inj in E as <-.
  assert (j ∉ own) as Hfree by (rewrite <- B, Hbit; done).
  assert ((j < length (clients key))%nat) as Hlt by (rewrite L; lia).
  split; cbn [clients clients_used].
  - by rewrite length_insert.
  - apply lor_range; [done|]. rewrite Z.shiftl_1_l.
    pose proof (Z.pow_le_mono_r 2 (Z.of_nat j) 4). unfold PSC_MAX_CLIENTS in Hj. lia.
  - by constructor.
  - intros k. rewrite set_bit_testbit, orb_true_iff, bool_decide_eq_true, elem_of_cons, B. tauto.
  - intros k [->|Hk]%elem_of_cons; [lia|by apply U].
  - intros k [->|Hk]%elem_of_cons.
    + rewrite list_lookup_insert_eq by done. eexists. split; [reflexivity|].
      split; [reflexivity|]. split; [reflexivity|].
      split; [exact length_zero_rxbuf|exact zero_rxbuf_u8].
    + rewrite list_lookup_insert_ne by (by intros ->). by apply O.
  - intros k Hk [Hne Hn]%not_elem_of_cons. rewrite list_lookup_insert_ne by done. by apply F.
Qed.

Lemma slots_ok_free key i own :
  slots_ok key (i :: own) → slots_ok (psc_client_free i key) own.
Proof.
  intros [L R D B U O F]. apply NoDup_cons in D as [Hi D].
  destruct (O i) as (C & HC & Hidx & _); [apply list_elem_of_here|].
  assert ((i < PSC_MAX_CLIENTS)%nat) as Hlt by (apply U; apply list_elem_of_here).
  unfold psc_client_free. rewrite HC, Hidx.
  split; cbn [clients clients_used].
  - by rewrite length_insert.
  - apply land_range; [done|apply u32_range].
  - done.
  - intros k. rewrite clear_bit_testbit by (unfold PSC_MAX_CLIENTS in *; lia).
    rewrite andb_true_iff, negb_true_iff, bool_decide_eq_false, B, elem_of_cons.
    split; [intros [[->|?] ?]; [done|done]|]. intros Hk. split; [by right|]. by intros ->.
  - intros k Hk. apply U. by apply list_elem_of_further.
  - intros k Hk. rewrite list_lookup_insert_ne by (by intros ->). apply O.
    by apply list_elem_of_further.
  - intros k Hk Hn. destruct (decide (k = i)) as [->|Hne].
    + by rewrite list_lookup_insert_eq by (by rewrite L).
    + rewrite list_lookup_insert_ne by done. apply F; [done|]. by apply not_elem_of_cons.
Qed.

(** An update of one owned record that keeps its ownership. *)
Lemma slots_ok_alter key own i f :
  slots_ok key own → i ∈ own → (∀ C, owned i C → owned i (f C)) →
  slots_ok (MkKey (clients_used key) (alter f i (clients key))) own.
Proof.
  intros [L R D B U O F] Hi Hf. split; cbn [clients clients_used]; try done.
  - by rewrite length_alter.
  - intros k Hk. destruct (O k Hk) as (C & HC & Ho). destruct (decide (k = i)) as [->|Hne].
    + rewrite list_lookup_alter_eq, HC. eexists. split; [done|by apply Hf].
    + rewrite list_lookup_alter_ne by done. eauto.
  - intros k Hk Hn. rewrite list_lookup_alter_ne by (by intros ->). by apply F.
Qed.

Lemma slots_ok_sends key key' own : sends_only key key' → slots_ok key own → slots_ok key' own.
Proof.
  intros [Su Sc Sf] [L R D B U O F]. split; try done.
  - by rewrite <- L, (Forall2_length _ _ _ Sc).
  - by rewrite Su.
  - by intros i; rewrite Su.
  - intros i Hi. destruct (O i Hi) as (C & HC & Ho).
    destruct (Forall2_lookup_l _ _ _ _ _ Sc HC) as (C' & HC' & [->| ->]); eauto.
  - intros i Hi Hn. rewrite Sf; [by apply F|]. apply not_true_is_false. by rewrite B.
Qed.
End invariant.

Section reachable.
Context `{Sockets, !SocketLaws _} {X : Type} (conf_conn : X → option (Z * list Z))
  (conf_recv : Z → Z → list Z → X → res X).
Context (hstack sstack : list Z) (listen_sock : Z).
Context (Hh : length hstack = 8%nat) (Hhu : Forall is_u8 hstack)
  (Hs : length sstack = 128%nat) (Hsu : Forall is_u8 sstack).

Abbreviation step := (step conf_conn conf_recv hstack sstack listen_sock).

Lemma owners_mid acc l1 l2 i th :
  live th = true → owners acc (l1 ++ (i, th) :: l2) ≡ₚ i :: owners acc (l1 ++ l2).
Proof.
  intros Hl. unfold owners. rewrite !live_slots_app. cbn. rewrite Hl.
  rewrite !app_assoc. symmetry. apply Permutation_middle.
Qed.

Lemma owners_closing acc l1 l2 i sock :
  owners acc (l1 ++ (i, HClosing sock) :: l2) = owners acc (l1 ++ l2).
Proof. unfold owners. by rewrite !live_slots_app. Qed.

Lemma mid_owned acc l1 l2 i th : live th = true → i ∈ owners acc (l1 ++ (i, th) :: l2).
Proof. intros Hl. rewrite owners_mid by done. apply list_elem_of_here. Qed.

(** Changing the state of a thread that keeps its slot. *)
Lemma slots_ok_mid key acc l1 l2 i th th' :
  live th = true → live th' = true →
  slots_ok key (owners acc (l1 ++ (i, th) :: l2)) →
  slots_ok key (owners acc (l1 ++ (i, th') :: l2)).
Proof.
  intros Hl Hl'. apply slots_ok_perm. by rewrite (owners_mid _ _ _ _ th), owners_mid.
Qed.

Lemma recv_owned i C sock msgid0 net ret m net' :
  owned i C →
  psc_recvmsg hstack sstack sock (MkRx msgid0 RXBUF_SIZE (cl_rxbuf C)) 0 net = Ok ((ret, m), net') →
  ∀ C', owned i C' → owned i (set_rxbuf (rx_buf m) C').
Proof.
  intros (_ & _ & Hl & Hu) E C' (Hi & Hp & _ & _).
  destruct (run_recvmsg_any hstack sstack sock (MkRx msgid0 RXBUF_SIZE (cl_rxbuf C)) 0 net)
    as [(r & m' & n' & E' & Hlen & Hu' & _)|(x & y & E' & _)]; cbn [rx_buf rx_msglen]; try done.
  - rewrite Hl. unfold RXBUF_SIZE, PSC_MAX_RX_MSG_LEN. lia.
  - rewrite E in E'. injection E' as <- <- <-. cbn in Hlen.
    split; [done|]. split; [done|]. split; [by rewrite <- Hl, <- Hlen|done].
  - by rewrite E in E'.
Qed.

Lemma step_ok s s' : server_ok s → step s s' → server_ok s'.
Proof.
  unfold server_ok. intros Hok Hstep. destruct Hstep; cbn [srv_key accepting threads] in *.
  - done.
  - destruct (alloc_loop_spec PSC_MAX_CLIENTS 0 key) as [[E0 _]|(j & _ & _ & E0)];
      unfold psc_client_alloc in *; rewrite E0 in *; [|done]. congruence.
  - by eapply slots_ok_alloc.
  - change (owners None ((i, HStart) :: ths)) with (owners (Some (i, (client, peer))) ths).
    apply slots_ok_alter; [done|apply list_elem_of_here|].
    intros C (? & ? & ? & ?). by split_and!.
  - eapply slots_ok_mid; [| |eapply slots_ok_sends; [|exact Hok]]; [done|done|].
    destruct (conf_conn app) as [[mid msg]|].
    2:{ match goal with Hm : mret _ _ = Ok _ |- _ => by injection Hm as -> -> end. }
    eapply send_slot_sends; [|done]. apply (ok_bits _ _ Hok). by apply mid_owned.
  - destruct (ok_owned _ _ Hok i) as (C' & HC' & Ho); [by apply mid_owned|].
    simplify_eq. apply slots_ok_alter; [done|by apply mid_owned|]. by eapply recv_owned.
  - destruct (ok_owned _ _ Hok i) as (C' & HC' & Ho); [by apply mid_owned|].
    simplify_eq. eapply slots_ok_mid; [| |apply slots_ok_alter; [exact Hok| |]]; [done|done| |].
    + by apply mid_owned.
    + by eapply recv_owned.
  - rewrite owners_closing. apply slots_ok_free. by rewrite owners_mid in Hok.
  - by rewrite owners_closing in Hok.
  - eapply slots_ok_sends; [|exact Hok].
    unfold psc_send, mbind, N_bind in *. destruct (send_loop _ _ _ _ _ _ _) as [[k n]|] eqn:E; [|done].
    match goal with Hm : mret _ _ = Ok _ |- _ => injection Hm as -> -> end.
    by eapply send_loop_sends.
Qed.

Lemma reachable_ok net app s : star step (server_start net app) s → server_ok s.
Proof.
  intros Hr. eapply (star_inv _ server_ok); [|exact Hr|exact slots_ok_new]. apply step_ok.
Qed.
End reachable.

(** ** What the server promises *)

Section promises.
Context `{Sockets, !SocketLaws _} {X : Type} (conf_conn : X → option (Z * list Z))
  (conf_recv : Z → Z → list Z → X → res X).
Context (hstack sstack : list Z) (listen_sock : Z).

Abbreviation step := (step conf_conn conf_recv hstack sstack listen_sock).

Lemma owners_at_most key own : slots_ok key own → (length own ≤ PSC_MAX_CLIENTS)%nat.
Proof.
  intros [_ _ Hd _ Hb _ _]. rewrite <- (length_seq PSC_MAX_CLIENTS 0).
  apply submseteq_length, NoDup_submseteq; [done|].
  intros i Hi. apply elem_of_seq. pose proof (Hb i Hi). lia.
Qed.

(** C7: in every reachable state, under every interleaving of the
    accept loop, the client threads and transmissions, no two of them own the same
    slot, at most four slots are owned, the bit mask shows exactly the owned slots,
    an owned record has its own index and a receive buffer of full size, and every
    other record is zero. *)
Theorem server_slots_exclusive net app s :
  length hstack = 8%nat → Forall is_u8 hstack → length sstack = 128%nat → Forall is_u8 sstack →
  star step (server_start net app) s →
  server_ok s ∧ (length (owners (accepting s) (threads s)) ≤ PSC_MAX_CLIENTS)%nat.
Proof.
  intros ? ? ? ? Hr. assert (server_ok s) as Hok by (by eapply reachable_ok).
  split; [done|by eapply owners_at_most].
Qed.

(** In a reachable state a new connection is dropped exactly
    when four clients are connected. *)
Theorem fifth_client_dropped net app s :
  length hstack = 8%nat → Forall is_u8 hstack → length sstack = 128%nat → Forall is_u8 sstack →
  star step (server_start net app) s →
  (psc_client_alloc (srv_key s)).2 = None ↔
  length (owners (accepting s) (threads s)) = PSC_MAX_CLIENTS.
Proof.
  intros ? ? ? ? Hr. assert (server_ok s) as Hok by (by eapply reachable_ok).
  unfold server_ok in Hok. pose proof (owners_at_most _ _ Hok) as Hmax.
  destruct Hok as [_ _ Hd Hbits Hb _ _]. unfold psc_client_alloc.
  destruct (alloc_loop_spec PSC_MAX_CLIENTS 0 (srv_key s)) as [[-> Hall]|(j & Hj & Hf & ->)];
    (split; [|intros Hlen]); cbn [snd]; try done.
  - intros _. apply Nat.le_antisymm; [done|].
    rewrite <- (length_seq PSC_MAX_CLIENTS 0) at 1.
    apply submseteq_length, NoDup_submseteq; [apply NoDup_seq|].
    intros i Hi%elem_of_seq. apply Hbits, Hall. lia.
  - exfalso. assert (j ∉ owners (accepting s) (threads s)) as Hn by (rewrite <- Hbits, Hf; done).
    assert (length (j :: owners (accepting s) (threads s)) ≤ PSC_MAX_CLIENTS)%nat as Hc; [|cbn in Hc; lia].
    rewrite <- (length_seq PSC_MAX_CLIENTS 0). apply submseteq_length, NoDup_submseteq.
    + by constructor.
    + intros i [->|Hi]%elem_of_cons; apply elem_of_seq; [lia|]. pose proof (Hb i Hi). lia.
Qed.

(** *** The receive loop of a client *)

(** What the loop does with a sequence of messages: every message is received into
    the buffer (truncated to it) and handed to the callback. *)
Fixpoint process (msgs : list (Z * list Z)) (buf : list Z) (app : X) : res (list Z * X) :=
  match msgs with
  | [] => Ok (buf, app)
  | (mid, body) :: msgs =>
      let got := take (Z.to_nat RXBUF_SIZE) body in
      let buf := got ++ drop (length got) buf in
      match conf_recv mid (Z.of_nat (length got)) buf app with
      | Ok app => process msgs buf app
      | Ub u => Ub u
      end
  end.

Definition stream_of (msgs : list (Z * list Z)) : list Z := msgs ≫= λ m, frame m.1 m.2.

Lemma client_stream_steps `{!TcpStream _} msgs tl key net app acc ths1 ths2 i sock C buf' app' :
  length hstack = 8%nat → length sstack = 128%nat →
  clients key !! i = Some C → length (cl_rxbuf C) = Z.to_nat RXBUF_SIZE →
  Forall (λ m, is_u16 m.1 ∧ Z.of_nat (length m.2) < 2 ^ 32) msgs →
  up sock net → rx_pending sock net = stream_of msgs ++ tl →
  process msgs (cl_rxbuf C) app = Ok (buf', app') →
  ∃ net', star step
    (MkServer key net app acc (ths1 ++ (i, HRecv sock) :: ths2))
    (MkServer (MkKey (clients_used key) (<[i := set_rxbuf buf' C]> (clients key))) net' app' acc
       (ths1 ++ (i, HRecv sock) :: ths2)) ∧
    up sock net' ∧ rx_pending sock net' = tl.
Proof.
  intros Hh Hs HC Hlen Hm Hup Hp Hproc.
  revert key net app C HC Hlen Hup Hp Hproc.
  induction Hm as [|[mid body] msgs [Hmid Hbody] _ IH]; intros key net app C HC Hlen Hup Hp Hproc.
  { injection Hproc as <- <-. exists net. split; [|done].
    replace (set_rxbuf (cl_rxbuf C) C) with C by (by destruct C).
    rewrite list_insert_id by done. destruct key. apply star_refl. }
  cbn [process stream_of mbind] in Hproc, Hp. cbn [fst snd] in *.
  set (got := take (Z.to_nat RXBUF_SIZE) body) in *.
  set (buf := got ++ drop (length got) (cl_rxbuf C)) in *.
  destruct (conf_recv mid (Z.of_nat (length got)) buf app) as [app1|] eqn:Erecv; [|done].
  assert (length got ≤ Z.to_nat RXBUF_SIZE)%nat as Hgot by (unfold got; rewrite length_take; lia).
  destruct (run_recvmsg hstack sstack sock mid body (stream_of msgs ++ tl)
    (MkRx 0 RXBUF_SIZE (cl_rxbuf C)) 0 net) as (net1 & E & Hup1 & Hp1 & _);
    cbn [rx_msglen rx_buf]; try done.
  { rewrite Hlen. unfold RXBUF_SIZE, PSC_MAX_RX_MSG_LEN. lia. }
  { rewrite Hp. unfold stream_of at 1. cbn [mbind list_bind fst snd]. by rewrite <- app_assoc. }
  set (key1 := MkKey (clients_used key) (alter (set_rxbuf buf) i (clients key))).
  destruct (IH key1 net1 app1 (set_rxbuf buf C)) as (net' & Hstar & Hup' & Hp');
    [by cbn; rewrite list_lookup_alter_eq, HC| |done|done|done|].
  { cbn. unfold buf. rewrite length_app, length_drop. lia. }
  exists net'. split; [|done].
  eapply star_step; [eapply s_handler_msg; [exact HC|exact E|exact Erecv]|].
  cbn [rx_buf]. fold buf. fold key1.
  replace (<[i := set_rxbuf buf' C]> (clients key))
    with (<[i := set_rxbuf buf' (set_rxbuf buf C)]> (clients key1)); [exact Hstar|].
  unfold key1. cbn [clients]. apply list_eq. intros k.
  destruct (decide (k = i)) as [->|Hk].
  - by rewrite !list_lookup_insert_eq by (rewrite ?length_alter; by eapply lookup_lt_Some).
  - by rewrite !list_lookup_insert_ne, list_lookup_alter_ne.
Qed.

(** C12: a client thread on a working connection handles the
    messages of its stream one after the other, each exactly once and with its own
    identifier, length and body, whatever their sizes and however the stream is
    fragmented; afterwards it waits for the next message. *)
Theorem client_messages_in_order `{!TcpStream _} msgs tl key net app acc ths1 ths2 i sock C buf' app' :
  length hstack = 8%nat → length sstack = 128%nat →
  clients key !! i = Some C → length (cl_rxbuf C) = Z.to_nat RXBUF_SIZE →
  Forall (λ m, is_u16 m.1 ∧ Z.of_nat (length m.2) < 2 ^ 32) msgs →
  up sock net → rx_pending sock net = stream_of msgs ++ tl →
  process msgs (cl_rxbuf C) app = Ok (buf', app') →
  ∃ net', star step
    (MkServer key net app acc (ths1 ++ (i, HRecv sock) :: ths2))
    (MkServer (MkKey (clients_used key) (<[i := set_rxbuf buf' C]> (clients key))) net' app' acc
       (ths1 ++ (i, HRecv sock) :: ths2)) ∧
    up sock net' ∧ rx_pending sock net' = tl.
Proof. apply client_stream_steps. Qed.
End promises.

(** ** Broadcast *)

(** Calls on one socket do not disturb another connection. *)
Class TcpIndependent (S : Sockets) `{!TcpStream S} := {
  send_other : ∀ sock sock' data flags net r net',
    sk_send sock data flags net = (r, net') → sock' ≠ sock → up sock' net →
    up sock' net' ∧ tx_sent sock' net' = tx_sent sock' net;
  close_other : ∀ sock sock' net, sock' ≠ sock → up sock' net →
    up sock' (sk_close sock net) ∧ tx_sent sock' (sk_close sock net) = tx_sent sock' net;
}.

Section broadcast.
Context `{Sockets, !SocketLaws _, !TcpStream _, !TcpIndependent _}.

(** The connection [sock] is up and has sent [out]. *)
Definition sent (sock : Z) (out : list Z) (net : NET) : Prop :=
  up sock net ∧ tx_sent sock net = out.

Lemma sendall_other fuel sock sock' buf flags net r net' out :
  sendall_loop fuel sock buf flags net = Ok (r, net') → sock' ≠ sock →
  sent sock' out net → sent sock' out net'.
Proof.
  intros E Hne. revert buf net E. induction fuel as [|fuel IH]; intros [|b buf] net E Hs;
    cbn [sendall_loop] in E; [by injection E as <- <-|done|by injection E as <- <-|].
  unfold mbind, N_bind in E.
  destruct (sk_send sock (b :: buf) flags net) as [x net1] eqn:Es.
  assert (sent sock' out net1) as Hs1.
  { destruct Hs as [Hup <-]. by destruct (send_other _ _ _ _ _ _ _ Es Hne Hup). }
  destruct x as [e|[|n]]; [by injection E as <- <-|by injection E as <- <-|].
  destruct (_ <? _)%nat; [done|]. by eapply IH.
Qed.

Lemma sendmsg_other sock sock' mid msg len flags net r net' out :
  psc_sendmsg sock mid msg len flags net = Ok (r, net') → sock' ≠ sock →
  sent sock' out net → sent sock' out net'.
Proof.
  unfold psc_sendmsg, psc_sendhead, mbind, N_bind. intros E Hne Hs.
  destruct (psc_sendall sock _ flags net) as [[r1 net1]|] eqn:E1; [|done].
  pose proof (sendall_other _ _ _ _ _ _ _ _ _ E1 Hne Hs) as Hs1.
  destruct (negb _); [by injection E as <- <-|]. by eapply sendall_other.
Qed.

Lemma sendmsg_total sock mid msg len flags net :
  ∃ r net', psc_sendmsg sock mid msg len flags net = Ok (r, net').
Proof.
  unfold psc_sendmsg, psc_sendhead.
  destruct (sendall_total sock (psc_header mid len) flags net) as (r1 & net1 & E1).
  rewrite (nrun_bind _ _ _ _ _ E1). destruct (negb _); [by eexists _, _|].
  apply sendall_total.
Qed.

Lemma send_slot_total mid msg len i key net :
  ∃ key' net', send_slot mid msg len i key net = Ok (key', net') ∧
    (∀ k, k ≠ i → clients key' !! k = clients key !! k) ∧ clients_used key' = clients_used key ∧
    ∀ sock' out, (∀ C, clients key !! i = Some C → cl_sock C ≠ sock') →
      sent sock' out net → sent sock' out net'.
Proof.
  unfold send_slot. destruct (clients key !! i) as [C|] eqn:HC; [|by exists key, net].
  destruct (cl_sock C =? -1); [by exists key, net|].
  destruct (sendmsg_total (cl_sock C) mid msg len 0 net) as (r & net1 & E).
  rewrite (nrun_bind _ _ _ _ _ E). destruct (r =? 0).
  - exists key, net1. split; [done|]. split; [done|]. split; [done|].
    intros sock' out Hne. eapply sendmsg_other; [exact E|]. intros ->. by eapply Hne.
  - eexists _, _. split; [done|]. cbn. split; [|split; [done|]].
    + intros k Hk. by apply list_lookup_alter_ne.
    + intros sock' out Hne Hs. assert (sock' ≠ cl_sock C) as Hne' by (intros ->; by eapply Hne).
      pose proof (sendmsg_other _ _ _ _ _ _ _ _ _ _ E Hne' Hs) as [Hup <-].
      by destruct (close_other _ _ _ Hne' Hup).
Qed.

Lemma send_slot_up mid msg i key net C out :
  clients key !! i = Some C → cl_sock C ≠ -1 → Z.of_nat (length msg) < 2 ^ 32 →
  sent (cl_sock C) out net →
  ∃ net', send_slot mid msg (Z.of_nat (length msg)) i key net = Ok (key, net') ∧
    sent (cl_sock C) (out ++ frame mid msg) net'.
Proof.
  intros HC Hne Hl [Hup <-]. unfold send_slot. rewrite HC, (proj2 (Z.eqb_neq _ _)) by done.
  destruct (run_sendmsg (cl_sock C) mid msg 0 net Hl Hup) as (net' & E & Hup' & Ht & _).
  rewrite (nrun_bind _ _ _ _ _ E). exists net'. by split.
Qed.

(** The loop from index [j] on, seen from slot [i]. *)
Lemma send_loop_one n j mid msg key net i C out :
  Z.of_nat (length msg) < 2 ^ 32 → clients key !! i = Some C → cl_sock C ≠ -1 →
  Z.testbit (clients_used key) (Z.of_nat i) = true →
  (∀ k C', k ≠ i → clients key !! k = Some C' → cl_sock C' ≠ cl_sock C) →
  sent (cl_sock C) out net →
  ∃ key' net', send_loop n j mid msg (Z.of_nat (length msg)) key net = Ok (key', net') ∧
    clients key' !! i = Some C ∧
    sent (cl_sock C) (if decide (j ≤ i < j + n)%nat then out ++ frame mid msg else out) net'.
Proof.
  intros Hl HC Hsock. revert j key net out HC.
  induction n as [|n IH]; intros j key net out HC Hbit Hdist Hs; cbn [send_loop].
  { exists key, net. rewrite decide_False by lia. done. }
  rewrite slot_used_testbit. destruct (decide (j = i)) as [->|Hji].
  - rewrite Hbit. destruct (send_slot_up mid msg i key net C out) as (net1 & E & Hs1); [done..|].
    rewrite (nrun_bind _ _ _ _ _ E).
    destruct (IH (S i) key net1 (out ++ frame mid msg)) as (key' & net' & Er & HC' & Hs'); [done..|].
    exists key', net'. split; [done|]. split; [done|].
    rewrite decide_False in Hs' by lia. by rewrite decide_True by lia.
  - assert (∀ m, (m = if decide (S j ≤ i < S j + n)%nat then out ++ frame mid msg else out) →
      m = if decide (j ≤ i < j + S n)%nat then out ++ frame mid msg else out) as Hrange.
    { intros m ->. by do 2 case_decide; [|lia|lia|]. }
    destruct (Z.testbit (clients_used key) (Z.of_nat j)) eqn:Hj.
    + destruct (send_slot_total mid msg (Z.of_nat (length msg)) j key net)
        as (key1 & net1 & E & Hother & Hused & Hsent).
      rewrite (nrun_bind _ _ _ _ _ E).
      destruct (IH (S j) key1 net1 out) as (key' & net' & Er & HC' & Hs').
      * by rewrite Hother.
      * by rewrite Hused.
      * intros k C' Hk HCk. destruct (decide (k = j)) as [->|Hkj].
        -- destruct (send_slot_sends mid msg (Z.of_nat (length msg)) j key net key1 net1)
             as [_ Hrel _]; [done..|].
           destruct (Forall2_lookup_r _ _ _ _ _ Hrel HCk) as (C0 & HC0 & [->| ->]).
           ++ by eapply Hdist.
           ++ cbn. congruence.
        -- rewrite Hother in HCk by done. by eapply Hdist.
      * apply Hsent; [|done]. intros C' HC'. by eapply Hdist.
      * exists key', net'. split; [done|]. split; [done|]. by rewrite <- (Hrange _ eq_refl).
    + rewrite (nrun_bind _ _ net key net) by done.
      destruct (IH (S j) key net out) as (key' & net' & Er & HC' & Hs'); [done..|].
      exists key', net'. split; [done|]. split; [done|]. by rewrite <- (Hrange _ eq_refl).
Qed.

(** C24: [psc_send] always returns, and a connected client whose
    connection works receives the message exactly once and stays connected, even
    when the transmissions to other clients fail and their sockets are closed. *)
Theorem broadcast_delivers key mid msg net i C out :
  (i < PSC_MAX_CLIENTS)%nat → clients key !! i = Some C →
  Z.testbit (clients_used key) (Z.of_nat i) = true → cl_sock C ≠ -1 →
  Z.of_nat (length msg) < 2 ^ 32 →
  (∀ k C', k ≠ i → clients key !! k = Some C' → cl_sock C' ≠ cl_sock C) →
  up (cl_sock C) net → tx_sent (cl_sock C) net = out →
  ∃ key' net', psc_send (Some key) mid (Z.of_nat (length msg)) msg net = Ok (Some key', net') ∧
    clients key' !! i = Some C ∧ up (cl_sock C) net' ∧
    tx_sent (cl_sock C) net' = out ++ frame mid msg.
Proof.
  intros Hi HC Hbit Hsock Hl Hdist Hup Ht. unfold psc_send.
  destruct (send_loop_one PSC_MAX_CLIENTS 0 mid msg key net i C out)
    as (key' & net' & E & HC' & Hs'); [done..|]. rewrite decide_True in Hs' by lia.
  rewrite (nrun_bind _ _ _ _ _ E). exists key', net'. by destruct Hs'.
Qed.
End broadcast.

(** ** A socket is closed twice

    A send error closes the client's socket and marks the slot; the client's
    thread still holds the number in its local [sock] and closes it again when it
    ends.  In between the number can be given to a new connection. *)

(** A socket layer with a table of open sockets (the accept call hands out the
    lowest free number from 1 on) in which the peers have reset every
    connection: every transfer fails. *)
Definition TableSockets : Sockets := {|
  ENOTCONN := 128; EIO := 5;
  NET := list Z;
  sk_send := λ _ _ _ net, (inl 104, net);
  sk_recv := λ _ _ _ net, (inl 104, net);
  sk_close := λ sock net, filter (λ x, x ≠ sock) net;
  sk_accept := λ _ net,
    let fd := if bool_decide (1 ∈ net) then 2 else 1 in ((fd, 0), fd :: net);
|}.

#[export] Instance table_sockets_laws : SocketLaws TableSockets.
Proof.
  split; cbn; try done.
  - by intros sock data flags net e net' [= <- <-].
  - by intros sock len flags net e net' [= <- <-].
Qed.

Section double_close.
Abbreviation step := (@step TableSockets unit (λ _, None) (λ _ _ _ x, Ok x)
  (replicate 8 0) (replicate 128 0) 0).
Abbreviation server := (@server TableSockets unit).

Definition client (i sock : Z) : psc_client := MkClient i sock 0 true (cl_rxbuf zero_client).
Definition slots (used : Z) (l : list psc_client) : psc_key :=
  MkKey used (l ++ replicate (PSC_MAX_CLIENTS - length l) zero_client).

Definition mk (used : Z) (l : list psc_client) (net : list Z) acc ths : server :=
  @MkServer TableSockets unit (slots used l) (net : list Z) tt acc ths.

(** C39: a state is reachable in which a client thread waits on
    socket 1 of its own, new connection although that socket has been closed by
    the thread of an earlier client, whose connection had the same number. *)
Theorem double_close_reachable :
  ∃ s : server, star step (@server_start TableSockets unit ([] : list Z) tt) s ∧
    threads s = [(1%nat, HRecv 1)] ∧
    (∃ C, clients (srv_key s) !! 1%nat = Some C ∧ cl_sock C = 1) ∧
    ¬ (1 ∈ (srv_net s : list Z)).
Proof.
  exists (mk 2 [zero_client; client 1 1] [] None [(1%nat, HRecv 1)]).
  split; [|split; [done|split; [by exists (client 1 1)|by intros ?%not_elem_of_nil]]].
  (* client A connects: slot 0, socket 1 *)
  apply (star_step _ _ (mk 1 [client 0 0] [1] (Some (0%nat, (1, 0))) [])).
  { eapply s_accept_alloc; done. }
  apply (star_step _ _ (mk 1 [client 0 1] [1] None [(0%nat, HStart)])).
  { apply s_accept_assign. }
  apply (star_step _ _ (mk 1 [client 0 1] [1] None [(0%nat, HRecv 1)])).
  { eapply (s_handler_start) with (ths1 := []) (C := client 0 1); done. }
  (* a transmission fails and closes socket 1 *)
  apply (star_step _ _ (mk 1 [client 0 (-1)] [] None [(0%nat, HRecv 1)])).
  { eapply (s_send) with (msgid := 60) (msg := []); done. }
  (* client B connects: slot 1, socket 1 again *)
  apply (star_step _ _ (mk 3 [client 0 (-1); client 1 0] [1] (Some (1%nat, (1, 0)))
    [(0%nat, HRecv 1)])).
  { eapply s_accept_alloc; done. }
  apply (star_step _ _ (mk 3 [client 0 (-1); client 1 1] [1] None
    [(1%nat, HStart); (0%nat, HRecv 1)])).
  { apply s_accept_assign. }
  apply (star_step _ _ (mk 3 [client 0 (-1); client 1 1] [1] None
    [(1%nat, HRecv 1); (0%nat, HRecv 1)])).
  { eapply s_handler_start with (ths1 := []) (C := client 1 1); done. }
  (* the thread of A ends *)
  apply (star_step _ _ (mk 3 [client 0 (-1); client 1 1] [1] None
    [(1%nat, HRecv 1); (0%nat, HDone 1)])).
  { eapply s_handler_break with (ths1 := [(1%nat, HRecv 1)]) (C := client 0 (-1)) (ret := 104)
      (msgid0 := 0) (m := MkRx 0 RXBUF_SIZE (cl_rxbuf zero_client)); done. }
  apply (star_step _ _ (mk 2 [zero_client; client 1 1] [1] None
    [(1%nat, HRecv 1); (0%nat, HClosing 1)])).
  { apply s_handler_free with (ths1 := [(1%nat, HRecv 1)]). }
  apply (star_step _ _ (mk 2 [zero_client; client 1 1] [] None [(1%nat, HRecv 1)])).
  { change (mk 2 [zero_client; client 1 1] [] None [(1%nat, HRecv 1)]) with
      (mk 2 [zero_client; client 1 1] (@sk_close TableSockets 1 ([1] : list Z)) None
         ([(1%nat, HRecv 1)] ++ [])).
    apply s_handler_close with (ths1 := [(1%nat, HRecv 1)]) (i := 0%nat). }
  apply star_refl.
Qed.
End double_close.
