(* ===== verification/I2c.v ===== *)
(** * I2C devices: oscillator, EEPROM and the hardware flavor ([i2c.c])

    Bus 0 has the Si570 oscillator, bus 1 the EEPROM with the MAC address and the
    hardware settings.  [ReadHardwareFlavor] configures the gateware and the two
    conversion constants from four EEPROM bytes. *)

From Stdlib Require Import SpecFloat.
From S2P Require Import Prelude Words Floats Machine Regs.

Section i2c.
Context `{Platform, Runtime, FpEnv}.

Definition i2c0_write (buf : list Z) (addr : Z) : M unit :=
  modify (add_event (I2c0Send addr buf)).
Definition i2c0_read (len addr : Z) : M unit :=
  modify (add_event (I2c0Recv addr len)).

Definition si570_values : list (Z * Z) :=
  [(137, 0x10); (7, 0x00); (8, 0xC2); (9, 0xBB); (10, 0xBE); (11, 0x6E); (12, 0x69);
   (137, 0x0); (135, 0x40)].

Definition read_si570 : M unit :=
  for_range 0 6 (λ i, i2c0_write [u8 (i + 7)] 0x55;; i2c0_read 1 0x55).

Definition prog_si570 : M unit :=
  read_si570;;
  for_range 0 (length si570_values) (λ i,
    match si570_values !! Z.to_nat i with
    | Some (r, v) => i2c0_write [r; v] 0x55
    | None => undefined (ub_index i (Z.of_nat (length si570_values)))
    end);;
  read_si570.

Definition IIC_MAC_REG : Z := 0xFA.

(** A buffer of [len] bytes after a read; what the device does not deliver keeps
    the contents the buffer had. *)
Definition recv_into (buf : list Z) (len : nat) : M (list Z) :=
  rx ← i2c1_read len;
  mret (take len rx ++ drop (length (take len rx)) buf).

Definition i2c_get_mac_address (mac : list Z) : M (list Z) :=
  i2c1_write [IIC_MAC_REG];;
  recv_into mac 6.

Definition i2c_eeprom_writeBytes (startAddr : Z) (data : list Z) : M unit :=
  i2c1_write (startAddr :: data).

Definition i2c_eeprom_readBytes (startAddr : Z) (data : list Z) (len : nat) : M (list Z) :=
  i2c1_write [startAddr];;
  recv_into data len.

(** [rdBuf[k]] of a buffer on the stack *)
Definition byte_at (buf : list Z) (k : nat) : M Z :=
  lift (match buf !! k with
        | Some v => Ok v
        | None => Ub (ub_index (Z.of_nat k) (Z.of_nat (length buf)))
        end).

(** The bytes printed. *)
Definition eeprom_dump : M (list Z) :=
  rdBuf ← i2c_eeprom_readBytes 0 (replicate 128 0xFF ++ [0]) 128;
  mret (take 128 rdBuf).

Definition glob_out (reg v : Z) : M unit := Xil_Out32 (XPAR_M_AXI_BASEADDR + reg) v.

Definition ReadHardwareFlavor : M unit :=
  rdBuf ← i2c_eeprom_readBytes 0x10 (stack_bytes 8) 8;
  val ← byte_at rdBuf 0;
  (if val =? 0 then glob_out NUMCHANS_REG 0
   else if val =? 1 then glob_out NUMCHANS_REG 1
   else glob_out NUMCHANS_REG 2);;
  val ← byte_at rdBuf 1;
  glob_out RESOLUTION_REG val;;
  (if val =? 0 then
     modify (set_conv (bits_of_float (f_of_d CONVVOLTSTO18BITS))
               (bits_of_float (f_of_d CONV18BITSTOVOLTS)))
   else if val =? 1 then
     modify (set_conv (bits_of_float (f_of_d CONVVOLTSTO20BITS))
               (bits_of_float (f_of_d CONV20BITSTOVOLTS)))
   else glob_out RESOLUTION_REG 2);;
  val ← byte_at rdBuf 2;
  (if val =? 0 then glob_out BANDWIDTH_REG 0
   else if val =? 1 then glob_out BANDWIDTH_REG 1
   else glob_out BANDWIDTH_REG 2);;
  val ← byte_at rdBuf 3;
  (if val =? 0 then glob_out POLARITY_REG 0
   else if val =? 1 then
     glob_out POLARITY_REG 1;;
     glob_out (DIGOUT_ON2_PULSEENB_REG + CHBASEADDR * 1) 1;;
     glob_out (DIGOUT_ON2_PULSEENB_REG + CHBASEADDR * 2) 1;;
     glob_out (DIGOUT_ON2_PULSEENB_REG + CHBASEADDR * 3) 1;;
     glob_out (DIGOUT_ON2_PULSEENB_REG + CHBASEADDR * 4) 1
   else glob_out POLARITY_REG 2).
End i2c.

(** ** Documented behaviour of the EEPROM (24AA025E48)

    256 bytes with an address pointer: a write sends the address and then data
    bytes, which go to consecutive addresses within a page of 16 bytes; a read
    delivers bytes from the pointer on.  The upper half (with the MAC address) is
    write-protected. *)

Class EepromLaws `{Platform} := {
  ee_mem : EEPROM → Z → Z;
  ee_ptr : EEPROM → Z;
  ee_mem_u8 : ∀ e x, is_u8 (ee_mem e x);
  ee_write : ∀ e a data, 0 ≤ a → a mod 16 + Z.of_nat (length data) ≤ 16 →
    a + Z.of_nat (length data) ≤ 128 → Forall is_u8 data →
    let e' := eeprom_send (a :: data) e in
    ∀ x, ee_mem e' x =
      match (if a <=? x then data !! Z.to_nat (x - a) else None) with
      | Some d => d
      | None => ee_mem e x
      end;
  ee_select : ∀ e a, 0 ≤ a < 256 →
    let e' := eeprom_send [a] e in (∀ x, ee_mem e' x = ee_mem e x) ∧ ee_ptr e' = a;
  ee_read : ∀ e n, ee_ptr e + Z.of_nat n ≤ 256 →
    let '(rx, e') := eeprom_recv n e in
    rx = ((λ i, ee_mem e (ee_ptr e + Z.of_nat i)) <$> seq 0 n) ∧ (∀ x, ee_mem e' x = ee_mem e x);
}.

Section eeprom.
Context `{Platform, Runtime, FpEnv, !EepromLaws}.

(** [n] bytes of the memory from address [a] on *)
Definition ee_bytes (e : EEPROM) (a : Z) (n : nat) : list Z :=
  (λ i, ee_mem e (a + Z.of_nat i)) <$> seq 0 n.

Lemma length_ee_bytes e a n : length (ee_bytes e a n) = n.
Proof. unfold ee_bytes. by rewrite length_fmap, length_seq. Qed.

(** Only the EEPROM and the log differ. *)
Definition eeprom_only (s s' : psc) : Prop :=
  pl s' = pl s ∧ flash s' = flash s ∧ scalefactors s' = scalefactors s ∧
  CONVVOLTSTODACBITS s' = CONVVOLTSTODACBITS s ∧ CONVDACBITSTOVOLTS s' = CONVDACBITSTOVOLTS s.

Lemma run_readBytes a buf n s :
  0 ≤ a → a + Z.of_nat n ≤ 256 → (n ≤ length buf)%nat → (0 < n)%nat →
  ∃ s', i2c_eeprom_readBytes a buf n s
        = Ok (ee_bytes (eeprom s) a n ++ drop n buf, s') ∧
    eeprom_only s s' ∧ (∀ x, ee_mem (eeprom s') x = ee_mem (eeprom s) x) ∧
    events s' = events s ++ [I2cSend [a]].
Proof.
  intros Ha Hn Hl Hpos. unfold i2c_eeprom_readBytes, recv_into.
  destruct (ee_select (eeprom s) a ltac:(lia)) as [Hm Hp].
  rewrite (run_bind _ _ s tt (add_event (I2cSend [a]) (set_eeprom (eeprom_send [a] (eeprom s)) s)))
    by done.
  set (s1 := add_event _ _).
  pose proof (ee_read (eeprom s1) n) as Hr. cbn [eeprom s1 add_event set_eeprom] in Hr.
  rewrite Hp in Hr. specialize (Hr ltac:(lia)).
  destruct (eeprom_recv n (eeprom_send [a] (eeprom s))) as [rx e'] eqn:E.
  destruct Hr as [-> Hm'].
  erewrite run_bind; [|unfold i2c1_read; cbn [eeprom s1 add_event set_eeprom]; by rewrite E].
  assert (((λ i, ee_mem (eeprom_send [a] (eeprom s)) (a + Z.of_nat i)) <$> seq 0 n)
    = ee_bytes (eeprom s) a n) as ->.
  { apply list_fmap_ext. intros i x _. apply Hm. }
  eexists. split; [|split; [|split]].
  - rewrite take_ge by (by rewrite length_ee_bytes). rewrite length_ee_bytes. done.
  - done.
  - intros x. cbn. by rewrite Hm', Hm.
  - done.
Qed.

(** Bytes written to the EEPROM within one page of its writable
    half are read back, and the bytes of the buffer behind them stay. *)
Theorem eeprom_roundtrip a data buf s :
  0 ≤ a → a mod 16 + Z.of_nat (length data) ≤ 16 → a + Z.of_nat (length data) ≤ 128 →
  Forall is_u8 data → (0 < length data ≤ length buf)%nat →
  ∃ s1 s2, i2c_eeprom_writeBytes a data s = Ok (tt, s1) ∧
    i2c_eeprom_readBytes a buf (length data) s1 = Ok (data ++ drop (length data) buf, s2) ∧
    eeprom_only s s2.
Proof.
  intros Ha Hpage Hhalf Hu Hl.
  set (s1 := add_event (I2cSend (a :: data)) (set_eeprom (eeprom_send (a :: data) (eeprom s)) s)).
  destruct (run_readBytes a buf (length data) s1) as (s2 & E & Ho & _); [lia..|].
  exists s1, s2. split; [done|]. split; [|done]. rewrite E. do 3 f_equal.
  apply list_eq. intros i. unfold ee_bytes. rewrite list_lookup_fmap.
  destruct (data !! i) as [b|] eqn:Hb.
  - pose proof (lookup_lt_Some _ _ _ Hb). rewrite lookup_seq_lt by done. cbn.
    rewrite (ee_write (eeprom s) a data) by done.
    rewrite (proj2 (Z.leb_le _ _)) by lia. replace (Z.to_nat _) with i by lia. by rewrite Hb.
  - apply lookup_ge_None in Hb. by rewrite lookup_seq_ge.
Qed.

(** A setting that is 0 or 1; anything else is reported as 2. *)
Definition setting_value (v : Z) : Z := if (v =? 0) || (v =? 1) then v else 2.

Lemma run_setting reg v s :
  (if v =? 0 then glob_out reg 0 else if v =? 1 then glob_out reg 1 else glob_out reg 2) s
  = Ok (tt, out32 (XPAR_M_AXI_BASEADDR + reg) (setting_value v) s).
Proof.
  unfold setting_value. destruct (Z.eqb_spec v 0) as [->|]; [done|].
  by destruct (Z.eqb_spec v 1) as [->|].
Qed.

Lemma run_glob_out {A} reg v (k : unit → M A) s :
  (glob_out reg v ≫= k) s = k tt (out32 (XPAR_M_AXI_BASEADDR + reg) v s).
Proof. done. Qed.

(** The state after the resolution has been written and interpreted. *)
Definition resolution_state (v : Z) (s : psc) : psc :=
  if v =? 0 then
    set_conv (bits_of_float (f_of_d CONVVOLTSTO18BITS)) (bits_of_float (f_of_d CONV18BITSTOVOLTS)) s
  else if v =? 1 then
    set_conv (bits_of_float (f_of_d CONVVOLTSTO20BITS)) (bits_of_float (f_of_d CONV20BITSTOVOLTS)) s
  else out32 (XPAR_M_AXI_BASEADDR + RESOLUTION_REG) 2 s.

Lemma run_resolution v s :
  (if v =? 0 then
     modify (set_conv (bits_of_float (f_of_d CONVVOLTSTO18BITS))
               (bits_of_float (f_of_d CONV18BITSTOVOLTS)))
   else if v =? 1 then
     modify (set_conv (bits_of_float (f_of_d CONVVOLTSTO20BITS))
               (bits_of_float (f_of_d CONV20BITSTOVOLTS)))
   else glob_out RESOLUTION_REG 2) s = Ok (tt, resolution_state v s).
Proof. unfold resolution_state. by destruct (v =? 0), (v =? 1). Qed.

Definition polarity_writes (v : Z) : list (Z * Z) :=
  (XPAR_M_AXI_BASEADDR + POLARITY_REG, setting_value v) ::
  if v =? 1 then
    (λ c, (XPAR_M_AXI_BASEADDR + (DIGOUT_ON2_PULSEENB_REG + CHBASEADDR * c), 1)) <$> [1; 2; 3; 4]
  else [].

Lemma run_polarity v s :
  (if v =? 0 then glob_out POLARITY_REG 0
   else if v =? 1 then
     glob_out POLARITY_REG 1;;
     glob_out (DIGOUT_ON2_PULSEENB_REG + CHBASEADDR * 1) 1;;
     glob_out (DIGOUT_ON2_PULSEENB_REG + CHBASEADDR * 2) 1;;
     glob_out (DIGOUT_ON2_PULSEENB_REG + CHBASEADDR * 3) 1;;
     glob_out (DIGOUT_ON2_PULSEENB_REG + CHBASEADDR * 4) 1
   else glob_out POLARITY_REG 2) s = Ok (tt, out_all (polarity_writes v) s).
Proof.
  unfold polarity_writes, setting_value. destruct (Z.eqb_spec v 0) as [->|]; [done|].
  by destruct (Z.eqb_spec v 1) as [->|].
Qed.

Definition flavor_conv (res : Z) (s : psc) : Z * Z :=
  if res =? 0 then (bits_of_float (f_of_d CONVVOLTSTO18BITS), bits_of_float (f_of_d CONV18BITSTOVOLTS))
  else if res =? 1 then
    (bits_of_float (f_of_d CONVVOLTSTO20BITS), bits_of_float (f_of_d CONV20BITSTOVOLTS))
  else (CONVVOLTSTODACBITS s, CONVDACBITSTOVOLTS s).

(** The register writes of the four settings: any other value is written as 2. *)
Definition flavor_writes (chans res bw pol : Z) : list (Z * Z) :=
  [(NUMCHANS_REG, setting_value chans)] ++
  (RESOLUTION_REG, res) :: (if (res =? 0) || (res =? 1) then [] else [(RESOLUTION_REG, 2)]) ++
  [(BANDWIDTH_REG, setting_value bw); (POLARITY_REG, setting_value pol)] ++
  (if pol =? 1 then (λ c, (DIGOUT_ON2_PULSEENB_REG + CHBASEADDR * c, 1)) <$> [1; 2; 3; 4] else []).

Lemma run_flavor s :
  let b k := ee_mem (eeprom s) (0x10 + k) in
  ∃ s', ReadHardwareFlavor s = Ok (tt, s') ∧
    events s' = events s ++ I2cSend [0x10] ::
      ((λ w, Out32 (u32 (XPAR_M_AXI_BASEADDR + w.1)) (u32 w.2)) <$>
         flavor_writes (b 0) (b 1) (b 2) (b 3)) ∧
    (CONVVOLTSTODACBITS s', CONVDACBITSTOVOLTS s') = flavor_conv (b 1) s ∧
    scalefactors s' = scalefactors s ∧ flash s' = flash s.
Proof.
  intros b. unfold ReadHardwareFlavor.
  destruct (run_readBytes 0x10 (stack_bytes 8) 8 s) as (s1 & E & (_ & Hfl & Hsf & Hc1 & Hc2) & _ & Hev);
    [lia|lia|by rewrite stack_bytes_length|lia|].
  rewrite (run_bind _ _ _ _ _ E).
  assert (∀ k : nat, (k < 4)%nat → ∀ A (f : Z → M A) t,
    (byte_at (ee_bytes (eeprom s) 0x10 8 ++ drop 8 (stack_bytes 8)) k ≫= f) t = f (b (Z.of_nat k)) t)
    as Hbyte.
  { intros k Hk A f t. apply run_bind. unfold byte_at, lift.
    rewrite lookup_app_l by (rewrite length_ee_bytes; lia).
    unfold ee_bytes. by rewrite list_lookup_fmap, lookup_seq_lt by lia. }
  rewrite Hbyte by lia. rewrite (run_bind _ _ _ _ _ (run_setting _ _ _)).
  rewrite Hbyte by lia. rewrite run_glob_out. rewrite (run_bind _ _ _ _ _ (run_resolution _ _)).
  rewrite Hbyte by lia. rewrite (run_bind _ _ _ _ _ (run_setting _ _ _)).
  rewrite Hbyte by lia. rewrite run_polarity.
  change (Z.of_nat 0) with 0. change (Z.of_nat 1) with 1.
  change (Z.of_nat 2) with 2. change (Z.of_nat 3) with 3.
  eexists. split; [reflexivity|]. rewrite <- Hfl, <- Hsf.
  unfold resolution_state, flavor_writes, flavor_conv, polarity_writes. split; [|split].
  - destruct (b 1 =? 0), (b 1 =? 1), (b 3 =? 1); cbn [orb app fmap list_fmap fst snd out_all foldl];
      unfold out32; cbn [events add_event set_pl set_conv]; rewrite Hev, <- !app_assoc; done.
  - by destruct (b 1 =? 0), (b 1 =? 1), (b 3 =? 1); cbn -[bits_of_float f_of_d]; rewrite ?Hc1, ?Hc2.
  - by destruct (b 1 =? 0), (b 1 =? 1), (b 3 =? 1).
Qed.

(** The flavor bytes at EEPROM addresses 0x10 to 0x13 determine the
    gateware configuration and the volts/DAC-bits constants; a byte that is
    neither 0 nor 1 is reported to the gateware as 2, and with such a resolution
    the conversion constants keep their old value. *)
Theorem hardware_flavor s :
  let b k := ee_mem (eeprom s) (0x10 + k) in
  ∃ s', ReadHardwareFlavor s = Ok (tt, s') ∧
    events s' = events s ++ I2cSend [0x10] ::
      ((λ w, Out32 (u32 (XPAR_M_AXI_BASEADDR + w.1)) (u32 w.2)) <$>
         flavor_writes (b 0) (b 1) (b 2) (b 3)) ∧
    (CONVVOLTSTODACBITS s', CONVDACBITSTOVOLTS s') = flavor_conv (b 1) s ∧
    scalefactors s' = scalefactors s ∧ flash s' = flash s.
Proof. apply run_flavor. Qed.
End eeprom.
