(* ===== verification/Main.v ===== *)
(** * Start-up and dispatch of client messages ([main.c])

    [client_msg] is the receive callback of the server: the message identifier
    selects the global settings (0), a channel (1 to 4) or a ramp table (101).
    [main_init] is [main] up to the start of the scheduler, [boot] continues with
    the recall of the saved settings in [realmain]. *)

From S2P Require Import Prelude Words Floats Machine Regs Sadata Qspi Control ControlFrame.
From S2P Require Import ControlTotal ControlSpec SettingsSpec PscMsg Listener I2c.

Section main.
Context `{Platform, Runtime, FpEnv}.

(** A global that is never assigned. *)
Definition git_hash : Z := 0.

(** The message [client_event] sends to a new client; nothing on other events. *)
Definition client_event (conn : bool) : option (Z * list Z) :=
  if conn then Some (0x100, le_bytes 4 (htonl git_hash) ++ le_bytes 4 0) else None.

Definition client_msg (msgid msglen : Z) (msg : list Z) : M unit :=
  Xil_Out32 (XPAR_M_AXI_BASEADDR + IOC_ACCESS_REG) 1;;
  Xil_Out32 (XPAR_M_AXI_BASEADDR + IOC_ACCESS_REG) 0;;
  switch msgid
    [ (0, glob_settings msg);
      (1, chan_settings msgid msg msglen);
      (2, chan_settings msgid msg msglen);
      (3, chan_settings msgid msg msglen);
      (4, chan_settings msgid msg msglen);
      (101, write_ramptable 1 msg msglen);
      (102, mret tt);
      (103, mret tt);
      (104, mret tt) ]
    (mret tt).

(** The receive callback on the application state. *)
Definition recv_callback (msgid msglen : Z) (msg : list Z) (s : psc) : res psc :=
  match client_msg msgid msglen msg s with Ok (_, s') => Ok s' | Ub u => Ub u end.

Definition print_firmware_version : M unit :=
  _ ← Xil_In32 (XPAR_M_AXI_BASEADDR + ID);
  _ ← Xil_In32 (XPAR_M_AXI_BASEADDR + VERSION);
  _ ← Xil_In32 (XPAR_M_AXI_BASEADDR + PRJ_ID);
  _ ← Xil_In32 (XPAR_M_AXI_BASEADDR + PRJ_VERSION);
  _ ← Xil_In32 (XPAR_M_AXI_BASEADDR + PRJ_SHASUM);
  _ ← Xil_In32 (XPAR_M_AXI_BASEADDR + PRJ_TIMESTAMP);
  mret tt.

(** The driver initialisations and delays have no effect on the modelled state. *)
Definition main_init : M unit :=
  print_firmware_version;;
  Xil_Out32 (XPAR_M_AXI_BASEADDR + NCO_STEPSIZE_REG) 427853;;
  prog_si570;;
  ReadHardwareFlavor;;
  Xil_Out32 (XPAR_M_AXI_BASEADDR + EVR_RESET_REG) 0xFF;;
  Xil_Out32 (XPAR_M_AXI_BASEADDR + EVR_RESET_REG) 0;;
  Xil_Out32 (XPAR_M_AXI_BASEADDR + FOFB_IPADDR_REG) 0x0A008E64;;
  for_range 1 4 (λ i,
    Xil_Out32 (XPAR_M_AXI_BASEADDR + i * CHBASEADDR + FAULT_MASK_REG) 0x1FEF).

Definition boot : M unit := main_init;; InitSettingsfromQspi.
End main.

(** ** Dispatch *)

Section dispatch.
Context `{Platform, Runtime, FpEnv}.

(** The front-panel pulse that every message starts with. *)
Definition blink (s : psc) : psc :=
  out_all [(XPAR_M_AXI_BASEADDR + IOC_ACCESS_REG, 1);
           (XPAR_M_AXI_BASEADDR + IOC_ACCESS_REG, 0)] s.

Definition ioc_pulse : list event :=
  [Out32 (u32 (XPAR_M_AXI_BASEADDR + IOC_ACCESS_REG)) 1;
   Out32 (u32 (XPAR_M_AXI_BASEADDR + IOC_ACCESS_REG)) 0].

Lemma run_client_msg msgid msglen msg s :
  client_msg msgid msglen msg s =
  (if msgid =? 0 then glob_settings msg
   else if (1 <=? msgid) && (msgid <=? 4) then chan_settings msgid msg msglen
   else if msgid =? 101 then write_ramptable 1 msg msglen
   else mret tt) (blink s).
Proof.
  unfold client_msg. rewrite !run_out32. fold (blink s). cbn [switch].
  destruct (Z.eqb_spec msgid 0); [done|].
  destruct (Z.eqb_spec msgid 1) as [->|]; [done|].
  destruct (Z.eqb_spec msgid 2) as [->|]; [done|].
  destruct (Z.eqb_spec msgid 3) as [->|]; [done|].
  destruct (Z.eqb_spec msgid 4) as [->|]; [done|].
  assert ((1 <=? msgid) && (msgid <=? 4) = false) as -> by (case_Zb; cbn; lia).
  destruct (msgid =? 101); [done|]. by destruct (msgid =? 102), (msgid =? 103), (msgid =? 104).
Qed.

Lemma blink_events s : events (blink s) = events s ++ ioc_pulse.
Proof. unfold blink. rewrite out_all_events. done. Qed.

(** The channel a message identifier speaks about. *)
Definition msg_chan (msgid : Z) : Z := if msgid =? 101 then 1 else msgid.

(** A message with identifier 1 to 4, or a ramp table, touches
    the registers, the flash sector and the scale factors of its own channel only
    (and pulses the front-panel register); every identifier that is none of 0 to 4
    and 101 only pulses. *)
Theorem client_msg_isolated msgid msglen msg s s' :
  msgid ≠ 0 → client_msg msgid msglen msg s = Ok (tt, s') →
  (1 ≤ msgid ≤ 4 ∨ msgid = 101 →
     chan_frame (msg_chan msgid) (blink s) s' ∧
     ∀ chan', 1 ≤ chan' ≤ 4 → chan' ≠ msg_chan msgid →
       scalefactors s' !! Z.to_nat (chan' - 1) = scalefactors s !! Z.to_nat (chan' - 1) ∧
       ∃ evs, events s' = events s ++ ioc_pulse ++ evs ∧
         ∀ a v, Out32 a v ∈ evs → ¬ in_block chan' a) ∧
  (¬ (1 ≤ msgid ≤ 4) ∧ msgid ≠ 101 → s' = blink s).
Proof.
  intros Hne E. rewrite run_client_msg in E. rewrite (proj2 (Z.eqb_neq _ _)) in E by done.
  assert ((1 ≤ msgid ≤ 4 ∨ msgid = 101) → chan_frame (msg_chan msgid) (blink s) s') as Hframe.
  { unfold msg_chan. intros [Hc| ->].
    - assert ((1 <=? msgid) && (msgid <=? 4) = true) as Hb by (case_Zb; cbn; lia).
      rewrite Hb in E. rewrite (proj2 (Z.eqb_neq _ _)) by lia.
      by apply (keeps_chan_settings msgid Hc msg msglen _ tt).
    - by apply (keeps_write_ramptable 1 msg msglen _ tt). }
  split.
  - intros Hc. specialize (Hframe Hc). split; [done|]. intros chan' Hc' Hdiff.
    assert (1 ≤ msg_chan msgid ≤ 4) as Hcc.
    { unfold msg_chan. destruct Hc as [Hc| ->]; [|done].
      rewrite (proj2 (Z.eqb_neq _ _)) by lia. done. }
    split.
    + destruct Hframe as [_ _ _ _ _ Hother]. rewrite Hother by lia. done.
    + destruct (frame_other_registers (msg_chan msgid) chan' (blink s) s')
        as (evs & Ev & _ & Hev); [done..|].
      exists evs. rewrite Ev, blink_events, <- app_assoc. done.
  - intros [Hc H101].
    assert ((1 <=? msgid) && (msgid <=? 4) = false) as Hb by (case_Zb; cbn; lia).
    rewrite Hb, (proj2 (Z.eqb_neq _ _)) in E by done. by injection E as <-.
Qed.
End dispatch.

(** ** From the socket to the register *)

Section end_to_end.
Context `{Platform, Runtime, FpEnv}.

Lemma length_message id u rest : length (message id u rest) = (8 + length rest)%nat.
Proof. unfold message. by rewrite length_app, length_bytes_of_words. Qed.

(** A settings message in a receive buffer, whatever is behind it. *)
Lemma run_recv_table chan id reg enc u tl n s sf :
  1 ≤ chan ≤ 4 → (id, (reg, enc)) ∈ setting_table → is_u32 u →
  scalefactors s !! Z.to_nat (chan - 1) = Some sf →
  recv_callback chan n (message id u tl) s =
  Ok (out32 (chan_addr chan reg) (encode enc (CONVVOLTSTODACBITS s) sf u) (blink s)).
Proof.
  intros Hc Hin Hu Hsf. unfold recv_callback. rewrite run_client_msg.
  rewrite (proj2 (Z.eqb_neq _ _)) by lia.
  assert ((1 <=? chan) && (chan <=? 4) = true) as -> by (case_Zb; cbn; lia).
  by rewrite (run_table chan id reg enc u tl n (blink s) sf).
Qed.

(** C1: a settings message that a client sends over a working
    connection ends up in the register of its channel: the client thread receives
    it, pulses the front panel and writes the encoded value of the table, and then
    waits for the next message; the other state of the server is unchanged. *)
Theorem end_to_end_setting `{Sockets, !SocketLaws _, !TcpStream _} hstack sstack listen_sock
    chan id reg enc u tl key net s acc ths1 ths2 i sock C sf :
  length hstack = 8%nat → length sstack = 128%nat →
  clients key !! i = Some C → length (cl_rxbuf C) = Z.to_nat RXBUF_SIZE →
  1 ≤ chan ≤ 4 → (id, (reg, enc)) ∈ setting_table → is_u32 u →
  scalefactors s !! Z.to_nat (chan - 1) = Some sf →
  up sock net → rx_pending sock net = frame chan (message id u []) ++ tl →
  ∃ net' buf', star (step (λ _, client_event true) recv_callback hstack sstack listen_sock)
    (MkServer key net s acc (ths1 ++ (i, HRecv sock) :: ths2))
    (MkServer (MkKey (clients_used key) (<[i := set_rxbuf buf' C]> (clients key))) net'
       (out32 (chan_addr chan reg) (encode enc (CONVVOLTSTODACBITS s) sf u) (blink s)) acc
       (ths1 ++ (i, HRecv sock) :: ths2)) ∧
    up sock net' ∧ rx_pending sock net' = tl.
Proof.
  intros Hh Hs HC Hl Hc Hin Hu Hsf Hup Hp.
  assert (take (Z.to_nat RXBUF_SIZE) (message id u []) = message id u []) as Htake.
  { apply take_ge. rewrite length_message. unfold RXBUF_SIZE, PSC_MAX_RX_MSG_LEN. cbn [length]. lia. }
  edestruct (client_stream_steps (λ _, client_event true) recv_callback hstack sstack listen_sock
    [(chan, message id u [])] tl key net s acc ths1 ths2 i sock C) as (net' & Hstar & Hend);
    [done|done|done|done| |done| | |eexists net', _; split; [exact Hstar|exact Hend]].
  - forall_list. cbn [fst snd]. rewrite length_message. unfold is_u16. cbn [length]. lia.
  - rewrite Hp. unfold stream_of. cbn [mbind list_bind fst snd]. by rewrite app_nil_r.
  - cbn [process]. rewrite Htake. unfold message at 2 4. rewrite app_nil_r.
    fold (message id u (drop (length (message id u [])) (cl_rxbuf C))).
    by rewrite (run_recv_table chan id reg enc u _ _ s sf).
Qed.

(** The handlers do not look at the length of a message: an
    empty message to channel [chan'] executes again, now for [chan'], the setting
    that the previous message left in the receive buffer. *)
Theorem empty_message_repeats chan chan' id reg enc u buf s sf sf' :
  1 ≤ chan ≤ 4 → 1 ≤ chan' ≤ 4 → (id, (reg, enc)) ∈ setting_table → is_u32 u →
  scalefactors s !! Z.to_nat (chan - 1) = Some sf →
  scalefactors s !! Z.to_nat (chan' - 1) = Some sf' →
  ∃ buf', process recv_callback [(chan, message id u []); (chan', [])] buf s =
  Ok (buf', out32 (chan_addr chan' reg) (encode enc (CONVVOLTSTODACBITS s) sf' u)
       (blink (out32 (chan_addr chan reg) (encode enc (CONVVOLTSTODACBITS s) sf u) (blink s)))).
Proof.
  intros Hc Hc' Hin Hu Hsf Hsf'.
  assert (take (Z.to_nat RXBUF_SIZE) (message id u []) = message id u []) as Htake.
  { apply take_ge. rewrite length_message. unfold RXBUF_SIZE, PSC_MAX_RX_MSG_LEN. cbn [length]. lia. }
  set (tl := drop (length (message id u [])) buf). exists (message id u tl).
  assert (message id u [] ++ tl = message id u tl) as Happ
    by (unfold message; by rewrite app_nil_r).
  cbn [process]. rewrite Htake. fold tl. rewrite Happ.
  rewrite (run_recv_table chan id reg enc u tl _ s sf) by done.
  rewrite take_nil. cbn [length app]. rewrite drop_0.
  by rewrite (run_recv_table chan' id reg enc u tl _ _ sf').
Qed.
End end_to_end.

(** ** The boot sequence *)

Section boot.
Context `{Platform, Runtime, FpEnv, !FlashLaws, !EepromLaws}.

Definition si570_read_events : list event :=
  mjoin ((λ r, [I2c0Send 0x55 [r]; I2c0Recv 0x55 1]) <$> [7; 8; 9; 10; 11; 12]).

Definition si570_events : list event :=
  si570_read_events ++ ((λ w, I2c0Send 0x55 [w.1; w.2]) <$> si570_values) ++ si570_read_events.

(** [m] returns, only appends [evs] to the log, and keeps what the recall reads. *)
Definition logs (m : M unit) (evs : psc → list event) : Prop :=
  ∀ s, ∃ s', m s = Ok (tt, s') ∧ events s' = events s ++ evs s ∧
    flash s' = flash s ∧ scalefactors s' = scalefactors s ∧ eeprom s' = eeprom s.

Lemma logs_prog_si570 : logs prog_si570 (λ _, si570_events).
Proof.
  intros s. eexists. split; [reflexivity|]. split; [|by repeat split].
  cbn [events add_event]. rewrite <- !app_assoc. reflexivity.
Qed.

Lemma logs_print : logs print_firmware_version (λ _, []).
Proof.
  assert (∀ a (k : Z → M unit), (∀ v, logs (k v) (λ _, [])) →
    logs (Xil_In32 a ≫= k) (λ _, [])) as Hin.
  { intros a k Hk s. unfold Xil_In32, mbind, M_bind.
    destruct (pl_in32 (u32 a) (pl s)) as [v p].
    destruct (Hk (u32 v) (set_pl (λ _, p) s)) as (s' & E & Hs'). eauto. }
  unfold print_firmware_version. repeat (apply Hin; intros ?).
  intros s. exists s. by rewrite app_nil_r.
Qed.

Definition reg_event (w : Z * Z) : event := Out32 (u32 (XPAR_M_AXI_BASEADDR + w.1)) (u32 w.2).

(** What [main] does before the scheduler starts, given the EEPROM contents. *)
Definition init_events (s : psc) : list event :=
  let b k := ee_mem (eeprom s) (0x10 + k) in
  reg_event (NCO_STEPSIZE_REG, 427853) :: si570_events ++
  I2cSend [0x10] :: (reg_event <$> flavor_writes (b 0) (b 1) (b 2) (b 3)) ++
  (reg_event <$> [(EVR_RESET_REG, 0xFF); (EVR_RESET_REG, 0); (FOFB_IPADDR_REG, 0x0A008E64)]) ++
  ((λ c, Out32 (u32 (chan_addr c FAULT_MASK_REG)) 0x1FEF) <$> [1; 2; 3; 4]).

Lemma run_main_init s :
  ∃ s', main_init s = Ok (tt, s') ∧ events s' = events s ++ init_events s ∧
    flash s' = flash s ∧ scalefactors s' = scalefactors s.
Proof.
  unfold main_init, init_events. cbv zeta.
  destruct (logs_print s) as (s1 & E1 & V1 & F1 & S1 & P1). rewrite app_nil_r in V1.
  rewrite (run_bind _ _ _ _ _ E1), run_out32. set (s2 := out32 _ 427853 s1).
  destruct (logs_prog_si570 s2) as (s3 & E3 & V3 & F3 & S3 & P3).
  rewrite (run_bind _ _ _ _ _ E3).
  destruct (run_flavor s3) as (s4 & E4 & V4 & _ & S4 & F4).
  rewrite (run_bind _ _ _ _ _ E4), !run_out32. cbn [for_range]. rewrite !run_out32.
  eexists. split; [reflexivity|].
  rewrite P3 in V4. change (eeprom s2) with (eeprom s1) in V4. rewrite P1 in V4.
  split; [|by cbn; rewrite F4, S4, F3, S3; cbn; rewrite F1, S1].
  unfold out32 at 1 2 3 4 5 6 7. cbn [events add_event set_pl].
  rewrite V4, V3. unfold s2, out32 at 1. cbn [events add_event set_pl]. rewrite V1.
  rewrite <- !app_assoc. unfold reg_event, chan_addr. cbn [app fmap list_fmap fst snd].
  do 2 f_equal.
Qed.

End boot.
