(* ===== verification/Snapshot.v ===== *)
(** * Snapshot waveforms ([snapshots.c])

    The gateware writes a sample of 40 words every 100 us into a circular buffer
    in DDR memory; a trigger register holds the address of the sample at which the
    trigger came.  Every 100 ms the snapshot task looks for new triggers, waits
    until the samples after the trigger are there, copies the window around the
    trigger as [float] values of one channel, and sends it.  The DMA memory is
    read at one instant (the copy runs in a critical section). *)

From Stdlib Require Import SpecFloat.
From S2P Require Import Prelude Words Floats Machine Regs.

Record TriggerInfo := MkTrig {
  addr : Z;
  addr_last : Z;
  pretrigpts : Z;
  posttrigpts : Z;
  active : Z;
  postdlycnt : Z;
  sendbuf : Z;
  msgID : Z;
  channum : Z;
}.

Record TriggerTypes := MkTriggers {
  usr : list TriggerInfo;
  flt : list TriggerInfo;
  err : list TriggerInfo;
  inj : list TriggerInfo;
  evr : list TriggerInfo;
}.

(** ** Byte order of a message *)

(** The loop of [hton_conv], [n] iterations left: the bytes of one word are
    reversed in place. *)
Fixpoint swap_words (n : nat) (buf : list Z) : res (list Z) :=
  match n with
  | O => Ok buf
  | S n =>
      match buf with
      | a :: b :: c :: d :: tl =>
          match swap_words n tl with
          | Ok tl => Ok (d :: c :: b :: a :: tl)
          | Ub u => Ub u
          end
      | _ => Ub (ub_index 3 (Z.of_nat (length buf)))
      end
  end.

Definition hton_conv (inbuf : list Z) (len : Z) : res (list Z) :=
  swap_words (Z.to_nat ((len + 3) / 4)) inbuf.

(** ** Triggers *)

Definition ProcessTrigger (t : TriggerInfo) : TriggerInfo :=
  let t :=
    if negb (addr t =? addr_last t) && (active t =? 0)
    then MkTrig (addr t) (addr t) (pretrigpts t) (posttrigpts t) 1 0 (sendbuf t) (msgID t) (channum t)
    else t in
  if active t =? 1 then
    if postdlycnt t <? posttrigpts t / 1000
    then MkTrig (addr t) (addr_last t) (pretrigpts t) (posttrigpts t) (active t)
           (u32 (postdlycnt t + 1)) (sendbuf t) (msgID t) (channum t)
    else MkTrig (addr t) (addr_last t) (pretrigpts t) (posttrigpts t) (active t)
           (postdlycnt t) 1 (msgID t) (channum t)
  else t.

Definition set_addr (a : Z) (t : TriggerInfo) : TriggerInfo :=
  MkTrig a (addr_last t) (pretrigpts t) (posttrigpts t) (active t) (postdlycnt t) (sendbuf t)
    (msgID t) (channum t).

(** [InitTriggerInfo] for one entry *)
Definition init_trigger (pre post msg chan : Z) : TriggerInfo := MkTrig 0 0 pre post 0 0 0 msg chan.

Definition InitTriggerInfo : TriggerTypes :=
  let bank pre post msg := (λ i, init_trigger pre post (msg + i) (i + 1)) <$> [0; 1; 2; 3] in
  MkTriggers (bank 50000 50000 MSGUSRCH1) (bank 50000 50000 MSGFLTCH1)
    (bank 50000 50000 MSGERRCH1) (bank 0 8000 MSGINJCH1) (bank 50000 50000 MSGEVRCH1).

Section snapshot.
Context `{Platform, Runtime, FpEnv}.

(** The two lines of [CheckforTriggers] for one trigger. *)
Definition check_one (reg : Z) (t : TriggerInfo) : M TriggerInfo :=
  t ← (if active t =? 0
       then a ← Xil_In32 (XPAR_M_AXI_BASEADDR + reg); mret (set_addr a t)
       else mret t);
  mret (ProcessTrigger t).

Fixpoint check_bank (regs : list Z) (ts : list TriggerInfo) : M (list TriggerInfo) :=
  match regs, ts with
  | r :: regs, t :: ts => t ← check_one r t; ts ← check_bank regs ts; mret (t :: ts)
  | _, _ => mret ts
  end.

Definition CheckforTriggers (trig : TriggerTypes) : M TriggerTypes :=
  u ← check_bank [USR1TRIG_BUFPTR; USR2TRIG_BUFPTR; USR3TRIG_BUFPTR; USR4TRIG_BUFPTR] (usr trig);
  f ← check_bank [FLT1TRIG_BUFPTR; FLT2TRIG_BUFPTR; FLT3TRIG_BUFPTR; FLT4TRIG_BUFPTR] (flt trig);
  e ← check_bank [ERR1TRIG_BUFPTR; ERR2TRIG_BUFPTR; ERR3TRIG_BUFPTR; ERR4TRIG_BUFPTR] (err trig);
  i ← check_bank [INJ1TRIG_BUFPTR; INJ2TRIG_BUFPTR; INJ3TRIG_BUFPTR; INJ4TRIG_BUFPTR] (inj trig);
  v ← check_bank [EVRTRIG_BUFPTR; EVRTRIG_BUFPTR; EVRTRIG_BUFPTR; EVRTRIG_BUFPTR] (evr trig);
  mret (MkTriggers u f e i v).

(** ** Copying samples *)

(** [buf_data[k]] for a pointer to byte address [base] *)
Definition dma_word (ddr : Z → Z) (base k : Z) : Z := u32 (ddr (u32 (base + 4 * k))).

(** One sample of a channel whose words start at offset [off]: ten [float]s. *)
Definition copy_sample (ddr : Z → Z) (b2v : Z) (sf : ScaleFactorType) (off base i : Z) : list Z :=
  let raw k := f_of_int (s32 (dma_word ddr base (i + k))) in
  let dacbits k := bits_of_float
    (fmul (fmul (raw k) (float_of_bits b2v)) (float_of_bits (dac_dccts sf))) in
  let bits16 k field := bits_of_float
    (f_of_d (dmul (dmul (d_of_f (raw k)) CONV16BITSTOVOLTS) (d_of_f (float_of_bits (field sf))))) in
  [ bits_of_float (f_of_int (dma_word ddr base (i + 0)));
    bits_of_float (f_of_int (dma_word ddr base (i + 1)));
    dacbits (off + 0); dacbits (off + 1);
    bits16 (off + 2) dac_dccts; bits16 (off + 3) vout; bits16 (off + 4) ignd;
    bits16 (off + 5) spare; bits16 (off + 6) regulator; bits16 (off + 7) error ].

(** [for (i=0; i<numwords; i=i+40)]: the samples one after the other *)
Definition copy_samples (chan off base numwords : Z) : M (list Z) :=
  if 2 ^ 32 - 40 <? numwords then undefined ub_nonterm
  else if numwords =? 0 then mret []
  else
    ddr ← gets dma_memory;
    b2v ← gets CONVDACBITSTOVOLTS;
    sf ← get_scalefactor (chan - 1);
    mret (mjoin ((λ k, copy_sample ddr b2v sf off base (40 * k)) <$>
                 seqZ 0 ((numwords + 39) / 40))).

(** The words appended at the message pointer. *)
Definition CopyDataChan (base numwords chan : Z) : M (list Z) :=
  switch chan
    [ (1, copy_samples chan 2 base numwords);
      (2, copy_samples chan 10 base numwords);
      (3, copy_samples chan 18 base numwords);
      (4, copy_samples chan 26 base numwords) ]
    (mret []).

Definition BUFSTART : Z := 0x10000000.
Definition BUFLEN : Z := 0x01E84800.
Definition BUFSTEPBYTES : Z := 0xA0.
Definition BUFSTEPWORDS : Z := BUFSTEPBYTES / 4.
Definition WORDSPERSAMPLE : Z := 40.

(** The words of the waveform. *)
Definition dma_words (trig : TriggerInfo) : M (list Z) :=
  let startaddr := u32 (addr trig - u32 (pretrigpts trig * BUFSTEPBYTES)) in
  let stopaddr := u32 (addr trig + u32 (posttrigpts trig * BUFSTEPBYTES)) in
  if startaddr <? 0x10000000 then
    let presecnumwords := Z.shiftr (u32 (addr trig - BUFSTART)) 2 in
    let prefirstnumwords := u32 (pretrigpts trig * WORDSPERSAMPLE - presecnumwords) in
    let startaddr := u32 (BUFSTART + BUFLEN - u32 (prefirstnumwords * 4)) in
    w1 ← CopyDataChan startaddr prefirstnumwords (channum trig);
    w2 ← CopyDataChan BUFSTART presecnumwords (channum trig);
    w3 ← CopyDataChan (addr trig) (u32 (posttrigpts trig * BUFSTEPWORDS)) (channum trig);
    mret (w1 ++ w2 ++ w3)
  else if BUFSTART + BUFLEN <? stopaddr then
    let postfirstnumwords := Z.shiftr (u32 (BUFSTART + BUFLEN - addr trig)) 2 in
    let postsecnumwords := u32 (posttrigpts trig * WORDSPERSAMPLE - postfirstnumwords) in
    w1 ← CopyDataChan startaddr (u32 (pretrigpts trig * BUFSTEPWORDS)) (channum trig);
    w2 ← CopyDataChan (addr trig) postfirstnumwords (channum trig);
    w3 ← CopyDataChan BUFSTART postsecnumwords (channum trig);
    mret (w1 ++ w2 ++ w3)
  else
    CopyDataChan startaddr (u32 ((pretrigpts trig + posttrigpts trig) * BUFSTEPWORDS))
      (channum trig).

(** The message buffer afterwards; writing behind it is undefined. *)
Definition ReadDMABuf (msg : list Z) (trig : TriggerInfo) : M (list Z) :=
  ws ← dma_words trig;
  if Z.of_nat (length msg) <? 4 * Z.of_nat (length ws)
  then undefined (ub_index (Z.of_nat (length ws)) (Z.of_nat (length msg) / 4))
  else mret (bytes_of_words ws ++ drop (4 * length ws) msg).

Definition SendWfmData (msg : list Z) (trig : TriggerInfo) : M (list Z * TriggerInfo) :=
  let trig := MkTrig (addr trig) (addr_last trig) (pretrigpts trig) (posttrigpts trig) 0
                (postdlycnt trig) 0 (msgID trig) (channum trig) in
  msg ← ReadDMABuf msg trig;
  msg ← lift (hton_conv msg MSGWFMLEN);
  psc_send_event (msgID trig) (take (Z.to_nat MSGWFMLEN) msg);;
  mret (msg, trig).

(** ** Statistics *)

(** [SnapTrigData]: four words *)
Definition trig_stats (buf_reg ts_s_reg ts_ns_reg act : Z) : M (list Z) :=
  lataddr ← Xil_In32 (XPAR_M_AXI_BASEADDR + buf_reg);
  ts_s ← Xil_In32 (XPAR_M_AXI_BASEADDR + ts_s_reg);
  ts_ns ← Xil_In32 (XPAR_M_AXI_BASEADDR + ts_ns_reg);
  mret [lataddr; act; ts_s; ts_ns].

Definition active_of (ts : list TriggerInfo) (i : nat) : Z :=
  match ts !! i with Some t => active t | None => 0 end.

(** The iterations of the loop over the channels: the words of the five arrays. *)
Fixpoint stats_loop (n i : nat) (trig : TriggerTypes)
    : M (list Z * list Z * list Z * list Z * list Z) :=
  match n with
  | O => mret ([], [], [], [], [])
  | S n =>
      let off := Z.of_nat i * 0x10 in
      u ← trig_stats (USR1TRIG_BUFPTR + off) (USR1TRIG_TS_S + off) (USR1TRIG_TS_NS + off)
            (active_of (usr trig) i);
      f ← trig_stats (FLT1TRIG_BUFPTR + off) (FLT1TRIG_TS_S + off) (FLT1TRIG_TS_NS + off)
            (active_of (flt trig) i);
      e ← trig_stats (ERR1TRIG_BUFPTR + off) (ERR1TRIG_TS_S + off) (ERR1TRIG_TS_NS + off)
            (active_of (err trig) i);
      j ← trig_stats (INJ1TRIG_BUFPTR + off) (INJ1TRIG_TS_S + off) (INJ1TRIG_TS_NS + off)
            (active_of (inj trig) i);
      v ← trig_stats EVRTRIG_BUFPTR EVRTRIG_TS_S EVRTRIG_TS_NS (active_of (evr trig) 3);
      r ← stats_loop n (S i) trig;
      let '(us, fs, es, js, vs) := r in
      mret (u ++ us, f ++ fs, e ++ es, j ++ js, v ++ vs)
  end.

(** [msg] is the static message buffer. *)
Definition SendSnapShotStats (msg : list Z) (trig : TriggerTypes) : M (list Z) :=
  cur_bufaddr ← Xil_In32 (XPAR_M_AXI_BASEADDR + SNAPSHOT_ADDRPTR);
  totalfacnt ← Xil_In32 (XPAR_M_AXI_BASEADDR + SNAPSHOT_TOTALTRIGS);
  r ← stats_loop 4 0 trig;
  let '(us, fs, es, js, vs) := r in
  let snapstats := bytes_of_words ([cur_bufaddr; totalfacnt] ++ us ++ fs ++ es ++ js ++ vs) in
  let msg := snapstats ++ drop (length snapstats) msg in
  msg ← lift (hton_conv msg (Z.of_nat (length snapstats)));
  psc_send_event MSGWFMSTATS (take (Z.to_nat MSGWFMSTATSLEN) msg);;
  mret msg.

(** ** The task *)

(** [if (t.sendbuf == 1) SendWfmData(buf, &t)] *)
Definition send_if_ready (buf : list Z) (t : TriggerInfo) : M (list Z * TriggerInfo) :=
  if sendbuf t =? 1 then SendWfmData buf t else mret (buf, t).

Definition get_trigger (ts : list TriggerInfo) (i : nat) : M TriggerInfo :=
  lift (match ts !! i with Some t => Ok t | None => Ub (ub_index (Z.of_nat i) 4) end).
Definition get_buffer (bs : list (list Z)) (i : nat) : M (list Z) :=
  lift (match bs !! i with Some b => Ok b | None => Ub (ub_index (Z.of_nat i) 4) end).

(** One entry of a bank and its message buffer. *)
Definition send_entry (i : nat) (ts : list TriggerInfo) (bufs : list (list Z))
    : M (list TriggerInfo * list (list Z)) :=
  t ← get_trigger ts i;
  b ← get_buffer bufs i;
  r ← send_if_ready b t;
  mret (<[i := r.2]> ts, <[i := r.1]> bufs).

(** The local and static variables of the task. *)
Record snap_state := MkSnap {
  trigs : TriggerTypes;
  usr_buf : list (list Z);
  flt_buf : list (list Z);
  err_buf : list (list Z);
  inj_buf : list (list Z);
  evr_buf : list (list Z);
  stats_buf : list Z;
}.

(** The body of [for (int i = 0; i < 4; ++i)] *)
Definition send_row (i : nat) (st : snap_state) : M snap_state :=
  let t := trigs st in
  u ← send_entry i (usr t) (usr_buf st);
  f ← send_entry i (flt t) (flt_buf st);
  e ← send_entry i (err t) (err_buf st);
  j ← send_entry i (inj t) (inj_buf st);
  v ← send_entry i (evr t) (evr_buf st);
  mret (MkSnap (MkTriggers u.1 f.1 e.1 j.1 v.1) u.2 f.2 e.2 j.2 v.2 (stats_buf st)).

(** One iteration of [snapshot_push]. *)
Definition snapshot_tick (st : snap_state) : M snap_state :=
  t ← CheckforTriggers (trigs st);
  let st := MkSnap t (usr_buf st) (flt_buf st) (err_buf st) (inj_buf st) (evr_buf st)
              (stats_buf st) in
  st ← send_row 0 st;
  st ← send_row 1 st;
  st ← send_row 2 st;
  st ← send_row 3 st;
  stats ← SendSnapShotStats (stats_buf st) (trigs st);
  mret (MkSnap (trigs st) (usr_buf st) (flt_buf st) (err_buf st) (inj_buf st) (evr_buf st) stats).

(** The state [snapshot_push] starts with: static buffers are zero. *)
Definition snapshot_start : snap_state :=
  let bank := replicate 4 (replicate (Z.to_nat MSGWFMLEN) 0) in
  MkSnap InitTriggerInfo bank bank bank bank bank (replicate (Z.to_nat MSGWFMSTATSLEN) 0).
End snapshot.
