(* ===== verification/SnapshotSpec.v ===== *)
(** * What the snapshot task sends

    The copied words are the window of the circular buffer around the trigger,
    in the order of time, whether or not the window wraps around the end of the
    buffer; the message is that window in network byte order.  A trigger is sent
    once, after the samples behind it have been recorded. *)

From S2P Require Import Prelude Words Floats Machine Regs Snapshot.

(** ** Byte order *)

Lemma swap_words_htonl ws tl :
  swap_words (length ws) (bytes_of_words ws ++ tl) = Ok (bytes_of_words (htonl <$> ws) ++ tl).
Proof.
  induction ws as [|w ws IH]; [done|]. rewrite fmap_cons, !bytes_of_words_cons, le_bytes_htonl.
  cbn [length swap_words le_bytes rev app]. by rewrite IH.
Qed.

Lemma bytes_are_words bs :
  Forall is_u8 bs → (4 | Z.of_nat (length bs)) →
  ∃ ws, bs = bytes_of_words ws ∧ Forall is_u32 ws ∧ (4 * length ws)%nat = length bs.
Proof.
  intros Hu [k Hk]. assert (∃ n, length bs = (4 * n)%nat) as [n Hn] by (exists (Z.to_nat k); lia).
  clear Hk. revert bs Hu Hn. induction n as [|n IH]; intros bs Hu Hn.
  - exists []. by destruct bs.
  - destruct bs as [|a [|b [|c [|d bs]]]]; cbn in Hn; try lia.
    repeat (apply Forall_cons in Hu as [? Hu]).
    destruct (IH bs) as (ws & -> & Hws & Hl); [done|lia|].
    assert (Forall is_u8 [a; b; c; d]) as H4 by (forall_list; done).
    exists (le_word [a; b; c; d] :: ws). split.
    + rewrite bytes_of_words_cons. by rewrite (le_bytes_word _ H4 : le_bytes 4 _ = _).
    + split; [|cbn in *; lia]. constructor; [exact (le_word_range _ H4)|done].
Qed.

(** [hton_conv] turns every 32-bit word of the first [len]
    bytes into network byte order and touches nothing behind them, and a second
    application restores the buffer. *)
Theorem hton_conv_network_order ws tl :
  Forall is_u32 ws →
  hton_conv (bytes_of_words ws ++ tl) (4 * Z.of_nat (length ws))
  = Ok (bytes_of_words (htonl <$> ws) ++ tl) ∧
  hton_conv (bytes_of_words (htonl <$> ws) ++ tl) (4 * Z.of_nat (length ws))
  = Ok (bytes_of_words ws ++ tl).
Proof.
  intros Hws. unfold hton_conv.
  replace (Z.to_nat ((4 * Z.of_nat (length ws) + 3) / 4)) with (length ws) by zmod_lia.
  split; [apply swap_words_htonl|].
  rewrite <- (length_fmap htonl ws) at 1. rewrite swap_words_htonl. do 2 f_equal.
  rewrite <- list_fmap_compose. f_equal. rewrite <- (list_fmap_id ws) at 2.
  apply list_fmap_ext. intros i x Hx. unfold compose. rewrite htonl_htonl.
  apply u32_id. by eapply Forall_lookup_1.
Qed.

(** ** The window *)

(** Addresses and counts that fit into 32 bits. *)
Ltac u32_simpl :=
  repeat match goal with
  | |- context [u32 ?x] => rewrite (u32_id x) by (unfold is_u32; lia)
  end.

Section window.
Context `{Platform, Runtime, FpEnv}.

(** Samples of the circular buffer. *)
Definition NSAMPLES : Z := 200000.

(** The channel's words in a sample. *)
Definition chan_offset (chan : Z) : Z := 8 * chan - 6.

(** Sample [j] of the buffer as the ten [float]s of a message. *)
Definition sample (s : psc) (sf : ScaleFactorType) (chan j : Z) : list Z :=
  copy_sample (dma_memory s) (CONVDACBITSTOVOLTS s) sf (chan_offset chan) BUFSTART (40 * j).

(** The window from [pre] samples before to [post] samples after sample [q], in the
    order of time. *)
Definition window (s : psc) (sf : ScaleFactorType) (chan q pre post : Z) : list Z :=
  mjoin ((λ k, sample s sf chan ((q + k) mod NSAMPLES)) <$> seqZ (- pre) (pre + post)).

Lemma copy_sample_base p b2v sf off q k :
  copy_sample p b2v sf off (BUFSTART + 160 * q) (40 * k) =
  copy_sample p b2v sf off BUFSTART (40 * (q + k)).
Proof.
  unfold copy_sample, dma_word.
  assert (∀ x, BUFSTART + 160 * q + 4 * (40 * k + x) = BUFSTART + 4 * (40 * (q + k) + x)) as E
    by (intros; lia).
  by rewrite !E.
Qed.

Lemma run_CopyDataChan chan q n s sf base numwords :
  1 ≤ chan ≤ 4 → scalefactors s !! Z.to_nat (chan - 1) = Some sf →
  base = BUFSTART + 160 * q → numwords = 40 * n → 0 ≤ n ≤ NSAMPLES →
  CopyDataChan base numwords chan s = Ok (mjoin (sample s sf chan <$> seqZ q n), s).
Proof.
  intros Hc Hsf -> -> Hn. unfold NSAMPLES in Hn.
  assert (copy_samples chan (chan_offset chan) (BUFSTART + 160 * q) (40 * n) s =
    Ok (mjoin (sample s sf chan <$> seqZ q n), s)) as Hr.
  { unfold copy_samples. rewrite (proj2 (Z.ltb_ge _ _)) by lia.
    destruct (Z.eqb_spec (40 * n) 0) as [E|E].
    { replace n with 0 by lia. done. }
    rewrite (run_bind (gets dma_memory) _ s (dma_memory s) s) by done.
    rewrite (run_bind (gets _) _ s (CONVDACBITSTOVOLTS s) s) by done.
    rewrite (run_bind _ _ _ _ _ (run_get_scalefactor (chan - 1) s sf ltac:(lia) Hsf)).
    replace ((40 * n + 39) / 40) with n by zmod_lia. unfold mret, M_ret. do 3 f_equal.
    replace (seqZ q n) with (Z.add q <$> seqZ 0 n) by (rewrite fmap_add_seqZ; f_equal; lia).
    rewrite <- list_fmap_compose. apply list_fmap_ext. intros i k _. apply copy_sample_base. }
  unfold CopyDataChan. cbn [switch].
  destruct (Z.eqb_spec chan 1) as [->|]; [exact Hr|].
  destruct (Z.eqb_spec chan 2) as [->|]; [exact Hr|].
  destruct (Z.eqb_spec chan 3) as [->|]; [exact Hr|].
  destruct (Z.eqb_spec chan 4) as [->|]; [exact Hr|]. lia.
Qed.

(** A range of samples inside one turn of the buffer. *)
Lemma mod_seqZ x n c :
  0 ≤ x - NSAMPLES * c → x - NSAMPLES * c + n ≤ NSAMPLES →
  (λ k, k mod NSAMPLES) <$> seqZ x n = seqZ (x - NSAMPLES * c) n.
Proof.
  intros Hlo Hhi. replace (seqZ x n) with (Z.add (NSAMPLES * c) <$> seqZ (x - NSAMPLES * c) n)
    by (rewrite fmap_add_seqZ; f_equal; lia).
  rewrite <- list_fmap_compose. rewrite <- (list_fmap_id (seqZ _ n)) at 2.
  apply list_fmap_ext. intros i k Hk. apply lookup_seqZ in Hk as [-> Hi]. cbn.
  unfold NSAMPLES in *. rewrite Z.mul_comm, Z.add_comm, Z.mod_add by lia. apply Z.mod_small. lia.
Qed.

Lemma window_seq s sf chan q pre post :
  window s sf chan q pre post =
  mjoin (sample s sf chan <$> ((λ k, k mod NSAMPLES) <$> seqZ (q - pre) (pre + post))).
Proof.
  unfold window. f_equal. replace (seqZ (q - pre) (pre + post))
    with (Z.add q <$> seqZ (- pre) (pre + post)) by (rewrite fmap_add_seqZ; f_equal; lia).
  by rewrite <- !list_fmap_compose.
Qed.

(** A trigger whose address is the one of sample [q]. *)
Definition trig_at (q : Z) (t : TriggerInfo) : Prop :=
  addr t = BUFSTART + 160 * q ∧ 0 ≤ q < NSAMPLES ∧ 1 ≤ channum t ≤ 4 ∧
  0 ≤ pretrigpts t ∧ 0 ≤ posttrigpts t ∧ pretrigpts t + posttrigpts t ≤ NSAMPLES.

Lemma run_dma_words q t s sf :
  trig_at q t → scalefactors s !! Z.to_nat (channum t - 1) = Some sf →
  dma_words t s = Ok (window s sf (channum t) q (pretrigpts t) (posttrigpts t), s).
Proof.
  intros (Ha & Hq & Hc & Hpre & Hpost & Hsum) Hsf.
  unfold dma_words, BUFSTEPBYTES, BUFSTEPWORDS, WORDSPERSAMPLE. rewrite Ha, window_seq.
  unfold BUFSTEPBYTES. change (0xA0 / 4) with 40.
  set (pre := pretrigpts t) in *. set (post := posttrigpts t) in *. set (c := channum t) in *.
  assert (BUFSTART = 0x10000000) as HB by done. assert (BUFLEN = 160 * NSAMPLES) as HL by done.
  assert (NSAMPLES = 200000) as HN by done.
  rewrite !Z.shiftr_div_pow2 by lia. change (2 ^ 2) with 4. cbv zeta. u32_simpl.
  replace ((BUFSTART + 160 * q - BUFSTART) / 4) with (40 * q) by (clear; zmod_lia).
  replace ((BUFSTART + BUFLEN - (BUFSTART + 160 * q)) / 4) with (40 * (NSAMPLES - q))
    by (rewrite HL; clear; zmod_lia). u32_simpl.
  pose proof (λ b w q n, run_CopyDataChan c q n s sf b w Hc Hsf) as Hcopy.
  destruct (Z.ltb_spec (BUFSTART + 160 * q - pre * 160) 0x10000000) as [Hw|Hnw].
  - u32_simpl.
    rewrite (run_bind _ _ s (mjoin (sample s sf c <$> seqZ (q - pre + NSAMPLES) (pre - q))) s) by (apply Hcopy; lia).
    rewrite (run_bind _ _ s (mjoin (sample s sf c <$> seqZ 0 q)) s) by (apply Hcopy; lia).
    rewrite (run_bind _ _ s (mjoin (sample s sf c <$> seqZ q post)) s) by (apply Hcopy; lia).
    unfold mret, M_ret. do 2 f_equal.
    replace (pre + post) with ((pre - q) + (q + post)) by lia.
    rewrite seqZ_app by lia. rewrite fmap_app, (mod_seqZ _ _ (-1)), (mod_seqZ _ _ 0) by lia.
    rewrite fmap_app, join_app.
    replace (q - pre + (pre - q) - NSAMPLES * 0) with 0 by lia.
    rewrite seqZ_app, fmap_app, join_app by lia.
    replace (q - pre - NSAMPLES * -1) with (q - pre + NSAMPLES) by lia. done.
  - destruct (Z.ltb_spec (BUFSTART + BUFLEN) (BUFSTART + 160 * q + post * 160)) as [Hw|Hnw2].
    + u32_simpl.
      rewrite (run_bind _ _ s (mjoin (sample s sf c <$> seqZ (q - pre) pre)) s) by (apply Hcopy; lia).
      rewrite (run_bind _ _ s (mjoin (sample s sf c <$> seqZ q (NSAMPLES - q))) s) by (apply Hcopy; lia).
      rewrite (run_bind _ _ s (mjoin (sample s sf c <$> seqZ 0 (post - (NSAMPLES - q)))) s) by (apply Hcopy; lia).
      unfold mret, M_ret. do 2 f_equal.
      replace (pre + post) with ((pre + (NSAMPLES - q)) + (post - (NSAMPLES - q))) by lia.
      rewrite seqZ_app by lia. rewrite fmap_app, (mod_seqZ _ _ 0), (mod_seqZ _ _ 1) by lia.
      rewrite seqZ_app by lia. rewrite !fmap_app, !join_app, <- app_assoc.
      replace (q - pre - NSAMPLES * 0) with (q - pre) by lia.
      replace (q - pre + pre) with q by lia.
      replace (q - pre + (pre + (NSAMPLES - q)) - NSAMPLES * 1) with 0 by lia. done.
    + rewrite (Hcopy _ _ (q - pre) (pre + post)) by lia.
      rewrite (mod_seqZ _ _ 0) by lia. by replace (q - pre - NSAMPLES * 0) with (q - pre) by lia.
Qed.

Lemma length_copy_sample p b2v sf off base i : length (copy_sample p b2v sf off base i) = 10%nat.
Proof. done. Qed.

Lemma length_window s sf chan q pre post :
  0 ≤ pre + post → length (window s sf chan q pre post) = Z.to_nat (10 * (pre + post)).
Proof.
  intros Hn. unfold window.
  assert (∀ l : list Z, length (mjoin ((λ k, sample s sf chan ((q + k) mod NSAMPLES)) <$> l))
    = (10 * length l)%nat) as ->.
  { induction l as [|k l IH]; [done|]. rewrite fmap_cons.
    change (mjoin (?x :: ?y)) with (x ++ mjoin y). rewrite length_app, IH. unfold sample. rewrite length_copy_sample. cbn [length]. lia. }
  rewrite length_seqZ. lia.
Qed.

(** C6: for a trigger at any sample of the circular buffer, the copied
    words are the window of [pretrigpts] samples before and [posttrigpts] samples
    from the trigger on, in the order of time, ten floats per sample: the cases of
    a window that wraps before, after, or not at all agree with one circular
    definition, and the message buffer behind the window is untouched. *)
Theorem snapshot_window q t s sf msg :
  trig_at q t → scalefactors s !! Z.to_nat (channum t - 1) = Some sf →
  40 * (pretrigpts t + posttrigpts t) ≤ Z.of_nat (length msg) →
  let w := window s sf (channum t) q (pretrigpts t) (posttrigpts t) in
  ReadDMABuf msg t s = Ok (bytes_of_words w ++ drop (4 * length w) msg, s) ∧
  Z.of_nat (length w) = 10 * (pretrigpts t + posttrigpts t).
Proof.
  intros Ht Hsf Hl w. pose proof Ht as (_ & _ & _ & Hpre & Hpost & _).
  assert (Z.of_nat (length w) = 10 * (pretrigpts t + posttrigpts t)) as Hw
    by (unfold w; rewrite length_window; lia).
  split; [|done]. unfold ReadDMABuf. rewrite (run_bind _ _ _ _ _ (run_dma_words q t s sf Ht Hsf)).
  fold w. by rewrite (proj2 (Z.ltb_ge _ _)) by lia.
Qed.

Lemma swap_words_length n buf :
  (4 * n ≤ length buf)%nat → ∃ buf', swap_words n buf = Ok buf' ∧ length buf' = length buf.
Proof.
  revert buf. induction n as [|n IH]; intros buf Hl; cbn [swap_words]; [eauto|].
  destruct buf as [|a [|b [|c [|d tl]]]]; cbn in Hl; try lia.
  destruct (IH tl) as (tl' & -> & Htl); [lia|]. eexists. split; [done|]. cbn. lia.
Qed.

Lemma hton_conv_length buf len :
  0 ≤ len → (len + 3) / 4 * 4 ≤ Z.of_nat (length buf) →
  ∃ buf', hton_conv buf len = Ok buf' ∧ length buf' = length buf.
Proof.
  intros Hlen Hl. apply swap_words_length.
  assert (0 ≤ (len + 3) / 4) by (apply Z.div_pos; lia). lia.
Qed.

(** The trigger after its waveform has been sent. *)
Definition sent_trigger (t : TriggerInfo) : TriggerInfo :=
  MkTrig (addr t) (addr_last t) (pretrigpts t) (posttrigpts t) 0 (postdlycnt t) 0
    (msgID t) (channum t).

Lemma run_SendWfmData q t s sf msg ws :
  trig_at q t → scalefactors s !! Z.to_nat (channum t - 1) = Some sf →
  Z.of_nat (length msg) = MSGWFMLEN → pretrigpts t + posttrigpts t ≤ 100000 →
  let w := window s sf (channum t) q (pretrigpts t) (posttrigpts t) in
  drop (4 * length w) msg = bytes_of_words ws →
  let msg' := bytes_of_words (htonl <$> w ++ ws) in
  SendWfmData msg t s =
    Ok ((msg', sent_trigger t), add_event (PscSend (msgID t) msg') s) ∧
  Z.of_nat (length msg') = MSGWFMLEN.
Proof.
  intros Ht Hsf Hl Hsum w Hws msg'. pose proof Ht as (_ & _ & _ & Hpre & Hpost & _).
  assert (MSGWFMLEN = 4000000) as HM by done.
  assert (Z.of_nat (length w) = 10 * (pretrigpts t + posttrigpts t)) as Hw
    by (unfold w; rewrite length_window; lia).
  assert (length ws = (Z.to_nat 1000000 - length w)%nat) as Hlw.
  { apply (f_equal length) in Hws. rewrite length_drop, length_bytes_of_words in Hws. lia. }
  assert (Z.of_nat (length msg') = MSGWFMLEN) as Hlm.
  { unfold msg'. rewrite length_bytes_of_words, length_fmap, length_app. lia. }
  split; [|done]. unfold SendWfmData. cbv zeta. fold (sent_trigger t).
  assert (ReadDMABuf msg (sent_trigger t) s = Ok (bytes_of_words (w ++ ws), s)) as Hr.
  { unfold ReadDMABuf. rewrite (run_bind _ _ _ _ _ (run_dma_words q (sent_trigger t) s sf Ht Hsf)).
    fold w. rewrite (proj2 (Z.ltb_ge _ _)) by (change (window _ _ _ _ _ _) with w; lia).
    change (window s sf (channum (sent_trigger t)) q (pretrigpts (sent_trigger t))
      (posttrigpts (sent_trigger t))) with w. by rewrite Hws, bytes_of_words_app. }
  rewrite (run_bind _ _ _ _ _ Hr).
  assert (hton_conv (bytes_of_words (w ++ ws)) MSGWFMLEN = Ok msg') as Hc.
  { unfold hton_conv. replace (Z.to_nat ((MSGWFMLEN + 3) / 4)) with (length (w ++ ws)).
    - pose proof (swap_words_htonl (w ++ ws) []) as E. by rewrite !app_nil_r in E.
    - rewrite length_app, HM. change ((4000000 + 3) / 4) with 1000000. lia. }
  rewrite (run_bind _ _ s msg' s) by (unfold lift; by rewrite Hc).
  rewrite take_ge by lia. done.
Qed.

(** C28: a ready trigger sends one message of MSGWFMLEN bytes with the
    trigger's identifier: the window in network byte order, then the rest of the
    message buffer; the trigger is idle afterwards. *)
Theorem waveform_message q t s sf msg ws :
  trig_at q t → scalefactors s !! Z.to_nat (channum t - 1) = Some sf →
  Z.of_nat (length msg) = MSGWFMLEN → pretrigpts t + posttrigpts t ≤ 100000 →
  let w := window s sf (channum t) q (pretrigpts t) (posttrigpts t) in
  drop (4 * length w) msg = bytes_of_words ws →
  let msg' := bytes_of_words (htonl <$> w ++ ws) in
  SendWfmData msg t s =
    Ok ((msg', sent_trigger t), add_event (PscSend (msgID t) msg') s) ∧
  Z.of_nat (length msg') = MSGWFMLEN.
Proof. apply run_SendWfmData. Qed.
End window.

(** ** The trigger state machine *)

Section latency.
Context (t : TriggerInfo).
Context (Hidle : active t = 0) (Hsend : sendbuf t = 0) (Hnew : addr t ≠ addr_last t)
  (Hpost : 0 ≤ posttrigpts t < 2 ^ 32).

(** The trigger [k] checks after its detection. *)
Definition detected (k sb : Z) : TriggerInfo :=
  MkTrig (addr t) (addr t) (pretrigpts t) (posttrigpts t) 1 k sb (msgID t) (channum t).

Lemma process_waiting k :
  0 ≤ k < posttrigpts t / 1000 → ProcessTrigger (detected k 0) = detected (k + 1) 0.
Proof.
  intros Hk. unfold ProcessTrigger, detected. cbn. rewrite Z.eqb_refl. cbn.
  rewrite (proj2 (Z.ltb_lt _ _)) by lia. rewrite u32_id; [done|].
  unfold is_u32. zmod_lia.
Qed.

Lemma process_ready sb : ProcessTrigger (detected (posttrigpts t / 1000) sb)
  = detected (posttrigpts t / 1000) 1.
Proof.
  unfold ProcessTrigger, detected. cbn. rewrite Z.eqb_refl. cbn.
  by rewrite (proj2 (Z.ltb_ge _ _)) by lia.
Qed.

Lemma process_detect :
  ProcessTrigger t =
  if 0 <? posttrigpts t / 1000 then detected 1 0 else detected 0 1.
Proof.
  unfold ProcessTrigger, detected. rewrite (proj2 (Z.eqb_neq (addr t) (addr_last t)) Hnew).
  rewrite Hidle, Hsend. cbn. by destruct (0 <? posttrigpts t / 1000).
Qed.

Lemma process_iter (k : nat) :
  (1 ≤ k)%nat → Z.of_nat k ≤ posttrigpts t / 1000 →
  Nat.iter k ProcessTrigger t = detected (Z.of_nat k) 0.
Proof.
  intros Hk. induction k as [|k IH]; [lia|]. intros Hle.
  change (Nat.iter (S k) ProcessTrigger t) with (ProcessTrigger (Nat.iter k ProcessTrigger t)).
  destruct k as [|k].
  - change (Nat.iter 0 ProcessTrigger t) with t. rewrite process_detect. by rewrite (proj2 (Z.ltb_lt _ _)) by lia.
  - rewrite IH by lia. rewrite process_waiting by lia. f_equal. lia.
Qed.
End latency.

(** C37: a new trigger is sent once its post-trigger samples are there: with
    a check every 100 ms (1000 samples), the send flag is not set during the
    [posttrigpts/1000] checks from the detection on, it is set by the next one,
    for the address of the trigger; and after the transmission the same address does
    not trigger again. *)
Theorem trigger_latency t :
  active t = 0 → sendbuf t = 0 → addr t ≠ addr_last t → 0 ≤ posttrigpts t < 2 ^ 32 →
  let d := Z.to_nat (posttrigpts t / 1000) in
  (∀ k, (1 ≤ k ≤ d)%nat →
     sendbuf (Nat.iter k ProcessTrigger t) = 0 ∧ active (Nat.iter k ProcessTrigger t) = 1) ∧
  (let t' := Nat.iter (S d) ProcessTrigger t in
   sendbuf t' = 1 ∧ active t' = 1 ∧ addr t' = addr t ∧
   ProcessTrigger (sent_trigger t') = sent_trigger t').
Proof.
  intros Hidle Hsend Hnew Hpost d.
  assert (0 ≤ posttrigpts t / 1000) as Hd by (apply Z.div_pos; lia). split.
  - intros k Hk. by rewrite (process_iter t Hidle Hsend Hnew Hpost) by lia.
  - assert (Nat.iter (S d) ProcessTrigger t = detected t (posttrigpts t / 1000) 1) as ->.
    { change (Nat.iter (S d) ProcessTrigger t) with (ProcessTrigger (Nat.iter d ProcessTrigger t)).
      destruct (decide (d = 0%nat)) as [H0|H0].
      - rewrite H0. change (Nat.iter 0 ProcessTrigger t) with t. rewrite process_detect by done.
        replace (posttrigpts t / 1000) with 0 by lia. done.
      - rewrite (process_iter t Hidle Hsend Hnew Hpost) by lia.
        unfold d. rewrite Z2Nat.id by done. apply process_ready. }
    cbn [sendbuf active addr detected]. split_and!; try done.
    unfold ProcessTrigger, sent_trigger, detected. cbn. by rewrite Z.eqb_refl.
Qed.
