(* ===== verification/SadataPush.v ===== *)
(** * The 10 Hz data message ([sadata.c], [sadata.h])

    Every 95 ms [sadata_push] reads the status registers of the controller and of
    the four channels, converts them to engineering units and sends them as message
    31.  The structures are translated field by field; the words of a field that the
    code never assigns are those of the uninitialised local variable. *)

From Stdlib Require Import SpecFloat.
From S2P Require Import Prelude Words Floats Machine Regs Sadata Qspi Snapshot SnapshotSpec.

(** ** The structures *)

Record SAdataChan := MkSAdataChan {
  sa_dcct1 : Z; sa_dcct1_offset : Z; sa_dcct1_gain : Z; sa_dcct2 : Z; sa_dcct2_offset : Z;
  sa_dcct2_gain : Z; sa_dacmon : Z; sa_dacmon_offset : Z; sa_dacmon_gain : Z; sa_volt : Z;
  sa_volt_offset : Z; sa_volt_gain : Z; sa_gnd : Z; sa_gnd_offset : Z; sa_gnd_gain : Z;
  sa_spare : Z; sa_spare_offset : Z; sa_spare_gain : Z; sa_reg : Z; sa_reg_offset : Z;
  sa_reg_gain : Z; sa_error : Z; sa_error_offset : Z; sa_error_gain : Z; sa_dac_setpt : Z;
  sa_dac_setpt_offset : Z; sa_dac_setpt_gain : Z; sa_dac_rampactive : Z; sa_ovc1_thresh : Z;
  sa_ovc2_thresh : Z; sa_ovv_thresh : Z; sa_err1_thresh : Z; sa_err2_thresh : Z;
  sa_ignd_thresh : Z; sa_ovc1_cntlim : Z; sa_ovc2_cntlim : Z; sa_ovv_cntlim : Z;
  sa_err1_cntlim : Z; sa_err2_cntlim : Z; sa_ignd_cntlim : Z; sa_dcct_cntlim : Z;
  sa_flt1_cntlim : Z; sa_flt2_cntlim : Z; sa_flt3_cntlim : Z; sa_on_cntlim : Z;
  sa_heartbeat_cntlim : Z; sa_fault_clear : Z; sa_fault_mask : Z; sa_digout_on1 : Z;
  sa_digout_on2 : Z; sa_digout_reset : Z; sa_digout_spare : Z; sa_digout_park : Z; sa_digin : Z;
  sa_faults_live : Z; sa_faults_latched : Z; sa_sf_ampspersec : Z; sa_sf_dac_dccts : Z;
  sa_sf_vout : Z; sa_sf_ignd : Z; sa_sf_spare : Z; sa_sf_regulator : Z; sa_sf_error : Z;
  sa_dac_setpt_raw : Z; sa_fofb_dacsetpt : Z;
  sa_rsvd : list Z;
}.

Record SAdataMsg := MkSAdataMsg {
  sm_numchans : Z; sm_evr_ts_ns : Z; sm_evr_ts_s : Z; sm_resolution : Z; sm_git_shasum : Z;
  sm_die_temp : Z; sm_vccint : Z; sm_vccaux : Z; sm_bandwidth : Z; sm_polarity : Z;
  sm_fofb_pktsrcvd : Z; sm_fofb_command : Z; sm_fofb_nonce : Z; sm_tenkhz_freq : Z;
  sm_onehz_freq : Z; sm_rsvd : list Z; sm_ps : list SAdataChan;
}.

(** The words of the structures in memory. *)
Definition sa_words (c : SAdataChan) : list Z := [
    sa_dcct1 c; sa_dcct1_offset c; sa_dcct1_gain c; sa_dcct2 c; sa_dcct2_offset c;
    sa_dcct2_gain c; sa_dacmon c; sa_dacmon_offset c; sa_dacmon_gain c; sa_volt c;
    sa_volt_offset c; sa_volt_gain c; sa_gnd c; sa_gnd_offset c; sa_gnd_gain c; sa_spare c;
    sa_spare_offset c; sa_spare_gain c; sa_reg c; sa_reg_offset c; sa_reg_gain c; sa_error c;
    sa_error_offset c; sa_error_gain c; sa_dac_setpt c; sa_dac_setpt_offset c;
    sa_dac_setpt_gain c; u32 (sa_dac_rampactive c); sa_ovc1_thresh c; sa_ovc2_thresh c;
    sa_ovv_thresh c; sa_err1_thresh c; sa_err2_thresh c; sa_ignd_thresh c; sa_ovc1_cntlim c;
    sa_ovc2_cntlim c; sa_ovv_cntlim c; sa_err1_cntlim c; sa_err2_cntlim c; sa_ignd_cntlim c;
    sa_dcct_cntlim c; sa_flt1_cntlim c; sa_flt2_cntlim c; sa_flt3_cntlim c; sa_on_cntlim c;
    sa_heartbeat_cntlim c; sa_fault_clear c; sa_fault_mask c; sa_digout_on1 c;
    sa_digout_on2 c; sa_digout_reset c; sa_digout_spare c; sa_digout_park c; sa_digin c;
    sa_faults_live c; sa_faults_latched c; sa_sf_ampspersec c; sa_sf_dac_dccts c;
    sa_sf_vout c; sa_sf_ignd c; sa_sf_spare c; sa_sf_regulator c; sa_sf_error c;
    u32 (sa_dac_setpt_raw c); sa_fofb_dacsetpt c ]
  ++ sa_rsvd c.

Definition sm_words (m : SAdataMsg) : list Z :=
  [ sm_numchans m; sm_evr_ts_ns m; sm_evr_ts_s m; sm_resolution m; sm_git_shasum m;
    sm_die_temp m; sm_vccint m; sm_vccaux m; sm_bandwidth m; sm_polarity m;
    sm_fofb_pktsrcvd m; sm_fofb_command m; sm_fofb_nonce m; sm_tenkhz_freq m; sm_onehz_freq m ]
  ++ sm_rsvd m ++ mjoin (sa_words <$> sm_ps m).

Section push.
Context `{Platform, Runtime, FpEnv}.

(** ** The right-hand sides of the assignments *)
Section channel.
Context (base ave_mode b2v : Z) (sf : ScaleFactorType).

(** [ReadAccumSA(base+r, ave_mode) * CONVDACBITSTOVOLTS * dac_dccts] *)
Definition acc_dac (r : Z) : M Z :=
  a ← ReadAccumSA (base + r) ave_mode;
  mret (bits_of_float (fmul (fmul a (float_of_bits b2v)) (float_of_bits (dac_dccts sf)))).
(** [ReadAccumSA(base+r, ave_mode) * CONV16BITSTOVOLTS * field] *)
Definition acc_16 (field : ScaleFactorType → Z) (r : Z) : M Z :=
  a ← ReadAccumSA (base + r) ave_mode;
  mret (bits_of_float (f_of_d
    (dmul (dmul (d_of_f a) CONV16BITSTOVOLTS) (d_of_f (float_of_bits (field sf)))))).
(** [(s32)Xil_In32(base+r) * CONVDACBITSTOVOLTS * dac_dccts] *)
Definition dac_bits (r : Z) : M Z :=
  v ← Xil_In32 (base + r);
  mret (bits_of_float
    (fmul (fmul (f_of_int (s32 v)) (float_of_bits b2v)) (float_of_bits (dac_dccts sf)))).
(** [(s32)Xil_In32(base+r) * CONV16BITSTOVOLTS * field] *)
Definition s_16 (field : ScaleFactorType → Z) (r : Z) : M Z :=
  v ← Xil_In32 (base + r);
  mret (bits_of_float (f_of_d
    (dmul (dmul (d_of_int (s32 v)) CONV16BITSTOVOLTS) (d_of_f (float_of_bits (field sf)))))).
(** [Xil_In32(base+r) * CONV16BITSTOVOLTS * field], unsigned *)
Definition u_16 (field : ScaleFactorType → Z) (r : Z) : M Z :=
  v ← Xil_In32 (base + r);
  mret (bits_of_float (f_of_d
    (dmul (dmul (d_of_int v) CONV16BITSTOVOLTS) (d_of_f (float_of_bits (field sf)))))).
(** [(s32)Xil_In32(base+r) / GAIN20BITFRACT] *)
Definition gain_20 (r : Z) : M Z :=
  v ← Xil_In32 (base + r);
  mret (bits_of_float (f_of_d (ddiv (d_of_int (s32 v)) GAIN20BITFRACT))).
(** [Xil_In32(base+r) / SAMPLERATE] *)
Definition seconds (r : Z) : M Z :=
  v ← Xil_In32 (base + r);
  mret (bits_of_float (f_of_d (ddiv (d_of_int v) SAMPLERATE))).
Definition word (r : Z) : M Z := Xil_In32 (base + r).
Definition word_s (r : Z) : M Z := v ← Xil_In32 (base + r); mret (s32 v).

(** The body of the loop over the channels, after its first two lines. *)
Definition sa_channel (rsvd : list Z) : M SAdataChan :=
  dcct1' ← acc_dac DCCT1_REG;
  dcct1_offset' ← dac_bits DCCT1_OFFSET_REG;
  dcct1_gain' ← gain_20 DCCT1_GAIN_REG;
  dcct2' ← acc_dac DCCT2_REG;
  dcct2_offset' ← dac_bits DCCT2_OFFSET_REG;
  dcct2_gain' ← gain_20 DCCT2_GAIN_REG;
  dacmon' ← acc_16 dac_dccts DACMON_REG;
  dacmon_offset' ← s_16 dac_dccts DACMON_OFFSET_REG;
  dacmon_gain' ← gain_20 DACMON_GAIN_REG;
  volt' ← acc_16 vout VOLT_REG;
  volt_offset' ← s_16 vout VOLT_OFFSET_REG;
  volt_gain' ← gain_20 VOLT_GAIN_REG;
  gnd' ← acc_16 ignd GND_REG;
  gnd_offset' ← s_16 ignd GND_OFFSET_REG;
  gnd_gain' ← gain_20 GND_GAIN_REG;
  spare' ← acc_16 spare SPARE_REG;
  spare_offset' ← s_16 spare SPARE_OFFSET_REG;
  spare_gain' ← gain_20 SPARE_GAIN_REG;
  reg' ← acc_16 regulator REG_REG;
  reg_offset' ← s_16 regulator REG_OFFSET_REG;
  reg_gain' ← gain_20 REG_GAIN_REG;
  error' ← acc_16 error ERR_REG;
  error_offset' ← s_16 error ERR_OFFSET_REG;
  error_gain' ← gain_20 ERR_GAIN_REG;
  dac_setpt' ← dac_bits DAC_CURRSETPT_REG;
  dac_setpt_raw' ← word_s DAC_CURRSETPT_REG;
  dac_setpt_offset' ← dac_bits DAC_SETPT_OFFSET_REG;
  dac_setpt_gain' ← gain_20 DAC_SETPT_GAIN_REG;
  dac_rampactive' ← word_s DAC_RAMPACTIVE_REG;
  ovc1_thresh' ← dac_bits OVC1_THRESH_REG;
  ovc2_thresh' ← dac_bits OVC2_THRESH_REG;
  ovv_thresh' ← u_16 vout OVV_THRESH_REG;
  err1_thresh' ← u_16 error ERR1_THRESH_REG;
  err2_thresh' ← u_16 error ERR2_THRESH_REG;
  ignd_thresh' ← u_16 ignd IGND_THRESH_REG;
  ovc1_cntlim' ← seconds OVC1_CNTLIM_REG;
  ovc2_cntlim' ← seconds OVC2_CNTLIM_REG;
  ovv_cntlim' ← seconds OVV_CNTLIM_REG;
  err1_cntlim' ← seconds ERR1_CNTLIM_REG;
  err2_cntlim' ← seconds ERR2_CNTLIM_REG;
  ignd_cntlim' ← seconds IGND_CNTLIM_REG;
  dcct_cntlim' ← seconds DCCT_CNTLIM_REG;
  flt1_cntlim' ← seconds FLT1_CNTLIM_REG;
  flt2_cntlim' ← seconds FLT2_CNTLIM_REG;
  flt3_cntlim' ← seconds FLT3_CNTLIM_REG;
  on_cntlim' ← seconds ON_CNTLIM_REG;
  heartbeat_cntlim' ← seconds HEARTBEAT_CNTLIM_REG;
  fault_clear' ← word FAULT_CLEAR_REG;
  fault_mask' ← word FAULT_MASK_REG;
  digout_on1' ← word DIGOUT_ON1_REG;
  digout_on2' ← word DIGOUT_ON1_REG;
  digout_reset' ← word DIGOUT_ON1_REG;
  digout_spare' ← word DIGOUT_RESET_REG;
  digout_park' ← word DIGOUT_PARK_REG;
  digin' ← word DIGIN_REG;
  faults_live' ← word FAULTS_LIVE_REG;
  faults_latched' ← word FAULTS_LAT_REG;
  fofb_dacsetpt' ← word FOFB_DACSETPT_REG;
  mret (MkSAdataChan
        dcct1' dcct1_offset' dcct1_gain' dcct2' dcct2_offset' dcct2_gain' dacmon'
        dacmon_offset' dacmon_gain' volt' volt_offset' volt_gain' gnd' gnd_offset'
        gnd_gain' spare' spare_offset' spare_gain' reg' reg_offset' reg_gain'
        error' error_offset' error_gain' dac_setpt' dac_setpt_offset'
        dac_setpt_gain' dac_rampactive' ovc1_thresh' ovc2_thresh' ovv_thresh'
        err1_thresh' err2_thresh' ignd_thresh' ovc1_cntlim' ovc2_cntlim'
        ovv_cntlim' err1_cntlim' err2_cntlim' ignd_cntlim' dcct_cntlim'
        flt1_cntlim' flt2_cntlim' flt3_cntlim' on_cntlim' heartbeat_cntlim'
        fault_clear' fault_mask' digout_on1' digout_on2' digout_reset'
        digout_spare' digout_park' digin' faults_live' faults_latched'
        (ampspersec sf) (dac_dccts sf) (vout sf) (ignd sf) (spare sf)
        (regulator sf) (error sf) dac_setpt_raw' fofb_dacsetpt' rsvd).
End channel.

(** [1 / ((float)Xil_In32(r) * 10e-9)] *)
Definition frequency (r : Z) : M Z :=
  v ← Xil_In32 (XPAR_M_AXI_BASEADDR + r);
  mret (bits_of_float (f_of_d
    (ddiv (d_of_int 1) (dmul (d_of_f (f_of_int v)) (dlit 1 100000000))))).

(** Word [i] of the uninitialised structure. *)
Definition stack_word (i : nat) : Z := le_word (take 4 (drop (4 * i) (stack_bytes 1300))).

Fixpoint sa_channels (n : nat) (chan : Z) : M (list SAdataChan) :=
  match n with
  | O => mret []
  | S n =>
      let base := XPAR_M_AXI_BASEADDR + (chan + 1) * CHBASEADDR in
      ave_mode ← Xil_In32 (base + AVEMODE_REG);
      b2v ← gets CONVDACBITSTOVOLTS;
      sf ← get_scalefactor chan;
      c ← sa_channel base ave_mode b2v sf
            (stack_word <$> seq (25 + 75 * Z.to_nat chan + 65) 10);
      cs ← sa_channels n (chan + 1);
      mret (c :: cs)
  end.

(** One iteration of the loop of [sadata_push]; [msg] is the static buffer. *)
Definition sadata_push (msg : list Z) : M (list Z) :=
  Xil_Out32 (XPAR_M_AXI_BASEADDR + TENHZ_DATASEND_REG) 1;;
  Xil_Out32 (XPAR_M_AXI_BASEADDR + TENHZ_DATASEND_REG) 0;;
  resolution ← Xil_In32 (XPAR_M_AXI_BASEADDR + RESOLUTION_REG);
  numchans ← Xil_In32 (XPAR_M_AXI_BASEADDR + NUMCHANS_REG);
  polarity ← Xil_In32 (XPAR_M_AXI_BASEADDR + POLARITY_REG);
  bandwidth ← Xil_In32 (XPAR_M_AXI_BASEADDR + BANDWIDTH_REG);
  git_shasum ← Xil_In32 (XPAR_M_AXI_BASEADDR + PRJ_SHASUM);
  evr_ts_s ← Xil_In32 (XPAR_M_AXI_BASEADDR + EVR_TS_S_REG);
  evr_ts_ns ← Xil_In32 (XPAR_M_AXI_BASEADDR + EVR_TS_NS_REG);
  fofb_pktsrcvd ← Xil_In32 (XPAR_M_AXI_BASEADDR + FOFB_PACKETS_RCVD_REG);
  fofb_command ← Xil_In32 (XPAR_M_AXI_BASEADDR + FOFB_COMMAND_REG);
  fofb_nonce ← Xil_In32 (XPAR_M_AXI_BASEADDR + FOFB_NONCE_REG);
  tenkhz_freq ← frequency TENKHZ_FREQ_REG;
  onehz_freq ← frequency ONEHZ_FREQ_REG;
  ps ← sa_channels 4 0;
  let sadata := MkSAdataMsg numchans evr_ts_ns evr_ts_s resolution git_shasum
    (stack_word 5) (stack_word 6) (stack_word 7) bandwidth polarity
    fofb_pktsrcvd fofb_command fofb_nonce tenkhz_freq onehz_freq
    (stack_word <$> seq 15 10) ps in
  let bytes := bytes_of_words (sm_words sadata) in
  let msg := bytes ++ drop (length bytes) msg in
  msg ← lift (hton_conv msg (Z.of_nat (length bytes)));
  psc_send_event 31 msg;;
  mret msg.
End push.

(** ** What the message contains *)

(** How a register value becomes a word of the message. *)
Inductive decoding :=
| AccDac | Acc16 (field : ScaleFactorType → Z) | DacBits | S16 (field : ScaleFactorType → Z)
| U16 (field : ScaleFactorType → Z) | Gain20 | Seconds | Word.

Inductive row := Reg (r : Z) (d : decoding) | Sf (field : ScaleFactorType → Z).

(** The fields of a channel in the order of the message, from offset
    [100 + 300 * (chan - 1)] on. *)
Definition sa_table : list row := [
    Reg DCCT1_REG AccDac; Reg DCCT1_OFFSET_REG DacBits; Reg DCCT1_GAIN_REG Gain20;
    Reg DCCT2_REG AccDac; Reg DCCT2_OFFSET_REG DacBits; Reg DCCT2_GAIN_REG Gain20;
    Reg DACMON_REG (Acc16 dac_dccts); Reg DACMON_OFFSET_REG (S16 dac_dccts);
    Reg DACMON_GAIN_REG Gain20; Reg VOLT_REG (Acc16 vout); Reg VOLT_OFFSET_REG (S16 vout);
    Reg VOLT_GAIN_REG Gain20; Reg GND_REG (Acc16 ignd); Reg GND_OFFSET_REG (S16 ignd);
    Reg GND_GAIN_REG Gain20; Reg SPARE_REG (Acc16 spare); Reg SPARE_OFFSET_REG (S16 spare);
    Reg SPARE_GAIN_REG Gain20; Reg REG_REG (Acc16 regulator);
    Reg REG_OFFSET_REG (S16 regulator); Reg REG_GAIN_REG Gain20; Reg ERR_REG (Acc16 error);
    Reg ERR_OFFSET_REG (S16 error); Reg ERR_GAIN_REG Gain20; Reg DAC_CURRSETPT_REG DacBits;
    Reg DAC_SETPT_OFFSET_REG DacBits; Reg DAC_SETPT_GAIN_REG Gain20;
    Reg DAC_RAMPACTIVE_REG Word; Reg OVC1_THRESH_REG DacBits; Reg OVC2_THRESH_REG DacBits;
    Reg OVV_THRESH_REG (U16 vout); Reg ERR1_THRESH_REG (U16 error);
    Reg ERR2_THRESH_REG (U16 error); Reg IGND_THRESH_REG (U16 ignd);
    Reg OVC1_CNTLIM_REG Seconds; Reg OVC2_CNTLIM_REG Seconds; Reg OVV_CNTLIM_REG Seconds;
    Reg ERR1_CNTLIM_REG Seconds; Reg ERR2_CNTLIM_REG Seconds; Reg IGND_CNTLIM_REG Seconds;
    Reg DCCT_CNTLIM_REG Seconds; Reg FLT1_CNTLIM_REG Seconds; Reg FLT2_CNTLIM_REG Seconds;
    Reg FLT3_CNTLIM_REG Seconds; Reg ON_CNTLIM_REG Seconds; Reg HEARTBEAT_CNTLIM_REG Seconds;
    Reg FAULT_CLEAR_REG Word; Reg FAULT_MASK_REG Word; Reg DIGOUT_ON1_REG Word;
    Reg DIGOUT_ON1_REG Word; Reg DIGOUT_ON1_REG Word; Reg DIGOUT_RESET_REG Word;
    Reg DIGOUT_PARK_REG Word; Reg DIGIN_REG Word; Reg FAULTS_LIVE_REG Word;
    Reg FAULTS_LAT_REG Word; Sf ampspersec; Sf dac_dccts; Sf vout; Sf ignd; Sf spare;
    Sf regulator; Sf error; Reg DAC_CURRSETPT_REG Word; Reg FOFB_DACSETPT_REG Word ].

Section contents.
Context `{Platform, Runtime, FpEnv}.
Context (plain : Z → Prop) `{!PlainRegisters _ plain}.

(** The value of [ReadAccumSA] for a register value. *)
Definition averaged (ave_mode v : Z) : spec_float :=
  if ave_mode =? 0 then f_of_int (s32 v)
  else if ave_mode =? 1 then f_of_d (ddiv (d_of_int (s32 v)) (dlit 167 1))
  else if ave_mode =? 2 then f_of_d (ddiv (d_of_int (s32 v)) (dlit 500 1))
  else S754_nan.

Definition decode (d : decoding) (ave_mode b2v : Z) (sf : ScaleFactorType) (v : Z) : Z :=
  let scaled x field := bits_of_float (f_of_d
    (dmul (dmul x CONV16BITSTOVOLTS) (d_of_f (float_of_bits (field sf))))) in
  let amps x := bits_of_float
    (fmul (fmul x (float_of_bits b2v)) (float_of_bits (dac_dccts sf))) in
  match d with
  | AccDac => amps (averaged ave_mode v)
  | Acc16 field => scaled (d_of_f (averaged ave_mode v)) field
  | DacBits => amps (f_of_int (s32 v))
  | S16 field => scaled (d_of_int (s32 v)) field
  | U16 field => scaled (d_of_int v) field
  | Gain20 => bits_of_float (f_of_d (ddiv (d_of_int (s32 v)) GAIN20BITFRACT))
  | Seconds => bits_of_float (f_of_d (ddiv (d_of_int v) SAMPLERATE))
  | Word => v
  end.

(** The word of a row, with [rd] the register values of the channel. *)
Definition row_word (ave_mode b2v : Z) (sf : ScaleFactorType) (rd : Z → Z) (t : row) : Z :=
  match t with
  | Reg r d => decode d ave_mode b2v sf (rd r)
  | Sf field => field sf
  end.

Definition row_regs (t : row) : list Z := match t with Reg r _ => [r] | Sf _ => [] end.

(** The registers the message is made of. *)
Definition sa_regs : list Z :=
  [RESOLUTION_REG; NUMCHANS_REG; POLARITY_REG; BANDWIDTH_REG; PRJ_SHASUM; EVR_TS_S_REG;
   EVR_TS_NS_REG; FOFB_PACKETS_RCVD_REG; FOFB_COMMAND_REG; FOFB_NONCE_REG; TENKHZ_FREQ_REG;
   ONEHZ_FREQ_REG].
Definition sa_chan_regs : list Z := AVEMODE_REG :: (sa_table ≫= row_regs).

Definition sa_plain : Prop :=
  Forall (λ r, plain (u32 (XPAR_M_AXI_BASEADDR + r))) sa_regs ∧
  Forall (λ c, Forall (λ r, plain (u32 (XPAR_M_AXI_BASEADDR + (c + 1) * CHBASEADDR + r))) sa_chan_regs)
    [0; 1; 2; 3].

(** The words of channel [c] (from 0). *)
Definition channel_words (c : Z) (s : psc) (sf : ScaleFactorType) : list Z :=
  let rd r := (pl_in32 (u32 (XPAR_M_AXI_BASEADDR + (c + 1) * CHBASEADDR + r)) (pl s)).1 in
  (row_word (rd AVEMODE_REG) (CONVDACBITSTOVOLTS s) sf rd <$> sa_table) ++
  (stack_word <$> seq (25 + 75 * Z.to_nat c + 65) 10).

Lemma run_rd {A} (f : Z → Z) base r (k : Z → M A) s :
  plain (u32 (base + r)) →
  ((v ← Xil_In32 (base + r); mret (f v)) ≫= k) s = k (f (pl_in32 (u32 (base + r)) (pl s)).1) s.
Proof.
  intros Hr. unfold mbind at 1, M_bind at 1. rewrite (run_in32_plain plain) by done. done.
Qed.

Lemma run_accum {A} (f : spec_float → Z) base r mode (k : Z → M A) s :
  plain (u32 (base + r)) →
  ((a ← ReadAccumSA (base + r) mode; mret (f a)) ≫= k) s =
  k (f (averaged mode (pl_in32 (u32 (base + r)) (pl s)).1)) s.
Proof.
  intros Hr. unfold ReadAccumSA, mbind at 1 2, M_bind at 1 2.
  rewrite (run_in32_plain plain) by done. done.
Qed.

(** The channel's structure is the table. *)
Lemma run_sa_channel base mode b2v sf rsvd s :
  (∀ r, r ∈ sa_chan_regs → plain (u32 (base + r))) →
  ∃ c, sa_channel base mode b2v sf rsvd s = Ok (c, s) ∧
    sa_words c =
    (row_word mode b2v sf (λ r, (pl_in32 (u32 (base + r)) (pl s)).1) <$> sa_table) ++ rsvd.
Proof.
  intros Hp. unfold sa_channel, acc_dac, acc_16, dac_bits, s_16, u_16, gain_20, seconds, word_s, word.
  repeat first
    [ rewrite (run_accum (λ a, _)) by (apply Hp; list_elem)
    | rewrite (run_rd (λ v, _)) by (apply Hp; list_elem)
    | rewrite (run_in32_plain plain) by (apply Hp; list_elem) ].
  eexists. split; [reflexivity|].
  repeat (apply (f_equal2 cons); [first [reflexivity | etrans; [apply u32_s32|]; apply u32_id, plain_u32, Hp; list_elem]|]).
  reflexivity.
Qed.

Lemma run_sa_channels n c s sfs :
  0 ≤ c → drop (Z.to_nat c) (scalefactors s) = sfs → length sfs = n → c + Z.of_nat n ≤ 4 →
  Forall (λ c, Forall (λ r, plain (u32 (XPAR_M_AXI_BASEADDR + (c + 1) * CHBASEADDR + r))) sa_chan_regs)
    [0; 1; 2; 3] →
  ∃ cs, sa_channels n c s = Ok (cs, s) ∧
    mjoin (sa_words <$> cs) = mjoin (imap (λ i, channel_words (c + Z.of_nat i) s) sfs).
Proof.
  intros Hc Hsfs Hn Hle Hp. revert c sfs Hc Hsfs Hn Hle.
  induction n as [|n IH]; intros c [|sf sfs] Hc Hsfs Hn Hle; try done; [by exists []|].
  assert (∀ r, r ∈ sa_chan_regs →
    plain (u32 (XPAR_M_AXI_BASEADDR + (c + 1) * CHBASEADDR + r))) as Hpc.
  { assert (c ∈ [0; 1; 2; 3]) as Hin by
      (assert (c = 0 ∨ c = 1 ∨ c = 2 ∨ c = 3) as [->|[->|[->| ->]]] by lia; list_elem).
    rewrite Forall_forall in Hp. specialize (Hp c Hin). by rewrite Forall_forall in Hp. }
  assert (scalefactors s !! Z.to_nat c = Some sf) as Hsf.
  { pose proof (lookup_drop (scalefactors s) (Z.to_nat c) 0) as Hd.
    rewrite Hsfs, Nat.add_0_r in Hd. by rewrite <- Hd. }
  cbn [sa_channels]. rewrite (run_in32_plain plain) by (apply Hpc; list_elem).
  rewrite (run_bind (gets _) _ s (CONVDACBITSTOVOLTS s) s) by done.
  rewrite (run_bind _ _ _ _ _ (run_get_scalefactor c s sf ltac:(lia) Hsf)).
  edestruct (run_sa_channel (XPAR_M_AXI_BASEADDR + (c + 1) * CHBASEADDR)) as (x & E & Hx);
    [exact Hpc|]. rewrite (run_bind _ _ _ _ _ E).
  destruct (IH (c + 1) sfs) as (cs & Ecs & Hcs); [lia| |by injection Hn|lia|].
  { replace (Z.to_nat (c + 1)) with (Z.to_nat c + 1)%nat by lia.
    by rewrite <- drop_drop, Hsfs. }
  rewrite (run_bind _ _ _ _ _ Ecs). exists (x :: cs). split; [done|].
  cbn [fmap list_fmap imap mjoin list_join]. rewrite Hx. f_equal.
  { by rewrite Z.add_0_r. }
  etrans; [exact Hcs|]. f_equal. apply imap_ext. intros i y _. unfold compose.
  replace (c + Z.of_nat (S i)) with (c + 1 + Z.of_nat i) by lia. done.
Qed.

(** The words of the header. *)
Definition header_words (s : psc) : list Z :=
  let rd r := (pl_in32 (u32 (XPAR_M_AXI_BASEADDR + r)) (pl s)).1 in
  let freq r := bits_of_float (f_of_d
    (ddiv (d_of_int 1) (dmul (d_of_f (f_of_int (rd r))) (dlit 1 100000000)))) in
  [ rd NUMCHANS_REG; rd EVR_TS_NS_REG; rd EVR_TS_S_REG; rd RESOLUTION_REG; rd PRJ_SHASUM;
    stack_word 5; stack_word 6; stack_word 7; rd BANDWIDTH_REG; rd POLARITY_REG;
    rd FOFB_PACKETS_RCVD_REG; rd FOFB_COMMAND_REG; rd FOFB_NONCE_REG;
    freq TENKHZ_FREQ_REG; freq ONEHZ_FREQ_REG ] ++ (stack_word <$> seq 15 10).

(** C27: every iteration returns, pulses the front-panel register and
    sends one message 31: the words of the header and of the four channels, field
    by field the table's decoding of the registers, in network byte order, and
    behind them the rest of the static buffer; the message has 1400 bytes and no
    other state changes. *)
Theorem sadata_message msg s :
  sa_plain → length (scalefactors s) = 4%nat → length msg = 1400%nat →
  let s1 := out_all [(XPAR_M_AXI_BASEADDR + TENHZ_DATASEND_REG, 1);
                     (XPAR_M_AXI_BASEADDR + TENHZ_DATASEND_REG, 0)] s in
  let words := header_words s1 ++
    mjoin (imap (λ i, channel_words (Z.of_nat i) s1) (scalefactors s)) in
  let msg' := bytes_of_words (htonl <$> words) ++ drop 1300 msg in
  sadata_push msg s = Ok (msg', add_event (PscSend 31 msg') s1) ∧ length msg' = 1400%nat.
Proof.
  intros [Hg Hch] Hl Hmsg s1 words msg'. unfold sadata_push. rewrite !run_out32. fold s1.
  assert (∀ r, r ∈ sa_regs → plain (u32 (XPAR_M_AXI_BASEADDR + r))) as Hp
    by (by rewrite Forall_forall in Hg).
  unfold frequency.
  repeat first [ rewrite (run_rd (λ v, _)) by (apply Hp; list_elem)
               | rewrite (run_in32_plain plain) by (apply Hp; list_elem) ].
  destruct (run_sa_channels 4 0 s1 (scalefactors s)) as (cs & E & Hcs); [lia|done|done|lia|done|].
  change (mjoin (sa_words <$> cs) =
    mjoin (imap (λ i, channel_words (Z.of_nat i) s1) (scalefactors s))) in Hcs.
  rewrite (run_bind _ _ _ _ _ E). cbv zeta.
  lazymatch goal with |- context [sm_words ?m] => assert (sm_words m = words) as -> end.
  { unfold sm_words, words, header_words. rewrite <- Hcs. reflexivity. }
  assert (length words = 325%nat) as Hw.
  { unfold words. destruct (scalefactors s) as [|? [|? [|? [|? [|]]]]]; done. }
  rewrite length_bytes_of_words, Hw. change (4 * 325)%nat with (1300)%nat.
  assert (hton_conv (bytes_of_words words ++ drop 1300 msg) 1300 = Ok msg') as Eh.
  { unfold hton_conv. change (Z.to_nat ((1300 + 3) / 4)) with 325%nat.
    pose proof (swap_words_htonl words (drop 1300 msg)) as Hsw. by rewrite Hw in Hsw. }
  change (Z.of_nat 1300) with 1300. rewrite (run_bind _ _ s1 msg' s1) by (unfold lift; by rewrite Eh).
  split; [done|]. unfold msg'.
  rewrite length_app, length_bytes_of_words, length_fmap, Hw, length_drop, Hmsg. done.
Qed.
End contents.
