(* ===== verification/CStr.v ===== *)
(** * C strings

    The firmware's text handling works on character arrays, in place and through
    pointers.  A pointer into an array is an index; reading or writing outside of
    the array is undefined.  The string at a pointer are the characters up to the
    terminating 0. *)

From Stdlib Require Ascii String.
From S2P Require Import Prelude Words.

(** Characters of literals. *)
Definition chr (a : Ascii.ascii) : Z := Z.of_N (Ascii.N_of_ascii a).
Definition zs (s : string) : list Z := chr <$> String.list_ascii_of_string s.

(** A literal has no 0 inside. *)
Ltac literal := apply (bool_decide_unpack _); vm_compute; exact I.

Definition get (buf : list Z) (i : nat) : res Z :=
  match buf !! i with
  | Some c => Ok c
  | None => Ub (ub_index (Z.of_nat i) (Z.of_nat (length buf)))
  end.

Definition put (buf : list Z) (i : nat) (c : Z) : res (list Z) :=
  if (i <? length buf)%nat then Ok (<[i := c]> buf)
  else Ub (ub_index (Z.of_nat i) (Z.of_nat (length buf))).

(** [while (p(buf[i])) i++] *)
Fixpoint scan (p : Z → bool) (fuel : nat) (buf : list Z) (i : nat) : res nat :=
  match fuel with
  | O => Ub ub_nonterm
  | S fuel => c ← get buf i; if p c : bool then scan p fuel buf (S i) else Ok i
  end.

(** [strcmp(buf + i, lit) == 0] *)
Fixpoint strcmp_eq (buf : list Z) (i : nat) (lit : list Z) : res bool :=
  c ← get buf i;
  match lit with
  | [] => Ok (c =? 0)
  | l :: lit => if c =? l then strcmp_eq buf (S i) lit else Ok false
  end.

(** The string a library function reads. *)
Fixpoint cstring (fuel : nat) (buf : list Z) (i : nat) : res (list Z) :=
  match fuel with
  | O => Ub ub_nonterm
  | S fuel =>
      c ← get buf i;
      if c =? 0 then Ok [] else (cstring fuel buf (S i) ≫= λ s, Ok (c :: s))
  end.

(** ** The string at a pointer *)

Definition str_at (buf : list Z) (i : nat) (s : list Z) : Prop :=
  (0 ∉ s) ∧ ∃ tl, drop i buf = s ++ 0 :: tl.

Fixpoint take_while (p : Z → bool) (s : list Z) : list Z :=
  match s with
  | c :: s => if p c then c :: take_while p s else []
  | [] => []
  end.

Fixpoint drop_while (p : Z → bool) (s : list Z) : list Z :=
  match s with
  | c :: s' => if p c then drop_while p s' else s
  | [] => []
  end.

Lemma take_drop_while p s : take_while p s ++ drop_while p s = s.
Proof. induction s as [|c s IH]; cbn; [done|]. destruct (p c); cbn; [by f_equal|done]. Qed.

Lemma take_while_Forall p s : Forall (λ c, p c = true) (take_while p s).
Proof.
  induction s as [|c s IH]; cbn; [constructor|]. destruct (p c) eqn:E; [by constructor|constructor].
Qed.

Lemma drop_while_head p s c s' : drop_while p s = c :: s' → p c = false.
Proof.
  induction s as [|x s IH]; cbn; [done|]. destruct (p x) eqn:E; [exact IH|]. by intros [= -> ->].
Qed.

(** A word and what follows it. *)
Lemma take_while_app p w s :
  Forall (λ c, p c = true) w → (∀ c s', s = c :: s' → p c = false) →
  take_while p (w ++ s) = w ∧ drop_while p (w ++ s) = s.
Proof.
  intros Hw Hs. induction Hw as [|c w Hc _ [IH1 IH2]]; cbn.
  - destruct s as [|c s]; [done|]. cbn. by rewrite (Hs c s eq_refl).
  - by rewrite Hc, IH1, IH2.
Qed.

Lemma drop_lookup {A} (buf : list A) i c s : drop i buf = c :: s → buf !! i = Some c ∧ drop (S i) buf = s.
Proof.
  intros E. split.
  - pose proof (lookup_drop buf i 0) as H. rewrite E, Nat.add_0_r in H. by rewrite <- H.
  - replace (S i) with (i + 1)%nat by lia. by rewrite <- drop_drop, E.
Qed.

Lemma str_at_0 s tl : 0 ∉ s → str_at (s ++ 0 :: tl) 0 s.
Proof. intros H. split; [done|]. by exists tl. Qed.

Lemma str_at_cons buf i c s : str_at buf i (c :: s) → get buf i = Ok c ∧ c ≠ 0 ∧ str_at buf (S i) s.
Proof.
  intros [H0 [tl E]]. apply not_elem_of_cons in H0 as [Hc H0]. cbn in E.
  apply drop_lookup in E as [Hi E]. unfold get. rewrite Hi. split; [done|].
  split; [by intros ->|]. split; [done|]. by exists tl.
Qed.

Lemma str_at_nil buf i : str_at buf i [] → get buf i = Ok 0.
Proof.
  intros [_ [tl E]]. cbn in E. apply drop_lookup in E as [Hi _]. unfold get. by rewrite Hi.
Qed.

Lemma str_at_get buf i s : str_at buf i s → get buf i = Ok (hd 0 s).
Proof. destruct s as [|c s]; [apply str_at_nil|]. by intros (-> & _)%str_at_cons. Qed.

Lemma str_at_app buf i s1 s2 : str_at buf i (s1 ++ s2) → str_at buf (i + length s1) s2.
Proof.
  revert i. induction s1 as [|c s1 IH]; intros i; cbn; [by rewrite Nat.add_0_r|].
  intros H. apply str_at_cons in H as (_ & _ & H). replace (i + S (length s1))%nat with (S i + length s1)%nat by lia.
  by apply IH.
Qed.

Lemma str_at_length buf i s : str_at buf i s → (i + length s < length buf)%nat.
Proof.
  intros [_ [tl E]]. apply (f_equal length) in E. rewrite length_drop, length_app in E. cbn in E. lia.
Qed.

Lemma run_scan p fuel buf i s :
  str_at buf i s → p 0 = false → (length s < fuel)%nat →
  scan p fuel buf i = Ok (i + length (take_while p s))%nat ∧
  str_at buf (i + length (take_while p s)) (drop_while p s).
Proof.
  intros Hs Hp Hf. split.
  - revert i s Hs Hf. induction fuel as [|fuel IH]; intros i s Hs Hf; [lia|].
    destruct s as [|c s]; cbn [scan].
    + rewrite (str_at_nil _ _ Hs). cbn. by rewrite Hp, Nat.add_0_r.
    + apply str_at_cons in Hs as (E & _ & Hs). rewrite E. cbn [mbind res_bind take_while].
      destruct (p c); [|by rewrite Nat.add_0_r]. rewrite (IH _ s) by (done || (cbn in Hf; lia)).
      cbn [length]. f_equal. lia.
  - apply str_at_app. by rewrite take_drop_while.
Qed.

Lemma run_strcmp buf i s lit :
  str_at buf i s → 0 ∉ lit → strcmp_eq buf i lit = Ok (bool_decide (s = lit)).
Proof.
  revert i s. induction lit as [|l lit IH]; intros i [|c s] Hs Hl; cbn [strcmp_eq].
  - by rewrite (str_at_nil _ _ Hs).
  - apply str_at_cons in Hs as (E & Hc & _). rewrite E. cbn.
    by destruct (Z.eqb_spec c 0).
  - rewrite (str_at_nil _ _ Hs). cbn [mbind res_bind]. apply not_elem_of_cons in Hl as [Hl _].
    by destruct (Z.eqb_spec 0 l).
  - apply str_at_cons in Hs as (E & Hc & Hs). rewrite E. cbn [mbind res_bind].
    apply not_elem_of_cons in Hl as [_ Hl]. destruct (Z.eqb_spec c l) as [->|Hne].
    + rewrite (IH _ s) by done. f_equal. apply bool_decide_ext. naive_solver.
    + f_equal. symmetry. apply bool_decide_eq_false. naive_solver.
Qed.

Lemma run_cstring fuel buf i s : str_at buf i s → (length s < fuel)%nat → cstring fuel buf i = Ok s.
Proof.
  revert i s. induction fuel as [|fuel IH]; intros i [|c s] Hs Hf; [lia|cbn in Hf; lia| |]; cbn [cstring].
  - by rewrite (str_at_nil _ _ Hs).
  - apply str_at_cons in Hs as (E & Hc & Hs). rewrite E. cbn.
    rewrite (proj2 (Z.eqb_neq _ _)) by done. by rewrite (IH _ s) by (done || (cbn in Hf; lia)).
Qed.

(** Cutting a string: the part before the cut, and the strings elsewhere, stay. *)
Lemma run_cut buf i w s :
  str_at buf i (w ++ s) →
  ∃ buf', put buf (i + length w) 0 = Ok buf' ∧ length buf' = length buf ∧ str_at buf' i w ∧
    ∀ j s', (i + length w < j ∨ j + length s' < i + length w)%nat →
      str_at buf j s' → str_at buf' j s'.
Proof.
  intros Hs. pose proof (str_at_length _ _ _ Hs) as Hl. rewrite length_app in Hl.
  destruct Hs as [H0 [tl E]]. unfold put.
  rewrite (proj2 (Nat.ltb_lt _ _)) by lia. eexists. split; [done|].
  split; [by rewrite length_insert|]. split.
  - split; [intros Hw; apply H0, elem_of_app; by left|].
    rewrite drop_insert_ge by lia. rewrite E. replace (i + length w - i)%nat with (length w + 0)%nat by lia.
    rewrite <- app_assoc, insert_app_r. destruct s as [|c s]; cbn; eauto.
  - intros j s' Hj [H0' [tl' E']]. split; [done|]. destruct Hj as [Hj|Hj].
    + exists tl'. by rewrite drop_insert_lt by lia.
    + rewrite drop_insert_ge, E' by lia.
      replace (i + length w - j)%nat with (length s' + S (i + length w - j - S (length s')))%nat by lia.
      rewrite insert_app_r. cbn. eauto.
Qed.

(** A terminated buffer holds the string up to its first 0. *)
Lemma str_at_line line tl : str_at (line ++ 0 :: tl) 0 (take_while (λ c, negb (c =? 0)) line).
Proof.
  split.
  - intros Hin. pose proof (take_while_Forall (λ c, negb (c =? 0)) line) as Hf.
    rewrite Forall_forall in Hf. by apply Hf in Hin.
  - pose proof (take_drop_while (λ c, negb (c =? 0)) line) as Hs. cbn [drop].
    destruct (drop_while _ line) as [|c r] eqn:E.
    + exists tl. by rewrite app_nil_r in Hs; rewrite Hs.
    + apply drop_while_head in E. apply negb_false_iff, Z.eqb_eq in E as ->.
      exists (r ++ 0 :: tl). apply (f_equal (λ l, l ++ 0 :: tl)) in Hs.
      rewrite <- app_assoc in Hs. exact (eq_sym Hs).
Qed.

Lemma str_at_take buf i s1 s2 : str_at buf i (s1 ++ s2) → take (length s1) (drop i buf) = s1.
Proof. intros [_ [tl ->]]. by rewrite <- app_assoc, take_app_length. Qed.

Lemma str_at_fuel buf i s : str_at buf i s → (length s < S (length buf))%nat.
Proof. intros Hs%str_at_length. lia. Qed.

(** ** Several bytes at once *)

(** Bytes stored at an offset of a buffer. *)
Definition put_bytes (buf : list Z) (off : nat) (bs : list Z) : res (list Z) :=
  if (off + length bs <=? length buf)%nat
  then Ok (take off buf ++ bs ++ drop (off + length bs) buf)
  else Ub (ub_index (Z.of_nat off) (Z.of_nat (length buf))).

Lemma put_bytes_app pre mid bs tl :
  length mid = length bs → put_bytes (pre ++ mid ++ tl) (length pre) bs = Ok (pre ++ bs ++ tl).
Proof.
  intros Hl. unfold put_bytes. rewrite !length_app, (proj2 (Nat.leb_le _ _)) by lia.
  by rewrite take_app_length, drop_app_add, drop_app_length' by done.
Qed.
