(* ===== verification/Stdio.v ===== *)
(** * Text conversions of the C library

    What the console uses of [ctype.h], [stdlib.h] and the conversions of [scanf],
    for 8-bit unsigned characters in the C locale.  A number that the type of a
    [scanf] conversion cannot represent is undefined behaviour. *)

From Stdlib Require Import SpecFloat.
From S2P Require Import Prelude Words Floats CStr.

Definition isspace (c : Z) : bool := (c =? 32) || ((9 <=? c) && (c <=? 13)).
Definition isdigit (c : Z) : bool := (48 <=? c) && (c <=? 57).
Definition isalpha (c : Z) : bool :=
  ((65 <=? c) && (c <=? 90)) || ((97 <=? c) && (c <=? 122)).
Definition toupper (c : Z) : Z := if (97 <=? c) && (c <=? 122) then c - 32 else c.

(** The value of a sequence of digits. *)
Definition dec_value (ds : list Z) : Z := foldl (λ v c, 10 * v + (c - 48)) 0 ds.

(** An optional sign. *)
Definition take_sign (w : list Z) : bool * list Z :=
  match w with
  | c :: w' => if c =? 43 then (false, w') else if c =? 45 then (true, w') else (false, w)
  | [] => (false, [])
  end.

(** *** Conversions of [sscanf] on a buffer; the result and the next position, or
    [None] where the input does not match. *)

(** [%u] and [%hhu], for numbers of [bits] bits *)
Definition scan_uint (bits : Z) (buf : list Z) (i : nat) : res (option (Z * nat)) :=
  let fuel := S (length buf) in
  i ← scan isspace fuel buf i;
  c ← get buf i;
  let i := if (c =? 43) || (c =? 45) then S i else i in
  j ← scan isdigit fuel buf i;
  if (j =? i)%nat then Ok None
  else
    let v := dec_value (take (j - i) (drop i buf)) in
    if 2 ^ bits <=? v then Ub (ub_overflow v)
    else Ok (Some (if c =? 45 then (- v) mod 2 ^ bits else v, j)).

(** At most [n] characters that satisfy [p]. *)
Fixpoint scan_upto (p : Z → bool) (n : nat) (buf : list Z) (i : nat) : res nat :=
  match n with
  | O => Ok i
  | S n => c ← get buf i; if p c : bool then scan_upto p n buf (S i) else Ok i
  end.

(** [%<n>s] *)
Definition scan_str (n : nat) (buf : list Z) (i : nat) : res (option (list Z * nat)) :=
  i ← scan isspace (S (length buf)) buf i;
  j ← scan_upto (λ c, negb (c =? 0) && negb (isspace c)) n buf i;
  Ok (if (j =? i)%nat then None else Some (take (j - i) (drop i buf), j)).

(** A literal character of the format. *)
Definition scan_char (l : Z) (buf : list Z) (i : nat) : res (option nat) :=
  c ← get buf i;
  Ok (if c =? l then Some (S i) else None).

(** *** [stdlib.h] *)

(** [strtoul(w, NULL, 10)] with a 32-bit [unsigned long] *)
Definition strtoul (w : list Z) : Z :=
  let '(neg, w) := take_sign (drop_while isspace w) in
  let v := dec_value (take_while isdigit w) in
  if 2 ^ 32 <=? v then 2 ^ 32 - 1
  else if neg then (- v) mod 2 ^ 32 else v.

(** Hexadecimal numbers, infinities and NaN are left open. *)
Class Strtof := { strtof_special : list Z → Z }.

Definition special_number (w : list Z) : bool :=
  match w with
  | a :: b :: _ =>
      let b := toupper b in
      ((a =? 48) && (b =? 88)) || ((toupper a =? 73) && (b =? 78)) || ((toupper a =? 78) && (b =? 65))
  | _ => false
  end.

(** [(-1)^neg * m * 10^e], correctly rounded to binary32 *)
Definition dec_float (neg : bool) (m e : Z) : spec_float :=
  match m with
  | Zpos _ =>
      let '(num, den) := if 0 <=? e then (m * 10 ^ e, 1) else (m, 10 ^ (- e)) in
      let '(q, ez, lz) := SFdiv_core_binary 24 128 num 0 den 0 in
      binary_round_aux 24 128 neg q ez lz
  | _ => S754_zero neg
  end.

(** [strtof(w, NULL)], the pattern of the result *)
Definition strtof `{FpEnv, Strtof} (w : list Z) : Z :=
  let '(neg, w) := take_sign (drop_while isspace w) in
  if special_number w then Z.lor (sign_bit neg) (strtof_special w)
  else
    let ip := take_while isdigit w in
    let r := drop_while isdigit w in
    let '(fp, r) := match r with
                    | c :: r' => if c =? 46 then (take_while isdigit r', drop_while isdigit r') else ([], r)
                    | [] => ([], [])
                    end in
    if decide (ip ++ fp = []) then 0
    else
      let e := match r with
               | c :: r' =>
                   if toupper c =? 69 then
                     let '(eneg, r'') := take_sign r' in
                     let ev := dec_value (take_while isdigit r'') in
                     if eneg : bool then - ev else ev
                   else 0
               | [] => 0
               end in
      bits_of_float (dec_float neg (dec_value (ip ++ fp)) (e - Z.of_nat (length fp))).
