(* ===== verification/FatFs.v ===== *)
(** * Files on the SD card

    FatFs is a library outside of the repository: its functions are the
    operations of the class [FatFs] on an abstract state, which includes the file
    objects.  Programs that use files are programs of the monad [D], firmware
    programs that also pass the state of FatFs.  [FatFsLaws] states the documented
    behaviour of the functions on a mounted volume without errors that has space
    left, as equations with operations on a map from names to contents. *)

From S2P Require Import Prelude Words Floats Machine.

Class FatFs := {
  FS : Type;
  FIL : Type;                                        (* addresses of file objects *)
  sd_fil : FIL;                                      (* sdcard.c: [fd] of [sdcard_process] *)
  f_mount : string → FS → Z * FS;
  f_unmount : string → FS → Z * FS;
  f_chdir : string → FS → Z * FS;
  f_open : FIL → string → Z → FS → Z * FS;
  f_close : FIL → FS → Z * FS;
  f_read : FIL → nat → FS → (Z * list Z) * FS;       (* result, the bytes read *)
  f_gets : FIL → nat → FS → option (list Z) * FS;
  f_lseek : FIL → Z → FS → Z * FS;
  f_truncate : FIL → FS → Z * FS;
  f_write : FIL → list Z → FS → (Z * Z) * FS;        (* result, number of bytes written *)
  f_sync : FIL → FS → Z * FS;
  f_unlink : string → FS → Z * FS;
}.

(** ff.h *)
Definition FR_OK : Z := 0.
Definition FR_NO_FILE : Z := 4.
Definition FA_READ : Z := 0x01.
Definition FA_WRITE : Z := 0x02.
Definition FA_OPEN_EXISTING : Z := 0x00.
Definition FA_OPEN_ALWAYS : Z := 0x10.

(** What [malloc] answers: each call site with its number, the size, the memory
    with its indeterminate contents, or a null pointer. *)
Class Heap := {
  malloc : nat → nat → option (list Z);
  malloc_length : ∀ k n b, malloc k n = Some b → length b = n;
}.

(** ** Programs with files *)

Definition D `{Platform, FatFs} (A : Type) : Type := FS → M (A * FS).

Section files.
Context `{Platform, FatFs}.

#[global] Instance D_ret : MRet D := λ A a x, mret (a, x).
#[global] Instance D_bind : MBind D := λ A B f m x, '(a, x') ← m x; f a x'.

Definition fs {A} (f : FS → A * FS) : D A := λ x, mret (f x).
Definition dev {A} (m : M A) : D A := λ x, a ← m; mret (a, x).

(** [a || b] *)
Definition orelse (a b : D bool) : D bool := x ← a; if x : bool then mret true else b.

(** [f_read] stores at most as many bytes as asked for. *)
Definition read_into (fd : FIL) (buf : list Z) (n : nat) : D (Z * list Z * nat) :=
  r ← fs (f_read fd n);
  let data := take n r.2 in
  mret (r.1, data ++ drop (length data) buf, length data).

Lemma run_dbind {A B} (m : D A) (f : A → D B) x s a x' s' :
  m x s = Ok ((a, x'), s') → (m ≫= f) x s = f a x' s'.
Proof. intros E. unfold mbind at 1, D_bind. by rewrite (run_bind _ _ _ _ _ E). Qed.

Lemma run_fs {A B} (g : FS → A * FS) (f : A → D B) x s :
  (fs g ≫= f) x s = f (g x).1 (g x).2 s.
Proof. unfold mbind, D_bind, fs, mret, M_ret, M_bind. by destruct (g x). Qed.

Lemma run_orelse_false a b x s x' s' :
  a x s = Ok ((false, x'), s') → orelse a b x s = b x' s'.
Proof. intros E. unfold orelse. by rewrite (run_dbind _ _ _ _ _ _ _ E). Qed.

Lemma run_dev {A B} (m : M A) (f : A → D B) x s a s' :
  m s = Ok (a, s') → (dev m ≫= f) x s = f a x s'.
Proof.
  intros E. apply run_dbind. unfold dev. by rewrite (run_bind _ _ _ _ _ E).
Qed.

Lemma run_dev_bind {A B} (m : M A) (f : A → D B) x s :
  (dev m ≫= f) x s = (a ← m; f a x) s.
Proof.
  unfold mbind, D_bind, dev, mbind, M_bind. destruct (m s) as [[a s']|]; reflexivity.
Qed.

(** A program whose files end in a state that does not depend on the device. *)
Lemma run_dbind_eq {A B} (m : D A) (m' : M A) (f : A → D B) x s x' :
  m x s = (a ← m'; mret (a, x')) s → (m ≫= f) x s = (a ← m'; f a x') s.
Proof.
  intros E. unfold mbind at 1, D_bind, mbind at 1, M_bind at 1. rewrite E.
  unfold mbind, M_bind. by destruct (m' s) as [[a s']|].
Qed.

Lemma run_dev_last {A} (m : M A) x s a s' : m s = Ok (a, s') → dev m x s = Ok ((a, x), s').
Proof. intros E. unfold dev. by rewrite (run_bind _ _ _ _ _ E). Qed.
End files.

(** ** Frames of programs with files *)

Section dkeeps.
Context `{Platform, FatFs} (R : psc → psc → Prop) `{!PreOrder R}.

Definition dkeeps {A} (m : D A) : Prop := ∀ x, keeps R (m x).

Lemma dkeeps_ret {A} (a : A) : dkeeps (mret a).
Proof. intros x. apply keeps_ret, _. Qed.
Lemma dkeeps_bind {A B} (m : D A) (f : A → D B) :
  dkeeps m → (∀ a, dkeeps (f a)) → dkeeps (m ≫= f).
Proof.
  intros Hm Hf x. apply (keeps_bind R); [apply Hm|]. intros [a x']. apply Hf.
Qed.
Lemma dkeeps_fs {A} (f : FS → A * FS) : dkeeps (fs f).
Proof. intros x. apply keeps_ret, _. Qed.
Lemma dkeeps_dev {A} (m : M A) : keeps R m → dkeeps (dev m).
Proof. intros Hm x. apply keeps_bind; [done|done|]. intros a. apply keeps_ret, _. Qed.
Lemma dkeeps_if {A} (b : bool) (m1 m2 : D A) : dkeeps m1 → dkeeps m2 → dkeeps (if b then m1 else m2).
Proof. by destruct b. Qed.
Lemma dkeeps_orelse a b : dkeeps a → dkeeps b → dkeeps (orelse a b).
Proof.
  intros Ha Hb. apply dkeeps_bind; [done|]. intros x. apply dkeeps_if; [apply dkeeps_ret|done].
Qed.
Lemma dkeeps_read_into fd buf n : dkeeps (read_into fd buf n).
Proof. apply dkeeps_bind; [apply dkeeps_fs|]. intros r. apply dkeeps_ret. Qed.
End dkeeps.

(** Structural proof of [keeps R m] and [dkeeps R m] for a preorder [R]: a lemma of
    the database [frame], or the rule of the outermost construct. *)
Ltac keeps_walk :=
  cbv zeta;
  repeat first
    [ solve [auto 1 with frame nocore]
    | apply dkeeps_bind; [typeclasses eauto| |intros ?]
    | apply keeps_bind; [typeclasses eauto| |intros ?]
    | apply dkeeps_ret; typeclasses eauto
    | apply keeps_ret; typeclasses eauto
    | apply dkeeps_fs; typeclasses eauto
    | apply dkeeps_dev; [typeclasses eauto|]
    | apply dkeeps_orelse; [typeclasses eauto| |]
    | apply dkeeps_read_into; typeclasses eauto
    | apply keeps_lift; typeclasses eauto
    | apply keeps_undefined
    | case_match ].

(** ** Documented behaviour on a volume *)

Record Vol := MkVol {
  files : gmap string (list Z);
  handle : option (string * nat);       (* the open file of the file object, its position *)
}.

(** [f_gets]: up to [n] characters, through the first newline *)
Fixpoint line_of (n : nat) (rest : list Z) : list Z :=
  match n, rest with
  | S n, c :: rest => if c =? 10 then [c] else c :: line_of n rest
  | _, _ => []
  end.

Definition vol_open (name : string) (create : bool) (v : Vol) : Z * Vol :=
  match files v !! name with
  | Some _ => (FR_OK, MkVol (files v) (Some (name, 0%nat)))
  | None => if create then (FR_OK, MkVol (<[name := []]> (files v)) (Some (name, 0%nat)))
            else (FR_NO_FILE, v)
  end.

Definition vol_unlink (name : string) (v : Vol) : Vol := MkVol (delete name (files v)) (handle v).

(** A function of the open file: its name, contents and position. *)
Definition open_file (v : Vol) (name : string) (c : list Z) (pos : nat) : Prop :=
  handle v = Some (name, pos) ∧ files v !! name = Some c.

Class FatFsLaws `{FatFs} (fd : FIL) := {
  view : FS → Vol;
  law_open_existing : ∀ name x, let '(r, x') := f_open fd name (Z.lor FA_OPEN_EXISTING FA_READ) x in
    (r, view x') = vol_open name false (view x);
  law_open_always : ∀ name x,
    let '(r, x') := f_open fd name (Z.lor (Z.lor FA_OPEN_ALWAYS FA_READ) FA_WRITE) x in
    (r, view x') = vol_open name true (view x);
  law_open_write : ∀ name x,
    let '(r, x') := f_open fd name (Z.lor FA_OPEN_ALWAYS FA_WRITE) x in
    (r, view x') = vol_open name true (view x);
  law_close : ∀ x, view (f_close fd x).2 = MkVol (files (view x)) None;
  law_unlink : ∀ name x, handle (view x) = None →
    view (f_unlink name x).2 = vol_unlink name (view x);
  law_gets : ∀ n x name c pos, open_file (view x) name c pos →
    let '(r, x') := f_gets fd (S n) x in
    let l := line_of n (drop pos c) in
    r = (if decide (l = []) then None else Some l) ∧
    view x' = MkVol (files (view x)) (Some (name, (pos + length l)%nat));
  law_read : ∀ n x name c pos, open_file (view x) name c pos →
    let '(r, x') := f_read fd n x in
    r = (FR_OK, take n (drop pos c)) ∧
    view x' = MkVol (files (view x)) (Some (name, (pos + length (take n (drop pos c)))%nat));
  law_rewind : ∀ x name c pos, open_file (view x) name c pos →
    let '(r, x') := f_lseek fd 0 x in
    r = FR_OK ∧ view x' = MkVol (files (view x)) (Some (name, 0%nat));
  law_truncate : ∀ x name c pos, open_file (view x) name c pos →
    let '(r, x') := f_truncate fd x in
    r = FR_OK ∧ view x' = MkVol (<[name := take pos c]> (files (view x))) (Some (name, pos));
  law_write : ∀ data x name c pos, open_file (view x) name c pos →
    let '(r, x') := f_write fd data x in
    r = (FR_OK, Z.of_nat (length data)) ∧
    view x' = MkVol (<[name := take pos c ++ data ++ drop (pos + length data) c]> (files (view x)))
                (Some (name, (pos + length data)%nat));
  law_sync : ∀ x, let '(r, x') := f_sync fd x in r = FR_OK ∧ view x' = view x;
}.
