(* ===== verification/Sdcard.v ===== *)
(** * Configuration from the SD card ([sdcard.c])

    [NET.CNF] is parsed line by line, in place, in a buffer of 64 characters;
    [EEPROM.NEW] and [EEPROM.DAT] are compared with a buffer that is meant to hold
    the EEPROM.  The model works on the buffer with indices for pointers; the
    specification on words.  [SdcardSpec] relates them. *)

From S2P Require Import Prelude Words Floats Machine Regs I2c CStr FatFs.

(** lwIP's character class and address parser ([0] for an address it refuses). *)
Class Lwip := {
  lwip_isspace : Z → bool;
  inet_aton : list Z → option Z;
}.

(** [EE_SIZE] as an argument of [malloc] and [f_read] *)
Definition ee_size : nat := Z.to_nat EE_SIZE.
#[global] Arguments ee_size : simpl never.

(** lwip/netif.h *)
Definition NETIF_MAX_HWADDR_LEN : nat := 6.

(** [local.h] *)
Record net_config := MkConf {
  addr : Z;
  mask : Z;
  gw : Z;
  use_static : Z;
  hwaddr : list Z;
}.

Definition set_addr (a : Z) (c : net_config) : net_config :=
  MkConf a (mask c) (gw c) (use_static c) (hwaddr c).
Definition set_mask (a : Z) (c : net_config) : net_config :=
  MkConf (addr c) a (gw c) (use_static c) (hwaddr c).
Definition set_gw (a : Z) (c : net_config) : net_config :=
  MkConf (addr c) (mask c) a (use_static c) (hwaddr c).
Definition set_static (b : Z) (c : net_config) : net_config :=
  MkConf (addr c) (mask c) (gw c) b (hwaddr c).
Definition set_hwaddr (h : list Z) (c : net_config) : net_config :=
  MkConf (addr c) (mask c) (gw c) (use_static c) h.

(** Any address, or none when it is refused. *)
Definition opt_set (f : Z → net_config → net_config) (a : option Z) (c : net_config) : net_config :=
  match a with Some a => f a c | None => c end.

Section sdcard.
Context `{Platform, Lwip, FatFs, Heap}.

(** A pointer that may be null; one into the line buffer is an [option nat]. *)
Definition deref {A} (p : option A) : res A :=
  match p with Some a => Ok a | None => Ub ub_null end.

Definition sdcard_parse_inet (lbuf : list Z) (arg : option nat) : res (option Z) :=
  match arg with
  | None => Ok None
  | Some a => s ← cstring (S (length lbuf)) lbuf a; Ok (inet_aton s)
  end.

(** The digit or'ed into [out]; [None] when [in] is no digit. *)
Definition parse_hex (in_ out : Z) : option Z :=
  if (48 <=? in_) && (in_ <=? 57) then Some (Z.lor out (in_ - 48))
  else if (65 <=? in_) && (in_ <=? 70) then Some (Z.lor out (in_ - 65 + 10))
  else if (97 <=? in_) && (in_ <=? 102) then Some (Z.lor out (in_ - 97 + 10))
  else None.

(** The loop over the parts of a hardware address, [n] of [NETIF_MAX_HWADDR_LEN]
    with [k] to go; the address when all parts are good. *)
Fixpoint hwaddr_loop (lbuf : list Z) (arg : nat) (k n : nat) (hw : list Z) : res (option (list Z)) :=
  match k with
  | O => Ok None
  | S k =>
      let part := (arg + n * 3)%nat in
      p0 ← get lbuf part;
      h ← get hw n;
      match parse_hex p0 h with
      | None => Ok None
      | Some h =>
          let h := u8 (Z.shiftl h 4) in
          p1 ← get lbuf (part + 1);
          match parse_hex p1 h with
          | None => Ok None
          | Some h =>
              let hw := <[n := h]> hw in
              p2 ← get lbuf (part + 2);
              if (n <? NETIF_MAX_HWADDR_LEN - 1)%nat && (p2 =? 58) then
                hwaddr_loop lbuf arg k (S n) hw
              else if (n =? NETIF_MAX_HWADDR_LEN - 1)%nat && (p2 =? 0) then Ok (Some hw)
              else Ok None
          end
      end
  end.

(** The value of a [hwaddr] line; [printf] prints the argument first. *)
Definition netconf_hwaddr (conf : net_config) (lbuf : list Z) (arg : option nat) : M net_config :=
  arg ← lift (deref arg);
  eeprom ← lift (strcmp_eq lbuf arg (zs "eeprom"));
  if eeprom : bool then
    mac ← i2c_get_mac_address (hwaddr conf);
    mret (set_hwaddr mac conf)
  else
    r ← lift (hwaddr_loop lbuf arg NETIF_MAX_HWADDR_LEN 0 (replicate NETIF_MAX_HWADDR_LEN 0));
    match r with
    | Some hw => mret (set_hwaddr hw conf)
    | None => mret conf
    end.

Definition netconf_dhcp (conf : net_config) (lbuf : list Z) (arg : option nat) : res net_config :=
  match arg with
  | None => Ok (set_static 0 conf)
  | Some a =>
      yes ← strcmp_eq lbuf a (zs "yes");
      if yes : bool then Ok (set_static 0 conf)
      else (no ← strcmp_eq lbuf a (zs "no");
            Ok (if no : bool then set_static 1 conf else conf))
  end.

(** The commands of a line, [cmd] and [arg] terminated. *)
Definition netconf_cmd (conf : net_config) (lbuf : list Z) (cmd : nat) (arg : option nat) : M net_config :=
  dhcp ← lift (strcmp_eq lbuf cmd (zs "dhcp"));
  if dhcp : bool then lift (netconf_dhcp conf lbuf arg) else
  is_addr ← lift (strcmp_eq lbuf cmd (zs "addr"));
  if is_addr : bool then
    a ← lift (sdcard_parse_inet lbuf arg);
    mret (set_static 1 (opt_set set_addr a conf))
  else
  is_mask ← lift (strcmp_eq lbuf cmd (zs "mask"));
  if is_mask : bool then
    a ← lift (sdcard_parse_inet lbuf arg);
    mret (opt_set set_mask a conf)
  else
  is_gw ← lift (strcmp_eq lbuf cmd (zs "gw"));
  if is_gw : bool then
    a ← lift (sdcard_parse_inet lbuf arg);
    mret (opt_set set_gw a conf)
  else
  is_hwaddr ← lift (strcmp_eq lbuf cmd (zs "hwaddr"));
  if is_hwaddr : bool then netconf_hwaddr conf lbuf arg
  else mret conf.

(** [line[0] && !lwip_isspace(line[0])] *)
Definition in_word (c : Z) : bool := negb (c =? 0) && negb (lwip_isspace c).

(** The body of the loop over the lines; it changes the buffer as well. *)
Definition netconf_line (conf : net_config) (lbuf : list Z) : M (net_config * list Z) :=
  let skip p i := lift (scan p (S (length lbuf)) lbuf i) in
  line ← skip lwip_isspace 0%nat;
  c ← lift (get lbuf line);
  if (c =? 0) || (c =? 35) then mret (conf, lbuf) else
  let cmd := line in
  line ← skip in_word line;
  let cmdend := line in
  line ← skip lwip_isspace line;
  lbuf ← lift (put lbuf cmdend 0);
  c ← lift (get lbuf line);
  if c =? 0 then
    conf ← netconf_cmd conf lbuf cmd None;
    mret (conf, lbuf)
  else
    let arg := line in
    line ← lift (scan in_word (S (length lbuf)) lbuf line);
    lbuf ← lift (put lbuf line 0);
    conf ← netconf_cmd conf lbuf cmd (Some arg);
    mret (conf, lbuf).

Fixpoint netconf_loop (fuel : nat) (conf : net_config) (lbuf : list Z) (fd : FIL) : D net_config :=
  match fuel with
  | O => dev (undefined ub_nonterm)
  | S fuel =>
      r ← fs (f_gets fd (length lbuf));
      match r with
      | None => mret conf
      | Some line =>
          '(conf, lbuf) ← dev (netconf_line conf (line ++ 0 :: drop (S (length line)) lbuf));
          netconf_loop fuel conf lbuf fd
      end
  end.

(** [char lbuf[64]], indeterminate at first *)
Definition sdcard_netconf `{!Runtime} (fuel : nat) (conf : net_config) (fd : FIL) : D net_config :=
  netconf_loop fuel conf (stack_bytes 64) fd.

(** [for (i = 0; i < EE_SIZE && match; i++) match = ee[i] == file[i]] *)
Fixpoint match_loop (k i : nat) (ee file : option (list Z)) (m : bool) : res bool :=
  match k with
  | O => Ok m
  | S k =>
      if m then
        ee' ← deref ee;
        a ← get ee' i;
        file' ← deref file;
        b ← get file' i;
        match_loop k (S i) ee file (a =? b)
      else Ok false
  end.

(** The rewriting of [EEPROM.DAT]; [true] when it fails. *)
Definition rewrite_file (fd : FIL) (ee : option (list Z)) : D bool :=
  let not_ok (r : Z) := negb (r =? FR_OK) in
  orelse (r ← fs (f_lseek fd 0); mret (not_ok r))
    (orelse (r ← fs (f_truncate fd); mret (not_ok r))
       (ee ← dev (lift (deref ee));
        '(r, w) ← fs (f_write fd (take ee_size ee));
        if not_ok r then mret true
        else if negb (w =? Z.of_nat ee_size) then mret true
        else r ← fs (f_sync fd); mret (not_ok r))).

(** [eewrite] decides between file to EEPROM and EEPROM to file. *)
Definition sdcard_sync_eeprom (fd : FIL) (eewrite : bool) : D unit :=
  let ee := malloc 0 ee_size in
  file ← dev (lift (deref (malloc 1 ee_size)));
  '(r, file, n) ← read_into fd file ee_size;
  if negb (r =? FR_OK) then mret tt else
  m ← dev (lift (match_loop ee_size 0 ee (Some file) (n =? ee_size)%nat));
  if m : bool then mret tt
  else if eewrite then mret tt     (* both branches only print: [ee_write] is commented out *)
  else failed ← rewrite_file fd ee; mret tt.

Definition sdcard_process `{!Runtime} (fuel : nat) (conf : net_config) : D net_config :=
  let fd := sd_fil in
  ret ← fs (f_open fd "NET.CNF" (Z.lor FA_OPEN_EXISTING FA_READ));
  conf ← (if negb (ret =? FR_OK) then mret conf
          else conf ← sdcard_netconf fuel conf fd;
               _ ← fs (f_close fd);
               mret conf);
  ret ← fs (f_open fd "EEPROM.NEW" (Z.lor FA_OPEN_EXISTING FA_READ));
  (if negb (ret =? FR_OK) then mret tt
   else sdcard_sync_eeprom fd true;;
        _ ← fs (f_close fd);
        _ ← fs (f_unlink "EEPROM.NEW");
        mret tt);;
  ret ← fs (f_open fd "EEPROM.DAT" (Z.lor (Z.lor FA_OPEN_ALWAYS FA_READ) FA_WRITE));
  (if negb (ret =? FR_OK) then mret tt
   else sdcard_sync_eeprom fd false;;
        _ ← fs (f_close fd);
        mret tt);;
  mret conf.

(** [1] when the partition cannot be used *)
Definition sdcard_trypart `{!Runtime} (fuel : nat) (conf : net_config) (root : string)
    : D (Z * net_config) :=
  r ← fs (f_mount root);
  if negb (r =? FR_OK) then mret (1, conf) else
  r ← fs (f_chdir root);
  if negb (r =? FR_OK) then
    _ ← fs (f_unmount root);
    mret (1, conf)
  else
    conf ← sdcard_process fuel conf;
    mret (0, conf).

Definition sdcard_handle `{!Runtime} (fuel : nat) (conf : net_config) : D net_config :=
  '(r, conf) ← sdcard_trypart fuel conf "0:/";
  if r =? 0 then mret conf
  else '(r, conf) ← sdcard_trypart fuel conf "1:/"; mret conf.
End sdcard.
