(* ===== verification/SdcardSpec.v ===== *)
(** * The configuration file, specified on words, and the EEPROM files

    A line of [NET.CNF] is a command word and an optional argument word.  The
    parser, which cuts the words out of its line buffer in place, refines this. *)

From S2P Require Import Prelude Words Floats Machine I2c CStr FatFs Sdcard.

(** ** The specification *)

Section spec.
Context `{Platform, Lwip, FatFs, Heap}.

Definition not_space (c : Z) : bool := negb (lwip_isspace c).

(** The words of a line that is neither blank nor a comment. *)
Definition line_words (line : list Z) : option (list Z * option (list Z)) :=
  let l := drop_while lwip_isspace line in
  if decide (l = [] ∨ head l = Some 35) then None
  else
    let rest := drop_while lwip_isspace (drop_while not_space l) in
    Some (take_while not_space l,
          if decide (rest = []) then None else Some (take_while not_space rest)).

(** Pairs of hexadecimal digits separated by colons; [n] more after the first. *)
Fixpoint parse_mac (n : nat) (s : list Z) : option (list Z) :=
  match s with
  | a :: b :: s =>
      h ← parse_hex a 0;
      l ← parse_hex b 0;
      match n, s with
      | O, [] => Some [16 * h + l]
      | S n, c :: s => if c =? 58 then (λ m, (16 * h + l) :: m) <$> parse_mac n s else None
      | _, _ => None
      end
  | _ => None
  end.

Definition spec_dhcp (conf : net_config) (arg : option (list Z)) : net_config :=
  if decide (arg = None ∨ arg = Some (zs "yes")) then set_static 0 conf
  else if decide (arg = Some (zs "no")) then set_static 1 conf
  else conf.

Definition spec_hwaddr (conf : net_config) (arg : option (list Z)) : M net_config :=
  match arg with
  | None => undefined ub_null
  | Some a =>
      if decide (a = zs "eeprom") then
        mac ← i2c_get_mac_address (hwaddr conf);
        mret (set_hwaddr mac conf)
      else mret (match parse_mac 5 a with Some m => set_hwaddr m conf | None => conf end)
  end.

Definition spec_cmd (conf : net_config) (cmd : list Z) (arg : option (list Z)) : M net_config :=
  if decide (cmd = zs "dhcp") then mret (spec_dhcp conf arg)
  else if decide (cmd = zs "addr") then
    mret (set_static 1 (opt_set set_addr (arg ≫= inet_aton) conf))
  else if decide (cmd = zs "mask") then mret (opt_set set_mask (arg ≫= inet_aton) conf)
  else if decide (cmd = zs "gw") then mret (opt_set set_gw (arg ≫= inet_aton) conf)
  else if decide (cmd = zs "hwaddr") then spec_hwaddr conf arg
  else mret conf.

Definition spec_line (conf : net_config) (line : list Z) : M net_config :=
  match line_words line with
  | None => mret conf
  | Some (cmd, arg) => spec_cmd conf cmd arg
  end.

(** A file: its lines, as [f_gets] delivers them, one after the other. *)
Fixpoint spec_lines (conf : net_config) (lines : list (list Z)) : M net_config :=
  match lines with
  | [] => mret conf
  | line :: lines =>
      conf ← spec_line conf (take_while (λ c, negb (c =? 0)) line);
      spec_lines conf lines
  end.

Fixpoint file_lines (fuel : nat) (rest : list Z) : list (list Z) :=
  match fuel, rest with
  | S fuel, _ :: _ => let l := line_of 63 rest in l :: file_lines fuel (drop (length l) rest)
  | _, _ => []
  end.
End spec.

(** ** The hardware address parser *)

Section mac.
Context `{Platform, Lwip, FatFs, Heap}.

Lemma parse_hex_or c h v : parse_hex c 0 = Some v → parse_hex c h = Some (Z.lor h v) ∧ 0 ≤ v < 16.
Proof.
  unfold parse_hex. destruct (Z.leb_spec 48 c), (Z.leb_spec c 57), (Z.leb_spec 65 c),
    (Z.leb_spec c 70), (Z.leb_spec 97 c), (Z.leb_spec c 102); cbn [andb]; try lia; try done;
    rewrite Z.lor_0_l; intros [= <-]; split; try done; lia.
Qed.

Lemma parse_hex_none c h : parse_hex c 0 = None → parse_hex c h = None.
Proof. unfold parse_hex. by repeat destruct (_ && _). Qed.

(** The high digit is shifted into place before the low one is added. *)
Lemma hex_byte h l : 0 ≤ h < 16 → 0 ≤ l < 16 → Z.lor (u8 (Z.shiftl h 4)) l = 16 * h + l.
Proof.
  intros Hh Hl. rewrite Z.shiftl_mul_pow2 by lia. change (2 ^ 4) with 16.
  rewrite u8_id by (unfold is_u8; lia).
  assert (∃ k, h = Z.of_nat k ∧ (k < 16)%nat) as (k & -> & Hk) by (exists (Z.to_nat h); lia).
  assert (∃ j, l = Z.of_nat j ∧ (j < 16)%nat) as (j & -> & Hj) by (exists (Z.to_nat l); lia).
  do 16 (destruct k as [|k]; [do 16 (destruct j as [|j]; [reflexivity|]); lia|]). lia.
Qed.

Lemma run_hwaddr_loop lbuf i k :
  ∀ n s hw, str_at lbuf (i + n * 3) s → (n + S k = 6)%nat → length hw = 6%nat →
  drop n hw = replicate (S k) 0 →
  hwaddr_loop lbuf i (S k) n hw = Ok ((λ m, take n hw ++ m) <$> parse_mac k s).
Proof.
  induction k as [|k IH]; intros n s hw Hs Hn Hl Hz.
  2: remember (S k) as k1 eqn:Ek in |- * at 1.
  all: cbn [hwaddr_loop parse_mac]; rewrite (str_at_get _ _ _ Hs); cbn [mbind res_bind].
  all: assert (get hw n = Ok 0) as -> by (unfold get; by rewrite (proj1 (drop_lookup _ _ _ _ Hz))); cbn [mbind res_bind].
  all: destruct s as [|a s]; [done|]; apply str_at_cons in Hs as (_ & _ & Hs); cbn [hd parse_mac].
  all: destruct (parse_hex a 0) as [h|] eqn:Ea; [|by destruct s].
  all: apply (parse_hex_or _ 0) in Ea as [_ Hh16].
  all: replace (i + n * 3 + 1)%nat with (S (i + n * 3)) by lia; rewrite (str_at_get _ _ _ Hs).
  all: cbn [mbind res_bind option_bind]; destruct s as [|b s]; [done|].
  all: apply str_at_cons in Hs as (_ & _ & Hs); cbn [hd].
  all: destruct (parse_hex b 0) as [l|] eqn:Eb; cbn [mbind option_bind]; [|by rewrite parse_hex_none].
  all: apply (parse_hex_or _ (u8 (Z.shiftl h 4))) in Eb as [-> Hl16]; rewrite hex_byte by done.
  all: replace (i + n * 3 + 2)%nat with (S (S (i + n * 3))) by lia; rewrite (str_at_get _ _ _ Hs).
  all: cbn [mbind res_bind]; unfold NETIF_MAX_HWADDR_LEN.
  - assert (n = 5)%nat as -> by lia. destruct s as [|c s].
    + cbn [hd]. cbn -[insert take]. do 2 f_equal.
      rewrite <- (take_drop 5 hw) at 1. rewrite Hz.
      rewrite insert_app_r_alt by (rewrite length_take; lia).
      rewrite length_take, Hl. done.
    + apply str_at_cons in Hs as (_ & Hc & _). cbn [hd].
      change (5 <? 6 - 1)%nat with false. cbn [andb].
      by rewrite (proj2 (Z.eqb_neq _ _)), andb_false_r.
  - rewrite (proj2 (Nat.ltb_lt _ _)), (proj2 (Nat.eqb_neq n _)) by lia. cbn [andb].
    destruct s as [|c s]; [done|]. apply str_at_cons in Hs as (_ & _ & Hs). cbn [hd].
    destruct (Z.eqb_spec c 58) as [->|]; [|done].
    subst k1. rewrite (IH (S n) s (<[n:=16 * h + l]> hw)).
    + rewrite <- option_fmap_compose. f_equal. apply option_fmap_ext. intros m. unfold compose.
      rewrite (take_S_r _ _ (16 * h + l)) by (rewrite list_lookup_insert_eq; [done|lia]).
      by rewrite take_insert_ge, <- app_assoc by lia.
    + replace (i + S n * 3)%nat with (S (S (S (i + n * 3)))) by lia. done.
    + lia.
    + by rewrite length_insert.
    + rewrite drop_insert_lt by lia. apply (f_equal (drop 1)) in Hz. rewrite drop_drop in Hz.
      replace (n + 1)%nat with (S n) in Hz by lia. done.
Qed.
End mac.

(** ** A line *)

Class LwipLaws `{Lwip} := {
  isspace_spec : ∀ c, lwip_isspace c = true ↔ c = 32 ∨ 9 ≤ c ≤ 13;
}.

Section line.
Context `{Platform, Lwip, !LwipLaws, FatFs, Heap}.

Lemma isspace_nul : lwip_isspace 0 = false.
Proof. apply not_true_iff_false. rewrite isspace_spec. lia. Qed.

(** The argument word, where there is one. *)
Definition arg_at (lbuf : list Z) (p : option nat) (arg : option (list Z)) : Prop :=
  match p, arg with
  | Some i, Some a => str_at lbuf i a
  | None, None => True
  | _, _ => False
  end.

Lemma run_parse_inet lbuf p arg :
  arg_at lbuf p arg → sdcard_parse_inet lbuf p = Ok (arg ≫= inet_aton).
Proof.
  destruct p as [i|], arg as [a|]; cbn -[cstring]; try done. intros Ha.
  by rewrite (run_cstring _ _ _ _ Ha (str_at_fuel _ _ _ Ha)).
Qed.

Lemma run_netconf_dhcp conf lbuf p arg :
  arg_at lbuf p arg → netconf_dhcp conf lbuf p = Ok (spec_dhcp conf arg).
Proof.
  unfold netconf_dhcp, spec_dhcp. destruct p as [i|], arg as [a|]; cbn [arg_at]; try done.
  intros Ha. rewrite (run_strcmp _ _ _ (zs "yes") Ha) by literal. cbn [mbind res_bind].
  rewrite <- decide_bool_decide. destruct (decide (a = zs "yes")) as [->|Hy]; [by case_decide; naive_solver|].
  rewrite (run_strcmp _ _ _ (zs "no") Ha) by literal. cbn [mbind res_bind].
  rewrite <- decide_bool_decide. repeat case_decide; intuition congruence.
Qed.

Lemma run_netconf_hwaddr conf lbuf p arg s :
  arg_at lbuf p arg → netconf_hwaddr conf lbuf p s = spec_hwaddr conf arg s.
Proof.
  unfold netconf_hwaddr, spec_hwaddr. destruct p as [i|], arg as [a|]; cbn [arg_at]; try done.
  intros Ha. cbn [deref]. unfold mbind at 1, M_bind, lift at 1.
  rewrite (run_strcmp _ _ _ (zs "eeprom") Ha) by literal.
  unfold mbind at 1, M_bind, lift at 1. rewrite <- decide_bool_decide.
  destruct (decide (a = zs "eeprom")) as [->|]; [done|].
  rewrite (run_hwaddr_loop lbuf i 5 0 a) by (rewrite ?Nat.add_0_r; done).
  unfold mbind at 1, M_bind, lift at 1. by destruct (parse_mac 5 a).
Qed.

Lemma run_cmd {A} lbuf i cmd lit (m1 m2 : M A) s :
  str_at lbuf i cmd → 0 ∉ zs lit →
  (b ← lift (strcmp_eq lbuf i (zs lit)); if b : bool then m1 else m2) s
  = (if decide (cmd = zs lit) then m1 else m2) s.
Proof.
  intros Hc Hl. rewrite (run_strcmp _ _ _ _ Hc Hl). unfold mbind, M_bind, lift.
  by rewrite <- decide_bool_decide.
Qed.

Lemma run_netconf_cmd conf lbuf i cmd p arg s :
  str_at lbuf i cmd → arg_at lbuf p arg →
  netconf_cmd conf lbuf i p s = spec_cmd conf cmd arg s.
Proof.
  intros Hc Ha. unfold netconf_cmd, spec_cmd.
  pose proof (run_parse_inet _ _ _ Ha) as Hi.
  rewrite (run_cmd _ _ cmd) by (done || literal).
  case_decide; [by rewrite (run_netconf_dhcp _ _ _ _ Ha)|].
  do 3 (rewrite (run_cmd _ _ cmd) by (done || literal);
    case_decide; [by rewrite Hi|]).
  rewrite (run_cmd _ _ cmd) by (done || literal).
  case_decide; [by apply run_netconf_hwaddr|done].
Qed.

(** Inside a string the terminator plays no role. *)
Lemma words_of_string s :
  0 ∉ s → take_while in_word s = take_while not_space s ∧ drop_while in_word s = drop_while not_space s.
Proof.
  intros Hnul. induction s as [|c s IH]; [done|]. apply not_elem_of_cons in Hnul as [Hc Hnul].
  destruct (IH Hnul) as [E1 E2]. cbn. unfold in_word, not_space in *.
  rewrite (proj2 (Z.eqb_neq c 0)) by done. cbn. destruct (lwip_isspace c); cbn; [done|]. by rewrite E1, E2.
Qed.

Lemma run_skip_space lbuf i l :
  str_at lbuf i l →
  scan lwip_isspace (S (length lbuf)) lbuf i = Ok (i + length (take_while lwip_isspace l))%nat ∧
  str_at lbuf (i + length (take_while lwip_isspace l)) (drop_while lwip_isspace l).
Proof. intros Hl. apply run_scan; [done|apply isspace_nul|by eapply str_at_fuel]. Qed.

Lemma run_skip_word lbuf i l :
  str_at lbuf i l →
  scan in_word (S (length lbuf)) lbuf i = Ok (i + length (take_while not_space l))%nat ∧
  str_at lbuf (i + length (take_while not_space l)) (drop_while not_space l).
Proof.
  intros Hl. destruct (words_of_string l) as [<- <-]; [by destruct Hl|].
  apply run_scan; [done|done|by eapply str_at_fuel].
Qed.

Lemma run_lift {A B} (a : A) (f : A → M B) s : (lift (Ok a) ≫= f) s = f a s.
Proof. done. Qed.

Lemma word_starts lbuf i l :
  str_at lbuf i l → ¬ (l = [] ∨ head l = Some 35) → (hd 0 l =? 0) || (hd 0 l =? 35) = false.
Proof.
  destruct l as [|c l]; [naive_solver|]. intros (_ & Hc & _)%str_at_cons Hn. cbn.
  case_Zb; naive_solver.
Qed.

Lemma hd_nonzero lbuf i l : str_at lbuf i l → l ≠ [] → (hd 0 l =? 0) = false.
Proof.
  destruct l as [|c l]; [done|]. intros (_ & Hc & _)%str_at_cons _. by apply Z.eqb_neq.
Qed.

(** What follows a word starts with a space. *)
Lemma space_after_word l :
  drop_while not_space l ≠ [] →
  (0 < length (take_while lwip_isspace (drop_while not_space l)))%nat.
Proof.
  destruct (drop_while not_space l) as [|c r] eqn:E; [done|]. intros _.
  apply drop_while_head in E. unfold not_space in E. apply negb_false_iff in E.
  cbn. rewrite E. cbn. lia.
Qed.

(** The words of a line do not overlap: cutting the second leaves the first. *)
Lemma run_netconf_line conf lbuf line :
  str_at lbuf 0 line →
  ∃ lbuf', length lbuf' = length lbuf ∧
    ∀ s, netconf_line conf lbuf s = (conf' ← spec_line conf line; mret (conf', lbuf')) s.
Proof.
  intros Hs. unfold netconf_line, spec_line, line_words.
  destruct (run_skip_space _ _ _ Hs) as [E0 Hl]. cbn [Nat.add] in *.
  set (i0 := length (take_while _ _)) in *. set (l := drop_while _ line) in *.
  destruct (decide (l = [] ∨ head l = Some 35)) as [Hskip|Hword].
  { exists lbuf. split; [done|]. intros s. rewrite E0, run_lift, (str_at_get _ _ _ Hl), run_lift.
    destruct l as [|c l']; [done|]. by destruct Hskip as [|[= ->]]. }
  destruct (run_skip_word _ _ _ Hl) as [E1 H1r].
  set (cmd := take_while not_space l) in *. set (r1 := drop_while not_space l) in *.
  destruct (run_skip_space _ _ _ H1r) as [E2 H2r]. set (r2 := drop_while lwip_isspace r1) in *.
  set (i2 := (i0 + length cmd + length (take_while lwip_isspace r1))%nat) in *.
  destruct (run_cut lbuf i0 cmd r1) as (b1 & P1 & L1 & C1 & K1);
    [unfold cmd, r1; by rewrite take_drop_while|].
  assert (Hgap : r2 ≠ [] → (i0 + length cmd < i2)%nat).
  { intros Hr2. pose proof (space_after_word l) as Hsp. fold r1 in Hsp. unfold i2.
    destruct (decide (r1 = [])) as [E|Hr1]; [|specialize (Hsp Hr1); lia].
    unfold r2 in Hr2. by rewrite E in Hr2. }
  assert (H2b : str_at b1 i2 r2).
  { destruct (decide (r1 = [])) as [E|Hr1].
    - unfold i2, r2. rewrite E, Nat.add_0_r. apply str_at_app. by rewrite app_nil_r.
    - apply K1; [|done]. left. pose proof (space_after_word l Hr1) as Hsp. fold r1 in Hsp. unfold i2. lia. }
  destruct (decide (r2 = [])) as [Er2|Hr2].
  - exists b1. split; [done|]. intros s.
    rewrite E0, run_lift, (str_at_get _ _ _ Hl), run_lift, (word_starts _ _ _ Hl Hword).
    rewrite E1, run_lift, E2, run_lift, P1, run_lift, (str_at_get _ _ _ H2b), run_lift, Er2.
    cbn [hd Z.eqb]. unfold mbind, M_bind. by rewrite (run_netconf_cmd _ _ _ cmd _ None).
  - destruct (run_skip_word _ _ _ H2b) as [E3 H3r]. set (arg := take_while not_space r2) in *.
    destruct (run_cut b1 i2 arg (drop_while not_space r2)) as (b2 & P2 & L2 & C2 & K2);
      [unfold arg; by rewrite take_drop_while|].
    exists b2. split; [congruence|]. intros s.
    rewrite E0, run_lift, (str_at_get _ _ _ Hl), run_lift, (word_starts _ _ _ Hl Hword).
    rewrite E1, run_lift, E2, run_lift, P1, run_lift, (str_at_get _ _ _ H2b), run_lift.
    rewrite (hd_nonzero _ _ _ H2b Hr2), E3, run_lift, P2, run_lift. unfold mbind, M_bind.
    rewrite (run_netconf_cmd _ _ _ cmd _ (Some arg)); [done| |done].
    apply K2; [|done]. right. specialize (Hgap Hr2). lia.
Qed.
End line.

(** ** The file *)

Section file.
Context `{Platform, Lwip, !LwipLaws, FatFs, !FatFsLaws sd_fil, Heap, Runtime}.

Lemma length_line_of n rest :
  (length (line_of n rest) ≤ n ∧ length (line_of n rest) ≤ length rest)%nat.
Proof.
  revert rest. induction n as [|n IH]; intros [|c rest]; cbn; try lia.
  destruct (c =? 10); cbn; [lia|]. specialize (IH rest). lia.
Qed.

Lemma line_of_cons n c rest : (0 < n)%nat → line_of n (c :: rest) ≠ [].
Proof. destruct n; cbn; [lia|]. by destruct (c =? 10). Qed.

Lemma run_netconf_loop name c fuel :
  ∀ x pos, open_file (view x) name c pos → (length (drop pos c) ≤ fuel)%nat →
  ∃ x', view x' = MkVol (files (view x)) (Some (name, (pos + length (drop pos c))%nat)) ∧
    ∀ conf lbuf s, length lbuf = 64%nat →
      netconf_loop (S fuel) conf lbuf sd_fil x s
      = (conf' ← spec_lines conf (file_lines fuel (drop pos c)); mret (conf', x')) s.
Proof.
  induction fuel as [|fuel IH]; intros x pos Ho Hf.
  - assert (drop pos c = []) as Er by (destruct (drop pos c); [done|cbn in Hf; lia]).
    pose proof (law_gets 63 x name c pos Ho) as Hg. destruct (f_gets sd_fil 64 x) as [r x'] eqn:Eg.
    rewrite Er in *. destruct Hg as [-> Hv]. exists x'. split; [done|]. intros conf lbuf s Hl.
    cbn [netconf_loop]. rewrite run_fs, Hl, Eg. done.
  - pose proof (law_gets 63 x name c pos Ho) as Hg. destruct (f_gets sd_fil 64 x) as [r x1] eqn:Eg.
    cbv zeta in Hg.
    destruct (drop pos c) as [|b rest] eqn:Er.
    { destruct Hg as [-> Hv]. exists x1. split; [done|]. intros conf lbuf s Hl.
      cbn [netconf_loop]. rewrite run_fs, Hl, Eg. done. }
    rewrite <- Er in *. set (line := line_of 63 (drop pos c)) in *.
    assert (Hne : line ≠ []) by (unfold line; rewrite Er; apply line_of_cons; lia).
    rewrite decide_False in Hg by done. destruct Hg as [-> Hv].
    assert (0 < length line)%nat by (destruct line; [done|cbn; lia]).
    pose proof (length_line_of 63 (drop pos c)) as Hline. fold line in Hline.
    rewrite length_drop in Hline, Hf.
    destruct (IH x1 (pos + length line)%nat) as (x' & Hv' & Hrun).
    { destruct Ho. by rewrite Hv. }
    { rewrite length_drop. lia. }
    exists x'. split.
    { rewrite Hv', Hv. cbn [files]. do 3 f_equal. rewrite !length_drop. lia. }
    intros conf lbuf s Hl. cbn [netconf_loop]. rewrite run_fs, Hl, Eg. cbn [fst snd].
    set (buf := line ++ 0 :: _).
    assert (Hbuf : length buf = 64%nat).
    { unfold buf. rewrite length_app. cbn [length]. rewrite length_drop. lia. }
    destruct (run_netconf_line conf buf _ (str_at_line line _)) as (lbuf' & Hl' & E).
    rewrite run_dev_bind. unfold mbind at 1, M_bind at 1. rewrite E.
    rewrite Er. cbn [file_lines spec_lines]. rewrite <- Er. fold line. rewrite drop_drop.
    unfold mbind, M_bind. destruct (spec_line _ _ s) as [[conf1 s1]|u]; [|done]. cbn [mret M_ret].
    exact (Hrun conf1 lbuf' s1 ltac:(congruence)).
Qed.

Lemma file_lines_fuel f1 f2 rest :
  (length rest ≤ f1)%nat → (length rest ≤ f2)%nat → file_lines f1 rest = file_lines f2 rest.
Proof.
  revert f2 rest. induction f1 as [|f1 IH]; intros [|f2] [|c rest] Hr1 Hr2; try done; cbn in Hr1, Hr2; try lia.
  cbn [file_lines]. f_equal. apply IH; rewrite length_drop;
    pose proof (length_line_of 63 (c :: rest)); pose proof (line_of_cons 63 c rest ltac:(lia));
    destruct (line_of 63 (c :: rest)); cbn [length] in *; try done; lia.
Qed.

(** C17: for any file contents (long lines, binary data, no newline at
    the end) the in-place parser stays inside of its 64-character buffer,
    terminates, and configures exactly what the words of the lines specify. *)
Theorem netconf_refines name c x pos fuel conf s :
  open_file (view x) name c pos → (length (drop pos c) < fuel)%nat →
  ∃ x', files (view x') = files (view x) ∧
    sdcard_netconf fuel conf sd_fil x s
    = (conf' ← spec_lines conf (file_lines (length (drop pos c)) (drop pos c)); mret (conf', x')) s.
Proof.
  intros Ho Hf. destruct fuel as [|fuel]; [lia|].
  destruct (run_netconf_loop name c fuel x pos Ho ltac:(lia)) as (x' & V & Hrun).
  exists x'. split; [by rewrite V|]. unfold sdcard_netconf.
  rewrite Hrun by apply stack_bytes_length. by rewrite (file_lines_fuel fuel (length (drop pos c))) by lia.
Qed.

(** ** The EEPROM files *)

Lemma run_match_loop k :
  ∀ i ee file m, length ee = (i + k)%nat → length file = (i + k)%nat →
  match_loop k i (Some ee) (Some file) m = Ok (m && bool_decide (drop i ee = drop i file)).
Proof.
  induction k as [|k IH]; intros i ee file m He Hf; cbn [match_loop].
  - rewrite !drop_ge by lia. by rewrite bool_decide_true, andb_true_r.
  - destruct m; [|done]. cbn [deref mbind res_bind]. unfold get.
    destruct (lookup_lt_is_Some_2 ee i ltac:(lia)) as [a Ea]. rewrite Ea.
    destruct (lookup_lt_is_Some_2 file i ltac:(lia)) as [b Eb]. rewrite Eb. cbn [mbind res_bind].
    rewrite IH by lia. rewrite (drop_S ee a i), (drop_S file b i) by done. f_equal. cbn [andb].
    destruct (Z.eqb_spec a b) as [->|Hne]; cbn [andb].
    + apply bool_decide_ext. split; [congruence|by intros [= ->]].
    + symmetry. apply bool_decide_eq_false. congruence.
Qed.

Lemma match_loop_false k i ee file : match_loop k i ee file false = Ok false.
Proof. by destruct k. Qed.

(** A file of the whole image is kept when it starts with the buffer. *)
Definition new_image (ee c : list Z) : list Z := if decide (take ee_size c = ee) then c else ee.

Lemma run_rewrite x name c pos ee :
  open_file (view x) name c pos → length ee = ee_size →
  ∃ x', (∀ s, rewrite_file sd_fil (Some ee) x s = Ok ((false, x'), s)) ∧
    view x' = MkVol (<[name := ee]> (files (view x))) (Some (name, ee_size)).
Proof.
  intros Ho Hl. unfold rewrite_file. cbv zeta.
  pose proof (law_rewind x name c pos Ho) as L1. destruct (f_lseek sd_fil 0 x) as [r1 x1] eqn:E1.
  destruct L1 as [-> V1].
  pose proof (law_truncate x1 name c 0) as L2. destruct (f_truncate sd_fil x1) as [r2 x2] eqn:E2.
  destruct L2 as [-> V2]; [destruct Ho; by rewrite V1|].
  pose proof (law_write (take ee_size ee) x2 name [] 0) as L3.
  destruct (f_write sd_fil (take ee_size ee) x2) as [[r3 w] x3] eqn:E3.
  destruct L3 as [[= -> ->] V3]; [rewrite V2; split; [done|apply lookup_insert_eq]|].
  pose proof (law_sync x3) as L4. destruct (f_sync sd_fil x3) as [r4 x4] eqn:E4.
  destruct L4 as [-> V4]. exists x4. split.
  - intros s.
    rewrite (run_orelse_false _ _ x s x1 s) by (by rewrite run_fs, E1).
    rewrite (run_orelse_false _ _ x1 s x2 s) by (by rewrite run_fs, E2).
    rewrite run_dev_bind. cbn [deref]. rewrite run_lift, run_fs, E3. cbn [fst snd].
    rewrite take_ge, Hl by lia. cbn [negb Z.eqb FR_OK]. rewrite Z.eqb_refl. cbn [negb].
    by rewrite run_fs, E4.
  - rewrite V4, V3, V2, V1. cbn. rewrite take_ge by lia. rewrite drop_nil, app_nil_r, Hl.
    by rewrite insert_insert_eq.
Qed.

Lemma run_sync eewrite x name c ee file :
  open_file (view x) name c 0 → malloc 0 ee_size = Some ee → malloc 1 ee_size = Some file →
  ∃ x', (∀ s, sdcard_sync_eeprom sd_fil eewrite x s = Ok ((tt, x'), s)) ∧
    files (view x') = if eewrite then files (view x) else <[name := new_image ee c]> (files (view x)).
Proof.
  intros Ho Hm0 Hm1. unfold sdcard_sync_eeprom. rewrite Hm0, Hm1.
  pose proof (malloc_length _ _ _ Hm0) as Hee. pose proof (malloc_length _ _ _ Hm1) as Hfl.
  pose proof (law_read ee_size x name c 0 Ho) as L. destruct (f_read sd_fil ee_size x) as [[r d] x1] eqn:E.
  destruct L as [[= -> ->] V1]. rewrite drop_0 in E, V1.
  set (data := take ee_size c) in *.
  assert (Hd : take ee_size data = data) by (apply take_ge; unfold data; rewrite length_take; lia).
  assert (Hread : ∀ {A} (k : Z * list Z * nat → D A) s, (read_into sd_fil file ee_size ≫= k) x s
    = k (FR_OK, data ++ drop (length data) file, length data) x1 s).
  { intros A k s. apply run_dbind. unfold read_into. rewrite run_fs, E. cbn [fst snd]. by rewrite Hd. }
  assert (Hmatch : match_loop ee_size 0 (Some ee) (Some (data ++ drop (length data) file))
    (length data =? ee_size)%nat = Ok (bool_decide (data = ee))).
  { destruct (Nat.eqb_spec (length data) ee_size) as [Hn|Hn].
    - rewrite run_match_loop by (rewrite ?length_app, ?length_drop; lia). cbn [drop andb].
      rewrite (drop_ge file), app_nil_r by lia. f_equal. by apply bool_decide_ext.
    - rewrite match_loop_false. f_equal. symmetry. apply bool_decide_eq_false. intros ->. lia. }
  destruct (run_rewrite x1 name c (0 + length data) ee) as (x2 & E2 & V2);
    [destruct Ho; by rewrite V1|done|].
  exists (if bool_decide (data = ee) || eewrite then x1 else x2). split.
  - intros s. rewrite run_dev_bind. cbn [deref]. rewrite run_lift, Hread. cbn [negb Z.eqb FR_OK].
    rewrite run_dev_bind, Hmatch, run_lift.
    destruct (bool_decide (data = ee)); [done|]. destruct eewrite; [done|]. cbn [orb].
    by rewrite (run_dbind _ _ _ _ _ _ _ (E2 s)).
  - unfold new_image. fold data. case_bool_decide as Hde; cbn [orb].
    + rewrite decide_True by done. rewrite V1. destruct eewrite; [done|]. cbn [files].
      symmetry. apply insert_id. by destruct Ho.
    + rewrite decide_False by done. destruct eewrite; [by rewrite V1|]. by rewrite V2, V1.
Qed.

(** *** The three files of [sdcard_process] *)

Lemma vol_open_existing name x r x' :
  f_open sd_fil name (Z.lor FA_OPEN_EXISTING FA_READ) x = (r, x') →
  match files (view x) !! name with
  | Some c => r = FR_OK ∧ open_file (view x') name c 0 ∧ files (view x') = files (view x)
  | None => r = FR_NO_FILE ∧ files (view x') = files (view x)
  end.
Proof.
  intros E. pose proof (law_open_existing name x) as L. rewrite E in L. unfold vol_open in L.
  destruct (files (view x) !! name) eqn:El; injection L as -> ->; [|done].
  unfold open_file. cbn. by rewrite El.
Qed.

Definition spec_conf (conf : net_config) (v : Vol) : M net_config :=
  match files v !! "NET.CNF" with
  | Some c => spec_lines conf (file_lines (length c) c)
  | None => mret conf
  end.

Lemma run_conf_file fuel x r x1 :
  f_open sd_fil "NET.CNF" (Z.lor FA_OPEN_EXISTING FA_READ) x = (r, x1) →
  (length (default [] (files (view x) !! "NET.CNF")) < fuel)%nat →
  ∃ x', files (view x') = files (view x) ∧ ∀ conf s,
    (if negb (r =? FR_OK) then mret conf
     else conf ← sdcard_netconf fuel conf sd_fil;
          _ ← fs (f_close sd_fil);
          mret conf) x1 s = (conf' ← spec_conf conf (view x); mret (conf', x')) s.
Proof.
  intros E Hf. pose proof (vol_open_existing _ _ _ _ E) as L. unfold spec_conf.
  destruct (files (view x) !! "NET.CNF") as [c|]; [|by destruct L as [-> Hfs]; exists x1].
  destruct L as (-> & Ho & Hfs). destruct fuel as [|fuel]; [lia|].
  change (length c < S fuel)%nat in Hf.
  destruct (run_netconf_loop "NET.CNF" c fuel x1 0 Ho) as (x2 & V & Hrun); [rewrite drop_0; lia|].
  exists (f_close sd_fil x2).2. split; [by rewrite law_close, V|]. intros conf s.
  cbn [negb Z.eqb FR_OK]. unfold sdcard_netconf.
  rewrite (run_dbind_eq _ _ _ _ _ _ (Hrun conf _ s (stack_bytes_length _))).
  rewrite drop_0, (file_lines_fuel fuel (length c)) by lia.
  apply run_bind_ext. intros a t. by rewrite run_fs.
Qed.

Lemma run_new_file x r x1 ee file :
  malloc 0 ee_size = Some ee → malloc 1 ee_size = Some file →
  f_open sd_fil "EEPROM.NEW" (Z.lor FA_OPEN_EXISTING FA_READ) x = (r, x1) →
  ∃ x', files (view x') = delete "EEPROM.NEW" (files (view x)) ∧ ∀ s,
    (if negb (r =? FR_OK) then mret tt
     else sdcard_sync_eeprom sd_fil true;;
          _ ← fs (f_close sd_fil);
          _ ← fs (f_unlink "EEPROM.NEW");
          mret tt) x1 s = Ok ((tt, x'), s).
Proof.
  intros Hm0 Hm1 E. pose proof (vol_open_existing _ _ _ _ E) as L.
  destruct (files (view x) !! "EEPROM.NEW") as [c|] eqn:El.
  - destruct L as (-> & Ho & Hfs).
    destruct (run_sync true x1 _ _ _ _ Ho Hm0 Hm1) as (x2 & Hrun & V2).
    eexists. split; [|intros s; cbn [negb Z.eqb FR_OK];
      rewrite (run_dbind _ _ _ _ _ _ _ (Hrun s)), !run_fs; reflexivity].
    rewrite law_unlink by by rewrite law_close. rewrite law_close. cbn. by rewrite V2, Hfs.
  - destruct L as [-> Hfs]. exists x1. split; [|done]. by rewrite Hfs, delete_id.
Qed.

Lemma run_dat_file x r x1 ee file :
  malloc 0 ee_size = Some ee → malloc 1 ee_size = Some file →
  f_open sd_fil "EEPROM.DAT" (Z.lor (Z.lor FA_OPEN_ALWAYS FA_READ) FA_WRITE) x = (r, x1) →
  ∃ x', files (view x') = <["EEPROM.DAT" :=
      new_image ee (default [] (files (view x) !! "EEPROM.DAT"))]> (files (view x)) ∧ ∀ s,
    (if negb (r =? FR_OK) then mret tt
     else sdcard_sync_eeprom sd_fil false;;
          _ ← fs (f_close sd_fil);
          mret tt) x1 s = Ok ((tt, x'), s).
Proof.
  intros Hm0 Hm1 E. pose proof (law_open_always "EEPROM.DAT" x) as L. rewrite E in L.
  set (c := default [] (files (view x) !! "EEPROM.DAT")).
  assert (r = FR_OK ∧ open_file (view x1) "EEPROM.DAT" c 0 ∧
    <["EEPROM.DAT" := c]> (files (view x)) = files (view x1)) as (-> & Ho & Hfs).
  { unfold vol_open in L. unfold c, open_file.
    destruct (files (view x) !! "EEPROM.DAT") eqn:El; injection L as -> ->; cbn.
    - rewrite El. split; [done|]. split; [done|]. by apply insert_id.
    - by rewrite lookup_insert_eq. }
  destruct (run_sync false x1 _ _ _ _ Ho Hm0 Hm1) as (x2 & Hrun & V2).
  eexists. split; [|intros s; cbn [negb Z.eqb FR_OK];
    rewrite (run_dbind _ _ _ _ _ _ _ (Hrun s)), !run_fs; reflexivity].
  rewrite law_close. cbn. by rewrite V2, <- Hfs, insert_insert_eq.
Qed.

Lemma run_process fuel x ee file :
  malloc 0 ee_size = Some ee → malloc 1 ee_size = Some file →
  (length (default [] (files (view x) !! "NET.CNF")) < fuel)%nat →
  ∃ x', files (view x') = <["EEPROM.DAT" :=
      new_image ee (default [] (files (view x) !! "EEPROM.DAT"))]>
        (delete "EEPROM.NEW" (files (view x))) ∧
    ∀ conf s, sdcard_process fuel conf x s = (conf' ← spec_conf conf (view x); mret (conf', x')) s.
Proof.
  intros Hm0 Hm1 Hf. destruct (f_open sd_fil "NET.CNF" (Z.lor FA_OPEN_EXISTING FA_READ) x) as [r1 x1] eqn:E1.
  destruct (run_conf_file fuel x r1 x1 E1 Hf) as (x2 & V2 & R2).
  destruct (f_open sd_fil "EEPROM.NEW" (Z.lor FA_OPEN_EXISTING FA_READ) x2) as [r3 x3] eqn:E3.
  destruct (run_new_file x2 r3 x3 ee file Hm0 Hm1 E3) as (x4 & V4 & R4).
  destruct (f_open sd_fil "EEPROM.DAT" (Z.lor (Z.lor FA_OPEN_ALWAYS FA_READ) FA_WRITE) x4)
    as [r5 x5] eqn:E5.
  destruct (run_dat_file x4 r5 x5 ee file Hm0 Hm1 E5) as (x6 & V6 & R6).
  exists x6. split.
  - rewrite V6, V4, V2. by rewrite lookup_delete_ne by done.
  - intros conf s. unfold sdcard_process. rewrite run_fs, E1. cbn [fst snd].
    rewrite (run_dbind_eq _ _ _ _ _ _ (R2 conf s)).
    apply run_bind_ext. intros conf1 s1. rewrite run_fs, E3. cbn [fst snd].
    rewrite (run_dbind _ _ _ _ _ _ _ (R4 s1)), run_fs, E5. cbn [fst snd].
    by rewrite (run_dbind _ _ _ _ _ _ _ (R6 s1)).
Qed.

End file.

(** ** Single lines *)

Section lines.
Context `{Platform, Lwip, !LwipLaws, FatFs, Heap}.

(** The digit of a value below 16, in upper or lower case. *)
Definition hex_digit (upper : bool) (v : Z) : Z :=
  if v <? 10 then 48 + v else if upper then 55 + v else 87 + v.

Definition format_byte (upper : bool) (b : Z) : list Z :=
  [hex_digit upper (b / 16); hex_digit upper (b mod 16)].

(** XX:XX:XX:XX:XX:XX *)
Fixpoint format_mac (upper : bool) (m : list Z) : list Z :=
  match m with
  | [] => []
  | [b] => format_byte upper b
  | b :: m => format_byte upper b ++ 58 :: format_mac upper m
  end.

Lemma parse_hex_digit up v : 0 ≤ v < 16 → parse_hex (hex_digit up v) 0 = Some v.
Proof.
  intros Hv. unfold hex_digit, parse_hex. rewrite !Z.lor_0_l.
  destruct (Z.ltb_spec v 10); [|destruct up].
  - rewrite (proj2 (Z.leb_le 48 _)), (proj2 (Z.leb_le _ 57)) by lia. cbn. f_equal. lia.
  - rewrite (proj2 (Z.leb_gt _ 57)), (proj2 (Z.leb_le 65 _)), (proj2 (Z.leb_le _ 70)) by lia.
    rewrite andb_false_r. cbn. f_equal. lia.
  - rewrite (proj2 (Z.leb_gt _ 57)), (proj2 (Z.leb_gt _ 70)), (proj2 (Z.leb_le 97 _)),
      (proj2 (Z.leb_le _ 102)) by lia.
    rewrite !andb_false_r. cbn. f_equal. lia.
Qed.

Lemma parse_format_mac up b m :
  is_u8 b → Forall is_u8 m → parse_mac (length m) (format_mac up (b :: m)) = Some (b :: m).
Proof.
  unfold is_u8. intros Hb Hm. revert b Hb. induction Hm as [|c m Hc Hm IH]; intros b Hb.
  - cbn. rewrite !parse_hex_digit by zmod_lia. cbn. do 2 f_equal. zmod_lia.
  - change (format_mac up (b :: c :: m)) with (format_byte up b ++ 58 :: format_mac up (c :: m)).
    specialize (IH c Hc). set (rest := format_mac up (c :: m)) in *.
    cbn [format_byte app length parse_mac]. rewrite !parse_hex_digit by zmod_lia.
    cbn [mbind option_bind Z.eqb Pos.eqb]. rewrite IH. cbn. do 2 f_equal. zmod_lia.
Qed.

Lemma hex_digit_word up v : 0 ≤ v < 16 → 48 ≤ hex_digit up v ≤ 102.
Proof. intros Hv. unfold hex_digit. destruct (Z.ltb_spec v 10), up; lia. Qed.

(** The characters of a printed address are those of a word. *)
Lemma format_mac_word up m : Forall is_u8 m → Forall (λ c, 48 ≤ c ≤ 102) (format_mac up m).
Proof.
  unfold is_u8. induction 1 as [|b m Hb Hm IH]; [constructor|].
  assert (Forall (λ c, 48 ≤ c ≤ 102) (format_byte up b)) as Hfb.
  { unfold format_byte. repeat constructor; apply hex_digit_word; zmod_lia. }
  destruct m as [|b' m]; [done|]. cbn [format_mac]. apply Forall_app. split; [done|].
  constructor; [lia|done].
Qed.

Lemma not_space_range c : 48 ≤ c → not_space c = true.
Proof.
  intros Hc. unfold not_space. apply negb_true_iff, not_true_iff_false. rewrite isspace_spec. lia.
Qed.

(** The words of a line [w], spaces, [a]. *)
Lemma line_words_two w sp a :
  Forall (λ c, not_space c = true) w → w ≠ [] → head w ≠ Some 35 →
  Forall (λ c, lwip_isspace c = true) sp → (a ≠ [] → sp ≠ []) →
  Forall (λ c, not_space c = true) a →
  line_words (w ++ sp ++ a) = Some (w, if decide (a = []) then None else Some a).
Proof.
  intros Hw Hne Hh Hsp Hsep Ha. unfold line_words.
  assert (drop_while lwip_isspace (w ++ sp ++ a) = w ++ sp ++ a) as ->.
  { apply (take_while_app _ []); [constructor|]. intros c s' E. destruct w as [|c' w]; [done|].
    injection E as -> _. apply Forall_cons in Hw as [Hc _]. by apply negb_true_iff in Hc. }
  rewrite decide_False by (intros [E|E]; destruct w; done).
  destruct (take_while_app not_space w (sp ++ a)) as [-> ->]; [done| |].
  { intros c s' E. destruct sp as [|c' sp].
    - destruct a; [done|]. by destruct Hsep.
    - injection E as -> _. apply Forall_cons in Hsp as [Hc _]. by apply negb_false_iff. }
  destruct (take_while_app lwip_isspace sp a) as [_ ->]; [done| |].
  { intros c s' ->. apply Forall_cons in Ha as [Hc _]. by apply negb_true_iff in Hc. }
  case_decide; [done|]. do 3 f_equal. rewrite <- (app_nil_r a) at 1.
  by apply take_while_app.
Qed.

Lemma literal_words w : Forall (λ c, 48 ≤ c) w → Forall (λ c, not_space c = true) w.
Proof. intros Hw. eapply Forall_impl; [done|]. apply not_space_range. Qed.

(** A line that sets the hardware address, printed in the
    documented form in either case, sets exactly this address. *)
Theorem hwaddr_roundtrip up conf m tl s :
  length m = 6%nat → Forall is_u8 m →
  ∃ lbuf', netconf_line conf (zs "hwaddr " ++ format_mac up m ++ 0 :: tl) s
           = Ok ((set_hwaddr m conf, lbuf'), s).
Proof.
  intros Hl Hm. pose proof (format_mac_word up m Hm) as Hw.
  assert (Hne : format_mac up m ≠ []) by (by destruct m as [|? [|]]).
  assert (parse_mac 5 (format_mac up m) = Some m) as Hp.
  { destruct m as [|b m]; [done|]. injection Hl as <-.
    apply Forall_cons in Hm as [Hb Hm]. by apply parse_format_mac. }
  set (a := format_mac up m) in *.
  assert (Hs : str_at (zs "hwaddr " ++ a ++ 0 :: tl) 0 (zs "hwaddr " ++ a)).
  { rewrite app_assoc. apply str_at_0. rewrite elem_of_app. intros [Hin|Hin].
    - revert Hin. literal.
    - rewrite Forall_forall in Hw. apply Hw in Hin. lia. }
  destruct (run_netconf_line conf _ _ Hs) as (lbuf' & _ & ->). exists lbuf'.
  unfold spec_line. change (zs "hwaddr " ++ a) with (zs "hwaddr" ++ [32] ++ a).
  rewrite line_words_two; [|apply literal_words; literal|done|done| |done|].
  - rewrite decide_False by done. unfold spec_cmd, spec_hwaddr.
    destruct (decide (a = zs "eeprom")) as [Ea|_]; [|by rewrite Hp].
    rewrite Ea, Forall_forall in Hw. specialize (Hw 112 ltac:(literal)). lia.
  - constructor; [|constructor]. apply isspace_spec. by left.
  - apply literal_words. eapply Forall_impl; [done|]. cbn. lia.
Qed.

(** A [hwaddr] line without an argument prints a null pointer
    as a string before it is tested for null. *)
Theorem hwaddr_no_argument conf sp tl s :
  Forall (λ c, lwip_isspace c = true) sp →
  netconf_line conf (zs "hwaddr" ++ sp ++ 0 :: tl) s = Ub ub_null.
Proof.
  intros Hsp.
  assert (Hs : str_at (zs "hwaddr" ++ sp ++ 0 :: tl) 0 (zs "hwaddr" ++ sp)).
  { rewrite app_assoc. apply str_at_0. rewrite elem_of_app. intros [Hin|Hin].
    - revert Hin. literal.
    - rewrite Forall_forall in Hsp. apply Hsp in Hin. by rewrite isspace_nul in Hin. }
  destruct (run_netconf_line conf _ _ Hs) as (lbuf' & _ & ->).
  unfold spec_line. rewrite <- (app_nil_r sp), line_words_two;
    [done|apply literal_words; literal|done|done|done|done|constructor].
Qed.
End lines.

(** ** What the configuration can do to the rest of the system *)

Section frame.
Context `{Platform, Lwip, FatFs, Heap, Runtime}.

(** The only traffic are requests for the MAC address. *)
Definition mac_requests (s s' : psc) : Prop :=
  pl s' = pl s ∧ flash s' = flash s ∧ scalefactors s' = scalefactors s ∧
  CONVVOLTSTODACBITS s' = CONVVOLTSTODACBITS s ∧ CONVDACBITSTOVOLTS s' = CONVDACBITSTOVOLTS s ∧
  ∃ n, events s' = events s ++ replicate n (I2cSend [IIC_MAC_REG]).

#[local] Instance mac_requests_preorder : PreOrder mac_requests.
Proof.
  split.
  - intros s. repeat split. exists 0%nat. by rewrite app_nil_r.
  - intros s1 s2 s3 (? & ? & ? & ? & ? & n & E1) (? & ? & ? & ? & ? & k & E2).
    repeat split; try congruence. exists (n + k)%nat.
    by rewrite E2, E1, replicate_add, app_assoc.
Qed.

Lemma keeps_get_mac mac : keeps mac_requests (i2c_get_mac_address mac).
Proof.
  intros s r s'. unfold i2c_get_mac_address, recv_into, i2c1_write, i2c1_read, modify, mbind, M_bind.
  cbn -[IIC_MAC_REG]. destruct (eeprom_recv 6 _) as [rx e]. intros [= <- <-].
  repeat split. by exists 1%nat.
Qed.

#[local] Hint Resolve keeps_get_mac : frame.

Lemma keeps_netconf_cmd conf lbuf cmd arg : keeps mac_requests (netconf_cmd conf lbuf cmd arg).
Proof. unfold netconf_cmd, netconf_hwaddr. keeps_walk. Qed.
#[local] Hint Resolve keeps_netconf_cmd : frame.

Lemma keeps_netconf_line conf lbuf : keeps mac_requests (netconf_line conf lbuf).
Proof. unfold netconf_line. keeps_walk. Qed.
#[local] Hint Resolve keeps_netconf_line : frame.

Lemma dkeeps_netconf_loop fuel conf lbuf fd : dkeeps mac_requests (netconf_loop fuel conf lbuf fd).
Proof. revert conf lbuf. induction fuel as [|fuel IH]; intros conf lbuf; cbn [netconf_loop]; keeps_walk; apply IH. Qed.

Lemma dkeeps_sync fd eewrite : dkeeps mac_requests (sdcard_sync_eeprom fd eewrite).
Proof. unfold sdcard_sync_eeprom, rewrite_file. keeps_walk. Qed.
#[local] Hint Resolve dkeeps_netconf_loop dkeeps_sync : frame.

Lemma dkeeps_process fuel conf : dkeeps mac_requests (sdcard_process fuel conf).
Proof. unfold sdcard_process, sdcard_netconf. keeps_walk. Qed.
#[local] Hint Resolve dkeeps_process : frame.

(** Whatever the card holds and however FatFs behaves, reading
    the configuration changes no register, flash sector, scale factor or
    conversion constant, and the only bus traffic are requests for the MAC
    address: in particular EEPROM.NEW is never written to the EEPROM. *)
Theorem sdcard_only_reads_mac fuel conf x s conf' x' s' :
  sdcard_handle fuel conf x s = Ok ((conf', x'), s') →
  pl s' = pl s ∧ flash s' = flash s ∧ scalefactors s' = scalefactors s ∧
  CONVVOLTSTODACBITS s' = CONVVOLTSTODACBITS s ∧ CONVDACBITSTOVOLTS s' = CONVDACBITSTOVOLTS s ∧
  ∃ n, events s' = events s ++ replicate n (I2cSend [IIC_MAC_REG]).
Proof.
  assert (dkeeps mac_requests (sdcard_handle fuel conf)) as Hk.
  { unfold sdcard_handle, sdcard_trypart. keeps_walk. }
  apply Hk.
Qed.

(** The second partition is tried when the first cannot be used; without a card the
    configuration keeps its initial values. *)
Lemma sdcard_handle_no_card fuel conf x s :
  let x1 := (f_mount "0:/" x).2 in
  (f_mount "0:/" x).1 ≠ FR_OK → (f_mount "1:/" x1).1 ≠ FR_OK →
  sdcard_handle fuel conf x s = Ok ((conf, (f_mount "1:/" x1).2), s).
Proof.
  intros x1 Hm0 Hm1. unfold sdcard_handle.
  assert (∀ root y, (f_mount root y).1 ≠ FR_OK →
    sdcard_trypart fuel conf root y s = Ok ((1, conf, (f_mount root y).2), s)) as Htry.
  { intros root y Hm. unfold sdcard_trypart. rewrite run_fs. by rewrite (proj2 (Z.eqb_neq _ _)). }
  rewrite (run_dbind _ _ _ _ _ _ _ (Htry _ x Hm0)). cbn [Z.eqb].
  by rewrite (run_dbind _ _ _ _ _ _ _ (Htry _ _ Hm1)).
Qed.
End frame.
