(* ===== verification/Console.v ===== *)
(** * The serial console ([console.c])

    Console functions are programs of the monad [K]: they read characters from the
    UART, may wait for ever when none comes, and run firmware programs.  What they
    print is left out, apart from the texts of [display_settings]. *)

From S2P Require Import Prelude Words Floats Machine Regs Sadata Qspi Control I2c CStr Stdio.

(** [console.c] *)
Definition MAX_INPUT_LEN : Z := 64.

(** The UART with everything that will be received, and the buffer of [stdin]:
    [None] when the call would wait for ever.  [scanf_s n] is [scanf("%<n>s")]; it
    may fail to convert. *)
Class Uart := {
  IN : Type;
  uart_byte : IN → option (Z * IN);
  scanf_s : nat → IN → option (option (list Z) * IN);
}.

(** xparameters.h *)
Class SysCtrl := { XPS_SYS_CTRL_BASEADDR : Z }.

Inductive outcome `{Platform, Uart} (A : Type) :=
| Done (a : A) (i : IN) (s : psc)
| Wait (s : psc)                      (** no more input *)
| Undef (u : ub).
Arguments Done {_ _ A} a i s.
Arguments Wait {_ _ A} s.
Arguments Undef {_ _ A} u.

Definition K `{Platform, Uart} (A : Type) : Type := IN → psc → outcome A.

Section console.
Context `{Platform, Uart, Runtime, FpEnv, Strtof, SysCtrl}.

#[global] Instance K_ret : MRet K := λ A a i s, Done a i s.
#[global] Instance K_bind : MBind K := λ A B f m i s,
  match m i s with
  | Done a i' s' => f a i' s'
  | Wait s' => Wait s'
  | Undef u => Undef u
  end.

Definition run {A} (m : M A) : K A := λ i s,
  match m s with Ok (a, s') => Done a i s' | Ub u => Undef u end.
Definition kundef {A} (u : ub) : K A := λ i s, Undef u.
Definition klift {A} (r : res A) : K A := run (lift r).

(** [inbyte()], and the poll of the receive FIFO with the read that follows it *)
Definition inbyte : K Z := λ i s,
  match uart_byte i with Some (c, i') => Done (u8 c) i' s | None => Wait s end.

Definition scanf (n : nat) : K (option (list Z)) := λ i s,
  match scanf_s n i with Some (w, i') => Done w i' s | None => Wait s end.

(** *** Input *)

(** The loop of [menu_get_ipaddr]: [index] is a [u32] that nothing bounds. *)
Fixpoint ipaddr_loop (fuel : nat) (ip_addr : list Z) (index : Z) : K (list Z) :=
  match fuel with
  | O => kundef ub_nonterm
  | S fuel =>
      c ← inbyte;
      if c =? 8 then ipaddr_loop fuel ip_addr (u32 (index - 1))
      else if c =? 13 then klift (put ip_addr (Z.to_nat index) 10)
      else ip_addr ← klift (put ip_addr (Z.to_nat index) c);
           ipaddr_loop fuel ip_addr (u32 (index + 1))
  end.

(** [sscanf(ip_addr, "%hhu.%hhu.%hhu.%hhu", ...)]: the octets converted, [k] more *)
Fixpoint scan_octets (k : nat) (buf : list Z) (i : nat) (octets : list Z) : res (list Z) :=
  r ← scan_uint 8 buf i;
  match r with
  | None => Ok octets
  | Some (v, i) =>
      let octets := octets ++ [v] in
      match k with
      | O => Ok octets
      | S k =>
          d ← scan_char 46 buf i;
          match d with Some i => scan_octets k buf i octets | None => Ok octets end
      end
  end.

Definition menu_get_ipaddr (fuel : nat) (octets : list Z) : K (list Z) :=
  ip_addr ← ipaddr_loop fuel (stack_bytes 40) 0;
  new ← klift (scan_octets 3 ip_addr 0 []);
  mret (new ++ drop (length new) octets).

(** [0], [1], or [(u8)-1] *)
Definition get_binary_input : K Z :=
  c ← inbyte;
  mret (if c =? 48 then 0 else if c =? 49 then 1 else u8 (-1)).

(** A line into [buffer], without its end, and terminated; [k] more characters fit. *)
Fixpoint read_line_loop (k idx : nat) (buffer : list Z) : K (list Z) :=
  match k with
  | O => klift (put buffer idx 0)
  | S k =>
      c ← inbyte;
      if (c =? 13) || (c =? 10) then klift (put buffer idx 0)
      else buffer ← klift (put buffer idx c); read_line_loop k (S idx) buffer
  end.

Definition uart_read_line (buffer : list Z) (max_len : Z) : K (list Z) :=
  read_line_loop (Z.to_nat (max_len - 1)) 0 buffer.

(** [scanf("%9s", input)] with [char input[10]]: what [strcmp(input, "yes") == 0] says *)
Definition confirmed : K bool :=
  w ← scanf 9;
  let input := stack_bytes 10 in
  input ← klift (match w with
                 | Some w =>
                     if (length w <? length input)%nat then Ok (w ++ 0 :: drop (S (length w)) input)
                     else Ub (ub_index (Z.of_nat (length w)) (Z.of_nat (length input)))
                 | None => Ok input
                 end);
  klift (strcmp_eq input 0 (zs "yes")).

(** *** Entries of the menu *)

Definition dump_eeprom : M unit := _ ← eeprom_dump; mret tt.

Definition print_snapshot_stats : M (Z * Z) :=
  ssbufptr ← Xil_In32 (XPAR_M_AXI_BASEADDR + SNAPSHOT_ADDRPTR);
  totaltrigs ← Xil_In32 (XPAR_M_AXI_BASEADDR + SNAPSHOT_TOTALTRIGS);
  mret (ssbufptr, totaltrigs).

Definition setting_text (val : Z) (zero one : string) : string :=
  if val =? 0 then zero else if val =? 1 then one else "Invalid Setting".

(** The four values printed. *)
Definition display_settings : M (list string) :=
  rdBuf ← i2c_eeprom_readBytes 0x10 (stack_bytes 16) 16;
  v0 ← byte_at rdBuf 0;
  v1 ← byte_at rdBuf 1;
  v2 ← byte_at rdBuf 2;
  v3 ← byte_at rdBuf 3;
  mret [setting_text v0 "2" "4"; setting_text v1 "Medium" "High";
        setting_text v2 "Fast" "Slow"; setting_text v3 "Bipolar" "Unipolar"].

Definition clear_loop : M unit := for_range 0 128 (λ i, i2c_eeprom_writeBytes (u8 i) [0xFF]).
Definition test_loop : M unit := for_range 0 128 (λ i, i2c_eeprom_writeBytes (u8 (127 - i)) [u8 i]).

Definition clear_eeprom : K unit :=
  yes ← confirmed;
  if yes : bool then run clear_loop else mret tt.

Definition test_eeprom : K unit :=
  yes ← confirmed;
  if yes : bool then run test_loop else mret tt.

(** The four functions differ in the EEPROM address (and the delay). *)
Definition set_setting (a : Z) : K unit :=
  val ← get_binary_input;
  (if negb (val =? u8 (-1)) then run (i2c_eeprom_writeBytes a [val]) else mret tt);;
  run ReadHardwareFlavor.

Definition set_numchans : K unit := set_setting 0x10.
Definition set_resolution : K unit := set_setting 0x11.
Definition set_bandwidth : K unit := set_setting 0x12.
Definition set_polarity : K unit := set_setting 0x13.

(** [sscanf(input, "%u %u %31s", &chan, &addr, val_str)], when it converts all three *)
Definition scan_cmd (input : list Z) : res (option (Z * Z * list Z)) :=
  chan ← scan_uint 32 input 0;
  match chan with
  | None => Ok None
  | Some (chan, i) =>
      addr ← scan_uint 32 input i;
      match addr with
      | None => Ok None
      | Some (addr, i) =>
          val_str ← scan_str 31 input i;
          Ok (match val_str with Some (val_str, _) => Some (chan, addr, val_str) | None => None end)
      end
  end.

Definition console_value (val_str : list Z) : Z :=
  if decide (46 ∈ val_str) then strtof val_str else strtoul val_str.

Definition receive_console_cmd : K unit :=
  input ← uart_read_line (stack_bytes 100) MAX_INPUT_LEN;
  cmd ← klift (scan_cmd input);
  match cmd with
  | None => mret tt
  | Some (chan, addr, val_str) =>
      let msg_buf := bytes_of_words [htonl addr; htonl (console_value val_str)] in
      run (chan_settings chan msg_buf 8)
  end.

Definition reboot : K unit :=
  val ← get_binary_input;
  if val =? 1 then
    run (Xil_Out32 (Z.lor XPS_SYS_CTRL_BASEADDR 0x008) 0xDF0D;;
         Xil_Out32 (Z.lor XPS_SYS_CTRL_BASEADDR 0x200) 0x1)
  else mret tt.

(** *** Menus *)

Record menu_entry_t := MkEntry { entryCh : Z; entryFunc : option (K unit) }.

(** The first entry with this character. *)
Fixpoint exec_entry (m : list menu_entry_t) (choice : Z) : K unit :=
  match m with
  | [] => mret tt
  | e :: m =>
      if entryCh e =? choice then
        match entryFunc e with Some f => f | None => mret tt end
      else exec_entry m choice
  end.

Fixpoint exec_menu (fuel : nat) (m : list menu_entry_t) : K unit :=
  match fuel with
  | O => kundef ub_nonterm
  | S fuel =>
      c ← inbyte;
      let choice := if isalpha c then toupper c else c in
      exec_entry m choice;;
      if choice =? 81 then mret tt else exec_menu fuel m
  end.

(** [printTaskStats] only prints. *)
Definition menu : list menu_entry_t :=
  [MkEntry 65 (Some (run (_ ← display_settings; mret tt)));
   MkEntry 66 (Some set_numchans);
   MkEntry 67 (Some set_resolution);
   MkEntry 68 (Some set_bandwidth);
   MkEntry 69 (Some set_polarity);
   MkEntry 70 (Some (run (_ ← print_snapshot_stats; mret tt)));
   MkEntry 71 (Some (mret tt));
   MkEntry 72 (Some (run dump_eeprom));
   MkEntry 73 (Some clear_eeprom);
   MkEntry 74 (Some test_eeprom);
   MkEntry 75 (Some receive_console_cmd)].

(** The task: the menu is entered again when it has been left. *)
Fixpoint console_menu (fuel : nat) : K unit :=
  match fuel with
  | O => kundef ub_nonterm
  | S fuel => exec_menu (S fuel) menu;; console_menu fuel
  end.
End console.
