(* ===== verification/ConsoleSpec.v ===== *)
(** * What the console commands do ([console.c])

    Command lines are read without running past the buffer, and act like messages
    of a client; the settings go to the EEPROM and from there to the gateware; no
    key other than the calibration command can stop the menu. *)

From S2P Require Import Prelude Words Floats Machine Regs Sadata Qspi Control ControlFrame.
From S2P Require Import ControlTotal ControlSpec I2c Main CStr Stdio Console.

(** ** Numbers and words of a line *)

Definition digits (ds : list Z) : Prop := ds ≠ [] ∧ Forall (λ c, isdigit c = true) ds.

Lemma isdigit_range c : isdigit c = true ↔ 48 ≤ c ≤ 57.
Proof. unfold isdigit. rewrite andb_true_iff, !Z.leb_le. done. Qed.

Lemma isspace_range c : isspace c = true ↔ c = 32 ∨ 9 ≤ c ≤ 13.
Proof. unfold isspace. rewrite orb_true_iff, andb_true_iff, Z.eqb_eq, !Z.leb_le. done. Qed.

Lemma digit_not_space c : isdigit c = true → isspace c = false.
Proof. intros Hc%isdigit_range. apply not_true_iff_false. rewrite isspace_range. lia. Qed.

Lemma run_scan_uint bits buf i sp ds r :
  str_at buf i (sp ++ ds ++ r) → Forall (λ c, isspace c = true) sp → digits ds →
  (∀ c r', r = c :: r' → isdigit c = false) → dec_value ds < 2 ^ bits →
  scan_uint bits buf i = Ok (Some (dec_value ds, (i + length sp + length ds)%nat)).
Proof.
  intros Hs Hsp [Hne Hds] Hr Hv. unfold scan_uint.
  destruct (run_scan isspace (S (length buf)) buf i _ Hs) as [-> Hs1]; [done|by eapply str_at_fuel|].
  assert (∀ c s', ds ++ r = c :: s' → isdigit c = true) as Hd.
  { intros c s' E. destruct ds as [|d ds]; [done|]. injection E as -> _.
    by apply Forall_cons in Hds as [? _]. }
  destruct (take_while_app isspace sp (ds ++ r)) as [Ht Hdr]; [done| |].
  { intros c s' E. by eapply digit_not_space, Hd. }
  rewrite Ht in *. rewrite Hdr in Hs1. cbn [mbind res_bind].
  rewrite (str_at_get _ _ _ Hs1). cbn [mbind res_bind].
  assert (isdigit (hd 0 (ds ++ r)) = true) as Hh%isdigit_range.
  { destruct (ds ++ r) as [|c s'] eqn:E; [by destruct ds|]. by eapply Hd. }
  rewrite (proj2 (Z.eqb_neq _ 43)), (proj2 (Z.eqb_neq _ 45)) by lia. cbn [orb].
  destruct (run_scan isdigit (S (length buf)) buf _ _ Hs1) as [-> _]; [done|by eapply str_at_fuel|].
  destruct (take_while_app isdigit ds r) as [-> _]; [done|done|]. cbn [mbind res_bind].
  rewrite (proj2 (Nat.eqb_neq _ _)) by (destruct ds; [done|cbn; lia]).
  replace (i + length sp + length ds - (i + length sp))%nat with (length ds) by lia.
  rewrite (str_at_take _ _ _ _ Hs1). by rewrite (proj2 (Z.leb_gt _ _)).
Qed.

Definition word_char (c : Z) : bool := negb (c =? 0) && negb (isspace c).

Lemma run_scan_upto p n buf i w :
  ∀ r, str_at buf i (w ++ r) → Forall (λ c, p c = true) w → p 0 = false →
  (∀ c r', r = c :: r' → p c = false) → (length w ≤ n)%nat →
  scan_upto p n buf i = Ok (i + length w)%nat.
Proof.
  revert n i. induction w as [|c w IH]; intros n i r Hs Hw Hp Hr Hl; cbn [app length] in *.
  - destruct n; cbn [scan_upto]; [by rewrite Nat.add_0_r|].
    rewrite (str_at_get _ _ _ Hs). cbn [mbind res_bind]. rewrite Nat.add_0_r.
    destruct r as [|c r]; cbn [hd]; [by rewrite Hp|]. by rewrite (Hr c r).
  - destruct n as [|n]; [lia|]. apply str_at_cons in Hs as (E & _ & Hs). cbn [scan_upto].
    rewrite E. cbn [mbind res_bind]. apply Forall_cons in Hw as [-> Hw].
    rewrite (IH n (S i) r) by (done || lia). f_equal. lia.
Qed.

Lemma run_scan_str n buf i sp w :
  str_at buf i (sp ++ w) → Forall (λ c, isspace c = true) sp → w ≠ [] →
  Forall (λ c, word_char c = true) w → (length w ≤ n)%nat →
  scan_str n buf i = Ok (Some (w, (i + length sp + length w)%nat)).
Proof.
  intros Hs Hsp Hne Hw Hl. unfold scan_str.
  destruct (run_scan isspace (S (length buf)) buf i _ Hs) as [-> Hs1]; [done|by eapply str_at_fuel|].
  destruct (take_while_app isspace sp w) as [Ht Hdr]; [done| |].
  { intros c s' ->. apply Forall_cons in Hw as [Hc _]. unfold word_char in Hc.
    apply andb_true_iff in Hc as [_ Hc]. by apply negb_true_iff in Hc. }
  rewrite Ht in *. rewrite Hdr in Hs1. cbn [mbind res_bind].
  rewrite <- (app_nil_r w) in Hs1.
  rewrite (run_scan_upto _ _ _ _ _ _ Hs1) by done. cbn [mbind res_bind].
  rewrite (proj2 (Nat.eqb_neq _ _)) by (destruct w; [done|cbn; lia]).
  replace (i + length sp + length w - (i + length sp))%nat with (length w) by lia.
  by rewrite (str_at_take _ _ _ _ Hs1).
Qed.

(** A command line: channel, command and value. *)
Lemma run_scan_cmd buf d1 d2 w :
  str_at buf 0 (d1 ++ [32] ++ d2 ++ [32] ++ w) → digits d1 → digits d2 →
  dec_value d1 < 2 ^ 32 → dec_value d2 < 2 ^ 32 →
  w ≠ [] → Forall (λ c, word_char c = true) w → (length w ≤ 31)%nat →
  scan_cmd buf = Ok (Some (dec_value d1, dec_value d2, w)).
Proof.
  intros Hs H1 H2 Hv1 Hv2 Hne Hw Hl. unfold scan_cmd.
  assert (∀ r : list Z, ∀ c r', [32] ++ r = c :: r' → isdigit c = false) as Hsep by by intros r c r' [= <- _].
  rewrite (run_scan_uint 32 buf 0 [] d1 _ Hs) by (done || apply Hsep). cbn [mbind res_bind].
  apply str_at_app in Hs. cbn [length Nat.add] in *.
  rewrite (run_scan_uint 32 buf _ [32] d2 _ Hs) by (done || apply Hsep || by repeat constructor).
  cbn [mbind res_bind]. rewrite app_assoc in Hs. apply str_at_app in Hs. rewrite length_app in Hs.
  rewrite Nat.add_assoc in Hs.
  rewrite (run_scan_str 31 buf _ [32] w Hs) by (done || by repeat constructor). done.
Qed.

(** ** The UART *)

(** [pending]: the characters to come.  [scanf] takes a word from them, and perhaps
    more into the buffer of [stdin]. *)
Class UartLaws `{Uart} := {
  pending : IN → list Z;
  law_byte : ∀ i, match uart_byte i with
    | Some (c, i') => pending i = u8 c :: pending i'
    | None => pending i = []
    end;
  law_scanf : ∀ n i, match scanf_s n i with
    | Some (r, i') => (∃ used, pending i = used ++ pending i') ∧
        ∃ w, r = Some w ∧ (length w ≤ n)%nat
    | None => True
    end;
  law_scanf_word : ∀ n i sp w c r,
    pending i = sp ++ w ++ c :: r → Forall (λ c, isspace c = true) sp → isspace c = true →
    w ≠ [] → Forall (λ c, isspace c = false) w → (length w ≤ n)%nat →
    ∃ i', scanf_s n i = Some (Some w, i') ∧ ∃ used, pending i = used ++ pending i';
}.

Section input.
Context `{Platform, Uart, !UartLaws, Runtime, FpEnv, Strtof, SysCtrl}.

Lemma run_inbyte {A} (f : Z → K A) c r i s :
  pending i = c :: r → ∃ i', pending i' = r ∧ (inbyte ≫= f) i s = f c i' s.
Proof.
  intros E. pose proof (law_byte i) as L. unfold inbyte, mbind, K_bind.
  destruct (uart_byte i) as [[b i']|]; rewrite E in L; [|done]. injection L as -> L. by exists i'.
Qed.

Lemma run_inbyte_wait {A} (f : Z → K A) i s : pending i = [] → (inbyte ≫= f) i s = Wait s.
Proof.
  intros E. pose proof (law_byte i) as L. unfold inbyte, mbind, K_bind.
  destruct (uart_byte i) as [[b i']|]; [by rewrite E in L|done].
Qed.

Lemma run_kbind {A B} (m : K A) (f : A → K B) i s a i' s' :
  m i s = Done a i' s' → (m ≫= f) i s = f a i' s'.
Proof. intros E. unfold mbind, K_bind. by rewrite E. Qed.

Lemma run_kwait {A B} (m : K A) (f : A → K B) i s s' : m i s = Wait s' → (m ≫= f) i s = Wait s'.
Proof. intros E. unfold mbind, K_bind. by rewrite E. Qed.

Lemma run_klift {A B} (a : A) (f : A → K B) i s : (klift (Ok a) ≫= f) i s = f a i s.
Proof. done. Qed.

Definition eol (c : Z) : Prop := c = 13 ∨ c = 10.

(** The buffer after a line has been stored. *)
Definition line_buffer (buffer : list Z) (idx : nat) (line : list Z) : list Z :=
  take idx buffer ++ line ++ 0 :: drop (S (idx + length line)) buffer.

Lemma put_end buffer idx : (idx < length buffer)%nat → put buffer idx 0 = Ok (line_buffer buffer idx []).
Proof.
  intros Hl. unfold put, line_buffer. rewrite (proj2 (Nat.ltb_lt _ _)) by done. f_equal.
  rewrite insert_take_drop by done. cbn. by rewrite Nat.add_0_r.
Qed.

Lemma line_buffer_cons buffer idx c line :
  (idx < length buffer)%nat →
  line_buffer (<[idx:=c]> buffer) (S idx) line = line_buffer buffer idx (c :: line).
Proof.
  intros Hl. unfold line_buffer. rewrite (take_S_r _ _ c) by (rewrite list_lookup_insert_eq; done).
  rewrite take_insert_ge, <- app_assoc by lia. cbn [app length].
  rewrite drop_insert_lt by lia. do 3 f_equal. f_equal. f_equal. lia.
Qed.

(** A line is read up to its end or until the buffer is full; what was in the
    buffer before and behind it stays. *)
Lemma run_read_line k idx buffer i s :
  (idx + k < length buffer)%nat →
  (read_line_loop k idx buffer i s = Wait s ∧
     Forall (λ c, ¬ eol c) (pending i) ∧ (length (pending i) < k)%nat) ∨
  ∃ line rest i', read_line_loop k idx buffer i s = Done (line_buffer buffer idx line) i' s ∧
    pending i = line ++ rest ∧ Forall (λ c, ¬ eol c) line ∧
    ((length line < k)%nat ∧ (∃ c, eol c ∧ rest = c :: pending i') ∨
     length line = k ∧ rest = pending i').
Proof.
  revert idx buffer i. induction k as [|k IH]; intros idx buffer i Hk; cbn [read_line_loop].
  { right. exists [], (pending i), i. rewrite put_end by lia. split; [done|]. split; [done|].
    split; [constructor|]. by right. }
  destruct (pending i) as [|c r] eqn:E.
  { left. rewrite run_inbyte_wait by done. split; [done|]. split; [constructor|cbn; lia]. }
  destruct (run_inbyte (λ c, if (c =? 13) || (c =? 10) then klift (put buffer idx 0)
      else buffer ← klift (put buffer idx c); read_line_loop k (S idx) buffer) c r i s E) as (i' & Er & ->).
  destruct ((c =? 13) || (c =? 10)) eqn:Ec.
  - right. exists [], (c :: r), i'. rewrite put_end by lia. split; [done|]. split; [done|].
    split; [constructor|]. left. split; [cbn; lia|]. exists c. rewrite Er. split; [|done].
    apply orb_true_iff in Ec as [?%Z.eqb_eq|?%Z.eqb_eq]; [by left|by right].
  - assert (¬ eol c) as Hc.
    { apply orb_false_iff in Ec as [?%Z.eqb_neq ?%Z.eqb_neq]. unfold eol. intros [?|?]; contradiction. }
    unfold put. rewrite (proj2 (Nat.ltb_lt idx _)) by lia. rewrite run_klift.
    destruct (IH (S idx) (<[idx:=c]> buffer) i') as [(-> & Hf & Hl)|(line & rest & i'' & -> & Ep & Hf & Hcase)];
      [rewrite length_insert; lia|..].
    + left. rewrite Er in *. split; [done|]. split; [by constructor|cbn; lia].
    + right. exists (c :: line), rest, i''. rewrite line_buffer_cons by lia. split; [done|].
      split; [by rewrite <- Er, Ep|]. split; [by constructor|]. cbn. destruct Hcase as [[? ?]|[? ?]];
        [left; split; [lia|done]|right; split; [lia|done]].
Qed.

(** C40: for every input, [uart_read_line] waits only while neither an
    end of line nor [max_len - 1] characters have come; otherwise it stores the
    line, terminated, within [max_len] bytes and leaves the rest of the buffer. *)
Theorem uart_line_bounded buffer max_len i s :
  1 ≤ max_len ≤ Z.of_nat (length buffer) →
  (uart_read_line buffer max_len i s = Wait s ∧
     Forall (λ c, ¬ eol c) (pending i) ∧ Z.of_nat (length (pending i)) < max_len - 1) ∨
  ∃ line i', uart_read_line buffer max_len i s
      = Done (line ++ 0 :: drop (S (length line)) buffer) i' s ∧
    Forall (λ c, ¬ eol c) line ∧ Z.of_nat (length line) ≤ max_len - 1 ∧
    (pending i = line ++ pending i' ∨ ∃ c, eol c ∧ pending i = line ++ c :: pending i').
Proof.
  intros Hm. unfold uart_read_line.
  destruct (run_read_line (Z.to_nat (max_len - 1)) 0 buffer i s)
    as [(-> & Hf & Hl)|(line & rest & i' & -> & Ep & Hf & Hcase)]; [lia|left|right].
  - split; [done|]. split; [done|lia].
  - exists line, i'. unfold line_buffer. cbn [take app Nat.add]. split; [done|]. split; [done|].
    destruct Hcase as [[Hl (c & Hc & ->)]|[Hl ->]]; (split; [lia|]); [right; by exists c|by left].
Qed.
End input.

(** ** The calibration command *)

Section command.
Context `{Platform, Uart, !UartLaws, Runtime, FpEnv, Strtof, SysCtrl}.

Lemma lookup_not_eol l i c : Forall (λ c, ¬ eol c) l → l !! i = Some c → eol c → False.
Proof. intros Hl Hi. eapply (Forall_lookup_1 _ _ _ _ Hl Hi). Qed.

(** A line that fits. *)
Lemma run_read_whole k buffer i s l e r :
  pending i = l ++ e :: r → Forall (λ c, ¬ eol c) l → eol e → (length l < k < length buffer)%nat →
  ∃ i', pending i' = r ∧ read_line_loop k 0 buffer i s = Done (line_buffer buffer 0 l) i' s.
Proof.
  intros E Hl He Hk.
  destruct (run_read_line k 0 buffer i s) as [(_ & Hf & _)|(line & rest & i' & -> & Ep & Hf & Hcase)];
    [lia| |].
  { exfalso. rewrite E in Hf. apply Forall_app in Hf as [_ Hf]. by apply Forall_cons in Hf as [? _]. }
  rewrite E in Ep. destruct (Nat.lt_trichotomy (length line) (length l)) as [Hlt|[Heq|Hgt]].
  - destruct Hcase as [[_ (c & Hc & ->)]|[? _]]; [|lia]. exfalso.
    apply (lookup_not_eol l (length line) c Hl); [|done].
    rewrite <- (lookup_app_l l (e :: r)) by done. rewrite Ep, lookup_app_r, Nat.sub_diag by lia. done.
  - apply app_inj_1 in Ep as [-> <-]; [|done]. exists i'. split; [|done].
    destruct Hcase as [[_ (c & _ & [= -> ->])]|[? _]]; [done|lia].
  - exfalso. apply (lookup_not_eol line (length l) e Hf); [|done].
    rewrite <- (lookup_app_l line rest) by done. rewrite <- Ep, lookup_app_r, Nat.sub_diag by lia. done.
Qed.

(** A line: channel, command and value. *)
Record command_line (l d1 d2 w : list Z) : Prop := {
  cl_line : l = d1 ++ [32] ++ d2 ++ [32] ++ w;
  cl_d1 : digits d1;
  cl_d2 : digits d2;
  cl_v1 : dec_value d1 < 2 ^ 32;
  cl_v2 : dec_value d2 < 2 ^ 32;
  cl_w : w ≠ [] ∧ Forall (λ c, word_char c = true) w ∧ (length w ≤ 31)%nat;
  cl_length : (length l < 63)%nat;
}.

Lemma command_chars l d1 d2 w :
  command_line l d1 d2 w → Forall (λ c, c ≠ 0 ∧ ¬ eol c) l.
Proof.
  intros [-> [_ Hd1] [_ Hd2] _ _ (_ & Hw & _) _].
  assert (∀ ds, Forall (λ c, isdigit c = true) ds → Forall (λ c, c ≠ 0 ∧ ¬ eol c) ds) as Hd.
  { intros ds Hds. eapply Forall_impl; [done|]. intros c ?%isdigit_range. unfold eol. lia. }
  repeat (apply Forall_app; split); auto; try (repeat constructor; unfold eol; lia).
  eapply Forall_impl; [done|]. intros c Hc. unfold word_char in Hc.
  apply andb_true_iff in Hc as [Hc1%negb_true_iff%Z.eqb_neq Hc2%negb_true_iff].
  split; [done|]. intros Heol. apply not_true_iff_false in Hc2. apply Hc2, isspace_range.
  unfold eol in Heol. lia.
Qed.

Lemma run_console_cmd l d1 d2 w e r i s :
  command_line l d1 d2 w → pending i = l ++ e :: r → eol e →
  ∃ i', pending i' = r ∧
    receive_console_cmd i s
    = run (chan_settings (dec_value d1) (message (dec_value d2) (console_value w) []) 8) i' s.
Proof.
  intros Hcl E He. pose proof (command_chars _ _ _ _ Hcl) as Hch.
  destruct (run_read_whole 63 (stack_bytes 100) i s l e r) as (i' & Er & Hread); [done| |done| |].
  { eapply Forall_impl; [done|]. by intros c [_ ?]. }
  { rewrite stack_bytes_length. pose proof (cl_length _ _ _ _ Hcl). lia. }
  exists i'. split; [done|]. unfold receive_console_cmd, uart_read_line.
  change (Z.to_nat (MAX_INPUT_LEN - 1)) with 63%nat. unfold mbind at 1, K_bind at 1. rewrite Hread.
  unfold line_buffer. cbn [take app Nat.add].
  assert (str_at (l ++ 0 :: drop (S (length l)) (stack_bytes 100)) 0 l) as Hs.
  { apply str_at_0. intros Hin. rewrite Forall_forall in Hch. by apply Hch in Hin as [? _]. }
  destruct Hcl as [-> Hd1 Hd2 Hv1 Hv2 (Hne & Hw & Hl) _].
  rewrite (run_scan_cmd _ d1 d2 w) by done. rewrite run_klift.
  unfold message. by rewrite app_nil_r.
Qed.

Lemma dec_value_nonneg ds : Forall (λ c, isdigit c = true) ds → 0 ≤ dec_value ds.
Proof.
  unfold dec_value. intros Hds. assert (∀ v, 0 ≤ v → 0 ≤ foldl (λ v c, 10 * v + (c - 48)) v ds) as Hf;
    [|by apply Hf].
  induction Hds as [|c ds Hc%isdigit_range _ IH]; intros v Hv; cbn [foldl]; [done|]. apply IH. lia.
Qed.

(** C20: a command typed at the console (channel 1 to 4) has exactly
    the effect of the message with the same command and value that a client sends
    for this channel, the pulse of the front-panel register apart. *)
Theorem console_like_client l d1 d2 w e r i s :
  command_line l d1 d2 w → pending i = l ++ e :: r → eol e → 1 ≤ dec_value d1 ≤ 4 →
  ∃ i', pending i' = r ∧
    receive_console_cmd i (blink s)
    = run (client_msg (dec_value d1) 8 (message (dec_value d2) (console_value w) [])) i' s.
Proof.
  intros Hcl E He Hc. destruct (run_console_cmd _ _ _ _ _ _ _ (blink s) Hcl E He) as (i' & Er & ->).
  exists i'. split; [done|]. unfold run. rewrite run_client_msg.
  rewrite (proj2 (Z.eqb_neq (dec_value d1) 0)), (proj2 (Z.leb_le 1 (dec_value d1))),
    (proj2 (Z.leb_le (dec_value d1) 4)) by lia.
  cbv beta iota delta [andb]. reflexivity.
Qed.

(** The channel typed at the console is not checked: a set
    point for any channel other than 1 to 4 reads the scale factors outside of
    their array. *)
Theorem console_channel_unchecked l d1 d2 w e r i s :
  command_line l d1 d2 w → pending i = l ++ e :: r → eol e →
  dec_value d2 = DAC_SETPT_MSG → is_u32 (console_value w) → length (scalefactors s) = 4%nat →
  ¬ (1 ≤ dec_value d1 ≤ 4) →
  receive_console_cmd i s = Undef (ub_index (u32 (dec_value d1 - 1)) 4).
Proof.
  intros Hcl E He Hd2 Hu Hsf Hc. destruct (run_console_cmd _ _ _ _ _ _ _ s Hcl E He) as (i' & Er & ->).
  pose proof (dec_value_nonneg d1 (proj2 (cl_d1 _ _ _ _ Hcl))) as Hpos.
  pose proof (cl_v1 _ _ _ _ Hcl) as Hv1. set (chan := dec_value d1) in *.
  set (u := console_value w) in *. clearbody u.
  unfold run. rewrite Hd2, run_chan_settings; [|unfold is_u32; by vm_compute|exact Hu].
  erewrite (switch_in DAC_SETPT_MSG); [|apply chan_labels_nodup|].
  2:{ unfold chan_cases, chan_cases_dac. cbn [app]. list_elem. }
  unfold mbind at 1, M_bind at 1, volts_to_dacbits, gets. unfold mbind at 1, M_bind at 1.
  unfold mbind at 1, M_bind at 1. rewrite run_get_scalefactor_oob; rewrite Hsf; [done|].
  unfold u32. destruct (Z.eq_dec chan 0) as [->|]; [by vm_compute|].
  rewrite Z.mod_small by lia. lia.
Qed.
End command.

(** ** Settings and the EEPROM *)

Section settings.
Context `{Platform, Uart, !UartLaws, Runtime, FpEnv, Strtof, SysCtrl, !EepromLaws}.

(** One byte in the writable half. *)
Lemma run_write_byte a v s :
  0 ≤ a < 128 → is_u8 v →
  ∃ s', i2c_eeprom_writeBytes a [v] s = Ok (tt, s') ∧ eeprom_only s s' ∧
    events s' = events s ++ [I2cSend [a; v]] ∧
    ∀ x, ee_mem (eeprom s') x = if x =? a then v else ee_mem (eeprom s) x.
Proof.
  intros Ha Hv. eexists. split; [reflexivity|]. split; [done|]. split; [done|]. intros x. cbn.
  pose proof (Z.mod_pos_bound a 16 ltac:(lia)).
  rewrite (ee_write (eeprom s) a [v]); [|lia|cbn; lia|cbn; lia|by constructor].
  destruct (Z.eqb_spec x a) as [->|Hne].
  - by rewrite Z.leb_refl, Z.sub_diag.
  - destruct (Z.leb_spec a x); [|done]. by replace (Z.to_nat (x - a)) with (S (Z.to_nat (x - a - 1))) by lia.
Qed.

(** The four setting bytes after a key: [0] and [1] are stored. *)
Definition setting_after (a c : Z) (e : EEPROM) (k : Z) : Z :=
  if ((c =? 48) || (c =? 49)) && (0x10 + k =? a) then c - 48 else ee_mem e (0x10 + k).

Lemma run_kret {A B} (a : A) (f : A → K B) i s : (mret a ≫= f) i s = f a i s.
Proof. done. Qed.
Lemma run_last {A} (m : M A) i s a s' : m s = Ok (a, s') → run m i s = Done a i s'.
Proof. intros E. unfold run. by rewrite E. Qed.
Lemma run_run {A B} (m : M A) (f : A → K B) i s a s' :
  m s = Ok (a, s') → (run m ≫= f) i s = f a i s'.
Proof. intros E. unfold mbind, K_bind. by rewrite (run_last _ _ _ _ _ E). Qed.

(** A key that is stored: the gateware follows the changed byte. *)
Lemma run_stored a v i s :
  0 ≤ a < 128 → v = 0 ∨ v = 1 →
  let m k := if 0x10 + k =? a then v else ee_mem (eeprom s) (0x10 + k) in
  ∃ s', ((if negb (v =? u8 (-1)) then run (i2c_eeprom_writeBytes a [v]) else mret tt);;
         run ReadHardwareFlavor) i s = Done tt i s' ∧
    events s' = events s ++ [I2cSend [a; v]] ++ I2cSend [0x10] ::
      ((λ w, Out32 (u32 (XPAR_M_AXI_BASEADDR + w.1)) (u32 w.2)) <$>
         flavor_writes (m 0) (m 1) (m 2) (m 3)) ∧
    (CONVVOLTSTODACBITS s', CONVDACBITSTOVOLTS s') = flavor_conv (m 1) s.
Proof.
  intros Ha Hv m. destruct (run_write_byte a v s) as (s1 & E1 & (_ & _ & _ & Hc1 & Hc2) & Ev & Hm);
    [lia|unfold is_u8; lia|].
  destruct (run_flavor s1) as (s' & E2 & Ev' & Hconv & _). exists s'. split.
  - assert (negb (v =? u8 (-1)) = true) as -> by (by destruct Hv as [->| ->]).
    by rewrite (run_run _ _ _ _ _ _ E1), (run_last _ _ _ _ _ E2).
  - rewrite (Hm (0x10 + 0)), (Hm (0x10 + 1)), (Hm (0x10 + 2)), (Hm (0x10 + 3)) in Ev'.
    rewrite (Hm (0x10 + 1)) in Hconv. split; [by rewrite Ev', Ev, <- app_assoc|].
    rewrite Hconv. unfold flavor_conv. by rewrite Hc1, Hc2.
Qed.

(** A setting chosen at the console with 0 or 1 is stored at its
    EEPROM address and takes effect at once: the gateware is configured from the four
    setting bytes as they are now; any other key stores nothing and configures the
    gateware again. *)
Theorem setting_takes_effect a c r i s :
  a ∈ [0x10; 0x11; 0x12; 0x13] → pending i = c :: r →
  let m := setting_after a c (eeprom s) in
  let stored := (c =? 48) || (c =? 49) in
  ∃ i' s', set_setting a i s = Done tt i' s' ∧ pending i' = r ∧
    events s' = events s ++ (if stored then [I2cSend [a; c - 48]] else []) ++ I2cSend [0x10] ::
      ((λ w, Out32 (u32 (XPAR_M_AXI_BASEADDR + w.1)) (u32 w.2)) <$>
         flavor_writes (m 0) (m 1) (m 2) (m 3)) ∧
    (CONVVOLTSTODACBITS s', CONVDACBITSTOVOLTS s') = flavor_conv (m 1) s.
Proof.
  intros Ha E m stored. unfold set_setting, get_binary_input.
  destruct (run_inbyte (λ c, mret (if c =? 48 then 0 else if c =? 49 then 1 else u8 (-1))) c r i s E)
    as (i' & Er & Eb).
  unfold mbind at 1, K_bind at 1. rewrite Eb. cbn [mret K_ret]. exists i'.
  assert (0x10 ≤ a < 0x14) as Har.
  { repeat (apply elem_of_cons in Ha as [->|Ha]; [lia|]). by apply elem_of_nil in Ha. }
  unfold stored, m, setting_after.
  destruct (Z.eqb_spec c 48) as [->|H48]; [|destruct (Z.eqb_spec c 49) as [->|H49]]; cbn [orb andb].
  - destruct (run_stored a 0 i' s) as (s' & E' & Hs'); [lia|by left|]. exists s'. by rewrite E'.
  - destruct (run_stored a 1 i' s) as (s' & E' & Hs'); [lia|by right|]. exists s'. by rewrite E'.
  - destruct (run_flavor s) as (s' & E2 & Ev' & Hconv & _). exists s'.
    change (negb (u8 (-1) =? u8 (-1))) with false. cbv iota. rewrite run_kret, (run_last _ _ _ _ _ E2). done.
Qed.

(** *** Writing the whole lower half *)

Lemma run_write_loop (g h : Z → Z) n :
  ∀ from s, (∀ i, from ≤ i < from + Z.of_nat n → 0 ≤ g i < 128 ∧ is_u8 (h i)) →
  ∃ s', for_range from n (λ i, i2c_eeprom_writeBytes (g i) [h i]) s = Ok (tt, s') ∧ eeprom_only s s' ∧
    (∀ x, (∀ i, from ≤ i < from + Z.of_nat n → g i ≠ x) → ee_mem (eeprom s') x = ee_mem (eeprom s) x) ∧
    (∀ i, from ≤ i < from + Z.of_nat n → (∀ j, i < j < from + Z.of_nat n → g j ≠ g i) →
       ee_mem (eeprom s') (g i) = h i).
Proof.
  induction n as [|n IH]; intros from s Hg.
  - exists s. split; [done|]. split; [done|]. split; [done|]. lia.
  - destruct (Hg from ltac:(lia)) as [Ha Hv].
    destruct (run_write_byte (g from) (h from) s Ha Hv) as (s1 & E1 & Ho1 & _ & Hm1).
    destruct (IH (from + 1) s1) as (s' & E & Ho & Hout & Hin); [intros i Hi; apply Hg; lia|].
    exists s'. cbn [for_range]. rewrite (run_bind _ _ _ _ _ E1). split; [done|].
    split; [destruct Ho as (? & ? & ? & ? & ?), Ho1 as (? & ? & ? & ? & ?);
      repeat split; congruence|]. split.
    + intros x Hx. rewrite Hout by (intros i Hi; apply Hx; lia). rewrite Hm1.
      by rewrite (proj2 (Z.eqb_neq _ _)) by (apply not_eq_sym, Hx; lia).
    + intros i Hi Hj. destruct (Z.eq_dec i from) as [->|].
      * rewrite Hout by (intros j Hj'; apply Hj; lia). by rewrite Hm1, Z.eqb_refl.
      * apply Hin; [lia|]. intros j Hj'. apply Hj. lia.
Qed.

(** The lower half holds [f], the upper half is as before. *)
Definition lower_half (f : Z → Z) (e e' : EEPROM) : Prop :=
  ∀ x, ee_mem e' x = if (0 <=? x) && (x <? 128) then f x else ee_mem e x.

Lemma for_range_ext n : ∀ from (b1 b2 : Z → M unit) s,
  (∀ i, from ≤ i < from + Z.of_nat n → b1 i = b2 i) → for_range from n b1 s = for_range from n b2 s.
Proof.
  induction n as [|n IH]; intros from b1 b2 s Hb; cbn [for_range]; [done|].
  rewrite Hb by lia. apply run_bind_ext. intros _ t. apply IH. intros i Hi. apply Hb. lia.
Qed.

Lemma run_pattern_loop (g h : Z → Z) f s :
  (∀ i, 0 ≤ i < 128 → 0 ≤ g i < 128 ∧ is_u8 (h i)) →
  (∀ x, 0 ≤ x < 128 → ∃ i, 0 ≤ i < 128 ∧ g i = x ∧ h i = f x ∧ ∀ j, g j = x → j = i) →
  ∃ s', for_range 0 128 (λ i, i2c_eeprom_writeBytes (u8 (g i)) [h i]) s = Ok (tt, s') ∧
    eeprom_only s s' ∧ lower_half f (eeprom s) (eeprom s').
Proof.
  intros Hg Hsur. destruct (run_write_loop g h 128 0 s) as (s' & E & Ho & Hout & Hin); [done|].
  exists s'. split; [|split; [done|]].
  - rewrite <- E. apply for_range_ext. intros i Hi. destruct (Hg i Hi) as [Hb _].
    by rewrite u8_id by (unfold is_u8; lia).
  - intros x. destruct (Z.leb_spec 0 x), (Z.ltb_spec x 128); cbn [andb].
    + destruct (Hsur x ltac:(lia)) as (i & Hi & <- & <- & Hinj). apply Hin; [done|].
      intros j Hj Heq. apply Hinj in Heq. lia.
    + apply Hout. intros i Hi. specialize (Hg i Hi). lia.
    + apply Hout. intros i Hi. specialize (Hg i Hi). lia.
    + apply Hout. intros i Hi. specialize (Hg i Hi). lia.
Qed.

Lemma run_confirmed {A} (f : bool → K A) sp w c r i s :
  pending i = sp ++ w ++ c :: r → Forall (λ c, isspace c = true) sp → isspace c = true →
  w ≠ [] → Forall (λ c, word_char c = true) w → (length w ≤ 9)%nat →
  ∃ i', (confirmed ≫= f) i s = f (bool_decide (w = zs "yes")) i' s.
Proof.
  intros E Hsp Hc Hne Hw Hl.
  destruct (law_scanf_word 9 i sp w c r) as (i' & Es & _); [done..| |done|].
  { eapply Forall_impl; [done|]. intros x Hx. apply andb_true_iff in Hx as [_ Hx].
    by apply negb_true_iff in Hx. }
  exists i'. unfold confirmed, scanf, klift, run, lift, mbind, K_bind. rewrite Es.
  rewrite stack_bytes_length, (proj2 (Nat.ltb_lt _ _)) by lia.
  rewrite (run_strcmp _ _ w); [done| |literal].
  apply str_at_0. intros Hin. rewrite Forall_forall in Hw. by apply Hw in Hin.
Qed.

(** After the answer [yes], and only then, clearing sets every byte of
    the writable half of the EEPROM to 0xFF, and the test writes the value 127 - x to
    every address x of it; the write-protected half and the rest of the system stay. *)
Theorem eeprom_patterns sp w c r i s :
  pending i = sp ++ w ++ c :: r → Forall (λ c, isspace c = true) sp → isspace c = true →
  w ≠ [] → Forall (λ c, word_char c = true) w → (length w ≤ 9)%nat →
  (∃ i' s', clear_eeprom i s = Done tt i' s' ∧
     if decide (w = zs "yes") then eeprom_only s s' ∧ lower_half (λ _, 0xFF) (eeprom s) (eeprom s')
     else s' = s) ∧
  (∃ i' s', test_eeprom i s = Done tt i' s' ∧
     if decide (w = zs "yes") then eeprom_only s s' ∧ lower_half (λ x, 127 - x) (eeprom s) (eeprom s')
     else s' = s).
Proof.
  intros E Hsp Hc Hne Hw Hl. unfold clear_eeprom, test_eeprom. split.
  - destruct (run_confirmed (λ yes : bool, if yes then run clear_loop else mret tt) sp w c r i s)
      as (i' & ->); [done..|].
    exists i'. destruct (decide (w = zs "yes")) as [Hyes|Hno];
      [rewrite bool_decide_true by done|rewrite bool_decide_false by done; by exists s].
    destruct (run_pattern_loop (λ i, i) (λ _, 0xFF) (λ _, 0xFF) s) as (s' & El & Ho & Hh).
    { intros j Hj. split; [done|]. unfold is_u8. lia. }
    { intros x Hx. by exists x. }
    exists s'. by rewrite (run_last clear_loop _ _ _ _ El).
  - destruct (run_confirmed (λ yes : bool, if yes then run test_loop else mret tt) sp w c r i s)
      as (i' & ->); [done..|].
    exists i'. destruct (decide (w = zs "yes")) as [Hyes|Hno];
      [rewrite bool_decide_true by done|rewrite bool_decide_false by done; by exists s].
    destruct (run_pattern_loop (λ i, 127 - i) (λ i, u8 i) (λ x, 127 - x) s) as (s' & El & Ho & Hh).
    { intros j Hj. split; [lia|]. apply u8_range. }
    { intros x Hx. exists (127 - x). rewrite u8_id by (unfold is_u8; lia).
      split; [lia|]. split; [lia|]. split; [done|]. intros. lia. }
    exists s'. by rewrite (run_last test_loop _ _ _ _ El).
Qed.
End settings.

(** ** The menu never stops *)

Section live.
Context `{Platform, Uart, !UartLaws, Runtime, FpEnv, Strtof, SysCtrl}.

(** No undefined behaviour, and no input is invented. *)
Definition live {A} (m : K A) : Prop := ∀ i s,
  (∃ s', m i s = Wait s') ∨
  ∃ a i' s', m i s = Done a i' s' ∧ pending i' `suffix_of` pending i.

Lemma live_ret {A} (a : A) : live (mret a).
Proof. intros i s. right. by exists a, i, s. Qed.
Lemma live_bind {A B} (m : K A) (f : A → K B) : live m → (∀ a, live (f a)) → live (m ≫= f).
Proof.
  intros Hm Hf i s. unfold mbind, K_bind.
  destruct (Hm i s) as [[s' ->]|(a & i1 & s1 & -> & Hs1)]; [by left; exists s'|].
  destruct (Hf a i1 s1) as [[s' ->]|(b & i2 & s2 & -> & Hs2)]; [by left; exists s'|].
  right. exists b, i2, s2. split; [done|]. by transitivity (pending i1).
Qed.
Lemma live_run {A} (m : M A) Q : total (λ _, True) m Q → live (run m).
Proof.
  intros Hm i s. right. destruct (Hm s I) as (a & s' & E & _). exists a, i, s'.
  by rewrite (run_last _ _ _ _ _ E).
Qed.
Lemma live_inbyte : live inbyte.
Proof.
  intros i s. pose proof (law_byte i) as L. unfold inbyte.
  destruct (uart_byte i) as [[c i']|]; [right|left; by exists s].
  exists (u8 c), i', s. split; [done|]. exists [u8 c]. by rewrite L.
Qed.
Lemma live_if {A} (b : bool) (m1 m2 : K A) : live m1 → live m2 → live (if b then m1 else m2).
Proof. by destruct b. Qed.

Lemma live_confirmed : live confirmed.
Proof.
  intros i s. pose proof (law_scanf 9 i) as L.
  unfold confirmed, scanf, klift, run, lift, mbind, K_bind.
  destruct (scanf_s 9 i) as [[r i']|] eqn:E; [right|left; by exists s].
  destruct L as [[used Hu] (w & -> & Hl)].
  rewrite stack_bytes_length, (proj2 (Nat.ltb_lt _ _)) by lia.
  rewrite (run_strcmp _ _ _ (zs "yes") (str_at_line w _)) by literal.
  eexists _, i', s. split; [reflexivity|]. by exists used.
Qed.

(** Firmware programs of the menu. *)

Abbreviation T m := (total (λ _, True) m (λ _, True)).

Lemma total_modify f : T (modify f).
Proof. intros s _. by exists tt, (f s). Qed.

Lemma total_readBytes a buf n :
  (n ≤ length buf)%nat → total (λ _, True) (i2c_eeprom_readBytes a buf n) (λ b, length b = length buf).
Proof.
  intros Hn s _. unfold i2c_eeprom_readBytes, recv_into, i2c1_write, i2c1_read, modify, mbind, M_bind.
  cbn. destruct (eeprom_recv n _) as [rx e]. eexists _, _. split; [reflexivity|]. split; [done|].
  rewrite length_app, length_drop. rewrite length_take. lia.
Qed.

Lemma total_byte_at buf k : (k < length buf)%nat → T (byte_at buf k).
Proof.
  intros Hk s _. unfold byte_at. destruct (lookup_lt_is_Some_2 buf k Hk) as [v ->].
  by exists v, s.
Qed.

Lemma total_any_In32 a : T (Xil_In32 a).
Proof. intros s _. unfold Xil_In32. destruct (pl_in32 _ _) as [v p]. eauto. Qed.

Ltac total_menu := cbv zeta; repeat first
  [ apply total_modify
  | apply total_any_In32
  | apply total_byte_at; lia
  | apply (total_bind _ _ _ (λ _, True)); [|intros ? _]
  | apply total_ret; done
  | apply total_if
  | apply total_for; intros ].

Lemma total_flavor : T ReadHardwareFlavor.
Proof.
  unfold ReadHardwareFlavor. eapply total_bind; [apply total_readBytes; by rewrite stack_bytes_length|].
  intros b Hb. rewrite stack_bytes_length in Hb. unfold glob_out, Xil_Out32. total_menu.
Qed.

Lemma total_display : T (_ ← display_settings; mret tt).
Proof.
  unfold display_settings. eapply (total_bind _ _ _ (λ _, True)); [|intros ? _; by apply total_ret].
  eapply total_bind; [apply total_readBytes; by rewrite stack_bytes_length|].
  intros b Hb. rewrite stack_bytes_length in Hb. total_menu.
Qed.

Lemma live_setting a : live (set_setting a).
Proof.
  unfold set_setting, get_binary_input.
  apply live_bind; [apply live_bind; [apply live_inbyte|intros c; apply live_ret]|]. intros v.
  apply live_bind; [|intros _; eapply live_run, total_flavor].
  apply live_if; [|apply live_ret]. apply (live_run _ (λ _, True)). unfold i2c_eeprom_writeBytes, i2c1_write.
  apply total_modify.
Qed.

Lemma live_entry choice : choice ≠ 75 → live (exec_entry menu choice).
Proof.
  intros Hc. unfold menu. cbn [exec_entry entryCh entryFunc].
  rewrite (proj2 (Z.eqb_neq 75 choice)) by done.
  repeat apply live_if; try apply live_ret; try apply live_setting.
  - eapply live_run, total_display.
  - apply (live_run _ (λ _, True)). unfold print_snapshot_stats. total_menu.
  - apply (live_run _ (λ _, True)). unfold dump_eeprom, eeprom_dump.
    eapply (total_bind _ _ _ (λ _, True)); [|intros ? _; by apply total_ret].
    eapply total_bind; [apply total_readBytes; cbn; lia|]. intros b _. by apply total_ret.
  - apply live_bind; [apply live_confirmed|]. intros [|]; [|apply live_ret]. eapply live_run.
    apply total_for. intros j _. apply total_modify.
  - apply live_bind; [apply live_confirmed|]. intros [|]; [|apply live_ret]. eapply live_run.
    apply total_for. intros j _. apply total_modify.
Qed.

(** The key of the calibration command, in both cases, does not occur. *)
Definition no_calibration (l : list Z) : Prop := Forall (λ c, c ≠ 75 ∧ c ≠ 107) l.

Lemma no_calibration_suffix l1 l2 : l1 `suffix_of` l2 → no_calibration l2 → no_calibration l1.
Proof. intros [k ->] Hf. by apply Forall_app in Hf as [_ ?]. Qed.

Lemma choice_not_K c : c ≠ 75 ∧ c ≠ 107 → (if isalpha c then toupper c else c) ≠ 75.
Proof.
  unfold isalpha, toupper. intros [H1' H2'].
  destruct (Z.leb_spec 65 c), (Z.leb_spec c 90), (Z.leb_spec 97 c), (Z.leb_spec c 122); cbn; lia.
Qed.

Lemma run_exec_menu fuel i s :
  (length (pending i) < fuel)%nat → no_calibration (pending i) →
  (∃ s', exec_menu fuel menu i s = Wait s') ∨
  ∃ i' s', exec_menu fuel menu i s = Done tt i' s' ∧ pending i' `suffix_of` pending i ∧
    (length (pending i') < length (pending i))%nat.
Proof.
  revert i s. induction fuel as [|fuel IH]; intros i s Hf Hn; [lia|]. cbn [exec_menu].
  destruct (pending i) as [|c r] eqn:E; [left; exists s; by apply run_inbyte_wait|].
  destruct (run_inbyte (λ c, exec_entry menu (if isalpha c then toupper c else c);;
      if (if isalpha c then toupper c else c) =? 81 then mret tt else exec_menu fuel menu) c r i s E)
    as (i1 & E1 & ->). apply Forall_cons in Hn as [Hc Hn].
  destruct (live_entry _ (choice_not_K c Hc) i1 s) as [[s' E2]|([] & i2 & s2 & E2 & Hsuf)];
    [left; exists s'; by apply run_kwait|].
  rewrite (run_kbind _ _ _ _ _ _ _ E2).
  rewrite E1 in Hsuf. pose proof (suffix_length _ _ Hsuf) as Hlen. cbn [length] in *.
  destruct (_ =? 81).
  - right. exists i2, s2. split; [done|]. split; [by apply suffix_cons_r|lia].
  - destruct (IH i2 s2) as [?|(i3 & s3 & E3 & Hsuf3 & Hlen3)]; [lia|by eapply no_calibration_suffix|by left|].
    right. exists i3, s3. split; [done|]. split; [|lia]. apply suffix_cons_r. by etrans.
Qed.

(** C16: whatever keys are pressed, the calibration command apart, the
    console task runs without undefined behaviour and without an endless loop, uses
    all the input, and waits for more. *)
Theorem menu_never_stops fuel i s :
  (length (pending i) < fuel)%nat → no_calibration (pending i) →
  ∃ s', console_menu fuel i s = Wait s'.
Proof.
  revert i s. induction fuel as [|fuel IH]; intros i s Hf Hn; [lia|]. cbn [console_menu].
  unfold mbind, K_bind.
  destruct (run_exec_menu (S fuel) i s Hf Hn) as [[s' ->]|(i' & s' & -> & Hsuf & Hlen)]; [by exists s'|].
  apply IH; [lia|by eapply no_calibration_suffix].
Qed.
End live.

(** ** The unused address prompt *)

Section ipaddr.
Context `{Platform, Uart, !UartLaws, Runtime, FpEnv, Strtof, SysCtrl}.

Lemma ipaddr_fill l : ∀ fuel buf index i s r,
  pending i = l ++ r → Forall (λ c, c ≠ 8 ∧ c ≠ 13) l → (length l < fuel)%nat →
  (0 ≤ index) → index + Z.of_nat (length l) = 41 → length buf = 40%nat → l ≠ [] →
  ipaddr_loop fuel buf index i s = Undef (ub_index 40 40).
Proof.
  induction l as [|c l IH]; intros fuel buf index i s r E Hl Hf Hi Hlen Hb Hne; [done|].
  destruct fuel as [|fuel]; [lia|]. apply Forall_cons in Hl as [[Hc8 Hc13] Hl]. cbn [ipaddr_loop length] in *.
  destruct (run_inbyte (λ c, if c =? 8 then ipaddr_loop fuel buf (u32 (index - 1))
      else if c =? 13 then klift (put buf (Z.to_nat index) 10)
      else ip_addr ← klift (put buf (Z.to_nat index) c);
           ipaddr_loop fuel ip_addr (u32 (index + 1))) c (l ++ r) i s E) as (i' & E' & ->).
  rewrite (proj2 (Z.eqb_neq c 8)), (proj2 (Z.eqb_neq c 13)) by done. unfold put. rewrite Hb.
  destruct (decide (l = [])) as [->|Hne'].
  - cbn in Hlen. assert (index = 40) as -> by lia. done.
  - rewrite (proj2 (Nat.ltb_lt _ _)) by (destruct l; [done|cbn in Hlen; lia]). rewrite run_klift.
    rewrite u32_id by (unfold is_u32; lia).
    apply (IH _ _ _ _ _ r); [done|done|lia|lia|lia|by rewrite length_insert|done].
Qed.

(** The index of the address prompt is not bounded: the 41st
    character that is neither a backspace nor the end of the line is stored behind
    the buffer. *)
Theorem ipaddr_overflow fuel l r octets i s :
  pending i = l ++ r → Forall (λ c, c ≠ 8 ∧ c ≠ 13) l → length l = 41%nat → (41 < fuel)%nat →
  menu_get_ipaddr fuel octets i s = Undef (ub_index 40 40).
Proof.
  intros E Hl Hlen Hf. unfold menu_get_ipaddr, mbind, K_bind.
  rewrite (ipaddr_fill l fuel _ 0 i s r); [done|done|done|lia|lia|lia|apply stack_bytes_length|].
  by intros ->.
Qed.
End ipaddr.
