(* ===== verification/Discover.v ===== *)
(** * The discovery responder ([discover.c])

    A UDP request with the frame of the message protocol is answered with a fixed
    reply.  [disco_recv] is the receive callback on the bytes of the datagram; the
    result is the datagram sent back, if any. *)

From S2P Require Import Prelude Words Floats Machine PscMsg Listener Control Qspi I2c Main.

Section discover.

(** [sizeof(msg)]: the header, a union of 2 bytes, and padding *)
Definition disco_msg_size : nat := 12.

(** The static reply; its body is [git_hash], the serial number 0 and padding. *)
Definition disco_reply : list Z :=
  [0x50; 0x53] ++ le_bytes 2 (htons 1234) ++ le_bytes 4 (htonl 8) ++
  le_bytes 4 (htonl git_hash) ++ le_bytes 2 0 ++ [0; 0].

Definition byte (msg : list Z) (i : nat) : Z := default 0 (msg !! i).

(** [alloc_ok]: the buffer of the reply could be allocated *)
Definition disco_recv (alloc_ok : bool) (p : list Z) : option (list Z) :=
  let msg := take disco_msg_size p in
  let n := Z.of_nat (length msg) in
  if (n <? 8) || negb (byte msg 0 =? 0x50) || negb (byte msg 1 =? 0x53) then None
  else
    let msgid := ntohs (le_word (take 2 (drop 2 msg))) in
    let msglen := ntohl (le_word (take 4 (drop 4 msg))) in
    if n - 8 <? msglen then None
    else if negb (msgid =? 1234) then None
    else if alloc_ok then Some disco_reply else None.

Lemma ntohl_inj bs x :
  length bs = 4%nat → Forall is_u8 bs → ntohl (le_word bs) = x → bs = le_bytes 4 (htonl x).
Proof.
  intros Hl Hb <-. pose proof (le_word_range bs Hb) as Hr. rewrite Hl in Hr.
  rewrite htonl_htonl, u32_id by done. symmetry. rewrite <- Hl. by apply le_bytes_word.
Qed.

Lemma ntohs_inj bs x :
  length bs = 2%nat → Forall is_u8 bs → ntohs (le_word bs) = x → bs = le_bytes 2 (htons x).
Proof.
  intros Hl Hb <-. pose proof (le_word_range bs Hb) as Hr. rewrite Hl in Hr.
  rewrite htons_htons, u16_id by done. symmetry. rewrite <- Hl. by apply le_bytes_word.
Qed.

(** C32: the responder answers exactly the datagrams that start with a
    well-formed frame of the identifier 1234 whose body has at most 4 bytes, and the
    answer is itself a frame of this identifier with a body of 8 bytes, all zero. *)
Theorem discovery_reply alloc_ok p r :
  Forall is_u8 p →
  disco_recv alloc_ok p = Some r ↔
  alloc_ok = true ∧ r = frame 1234 (replicate 8 0) ∧
  ∃ body rest, (length body ≤ 4)%nat ∧ p = frame 1234 body ++ rest.
Proof.
  intros Hp. split.
  - unfold disco_recv. set (msg := take disco_msg_size p).
    destruct ((Z.of_nat (length msg) <? 8) || _ || _) eqn:Eh; [done|].
    destruct (Z.ltb_spec (Z.of_nat (length msg) - 8) (ntohl (le_word (take 4 (drop 4 msg))))) as [|Hlen]; [done|].
    destruct (Z.eqb_spec (ntohs (le_word (take 2 (drop 2 msg)))) 1234) as [Hid|]; [|done].
    cbn [negb]. destruct alloc_ok; [|done]. intros [= <-]. split; [done|]. split; [by vm_compute|].
    apply orb_false_iff in Eh as [[Hn%Z.ltb_ge H0%negb_false_iff%Z.eqb_eq]%orb_false_iff
      H1%negb_false_iff%Z.eqb_eq].
    destruct p as [|b0 [|b1 [|b2 [|b3 [|b4 [|b5 [|b6 [|b7 rest]]]]]]]]; try (cbn in Hn; lia).
    cbn in H0, H1. subst b0 b1. repeat (apply Forall_cons in Hp as [? Hp]).
    change (take 2 (drop 2 msg)) with [b2; b3] in Hid. change (take 4 (drop 4 msg)) with [b4; b5; b6; b7] in Hlen.
    apply ntohs_inj in Hid; [|done|forall_list; done].
    set (mlen := ntohl _) in Hlen. assert (Hml : 0 ≤ mlen) by apply htonl_range.
    assert ([b4; b5; b6; b7] = le_bytes 4 (htonl mlen)) as E4
      by (apply ntohl_inj; [done|forall_list; done|done]).
    unfold msg in Hlen. rewrite length_take in Hlen. cbn [length] in Hlen. unfold disco_msg_size in Hlen.
    exists (take (Z.to_nat mlen) rest), (drop (Z.to_nat mlen) rest). split; [rewrite length_take; lia|].
    unfold frame, psc_header. rewrite <- !app_assoc, take_drop, length_take.
    replace (Z.of_nat (Z.to_nat mlen `min` length rest)) with mlen by lia.
    by rewrite <- Hid, <- E4.
  - intros (-> & -> & body & rest & Hb & ->). unfold disco_recv.
    set (msg := take disco_msg_size _).
    destruct (psc_header_fields 1234 (Z.of_nat (length body)) (body ++ rest))
      as (_ & _ & Hid & Hlen); [done|unfold is_u32; lia|].
    change (take 2 (drop 2 msg)) with
      (take 2 (drop 2 (psc_header 1234 (Z.of_nat (length body)) ++ body ++ rest))).
    change (take 4 (drop 4 msg)) with
      (take 4 (drop 4 (psc_header 1234 (Z.of_nat (length body)) ++ body ++ rest))).
    rewrite Hid, Hlen.
    assert (8 + length body ≤ length msg)%nat as Hn.
    { unfold msg, frame. rewrite length_take, !length_app, length_psc_header. unfold disco_msg_size. lia. }
    rewrite (proj2 (Z.ltb_ge _ 8)), (proj2 (Z.ltb_ge _ (Z.of_nat (length body)))) by lia.
    cbn [orb negb Z.eqb Pos.eqb]. change (byte msg 0) with 0x50. change (byte msg 1) with 0x53.
    by vm_compute.
Qed.
End discover.
