(* ===== verification/Lstats.v ===== *)
(** * Network and system statistics ([lstats.c])

    The counters belong to lwIP, FreeRTOS and the system monitor; they are the
    fields of [Counters].  [lstats_push] is one iteration of the task. *)

From Stdlib Require Import SpecFloat.
From S2P Require Import Prelude Words Floats Machine.

(** The configuration of the libraries. *)
Class StatsConfig := {
  configTICK_RATE_HZ : Z;
  LWIP_STATS : bool;
  LINK_STATS : bool;
  MEM_STATS : bool;
}.

(** What the task reads; the sensor values are patterns of [float]. *)
Record Counters := MkCounters {
  ticks : Z;
  tasks : Z;
  link : list Z;             (* xmit recv drop chkerr memerr proterr err *)
  mem : list Z;              (* err avail used max illegal *)
  xAvailableHeapSpaceInBytes : Z;
  xMinimumEverFreeBytesRemaining : Z;
  xSizeOfLargestFreeBlockInBytes : Z;
  xNumberOfSuccessfulAllocations : Z;
  xNumberOfSuccessfulFrees : Z;
  xmon_ready : bool;
  temp : Z;
  vccint : Z;
  vccaux : Z;
}.

(** The message, field by field in the order of the structure. *)
Record stats_msg := MkStats {
  s_uptime : Z;
  s_nthread : Z;
  s_link : list Z;
  s_mem : list Z;
  s_temp : Z;
  s_vccint : Z;
  s_vccaux : Z;
  s_avail : Z;
  s_largest : Z;
  s_lowest : Z;
  s_nactive : Z;
}.

Definition stats_words (m : stats_msg) : list Z :=
  [s_uptime m; s_nthread m] ++ s_link m ++ s_mem m ++ [s_temp m; s_vccint m; s_vccaux m] ++
  [s_avail m; s_largest m; s_lowest m; s_nactive m].

Section lstats.
Context `{FpEnv, StatsConfig}.

(** [local.h]: the pattern of a float in network byte order *)
Definition htonf (f : spec_float) : Z := htonl (bits_of_float f).

Definition uptime (c : Counters) : spec_float :=
  fdiv (fmul (f_of_int (ticks c)) (f_of_int 1)) (f_of_int configTICK_RATE_HZ).

(** [MV] of each counter, where the statistics are configured. *)
Definition stats_of (configured : bool) (n : nat) (counters : list Z) : list Z :=
  if LWIP_STATS && configured then htonl <$> counters else replicate n 0.

Definition stats_message (c : Counters) : stats_msg :=
  let sensor v := if xmon_ready c then htonl v else 0 in
  MkStats
    (htonf (uptime c))
    (htonl (tasks c))
    (stats_of LINK_STATS 7 (link c))
    (stats_of MEM_STATS 5 (mem c))
    (sensor (temp c)) (sensor (vccint c)) (sensor (vccaux c))
    (htonl (xAvailableHeapSpaceInBytes c))
    (htonl (xSizeOfLargestFreeBlockInBytes c))
    (htonl (xMinimumEverFreeBytesRemaining c))
    (htonl (u32 (xNumberOfSuccessfulAllocations c - xNumberOfSuccessfulFrees c))).

Definition lstats_push `{Platform} (c : Counters) : M unit :=
  psc_send_event 101 (bytes_of_words (stats_words (stats_message c))).

(** ** The layout *)

(** The value a client reads at a byte offset: 4 bytes, most significant first. *)
Definition be32_at (off : nat) (body : list Z) : Z := ntohl (le_word (take 4 (drop off body))).

Definition well_formed (c : Counters) : Prop := length (link c) = 7%nat ∧ length (mem c) = 5%nat.

Lemma be32_word ws k w :
  ws !! k = Some w → be32_at (4 * k) (bytes_of_words (htonl <$> ws)) = u32 w.
Proof.
  intros Hk. unfold be32_at. rewrite drop_bytes_of_words.
  rewrite (drop_S _ (htonl w) k) by (by rewrite list_lookup_fmap, Hk).
  rewrite bytes_of_words_cons. change (take 4 (le_bytes 4 (htonl w) ++ ?l)) with (le_bytes 4 (htonl w)).
  rewrite le_word_bytes_4 by apply htonl_range. apply htonl_htonl.
Qed.

(** What is reported when a part may not be configured or ready. *)
Definition reported (configured : bool) (v : Z) : Z := if configured then v else 0.

(** The values in the order of the message. *)
Definition stats_values (c : Counters) : list Z :=
  [bits_of_float (uptime c); tasks c] ++
  (reported (LWIP_STATS && LINK_STATS) <$> link c) ++
  (reported (LWIP_STATS && MEM_STATS) <$> mem c) ++
  [reported (xmon_ready c) (temp c); reported (xmon_ready c) (vccint c);
   reported (xmon_ready c) (vccaux c);
   xAvailableHeapSpaceInBytes c; xSizeOfLargestFreeBlockInBytes c;
   xMinimumEverFreeBytesRemaining c;
   u32 (xNumberOfSuccessfulAllocations c - xNumberOfSuccessfulFrees c)].

Lemma stats_of_reported b n l :
  length l = n → stats_of b n l = htonl <$> (reported (LWIP_STATS && b) <$> l).
Proof.
  intros <-. unfold stats_of, reported. rewrite <- list_fmap_compose. destruct (LWIP_STATS && b).
  - by apply list_fmap_ext.
  - induction l as [|x l IH]; [done|]. cbn [length replicate]. by rewrite IH.
Qed.

Lemma stats_words_values c :
  well_formed c → stats_words (stats_message c) = htonl <$> stats_values c.
Proof.
  intros [Hl Hm]. unfold stats_words, stats_message, stats_values.
  cbn [s_uptime s_nthread s_link s_mem s_temp s_vccint s_vccaux s_avail s_largest s_lowest s_nactive].
  rewrite (stats_of_reported _ 7), (stats_of_reported _ 5) by done.
  rewrite !fmap_app. unfold reported. by destruct (xmon_ready c).
Qed.

(** The offsets that the comments of the structure document. *)
Definition stats_offsets : list nat :=
  [0; 4; 8; 12; 16; 20; 24; 28; 32; 36; 40; 44; 48; 52; 56; 60; 64; 68; 72; 76; 80]%nat.

(** The statistics message has the identifier 101 and 84 bytes, and at
    each documented offset a client reads, in network byte order, the counter that
    the structure has there (0 where the statistics are not configured or the sensor
    is not ready). *)
Theorem lstats_message `{Platform} c s :
  well_formed c →
  ∃ body, lstats_push c s = Ok (tt, add_event (PscSend 101 body) s) ∧ length body = 84%nat ∧
    (λ off, be32_at off body) <$> stats_offsets = u32 <$> stats_values c.
Proof.
  intros Hc. unfold lstats_push. rewrite stats_words_values by done.
  eexists. split; [reflexivity|].
  assert (length (stats_values c) = 21%nat) as Hn.
  { destruct Hc as [Hl Hm]. unfold stats_values. rewrite !length_app, !length_fmap, Hl, Hm. done. }
  split; [by rewrite length_bytes_of_words, length_fmap, Hn|].
  change stats_offsets with ((λ k, 4 * k)%nat <$> seq 0 21). rewrite <- list_fmap_compose.
  apply list_eq. intros k. rewrite !list_lookup_fmap.
  destruct (decide (k < 21)%nat) as [Hk|Hk].
  - rewrite lookup_seq_lt by done. cbn [fmap option_fmap option_map Nat.add].
    destruct (lookup_lt_is_Some_2 (stats_values c) k ltac:(lia)) as [w Hw]. rewrite Hw.
    cbn [fmap option_fmap option_map]. f_equal. unfold compose. by apply be32_word.
  - rewrite lookup_seq_ge, (proj2 (lookup_ge_None _ _)) by lia. done.
Qed.
End lstats.
