(* ===== verification/NetSetup.v ===== *)
(** * Bringing up the network ([net_setup.c], [realmain] in [main.c])

    lwIP and the MAC driver are outside of the repository; what the firmware asks
    of them is recorded as [net_event]s.  [realmain] composes the configuration from
    the SD card, the recall of the settings and the set-up of the interface. *)

From S2P Require Import Prelude Words Floats Machine Regs Sadata Qspi I2c CStr FatFs Sdcard SdcardSpec.

(** What lwIP answers, and the DHCP timer periods of its headers. *)
Class Netif := {
  xemac_add_ok : bool;
  dhcp_start_err : Z;
  DHCP_FINE_TIMER_MSECS : Z;
  DHCP_COARSE_TIMER_SECS : Z;
}.

Inductive net_event :=
| XemacAdd (addr mask gw : Z) (hwaddr : list Z)
| SetDefault
| SetUp
| StartNic                    (** the thread that serves the interface *)
| DhcpStart
| StartDhcp                   (** the DHCP thread *)
| DhcpFine
| DhcpCoarse
| ShowAddress (addr : Z).

#[export] Instance net_event_eq_dec : EqDecision net_event.
Proof. solve_decision. Defined.

Section net.
Context `{Netif}.

Definition net_setup (conf : net_config) : list net_event :=
  XemacAdd (addr conf) (mask conf) (gw conf) (hwaddr conf) ::
  if xemac_add_ok then
    [SetDefault; SetUp; StartNic] ++
    (if use_static conf =? 0 then
       DhcpStart :: if dhcp_start_err =? 0 then [StartDhcp] else []
     else [])
  else [].

(** The variables of [dhcp_client]. *)
Record dhcp_state := MkDhcp { prev : Z; mscnt : Z }.

(** One iteration; [ip] is the address of the interface at its end. *)
Definition dhcp_client (ip : Z) (d : dhcp_state) : list net_event * dhcp_state :=
  let m := mscnt d + DHCP_FINE_TIMER_MSECS in
  let coarse := DHCP_COARSE_TIMER_SECS * 1000 <=? m in
  ([DhcpFine] ++ (if coarse then [DhcpCoarse] else []) ++
     (if ip =? prev d then [] else [ShowAddress ip]),
   MkDhcp ip (if coarse then 0 else m)).

Definition dhcp_start_state : dhcp_state := MkDhcp 0 0.

Fixpoint dhcp_run (ips : list Z) (d : dhcp_state) : list net_event * dhcp_state :=
  match ips with
  | [] => ([], d)
  | ip :: ips =>
      let '(evs, d) := dhcp_client ip d in
      let '(evs', d) := dhcp_run ips d in
      (evs ++ evs', d)
  end.

(** *** The coarse timer *)

(** Iterations between two coarse ticks. *)
Definition coarse_period : Z :=
  (DHCP_COARSE_TIMER_SECS * 1000 + DHCP_FINE_TIMER_MSECS - 1) / DHCP_FINE_TIMER_MSECS.

Definition count_event (e : net_event) (l : list net_event) : Z :=
  Z.of_nat (length (filter (λ e', e' = e) l)).

Lemma count_event_app e l1 l2 : count_event e (l1 ++ l2) = count_event e l1 + count_event e l2.
Proof. unfold count_event. rewrite filter_app, length_app. lia. Qed.

Lemma count_step ip d :
  let '(evs, d') := dhcp_client ip d in
  count_event DhcpFine evs = 1 ∧
  (if DHCP_COARSE_TIMER_SECS * 1000 <=? mscnt d + DHCP_FINE_TIMER_MSECS
   then count_event DhcpCoarse evs = 1 ∧ mscnt d' = 0
   else count_event DhcpCoarse evs = 0 ∧ mscnt d' = mscnt d + DHCP_FINE_TIMER_MSECS).
Proof. unfold dhcp_client, count_event. by destruct (_ <=? _), (ip =? prev d). Qed.

(** The counter reaches the coarse time exactly in the last iteration of a period. *)
Lemma last_tick m :
  0 < DHCP_FINE_TIMER_MSECS → 0 < DHCP_COARSE_TIMER_SECS → 0 ≤ m < coarse_period →
  DHCP_COARSE_TIMER_SECS * 1000 ≤ DHCP_FINE_TIMER_MSECS * m + DHCP_FINE_TIMER_MSECS ↔
  m = coarse_period - 1.
Proof.
  unfold coarse_period. set (F := DHCP_FINE_TIMER_MSECS). set (C := DHCP_COARSE_TIMER_SECS * 1000).
  intros HF HC. pose proof (Z.div_mod (C + F - 1) F ltac:(lia)) as Hdm.
  pose proof (Z.mod_pos_bound (C + F - 1) F HF) as Hr.
  set (P := (C + F - 1) / F) in *. intros Hm. split; intros Hc; [|nia].
  destruct (Z.eq_dec m (P - 1)); [done|]. assert (m + 1 ≤ P - 1) by lia.
  assert (F * (m + 1) ≤ F * (P - 1)) by (apply Z.mul_le_mono_nonneg_l; lia). nia.
Qed.

Lemma run_coarse ips : ∀ n d evs d',
  0 < DHCP_FINE_TIMER_MSECS → 0 < DHCP_COARSE_TIMER_SECS → 0 ≤ n →
  mscnt d = DHCP_FINE_TIMER_MSECS * (n mod coarse_period) →
  dhcp_run ips d = (evs, d') →
  let n' := n + Z.of_nat (length ips) in
  mscnt d' = DHCP_FINE_TIMER_MSECS * (n' mod coarse_period) ∧
  count_event DhcpFine evs = Z.of_nat (length ips) ∧
  count_event DhcpCoarse evs = n' / coarse_period - n / coarse_period.
Proof.
  induction ips as [|ip ips IH]; intros n d evs d' HF HC Hn Hd E.
  - injection E as <- <-. cbn. rewrite Z.add_0_r, Z.sub_diag. done.
  - cbn [dhcp_run] in E. pose proof (count_step ip d) as Hs. destruct (dhcp_client ip d) as [e1 d1].
    destruct (dhcp_run ips d1) as [e2 d2] eqn:E2. injection E as <- <-.
    destruct Hs as [Hf Hc]. rewrite !count_event_app, Hf. cbn [length].
    assert (Hp : 0 < coarse_period).
    { unfold coarse_period. apply Z.div_str_pos. lia. }
    pose proof (Z.mod_pos_bound n coarse_period Hp) as Hb.
    assert (Hlast : DHCP_COARSE_TIMER_SECS * 1000 ≤ mscnt d + DHCP_FINE_TIMER_MSECS ↔
      n mod coarse_period = coarse_period - 1) by (rewrite Hd; by apply last_tick).
    assert (Hstep : mscnt d1 = DHCP_FINE_TIMER_MSECS * ((n + 1) mod coarse_period) ∧
      count_event DhcpCoarse e1 = (n + 1) / coarse_period - n / coarse_period).
    { pose proof (Z.div_mod n coarse_period ltac:(lia)) as Hdm.
      destruct (Z.leb_spec (DHCP_COARSE_TIMER_SECS * 1000) (mscnt d + DHCP_FINE_TIMER_MSECS)) as [Hle|Hgt];
        destruct Hc as [-> ->].
      - apply Hlast in Hle.
        assert (n + 1 = coarse_period * (n / coarse_period + 1) + 0) as Eq by lia.
        rewrite <- (Z.mod_unique_pos _ _ _ _ (conj (Z.le_refl 0) Hp) Eq).
        rewrite <- (Z.div_unique_pos _ _ _ _ (conj (Z.le_refl 0) Hp) Eq). lia.
      - assert (n mod coarse_period + 1 < coarse_period) as Hlt by (destruct Hlast as [_ Hl]; lia).
        assert (n + 1 = coarse_period * (n / coarse_period) + (n mod coarse_period + 1)) as Eq by lia.
        assert (0 ≤ n mod coarse_period + 1 < coarse_period) as Hb' by lia.
        rewrite <- (Z.mod_unique_pos _ _ _ _ Hb' Eq), <- (Z.div_unique_pos _ _ _ _ Hb' Eq), Hd. lia. }
    destruct Hstep as [Hm1 Hc1].
    destruct (IH (n + 1) d1 e2 d2 HF HC ltac:(lia) Hm1 E2) as (Hm & Hfine & Hcoarse).
    replace (n + 1 + Z.of_nat (length ips)) with (n + Z.of_nat (S (length ips))) in * by lia.
    split; [done|]. split; lia.
Qed.

(** After [n] iterations of the DHCP thread lwIP's fine timer has run [n]
    times and its coarse timer once per [coarse_period] iterations (120 iterations of
    half a second with lwIP's periods), whatever addresses are assigned meanwhile. *)
Theorem dhcp_timers ips evs d' :
  0 < DHCP_FINE_TIMER_MSECS → 0 < DHCP_COARSE_TIMER_SECS →
  dhcp_run ips dhcp_start_state = (evs, d') →
  count_event DhcpFine evs = Z.of_nat (length ips) ∧
  count_event DhcpCoarse evs = Z.of_nat (length ips) / coarse_period.
Proof.
  intros HF HC E.
  assert (mscnt dhcp_start_state = DHCP_FINE_TIMER_MSECS * (0 mod coarse_period)) as E0.
  { cbn. rewrite Z.mod_0_l; [lia|]. unfold coarse_period.
    assert (0 < (DHCP_COARSE_TIMER_SECS * 1000 + DHCP_FINE_TIMER_MSECS - 1) / DHCP_FINE_TIMER_MSECS)
      by (apply Z.div_str_pos; lia). lia. }
  destruct (run_coarse ips 0 _ _ _ HF HC ltac:(lia) E0 E) as (_ & Hf & Hc).
  split; [done|]. rewrite Hc, Zdiv_0_l. by rewrite Z.add_0_l, Z.sub_0_r.
Qed.
End net.

(** ** [realmain] *)

Section realmain.
Context `{Platform, Runtime, FpEnv, Lwip, FatFs, Heap, Netif}.

(** [net_config conf = {}] *)
Definition zero_conf : net_config := MkConf 0 0 0 0 (replicate NETIF_MAX_HWADDR_LEN 0).

(** Up to the network set-up; the server loop follows. *)
Definition realmain (fuel : nat) : D (list net_event) :=
  conf ← sdcard_handle fuel zero_conf;
  dev InitSettingsfromQspi;;
  mret (net_setup conf).

Context `{!LwipLaws, !FatFsLaws sd_fil}.

End realmain.
