(* ===== verification/Tftp.v ===== *)
(** * The TFTP server ([tftp_server.c], [tftp_opts.h])

    The server's only state is [tftp_state]; it reaches files through the callbacks
    of its context ([TftpContext]), which [TftpHandler] implements.  Datagrams are
    lists of bytes, cut into the segments of a pbuf chain; the first bytes are read
    from the first segment. *)

From S2P Require Import Prelude Words Floats CStr.

Definition TFTP_MAX_PAYLOAD_SIZE : Z := 512.
Definition TFTP_HEADER_LENGTH : Z := 4.
Definition TFTP_RRQ : Z := 1.
Definition TFTP_WRQ : Z := 2.
Definition TFTP_DATA : Z := 3.
Definition TFTP_ACK : Z := 4.
Definition TFTP_ERROR : Z := 5.
Definition TFTP_ERROR_FILE_NOT_FOUND : Z := 1.
Definition TFTP_ERROR_ACCESS_VIOLATION : Z := 2.
Definition TFTP_ERROR_ILLEGAL_OPERATION : Z := 4.
Definition TFTP_ERROR_UNKNOWN_TRFR_ID : Z := 5.

Definition TFTP_TIMEOUT_MSECS : Z := 10000.
Definition TFTP_MAX_RETRIES : Z := 5.
Definition TFTP_TIMER_MSECS : Z := TFTP_TIMEOUT_MSECS / 10.
Definition TFTP_MAX_FILENAME_LEN : Z := 20.
Definition TFTP_MAX_MODE_LEN : Z := 7.

(** [struct tftp_context]: [read] and [write] return a negative number on errors. *)
Class TftpContext := {
  CS : Type;
  HANDLE : Type;
  ctx_open : list Z → list Z → bool → CS → option HANDLE * CS;
  ctx_close : HANDLE → CS → CS;
  ctx_read : HANDLE → nat → CS → (Z * list Z) * CS;
  ctx_write : HANDLE → list (list Z) → CS → Z * CS;
}.

(** lwIP's packet buffers: whether the n-th allocation succeeds,
    [pbuf_memfind(p, "\0", 1, start)] on the bytes of a datagram (an offset, or 0xFFFF),
    and [pbuf_remove_header(p, 4)]. *)
Class Pbuf := {
  pbuf_ok : nat → bool;
  pbuf_memfind : list Z → Z → Z;
  pbuf_remove_header : list (list Z) → list (list Z);
}.

(** [struct tftp_state] (an address of 0 is [any]), with what is outside of it: the
    timers pending for [tftp_tmr], the allocations made, the state behind the
    context, and the datagrams passed to lwIP. *)
Record tftp_state `{TftpContext} := MkTftp {
  handle : option HANDLE;
  last_data : option (list Z);
  addr : Z;
  port : Z;
  timer : Z;
  last_pkt : Z;
  blknum : Z;
  retries : Z;
  mode_write : Z;
  timers : nat;
  allocs : nat;
  cs : CS;
  sent : list (Z * Z * list Z);
}.

Definition W `{TftpContext} (A : Type) : Type := tftp_state → res (A * tftp_state).

Section tftp.
Context `{TftpContext, Pbuf}.

#[global] Instance W_ret : MRet W := λ A a t, Ok (a, t).
#[global] Instance W_bind : MBind W := λ A B f m t,
  match m t with Ok (a, t') => f a t' | Ub u => Ub u end.

Definition get_s {A} (f : tftp_state → A) : W A := λ t, Ok (f t, t).
Definition upd (f : tftp_state → tftp_state) : W unit := λ t, Ok (tt, f t).
Definition wlift {A} (r : res A) : W A := λ t, match r with Ok a => Ok (a, t) | Ub u => Ub u end.

(** Assignments to the fields. *)
Definition set_conn h l a p t := MkTftp _ h l a p (timer t) (last_pkt t) (blknum t) (retries t)
  (mode_write t) (timers t) (allocs t) (cs t) (sent t).
Definition set_handle h t := set_conn h (last_data t) (addr t) (port t) t.
Definition set_last l t := set_conn (handle t) l (addr t) (port t) t.
Definition set_peer a p t := set_conn (handle t) (last_data t) a p t.
Definition set_count ti lp bn re mw t := MkTftp _ (handle t) (last_data t) (addr t) (port t)
  ti lp bn re mw (timers t) (allocs t) (cs t) (sent t).
Definition set_timer x t := set_count x (last_pkt t) (blknum t) (retries t) (mode_write t) t.
Definition set_last_pkt x t := set_count (timer t) x (blknum t) (retries t) (mode_write t) t.
Definition set_blknum x t := set_count (timer t) (last_pkt t) x (retries t) (mode_write t) t.
Definition set_retries x t := set_count (timer t) (last_pkt t) (blknum t) x (mode_write t) t.
Definition set_mode x t := set_count (timer t) (last_pkt t) (blknum t) (retries t) x t.
Definition set_env ti al c se t := MkTftp _ (handle t) (last_data t) (addr t) (port t)
  (timer t) (last_pkt t) (blknum t) (retries t) (mode_write t) ti al c se.
Definition set_timers n t := set_env n (allocs t) (cs t) (sent t) t.
Definition set_allocs n t := set_env (timers t) n (cs t) (sent t) t.
Definition set_cs c t := set_env (timers t) (allocs t) c (sent t) t.
Definition add_sent m t := set_env (timers t) (allocs t) (cs t) (sent t ++ [m]) t.

(** *** lwIP *)

Definition pbuf_alloc : W bool := λ t, Ok (pbuf_ok (allocs t), set_allocs (S (allocs t)) t).
Definition udp_sendto (a p : Z) (data : list Z) : W unit := upd (add_sent (a, p, data)).
Definition sys_timeout : W unit := upd (λ t, set_timers (S (timers t)) t).
Definition sys_untimeout : W unit := upd (λ t, set_timers (pred (timers t)) t).

(** [sbuf[k]] of the first segment *)
Definition sbuf (p : list (list Z)) (k : nat) : res Z :=
  let seg := match p with seg :: _ => seg | [] => [] end in
  if (2 * k + 2 <=? length seg)%nat then Ok (le_word (take 2 (drop (2 * k) seg)))
  else Ub (ub_index (Z.of_nat k) (Z.of_nat (length seg) / 2)).

Definition tot_len (p : list (list Z)) : Z := Z.of_nat (length (mjoin p)).

(** *** The functions of the server *)

Definition close_handle : W unit :=
  upd (set_peer 0 0);;
  upd (set_last None);;
  sys_untimeout;;
  h ← get_s handle;
  match h with
  | Some h => upd (λ t, set_cs (ctx_close h (cs t)) t);; upd (set_handle None)
  | None => mret tt
  end.

Definition send_error (a p code : Z) (str : list Z) : W unit :=
  ok ← pbuf_alloc;
  if ok : bool then
    udp_sendto a p (le_bytes 2 (htons TFTP_ERROR) ++ le_bytes 2 (htons code) ++ str ++ [0])
  else mret tt.

Definition send_ack (bn : Z) : W unit :=
  ok ← pbuf_alloc;
  if ok : bool then
    a ← get_s addr;
    p ← get_s port;
    udp_sendto a p (le_bytes 2 (htons TFTP_ACK) ++ le_bytes 2 (htons bn))
  else mret tt.

Definition resend_data : W unit :=
  l ← get_s last_data;
  match l with
  | None => wlift (Ub ub_null)
  | Some data =>
      ok ← pbuf_alloc;
      if ok : bool then
        a ← get_s addr;
        p ← get_s port;
        udp_sendto a p data
      else mret tt
  end.

(** The handle of the context; it is never null where it is used. *)
Definition the_handle : W HANDLE :=
  h ← get_s handle;
  match h with Some h => mret h | None => wlift (Ub ub_null) end.

Definition send_data : W unit :=
  ok ← pbuf_alloc;
  if negb ok then upd (set_last None)
  else
    bn ← get_s blknum;
    let header := le_bytes 2 (htons TFTP_DATA) ++ le_bytes 2 (htons bn) in
    upd (set_last (Some (header ++ replicate 512 0)));;
    h ← the_handle;
    c ← get_s cs;
    let '((ret, data), c) := ctx_read h 512 c in
    upd (set_cs c);;
    if ret <? 0 then
      a ← get_s addr;
      p ← get_s port;
      send_error a p TFTP_ERROR_ACCESS_VIOLATION (zs "Error occurred while reading the file.");;
      close_handle
    else
      upd (set_last (Some (header ++ take 512 data)));;
      resend_data.

(** A request: [bytes] is the whole datagram. *)
Definition recv_request (write : bool) (bytes : list Z) (a p : Z) : W unit :=
  h ← get_s handle;
  match h with
  | Some _ =>
      send_error a p TFTP_ERROR_ACCESS_VIOLATION (zs "Only one connection at a time is supported")
  | None =>
      sys_timeout;;
      let fend := pbuf_memfind bytes 2 in
      if TFTP_MAX_FILENAME_LEN + 1 <? u16 (fend - 1) then
        send_error a p TFTP_ERROR_ACCESS_VIOLATION (zs "Filename too long/not NULL terminated")
      else
        let filename := take (Z.to_nat (fend - 2)) (drop 2 bytes) in
        let mend := pbuf_memfind bytes (fend + 1) in
        if TFTP_MAX_MODE_LEN + 1 <? u16 (mend - fend) then
          send_error a p TFTP_ERROR_ACCESS_VIOLATION (zs "Mode too long/not NULL terminated")
        else
          let mode := take (Z.to_nat (mend - fend - 1)) (drop (Z.to_nat (fend + 1)) bytes) in
          c ← get_s cs;
          let '(h, c) := ctx_open filename mode write c in
          upd (set_cs c);;
          upd (set_handle h);;
          upd (set_blknum 1);;
          match h with
          | None => send_error a p TFTP_ERROR_FILE_NOT_FOUND (zs "Unable to open requested file.")
          | Some _ =>
              upd (set_peer a p);;
              if write then upd (set_mode 1);; send_ack 0
              else upd (set_mode 0);; send_data
          end
  end.

Definition recv_data (p : list (list Z)) (a pt : Z) : W unit :=
  h ← get_s handle;
  match h with
  | None => send_error a pt TFTP_ERROR_ACCESS_VIOLATION (zs "No connection")
  | Some h =>
      mw ← get_s mode_write;
      if negb (mw =? 1) then
        send_error a pt TFTP_ERROR_ACCESS_VIOLATION (zs "Not a write connection")
      else
        w1 ← wlift (sbuf p 1);
        let bn := ntohs w1 in
        cur ← get_s blknum;
        if bn =? cur then
          let p := pbuf_remove_header p in
          c ← get_s cs;
          let '(ret, c) := ctx_write h p c in
          upd (set_cs c);;
          (if ret <? 0 then
             send_error a pt TFTP_ERROR_ACCESS_VIOLATION (zs "error writing file");; close_handle
           else send_ack bn);;
          if tot_len p <? TFTP_MAX_PAYLOAD_SIZE then close_handle
          else upd (λ t, set_blknum (u16 (blknum t + 1)) t)
        else if u16 (bn + 1) =? cur then send_ack bn
        else send_error a pt TFTP_ERROR_UNKNOWN_TRFR_ID (zs "Wrong block number")
  end.

Definition recv_ack (p : list (list Z)) (a pt : Z) : W unit :=
  h ← get_s handle;
  match h with
  | None => send_error a pt TFTP_ERROR_ACCESS_VIOLATION (zs "No connection")
  | Some _ =>
      mw ← get_s mode_write;
      if negb (mw =? 0) then
        send_error a pt TFTP_ERROR_ACCESS_VIOLATION (zs "Not a read connection")
      else
        w1 ← wlift (sbuf p 1);
        cur ← get_s blknum;
        if negb (ntohs w1 =? cur) then
          send_error a pt TFTP_ERROR_UNKNOWN_TRFR_ID (zs "Wrong block number")
        else
          l ← get_s last_data;
          let lastpkt := match l with
                         | Some data => negb (Z.of_nat (length data) =? TFTP_MAX_PAYLOAD_SIZE + TFTP_HEADER_LENGTH)
                         | None => false
                         end in
          if lastpkt then close_handle
          else upd (λ t, set_blknum (u16 (blknum t + 1)) t);; send_data
  end.

(** Another peer than the one of the connection. *)
Definition foreign (a p : Z) (t : tftp_state) : bool :=
  (negb (port t =? 0) && negb (p =? port t)) || (negb (addr t =? 0) && negb (addr t =? a)).

Definition recv (p : list (list Z)) (a pt : Z) : W unit :=
  f ← get_s (foreign a pt);
  if f : bool then
    send_error a pt TFTP_ERROR_ACCESS_VIOLATION (zs "Only one connection at a time is supported")
  else
    opcode ← wlift (sbuf p 0);
    upd (λ t, set_last_pkt (timer t) t);;
    upd (set_retries 0);;
    switch opcode
      [(htons TFTP_RRQ, recv_request false (mjoin p) a pt);
       (htons TFTP_WRQ, recv_request true (mjoin p) a pt);
       (htons TFTP_DATA, recv_data p a pt);
       (htons TFTP_ACK, recv_ack p a pt)]
      (send_error a pt TFTP_ERROR_ILLEGAL_OPERATION (zs "Unknown operation")).

(** The timer that has fired is no longer pending; [timer] is an [int]. *)
Definition tftp_tmr : W unit :=
  upd (λ t, set_timers (pred (timers t)) t);;
  ti ← get_s timer;
  (if ti =? 2 ^ 31 - 1 then wlift (Ub (ub_overflow (2 ^ 31))) else upd (set_timer (ti + 1)));;
  h ← get_s handle;
  match h with
  | None => mret tt
  | Some _ =>
      sys_timeout;;
      idle ← get_s (λ t, timer t - last_pkt t);
      if TFTP_TIMEOUT_MSECS / TFTP_TIMER_MSECS <? idle then
        l ← get_s last_data;
        r ← get_s retries;
        if match l with Some _ => r <? TFTP_MAX_RETRIES | None => false end then
          resend_data;;
          upd (λ t, set_retries (retries t + 1) t)
        else close_handle
      else mret tt
  end.

(** On success of the socket calls. *)
Definition tftp_init : W unit :=
  upd (set_handle None);;
  upd (λ t, set_peer (addr t) 0 t);;
  upd (set_timer 0);;
  upd (set_last None).

(** All fields are cleared. *)
Definition tftp_cleanup : W unit :=
  close_handle;;
  upd (λ t, set_count 0 0 0 0 0 (set_conn None None 0 0 t)).
End tftp.
