(* ===== verification/TftpHandler.v ===== *)
(** * TFTP on the SD card ([tftp_handler.c])

    The callbacks of the TFTP server on FatFs.  [tftp_setup] is commented out in
    [main.c]: the server is part of the program but not started. *)

From Stdlib Require Ascii String.
From S2P Require Import Prelude Words Floats Machine CStr FatFs Tftp.

(** [static FIL fd] of [tftp_sdcard_open] *)
Class TftpFile `{FatFs} := { tftp_fil : FIL }.

(** A character array as a name. *)
Definition name_of (cs : list Z) : string :=
  String.string_of_list_ascii (Ascii.ascii_of_N ∘ Z.to_N <$> cs).

Section handler.
Context `{FatFs, !TftpFile}.

Definition tftp_sdcard_open (fname mode : list Z) (write : bool) (x : FS) : option FIL * FS :=
  if negb (bool_decide (mode = zs "octet")) then (None, x)
  else
    let '(r, x) := f_open tftp_fil (name_of fname)
      (if write then Z.lor FA_OPEN_ALWAYS FA_WRITE else Z.lor FA_OPEN_EXISTING FA_READ) x in
    ((if r =? FR_OK then Some tftp_fil else None), x).

Definition tftp_sdcard_close (h : FIL) (x : FS) : FS := (f_close h x).2.

Definition tftp_sdcard_read (h : FIL) (bytes : nat) (x : FS) : (Z * list Z) * FS :=
  let '((r, data), x) := f_read h bytes x in
  if negb (r =? FR_OK) then ((-1, []), x)
  else ((Z.of_nat (length (take bytes data)), take bytes data), x).

(** The segments, up to the first where nothing follows. *)
Fixpoint tftp_sdcard_write (h : FIL) (p : list (list Z)) (x : FS) : Z * FS :=
  match p with
  | [] => (0, x)
  | seg :: rest =>
      if tot_len p =? 0 then (0, x)
      else if (length seg =? 0)%nat then tftp_sdcard_write h rest x
      else
        let '((r, n), x) := f_write h seg x in
        if negb (r =? FR_OK) then (-1, x)
        else if negb (n =? Z.of_nat (length seg)) then (-1, x)
        else tftp_sdcard_write h rest x
  end.

#[global] Instance ctxt : TftpContext := {|
  CS := FS;
  HANDLE := FIL;
  ctx_open := tftp_sdcard_open;
  ctx_close := tftp_sdcard_close;
  ctx_read := tftp_sdcard_read;
  ctx_write := tftp_sdcard_write;
|}.
End handler.
