(* ===== verification/TftpSpec.v ===== *)
(** * What the TFTP server promises

    One connection at a time: other peers cannot disturb it; a transfer delivers or
    stores exactly the file, retransmissions included; an abandoned one is closed.
    The file operations enter through the contracts [TftpReads] and [TftpWrites] of
    a context, which the SD card's context fulfils. *)

From S2P Require Import Prelude Words Floats Machine CStr FatFs Tftp TftpHandler.

(** ** Running programs *)

Section run.
Context `{TftpContext, Pbuf}.

Lemma run_wbind {A B} (m : W A) (f : A → W B) t a t' :
  m t = Ok (a, t') → (m ≫= f) t = f a t'.
Proof. intros E. unfold mbind, W_bind. by rewrite E. Qed.

Lemma run_upd {B} (g : tftp_state → tftp_state) (f : unit → W B) t : (upd g ≫= f) t = f tt (g t).
Proof. done. Qed.
Lemma run_get {A B} (g : tftp_state → A) (f : A → W B) t : (get_s g ≫= f) t = f (g t) t.
Proof. done. Qed.
Lemma run_wlift {A B} (a : A) (f : A → W B) t : (wlift (Ok a) ≫= f) t = f a t.
Proof. done. Qed.
Lemma run_alloc {B} (f : bool → W B) t :
  (pbuf_alloc ≫= f) t = f (pbuf_ok (allocs t)) (set_allocs (S (allocs t)) t).
Proof. done. Qed.

(** At most one datagram [m] more, at most some allocations more. *)
Definition tried (m : Z * Z * list Z) (t t' : tftp_state) : Prop :=
  t' = set_env (timers t) (S (allocs t)) (cs t)
         (sent t ++ if pbuf_ok (allocs t) then [m] else []) t.

Definition error_msg (code : Z) (str : list Z) : list Z :=
  le_bytes 2 (htons TFTP_ERROR) ++ le_bytes 2 (htons code) ++ str ++ [0].

Lemma run_send_error a p code str t :
  ∃ t', send_error a p code str t = Ok (tt, t') ∧ tried (a, p, error_msg code str) t t'.
Proof.
  unfold send_error, tried. rewrite run_alloc. destruct (pbuf_ok (allocs t)).
  - eexists. split; [reflexivity|]. done.
  - eexists. split; [reflexivity|]. rewrite app_nil_r. by destruct t.
Qed.

Definition ack_msg (bn : Z) : list Z := le_bytes 2 (htons TFTP_ACK) ++ le_bytes 2 (htons bn).

Lemma run_send_ack bn t :
  ∃ t', send_ack bn t = Ok (tt, t') ∧ tried (addr t, port t, ack_msg bn) t t'.
Proof.
  unfold send_ack, tried. rewrite run_alloc. destruct (pbuf_ok (allocs t)).
  - eexists. split; [reflexivity|]. done.
  - eexists. split; [reflexivity|]. rewrite app_nil_r. by destruct t.
Qed.

Lemma run_resend data t :
  last_data t = Some data →
  ∃ t', resend_data t = Ok (tt, t') ∧ tried (addr t, port t, data) t t'.
Proof.
  intros E. unfold resend_data, tried. rewrite run_get, E, run_alloc. destruct (pbuf_ok (allocs t)).
  - eexists. split; [reflexivity|]. done.
  - eexists. split; [reflexivity|]. rewrite app_nil_r. by destruct t.
Qed.

(** The state after a connection has been closed. *)
Definition closed (t : tftp_state) : tftp_state :=
  MkTftp _ None None 0 0 (timer t) (last_pkt t) (blknum t) (retries t) (mode_write t)
    (pred (timers t)) (allocs t)
    match handle t with Some h => ctx_close h (cs t) | None => cs t end (sent t).

Lemma run_close t : close_handle t = Ok (tt, closed t).
Proof.
  unfold close_handle, sys_untimeout, closed. rewrite !run_upd, run_get. destruct t as [[h|]]; done.
Qed.
End run.

(** ** One connection at a time *)

Section isolation.
Context `{TftpContext, Pbuf}.

(** While a transfer is in progress a datagram from any other address or
    port changes neither the transfer nor any file; its sender is told, if there is
    memory for the answer. *)
Theorem foreign_peer p a pt t :
  foreign a pt t = true →
  ∃ t', recv p a pt t = Ok (tt, t') ∧
    tried (a, pt, error_msg TFTP_ERROR_ACCESS_VIOLATION
      (zs "Only one connection at a time is supported")) t t'.
Proof. intros Hf. unfold recv. rewrite run_get, Hf. apply run_send_error. Qed.

(** *** The invariant *)

Record tftp_inv (t : tftp_state) : Prop := {
  inv_idle : handle t = None → port t = 0 ∧ addr t = 0 ∧ last_data t = None;
  inv_timer : handle t ≠ None → (1 ≤ timers t)%nat;
  inv_blknum : is_u16 (blknum t);
  inv_retries : 0 ≤ retries t ≤ TFTP_MAX_RETRIES;
  inv_mode : mode_write t = 0 ∨ mode_write t = 1;
}.

(** *** Rules: [winv m] when [m] keeps the invariant whatever it returns. *)

Definition winv {A} (m : W A) : Prop := ∀ t a t', tftp_inv t → m t = Ok (a, t') → tftp_inv t'.

Lemma winv_ret {A} (a : A) : winv (mret a).
Proof. by intros t a' t' Ht [= <- <-]. Qed.
Lemma winv_lift {A} (r : res A) : winv (wlift r).
Proof. intros t a t' Ht. unfold wlift. by destruct r; intros [= <- <-]. Qed.
Lemma winv_get {A} (f : tftp_state → A) : winv (get_s f).
Proof. by intros t a t' Ht [= <- <-]. Qed.
Lemma winv_bind {A B} (m : W A) (f : A → W B) : winv m → (∀ a, winv (f a)) → winv (m ≫= f).
Proof.
  intros Hm Hf t b t' Ht. unfold mbind, W_bind. destruct (m t) as [[a t1]|] eqn:E; [|done].
  apply Hf. by eapply Hm.
Qed.
Lemma winv_tried m t t' : tried m t t' → tftp_inv t → tftp_inv t'.
Proof. intros -> []. by constructor. Qed.
Lemma winv_error a p code str : winv (send_error a p code str).
Proof.
  intros t x t' Ht E. destruct (run_send_error a p code str t) as (t1 & E1 & Htr).
  rewrite E1 in E. injection E as <- <-. by eapply winv_tried.
Qed.
Lemma winv_ack bn : winv (send_ack bn).
Proof.
  intros t x t' Ht E. destruct (run_send_ack bn t) as (t1 & E1 & Htr).
  rewrite E1 in E. injection E as <- <-. by eapply winv_tried.
Qed.
Lemma winv_resend : winv resend_data.
Proof.
  intros t x t' Ht E. destruct (last_data t) as [d|] eqn:El.
  - destruct (run_resend d t El) as (t1 & E1 & Htr). rewrite E1 in E. injection E as <- <-.
    by eapply winv_tried.
  - unfold resend_data in E. by rewrite run_get, El in E.
Qed.
Lemma closed_inv t : tftp_inv t → tftp_inv (closed t).
Proof. intros []. by constructor. Qed.
Lemma winv_close : winv close_handle.
Proof. intros t x t' Ht. rewrite run_close. intros [= <- <-]. by apply closed_inv. Qed.
Lemma winv_upd f : (∀ t, tftp_inv t → tftp_inv (f t)) → winv (upd f).
Proof. intros Hf t x t' Ht [= <- <-]. auto. Qed.

(** *** The functions that send a block *)

Definition data_msg (bn : Z) (data : list Z) : list Z :=
  le_bytes 2 (htons TFTP_DATA) ++ le_bytes 2 (htons bn) ++ data.

(** A block was read: it is remembered, and sent if there is memory. *)
Definition block_state (t : tftp_state) (data : list Z) (c : CS) : tftp_state :=
  set_cs c (set_last (Some (data_msg (blknum t) data)) (set_allocs (S (allocs t)) t)).

Lemma run_send_data t h ret data c :
  handle t = Some h → pbuf_ok (allocs t) = true → ctx_read h 512 (cs t) = ((ret, data), c) → 0 ≤ ret →
  ∃ t', send_data t = Ok (tt, t') ∧
    tried (addr t, port t, data_msg (blknum t) (take 512 data)) (block_state t (take 512 data) c) t'.
Proof.
  intros Hh Hok Hr Hret. unfold send_data. rewrite run_alloc, Hok. cbn [negb].
  rewrite run_get, run_upd.
  set (t1 := set_last _ _).
  rewrite (run_wbind the_handle _ t1 h t1) by (unfold the_handle; rewrite run_get; unfold t1; cbn [handle set_last set_conn set_allocs set_env]; by rewrite Hh).
  rewrite run_get. unfold t1 at 1. cbn [cs set_last set_conn set_allocs set_env]. rewrite Hr, run_upd.
  rewrite (proj2 (Z.ltb_ge _ _)) by done. rewrite run_upd, <- app_assoc.
  destruct (run_resend (data_msg (blknum t) (take 512 data)) (block_state t (take 512 data) c) eq_refl)
    as (t' & E & Htr). exists t'. split; [|done]. exact E.
Qed.

Lemma winv_the_handle_data t t' : tftp_inv t → handle t ≠ None → send_data t = Ok (tt, t') → tftp_inv t'.
Proof.
  intros Ht Hh. destruct (handle t) as [h|] eqn:Eh; [clear Hh|done].
  unfold send_data. rewrite run_alloc. destruct (pbuf_ok (allocs t)) eqn:Hok; cbn [negb].
  - rewrite run_get, run_upd. set (t1 := set_last _ _).
    assert (tftp_inv t1) as Ht1 by (destruct Ht; constructor; cbn; try done; by rewrite Eh).
    rewrite (run_wbind the_handle _ t1 h t1) by (unfold the_handle; rewrite run_get; unfold t1; cbn [handle set_last set_conn set_allocs set_env]; by rewrite Eh).
    rewrite run_get. destruct (ctx_read h 512 (cs t1)) as [[ret data] c]. rewrite run_upd.
    assert (tftp_inv (set_cs c t1)) as Ht2 by (destruct Ht1; by constructor).
    destruct (ret <? 0).
    + apply (winv_bind (get_s addr)); [apply winv_get|intros a'|done].
      apply winv_bind; [apply winv_get|intros p']. apply winv_bind; [apply winv_error|intros _]. apply winv_close.
    + rewrite run_upd. apply winv_resend. destruct Ht2. constructor; cbn in *; try done. by rewrite Eh.
  - intros [= <-]. destruct Ht. constructor; cbn; try done. by rewrite Eh.
Qed.

Lemma winv_request write bytes a p : winv (recv_request write bytes a p).
Proof.
  intros t x t' Ht. unfold recv_request. rewrite run_get.
  destruct (handle t) as [h|] eqn:Eh; [by apply winv_error|]. unfold sys_timeout. rewrite run_upd.
  assert (tftp_inv (set_timers (S (timers t)) t)) as Ht1.
  { destruct Ht. constructor; cbn; try done; intros; lia. }
  cbv zeta. destruct (_ <? _); [by apply winv_error|]. destruct (_ <? _); [by apply winv_error|].
  rewrite run_get. destruct (ctx_open _ _ _ _) as [h c]. rewrite !run_upd.
  set (t2 := set_blknum 1 _).
  destruct h as [h|].
  - rewrite run_upd.
    assert (∀ m, m = 0 ∨ m = 1 → tftp_inv (set_mode m (set_peer a p t2))) as Ht2.
    { intros m Hm. destruct Ht1. constructor; cbn; try done; intros; lia. }
    destruct write; rewrite run_upd.
    + apply winv_ack, Ht2. by right.
    + destruct x. apply winv_the_handle_data; [apply Ht2; by left|done].
  - apply winv_error. destruct Ht1 as [Hi1 ? ? ? ?]. constructor; cbn in *; try done; try lia.
    rewrite Eh in Hi1. auto.
Qed.

Lemma winv_data p a pt : winv (recv_data p a pt).
Proof.
  intros t x t' Ht. unfold recv_data. rewrite run_get.
  destruct (handle t) as [h|] eqn:Eh; [|by apply winv_error]. revert Ht.
  apply winv_bind; [apply winv_get|intros mw]. destruct (negb _); [apply winv_error|].
  apply winv_bind; [apply winv_lift|intros w1]. apply winv_bind; [apply winv_get|intros cur].
  destruct (_ =? cur).
  - apply winv_bind; [apply winv_get|intros c]. destruct (ctx_write _ _ _) as [ret c'].
    apply winv_bind; [apply winv_upd; intros ? []; by constructor|intros _].
    apply winv_bind.
    + destruct (ret <? 0); [|apply winv_ack].
      apply winv_bind; [apply winv_error|intros _; apply winv_close].
    + intros _. destruct (_ <? _); [apply winv_close|].
      apply winv_upd. intros ? []. constructor; cbn; try done. apply u16_range.
  - destruct (_ =? cur); [apply winv_ack|apply winv_error].
Qed.

Lemma winv_recv_ack p a pt : winv (recv_ack p a pt).
Proof.
  intros t x t' Ht. unfold recv_ack. rewrite run_get.
  destruct (handle t) as [h|] eqn:Eh; [|by apply winv_error].
  rewrite run_get. destruct (negb _); [by apply winv_error|].
  unfold wlift. destruct (sbuf p 1) as [w1|]; [|done].
  unfold mbind at 1, W_bind at 1. rewrite run_get. destruct (negb _); [by apply winv_error|].
  rewrite run_get. destruct (match last_data t with Some _ => _ | None => _ end); [by apply winv_close|].
  rewrite run_upd. destruct x. apply winv_the_handle_data; [|cbn; by rewrite Eh].
  destruct Ht. constructor; cbn; try done. apply u16_range.
Qed.

Lemma winv_recv p a pt : winv (recv p a pt).
Proof.
  unfold recv. apply winv_bind; [apply winv_get|intros f]. destruct f; [apply winv_error|].
  apply winv_bind; [apply winv_lift|intros op].
  apply winv_bind; [apply winv_upd; intros ? []; by constructor|intros _].
  apply winv_bind; [apply winv_upd; intros ? []; by constructor|intros _].
  apply (switch_Forall winv); [|apply winv_error].
  forall_list; [apply winv_request|apply winv_request|apply winv_data|apply winv_recv_ack].
Qed.
End isolation.

(** ** The timer, reachable states, and abandoned transfers *)

Section timer.
Context `{TftpContext, Pbuf}.

Definition ticked (t : tftp_state) : tftp_state :=
  set_timer (timer t + 1) (set_timers (pred (timers t)) t).

Definition idle_after (t : tftp_state) : Z := timer t + 1 - last_pkt t.

(** A retry is due. *)
Definition retry (t : tftp_state) : bool :=
  match last_data t with Some _ => retries t <? TFTP_MAX_RETRIES | None => false end.

Lemma run_tmr t :
  timer t ≠ 2 ^ 31 - 1 →
  match handle t with
  | None => tftp_tmr t = Ok (tt, ticked t)
  | Some _ =>
      let t1 := set_timers (S (pred (timers t))) (ticked t) in
      if 10 <? idle_after t then
        if retry t then ∃ t2, tftp_tmr t = Ok (tt, set_retries (retries t + 1) t2) ∧
                          ∃ m, tried m t1 t2
        else tftp_tmr t = Ok (tt, closed t1)
      else tftp_tmr t = Ok (tt, t1)
  end.
Proof.
  intros Ht. unfold tftp_tmr. rewrite run_upd, run_get.
  change (timer (set_timers (pred (timers t)) t)) with (timer t).
  rewrite (proj2 (Z.eqb_neq _ _)) by done. rewrite run_upd, run_get. fold (ticked t).
  change (handle (ticked t)) with (handle t). destruct (handle t) as [h|]; [|done].
  cbv zeta. unfold sys_timeout. rewrite run_upd, run_get.
  change (set_timers (S (timers (ticked t))) (ticked t)) with
    (set_timers (S (pred (timers t))) (ticked t)).
  set (t1 := set_timers _ (ticked t)). change (timer t1 - last_pkt t1) with (idle_after t).
  change (TFTP_TIMEOUT_MSECS / TFTP_TIMER_MSECS) with 10. destruct (10 <? idle_after t); [|done].
  rewrite !run_get. change (last_data t1) with (last_data t). change (retries t1) with (retries t).
  unfold retry. destruct (last_data t) as [d|] eqn:Ed; [|by rewrite run_close].
  destruct (retries t <? TFTP_MAX_RETRIES); [|by rewrite run_close].
  destruct (run_resend d t1 Ed) as (t2 & E2 & Htr). exists t2. rewrite (run_wbind _ _ _ _ _ E2).
  split; [|by eexists]. unfold tried in Htr. by rewrite Htr.
Qed.

Lemma tmr_inv t t' : tftp_inv t → timer t ≠ 2 ^ 31 - 1 → tftp_tmr t = Ok (tt, t') → tftp_inv t'.
Proof.
  intros Ht Hti E. pose proof (run_tmr t Hti) as L.
  destruct (handle t) as [h|] eqn:Eh.
  - assert (tftp_inv (set_timers (S (pred (timers t))) (ticked t))) as Ht1.
    { destruct Ht. constructor; cbn; try done; intros; lia. }
    cbv zeta in L. destruct (10 <? idle_after t); [|rewrite L in E; by injection E as <-].
    unfold retry in L. destruct (last_data t) as [d|] eqn:Ed;
      [|rewrite L in E; injection E as <-; by apply closed_inv].
    destruct (Z.ltb_spec (retries t) TFTP_MAX_RETRIES);
      [|rewrite L in E; injection E as <-; by apply closed_inv].
    destruct L as (t2 & L & m & Htr). rewrite L in E. injection E as <-.
    pose proof (winv_tried _ _ _ Htr Ht1) as Ht2. pose proof (inv_retries _ Ht).
    destruct Ht2. constructor; cbn; try done. lia.
  - rewrite L in E. injection E as <-. destruct Ht. constructor; cbn; done.
Qed.

(** The events of the server: a datagram, or a pending timer that fires. *)
Inductive tftp_step : tftp_state → tftp_state → Prop :=
| step_recv p a pt t t' : recv p a pt t = Ok (tt, t') → tftp_step t t'
| step_timer t t' :
    (1 ≤ timers t)%nat → timer t ≠ 2 ^ 31 - 1 → tftp_tmr t = Ok (tt, t') → tftp_step t t'.

(** The static state after [tftp_init]. *)
Definition initial (c : CS) : tftp_state := MkTftp _ None None 0 0 0 0 0 0 0 0 0 c [].

Lemma init_initial c : tftp_init (initial c) = Ok (tt, initial c).
Proof. done. Qed.

(** C21: in every reachable state an idle server has no peer and no
    remembered block, an open connection has a pending timer, the block number is
    16 bits wide, the retries are bounded and the mode is read or write. *)
Theorem tftp_invariant c t : star tftp_step (initial c) t → tftp_inv t.
Proof.
  intros Hr. eapply star_inv; [|exact Hr|].
  - intros t1 t2 Ht Hs. destruct Hs as [p a pt t1 t2 E|t1 t2 _ Hti E].
    + exact (winv_recv p a pt _ _ _ Ht E).
    + exact (tmr_inv _ _ Ht Hti E).
  - constructor; cbn; try done; by left.
Qed.

(** *** No more packets *)

Fixpoint ticks (n : nat) (t : tftp_state) : res tftp_state :=
  match n with
  | O => Ok t
  | S n => match tftp_tmr t with Ok (_, t') => ticks n t' | Ub u => Ub u end
  end.

(** Ticks until an idle connection is closed. *)
Definition ticks_left (t : tftp_state) : Z :=
  Z.max 0 (10 - (timer t - last_pkt t)) +
  match last_data t with Some _ => TFTP_MAX_RETRIES - retries t | None => 0 end + 1.

Lemma ticks_close n : ∀ t,
  handle t ≠ None → 0 ≤ retries t ≤ TFTP_MAX_RETRIES → ticks_left t = Z.of_nat n →
  timer t + Z.of_nat n < 2 ^ 31 →
  ∃ t', ticks n t = Ok t' ∧ handle t' = None.
Proof.
  induction n as [|n IH]; intros t Hh Hr Hleft Hti.
  { unfold ticks_left in Hleft. destruct (last_data t); lia. }
  cbn [ticks]. pose proof (run_tmr t ltac:(lia)) as L.
  destruct (handle t) as [h|] eqn:Eh; [|done]. cbv zeta in L.
  unfold idle_after, retry in L. unfold ticks_left in Hleft.
  destruct (Z.ltb_spec 10 (timer t + 1 - last_pkt t)).
  - destruct (last_data t) as [d|] eqn:Ed.
    + destruct (Z.ltb_spec (retries t) TFTP_MAX_RETRIES).
      * destruct L as (t2 & -> & m & ->).
        apply IH; cbn; rewrite ?Eh; try done; try lia.
        unfold ticks_left; cbn. rewrite Ed. lia.
      * rewrite L. replace n with 0%nat by lia. eexists. split; [reflexivity|done].
    + rewrite L. replace n with 0%nat by lia. eexists. split; [reflexivity|done].
  - rewrite L. apply IH; cbn; rewrite ?Eh; try done; try lia.
    unfold ticks_left; cbn. destruct (last_data t); lia.
Qed.


(** The first two bytes of a datagram are read without a look at its
    length: a shorter one is read past its end. *)
Theorem short_datagram b a pt t :
  foreign a pt t = false → recv [[b]] a pt t = Ub (ub_index 0 0).
Proof. intros Hf. unfold recv. by rewrite run_get, Hf. Qed.
End timer.

(** ** Transfers

    The contracts of a context: reading delivers the rest of a file block by block,
    writing appends to what has been written. *)

Class TftpReads `{TftpContext} (reading : HANDLE → CS → list Z → Prop) :=
  reads_law : ∀ h n c rest, reading h c rest →
    ∃ c', ctx_read h n c = ((Z.of_nat (length (take n rest)), take n rest), c') ∧
      reading h c' (drop n rest).

Class TftpWrites `{TftpContext} (writing : HANDLE → CS → list Z → Prop) :=
  writes_law : ∀ h p c w, writing h c w →
    ∃ c', ctx_write h p c = (0, c') ∧ writing h c' (w ++ mjoin p).

(** lwIP finds the first zero byte behind a prefix, and removes a header that is in the
    first segment. *)
Class PbufLaws `{Pbuf} := {
  law_memfind : ∀ pre w r, 0 ∉ w → Z.of_nat (length pre + length w) < 0xFFFF →
    pbuf_memfind (pre ++ w ++ 0 :: r) (Z.of_nat (length pre)) = Z.of_nat (length pre + length w);
  law_remove_header : ∀ seg p, (4 ≤ length seg)%nat → pbuf_remove_header (seg :: p) = drop 4 seg :: p;
}.

Section transfer.
Context `{TftpContext, Pbuf, !PbufLaws} (Hpool : ∀ n, pbuf_ok n = true).

Definition request (write : bool) (name mode : list Z) : list Z :=
  le_bytes 2 (htons (if write then TFTP_WRQ else TFTP_RRQ)) ++ name ++ 0 :: mode ++ [0].

(** Datagrams from one peer, each in one segment. *)
Fixpoint recv_all (l : list (list Z)) (a p : Z) : W unit :=
  match l with
  | [] => mret tt
  | d :: l => recv [d] a p;; recv_all l a p
  end.

Record good_names (name mode : list Z) : Prop := {
  gn_name : (0 ∉ name) ∧ Z.of_nat (length name) ≤ TFTP_MAX_FILENAME_LEN;
  gn_mode : (0 ∉ mode) ∧ Z.of_nat (length mode) ≤ TFTP_MAX_MODE_LEN;
}.

(** The state in which a new connection sends its first datagram. *)
Definition opened (t : tftp_state) (h : HANDLE) (c : CS) (a p mode : Z) : tftp_state :=
  MkTftp _ (Some h) (last_data t) a p (timer t) (last_pkt t) 1 (retries t) mode
    (S (timers t)) (allocs t) c (sent t).

Lemma run_request write name mode a p t h c :
  good_names name mode → handle t = None → ctx_open name mode write (cs t) = (Some h, c) →
  recv_request write (request write name mode) a p t =
  (if write then send_ack 0 else send_data) (opened t h c a p (if write then 1 else 0)).
Proof.
  intros [[Hn Hnl] [Hm Hml]] Hh Ho. unfold recv_request, TFTP_MAX_FILENAME_LEN, TFTP_MAX_MODE_LEN in *.
  rewrite run_get, Hh. unfold sys_timeout. rewrite run_upd.
  set (bytes := request write name mode).
  assert (Hd : drop 2 bytes = name ++ 0 :: mode ++ [0]) by done.
  assert (Hf : pbuf_memfind bytes 2 = 2 + Z.of_nat (length name)).
  { rewrite <- (take_drop 2 bytes), Hd. change 2 with (Z.of_nat (length (take 2 bytes))) at 2.
    rewrite (law_memfind (take 2 bytes) name (mode ++ [0])) by (done || (change (length (take 2 bytes)) with 2%nat; lia)).
    change (length (take 2 bytes)) with 2%nat. lia. }
  rewrite Hf. set (fend := 2 + Z.of_nat (length name)).
  assert (Hd2 : drop (Z.to_nat (fend + 1)) bytes = mode ++ [0]).
  { replace (Z.to_nat (fend + 1)) with (2 + (length name + 1))%nat by (unfold fend; lia).
    rewrite <- drop_drop, Hd, <- drop_drop, drop_app_length. done. }
  assert (Hf2 : pbuf_memfind bytes (fend + 1) = fend + 1 + Z.of_nat (length mode)).
  { pose proof (f_equal length Hd) as Hlen. rewrite length_drop, length_app in Hlen. cbn [length] in Hlen.
    set (pre := take (Z.to_nat (fend + 1)) bytes).
    assert (Hpre : Z.of_nat (length pre) = fend + 1) by (unfold pre; rewrite length_take; unfold fend; lia).
    rewrite <- (take_drop (Z.to_nat (fend + 1)) bytes), Hd2. fold pre. rewrite <- Hpre.
    rewrite (law_memfind pre mode []); [lia|done|unfold fend in Hpre; lia]. }
  rewrite Hf2, Hd, Hd2. cbv zeta.
  rewrite (u16_id (fend - 1)), (u16_id (fend + 1 + Z.of_nat (length mode) - fend))
    by (unfold is_u16, fend; lia).
  rewrite (proj2 (Z.ltb_ge _ (fend - 1))) by (unfold fend; lia).
  rewrite (proj2 (Z.ltb_ge _ _)) by lia.
  replace (Z.to_nat (fend - 2)) with (length name) by (unfold fend; lia).
  replace (Z.to_nat (fend + 1 + Z.of_nat (length mode) - fend - 1)) with (length mode) by lia.
  rewrite !take_app_length, run_get. cbn [cs set_timers set_env]. rewrite Ho. rewrite !run_upd.
  by destruct write.
Qed.

(** The server notes the packet and looks at the operation code. *)
Definition noted (t : tftp_state) : tftp_state := set_retries 0 (set_last_pkt (timer t) t).

Lemma run_recv op d a pt t :
  foreign a pt t = false →
  recv [le_bytes 2 (htons op) ++ d] a pt t =
  (switch (htons op)
     [(htons TFTP_RRQ, recv_request false (le_bytes 2 (htons op) ++ d) a pt);
      (htons TFTP_WRQ, recv_request true (le_bytes 2 (htons op) ++ d) a pt);
      (htons TFTP_DATA, recv_data [le_bytes 2 (htons op) ++ d] a pt);
      (htons TFTP_ACK, recv_ack [le_bytes 2 (htons op) ++ d] a pt)]
     (send_error a pt TFTP_ERROR_ILLEGAL_OPERATION (zs "Unknown operation"))) (noted t).
Proof.
  intros Hf. unfold recv. rewrite run_get, Hf.
  assert (sbuf [le_bytes 2 (htons op) ++ d] 0 = Ok (htons op)) as ->.
  { unfold sbuf. rewrite (proj2 (Nat.leb_le _ _)) by (rewrite length_app, length_le_bytes; lia).
    f_equal. change (take 2 (drop (2 * 0) (le_bytes 2 (htons op) ++ d))) with (le_bytes 2 (htons op)).
    apply le_word_bytes_2, htons_range. }
  rewrite run_wlift, run_upd, run_upd. cbn [mjoin list_join]. by rewrite app_nil_r.
Qed.

Lemma foreign_none t : port t = 0 → addr t = 0 → ∀ a p, foreign a p t = false.
Proof. intros Hp Ha a p. unfold foreign. by rewrite Hp, Ha. Qed.
Lemma foreign_same a p t : port t = p → addr t = a → foreign a p t = false.
Proof. intros <- <-. unfold foreign. by rewrite !Z.eqb_refl, !andb_false_r. Qed.

Lemma run_recv_request write name mode a p t h c :
  good_names name mode → tftp_inv t → handle t = None → ctx_open name mode write (cs t) = (Some h, c) →
  recv [request write name mode] a p t =
  (if write then send_ack 0 else send_data) (opened (noted t) h c a p (if write then 1 else 0)).
Proof.
  intros Hg Ht Hh Ho. destruct (inv_idle _ Ht Hh) as (Hp & Ha & _).
  unfold request. rewrite run_recv by by apply foreign_none.
  rewrite <- (run_request write name mode a p (noted t) h c) by done. unfold request.
  by destruct write.
Qed.

Lemma sbuf_blknum op bn d : sbuf [le_bytes 2 op ++ le_bytes 2 (htons bn) ++ d] 1 = Ok (htons bn).
Proof.
  unfold sbuf. rewrite (proj2 (Nat.leb_le _ _)) by (rewrite !length_app, !length_le_bytes; lia).
  f_equal. change (take 2 (drop (2 * 1) (le_bytes 2 op ++ le_bytes 2 (htons bn) ++ d)))
    with (le_bytes 2 (htons bn)). apply le_word_bytes_2, htons_range.
Qed.

Lemma htons_u16 x : htons (u16 x) = htons x.
Proof. unfold htons. f_equal. f_equal. apply (le_bytes_mod 2). Qed.

(** *** Reading *)

Section read.
Context (reading : HANDLE → CS → list Z → Prop) `{!TftpReads reading}.

(** Block [k] with the contents [last] has been sent; [rest] is still to come. *)
Record sending (t : tftp_state) (h : HANDLE) (a p k : Z) (last rest : list Z) : Prop := {
  sd_handle : handle t = Some h;
  sd_peer : addr t = a ∧ port t = p;
  sd_blknum : blknum t = u16 k;
  sd_mode : mode_write t = 0;
  sd_last : last_data t = Some (data_msg k last);
  sd_rest : reading h (cs t) rest;
}.

Lemma send_block t h a p k rest :
  handle t = Some h → addr t = a → port t = p → blknum t = u16 k → mode_write t = 0 →
  reading h (cs t) rest →
  ∃ t', send_data t = Ok (tt, t') ∧ sending t' h a p k (take 512 rest) (drop 512 rest) ∧
    sent t' = sent t ++ [(a, p, data_msg k (take 512 rest))].
Proof.
  intros Hh Ha Hp Hk Hm Hr. destruct (reads_law h 512 (cs t) rest Hr) as (c' & E & Hr').
  destruct (run_send_data t h _ _ _ Hh (Hpool _) E) as (t' & E' & Htr); [lia|].
  rewrite take_idemp in *. unfold tried in Htr. rewrite Hpool in Htr.
  assert (data_msg (blknum t) (take 512 rest) = data_msg k (take 512 rest)) as Ed
    by (unfold data_msg; by rewrite Hk, htons_u16).
  exists t'. split; [done|]. subst t'. split.
  - constructor; try done.
    change (Some (data_msg (blknum t) (take 512 rest)) = Some (data_msg k (take 512 rest))).
    by rewrite Ed.
  - change (sent t ++ [(addr t, port t, data_msg (blknum t) (take 512 rest))]
      = sent t ++ [(a, p, data_msg k (take 512 rest))]). by rewrite Ed, Ha, Hp.
Qed.

Lemma run_ack_packet t h a p k last rest :
  sending t h a p k last rest → (length last ≤ 512)%nat →
  recv [ack_msg k] a p t =
  (if (length last =? 512)%nat then upd (λ t, set_blknum (u16 (blknum t + 1)) t);; send_data
   else close_handle) (noted t).
Proof.
  intros [Hh [Ha Hp] Hk Hm Hl Hr] Hlast. unfold ack_msg.
  rewrite <- (app_nil_r (le_bytes 2 (htons k))).
  rewrite run_recv by by apply foreign_same.
  rewrite (switch_in (htons TFTP_ACK) (recv_ack [le_bytes 2 (htons TFTP_ACK) ++ le_bytes 2 (htons k) ++ []] a p));
    [|apply (bool_decide_unpack _); by vm_compute|list_elem].
  unfold recv_ack. rewrite run_get. change (handle (noted t)) with (handle t). rewrite Hh, run_get.
  change (mode_write (noted t)) with (mode_write t). rewrite Hm. cbn [Z.eqb negb].
  rewrite sbuf_blknum, run_wlift, run_get. change (blknum (noted t)) with (blknum t).
  rewrite htons_htons, Hk, Z.eqb_refl. cbn [negb]. rewrite run_get.
  change (last_data (noted t)) with (last_data t). rewrite Hl. cbv zeta.
  assert (negb (Z.of_nat (length (data_msg k last)) =? TFTP_MAX_PAYLOAD_SIZE + TFTP_HEADER_LENGTH)
    = negb (length last =? 512)%nat) as ->; [|by destruct (length last =? 512)%nat].
  f_equal. unfold data_msg. rewrite !length_app, !length_le_bytes.
  change (TFTP_MAX_PAYLOAD_SIZE + TFTP_HEADER_LENGTH) with 516.
  destruct (Nat.eqb_spec (length last) 512); case_Zb; lia.
Qed.

(** The blocks of a file: full ones, and a last one that is shorter. *)
Fixpoint file_blocks (fuel : nat) (c : list Z) : list (list Z) :=
  match fuel with
  | O => []
  | S fuel => take 512 c :: if (length c <? 512)%nat then [] else file_blocks fuel (drop 512 c)
  end.

Lemma file_blocks_join fuel c : (length c < fuel)%nat → mjoin (file_blocks fuel c) = c.
Proof.
  revert c. induction fuel as [|fuel IH]; intros c Hf; [lia|]. cbn [file_blocks mjoin list_join].
  destruct (Nat.ltb_spec (length c) 512).
  - cbn. rewrite app_nil_r. apply take_ge. lia.
  - change (take 512 c ++ mjoin (file_blocks fuel (drop 512 c)) = c).
    rewrite IH by (rewrite length_drop; lia). apply take_drop.
Qed.

Lemma file_blocks_nonempty fuel c : (length c < fuel)%nat → file_blocks fuel c ≠ [].
Proof. destruct fuel; cbn; [lia|done]. Qed.

(** The numbered messages of some blocks. *)
Fixpoint messages (k : Z) (bs : list (list Z)) : list (list Z) :=
  match bs with [] => [] | b :: bs => data_msg k b :: messages (k + 1) bs end.
Fixpoint acks (k : Z) (n : nat) : list (list Z) :=
  match n with O => [] | S n => ack_msg k :: acks (k + 1) n end.

(** Acknowledging a block and all the blocks that follow it. *)
Lemma run_acks fuel : ∀ t h a p k c,
  sending t h a p k (take 512 c) (drop 512 c) → (length c < fuel)%nat →
  ∃ t', recv_all (acks k (length (file_blocks fuel c))) a p t = Ok (tt, t') ∧ handle t' = None ∧
    sent t' = sent t ++ ((λ m, (a, p, m)) <$> messages (k + 1) (tail (file_blocks fuel c))).
Proof.
  induction fuel as [|fuel IH]; intros t h a p k c Hs Hf; [lia|].
  cbn [file_blocks length acks recv_all tail].
  assert (Hrun := run_ack_packet _ _ _ _ _ _ _ Hs ltac:(rewrite length_take; lia)).
  rewrite length_take in Hrun. destruct (Nat.ltb_spec (length c) 512) as [Hlt|Hge].
  - rewrite (proj2 (Nat.eqb_neq _ 512)) in Hrun by lia. rewrite run_close in Hrun.
    cbn [acks recv_all length]. rewrite (run_wbind _ _ _ _ _ Hrun).
    exists (closed (noted t)). split; [done|]. split; [done|]. cbn. by rewrite app_nil_r.
  - rewrite (proj2 (Nat.eqb_eq _ 512)) in Hrun by lia. rewrite run_upd in Hrun.
    destruct Hs as [Hh [Ha Hp] Hk Hm Hl Hr].
    destruct (send_block (set_blknum (u16 (blknum (noted t) + 1)) (noted t)) h a p (k + 1) (drop 512 c))
      as (t1 & E1 & Hs1 & Hsent1); try done.
    { change (u16 (blknum t + 1) = u16 (k + 1)). rewrite Hk. unfold u16. by rewrite Zplus_mod_idemp_l. }
    rewrite E1 in Hrun. rewrite (run_wbind _ _ _ _ _ Hrun).
    destruct (IH t1 h a p (k + 1) (drop 512 c) Hs1) as (t' & E' & Hc & Hsent');
      [rewrite length_drop; lia|].
    exists t'. split; [done|]. split; [done|]. rewrite Hsent', Hsent1, <- app_assoc. f_equal.
    destruct fuel as [|fuel]; [lia|]. done.
Qed.

(** C19: a read request and the acknowledgements of its blocks make the
    server send the whole file: blocks of 512 bytes, numbered from 1 modulo 65536, and
    a last shorter one, whose acknowledgement closes the file. *)
Theorem read_transfer name mode a p t h c content :
  tftp_inv t → handle t = None → good_names name mode →
  ctx_open name mode false (cs t) = (Some h, c) → reading h c content →
  let bs := file_blocks (S (length content)) content in
  ∃ t', recv_all (request false name mode :: acks 1 (length bs)) a p t = Ok (tt, t') ∧
    handle t' = None ∧
    sent t' = sent t ++ ((λ m, (a, p, m)) <$> messages 1 bs) ∧ mjoin bs = content.
Proof.
  intros Ht Hh Hg Ho Hr bs. cbn [recv_all].
  destruct (send_block (opened (noted t) h c a p 0) h a p 1 content) as (t1 & E1 & Hs1 & Hsent1);
    try done.
  rewrite (run_wbind _ _ t tt t1) by by rewrite (run_recv_request false name mode a p t h c).
  destruct (run_acks (S (length content)) t1 h a p 1 content Hs1 ltac:(lia)) as (t' & E' & Hc & Hsent').
  exists t'. split; [exact E'|]. split; [done|]. split; [|apply file_blocks_join; lia].
  rewrite Hsent', Hsent1, <- app_assoc. done.
Qed.
End read.

(** *** Writing *)

Section write.
Context (writing : HANDLE → CS → list Z → Prop) `{!TftpWrites writing}.

(** The next block expected is [k]; [w] has been written. *)
Record receiving (t : tftp_state) (h : HANDLE) (a p k : Z) (w : list Z) : Prop := {
  rc_handle : handle t = Some h;
  rc_peer : addr t = a ∧ port t = p;
  rc_blknum : blknum t = u16 k;
  rc_mode : mode_write t = 1;
  rc_written : writing h (cs t) w;
}.

(** What a client sends from block [k] on: full blocks, each of which may be followed
    by retransmissions, and a shorter last one; with the contents. *)
Inductive upload : Z → list (list Z) → list Z → Prop :=
| up_last k d : (length d < 512)%nat → upload k [data_msg k d] d
| up_block k d l c :
    length d = 512%nat → upload (k + 1) l c → upload k (data_msg k d :: l) (d ++ c)
| up_again k d l c : upload k l c → upload k (data_msg (k - 1) d :: l) c.

Lemma run_data_packet t h a p k w j d :
  receiving t h a p k w →
  recv [data_msg j d] a p t =
  (if u16 j =? u16 k then
     c ← get_s cs;
     let '(ret, c) := ctx_write h [d] c in
     upd (set_cs c);;
     (if ret <? 0 then
        send_error a p TFTP_ERROR_ACCESS_VIOLATION (zs "error writing file");; close_handle
      else send_ack (u16 j));;
     if Z.of_nat (length d) <? 512 then close_handle
     else upd (λ t, set_blknum (u16 (blknum t + 1)) t)
   else if u16 (u16 j + 1) =? u16 k then send_ack (u16 j)
   else send_error a p TFTP_ERROR_UNKNOWN_TRFR_ID (zs "Wrong block number")) (noted t).
Proof.
  intros [Hh [Ha Hp] Hk Hm Hw]. unfold data_msg.
  rewrite run_recv by by apply foreign_same.
  rewrite (switch_in (htons TFTP_DATA) (recv_data [le_bytes 2 (htons TFTP_DATA) ++ le_bytes 2 (htons j) ++ d] a p));
    [|apply (bool_decide_unpack _); by vm_compute|list_elem].
  unfold recv_data. rewrite run_get. change (handle (noted t)) with (handle t). rewrite Hh, run_get.
  change (mode_write (noted t)) with (mode_write t). rewrite Hm. cbn [Z.eqb Pos.eqb negb].
  rewrite sbuf_blknum, run_wlift, run_get. change (blknum (noted t)) with (blknum t).
  rewrite htons_htons, Hk.
  rewrite law_remove_header by (rewrite !length_app; cbn; lia).
  change (drop 4 _) with d.
  assert (tot_len [d] = Z.of_nat (length d)) as -> by (unfold tot_len; cbn; by rewrite app_nil_r).
  done.
Qed.

Lemma recv_next_block t h a p k w d :
  receiving t h a p k w →
  ∃ t', recv [data_msg k d] a p t = Ok (tt, t') ∧ ∃ c' t2, writing h c' (w ++ d) ∧
    tried (a, p, ack_msg k) (set_cs c' (noted t)) t2 ∧
    t' = if (length d <? 512)%nat then closed t2 else set_blknum (u16 (k + 1)) t2.
Proof.
  intros Hs. rewrite (run_data_packet _ _ _ _ _ _ k d Hs). destruct Hs as [Hh [Ha Hp] Hk Hm Hw].
  rewrite Z.eqb_refl, run_get. change (cs (noted t)) with (cs t).
  destruct (writes_law h [d] (cs t) w Hw) as (c' & E & Hw'). rewrite E. cbn [mjoin list_join] in Hw'.
  rewrite app_nil_r in Hw'. rewrite run_upd. cbn [Z.ltb Z.compare].
  destruct (run_send_ack (u16 k) (set_cs c' (noted t))) as (t2 & E2 & Htr).
  assert (ack_msg (u16 k) = ack_msg k) as Ea by (unfold ack_msg; by rewrite htons_u16).
  rewrite Ea in Htr. change (addr (set_cs c' (noted t))) with (addr t) in Htr.
  change (port (set_cs c' (noted t))) with (port t) in Htr. rewrite Ha, Hp in Htr.
  rewrite (run_wbind _ _ _ _ _ E2).
  assert (blknum t2 = u16 k) as Hb by (rewrite Htr; cbn; done).
  destruct (Nat.ltb_spec (length d) 512), (Z.ltb_spec (Z.of_nat (length d)) 512); try lia.
  - rewrite run_close. eexists. split; [reflexivity|]. by exists c', t2.
  - eexists. split; [reflexivity|]. exists c', t2. split; [done|]. split; [done|].
    rewrite Hb. unfold u16. by rewrite Zplus_mod_idemp_l.
Qed.

Lemma recv_old_block t h a p k w d :
  receiving t h a p k w →
  ∃ t', recv [data_msg (k - 1) d] a p t = Ok (tt, t') ∧ receiving t' h a p k w.
Proof.
  intros Hs. rewrite (run_data_packet _ _ _ _ _ _ (k - 1) d Hs).
  assert ((u16 (k - 1) =? u16 k) = false) as -> by (apply Z.eqb_neq; unfold u16; zmod_lia).
  assert ((u16 (u16 (k - 1) + 1) =? u16 k) = true) as ->
    by (apply Z.eqb_eq; unfold u16; rewrite Zplus_mod_idemp_l; f_equal; lia).
  destruct (run_send_ack (u16 (k - 1)) (noted t)) as (t' & E & ->).
  eexists. split; [exact E|]. destruct Hs. by constructor.
Qed.

Lemma run_upload k l c : upload k l c → ∀ t h a p w,
  receiving t h a p k w →
  ∃ t' c' h', recv_all l a p t = Ok (tt, t') ∧ handle t' = None ∧
    h' = h ∧ writing h c' (w ++ c) ∧ cs t' = ctx_close h c'.
Proof.
  induction 1 as [k d Hd|k d l c Hd Hup IH|k d l c Hup IH]; intros t h a p w Hs; cbn [recv_all].
  - destruct (recv_next_block t h a p k w d Hs) as (t' & E & c' & t2 & Hw & Htr & ->).
    rewrite (proj2 (Nat.ltb_lt _ _)) in E by done. rewrite (run_wbind _ _ _ _ _ E).
    exists (closed t2), c', h. split; [done|]. split; [done|]. split; [done|]. split; [done|].
    destruct Hs. rewrite Htr. cbn. by rewrite rc_handle0.
  - destruct (recv_next_block t h a p k w d Hs) as (t' & E & c' & t2 & Hw & Htr & ->).
    rewrite (proj2 (Nat.ltb_ge _ _)) in E by lia. rewrite (run_wbind _ _ _ _ _ E).
    rewrite app_assoc. apply (IH _ h a p (w ++ d)). destruct Hs as [Hh [Ha Hp] Hk Hm _].
    rewrite Htr. by constructor.
  - destruct (recv_old_block t h a p k w d Hs) as (t' & E & Hs'). rewrite (run_wbind _ _ _ _ _ E).
    by apply (IH t' h a p w).
Qed.

(** C18: after a write request, the blocks that a client sends are appended
    to the file exactly once and in order, however often they are retransmitted, and
    the shorter last block closes the file. *)
Theorem write_transfer name mode a p t h c0 w l c :
  tftp_inv t → handle t = None → good_names name mode →
  ctx_open name mode true (cs t) = (Some h, c0) → writing h c0 w → upload 1 l c →
  ∃ t' c', recv_all (request true name mode :: l) a p t = Ok (tt, t') ∧ handle t' = None ∧
    writing h c' (w ++ c) ∧ cs t' = ctx_close h c'.
Proof.
  intros Ht Hh Hg Ho Hw Hup. cbn [recv_all].
  destruct (run_send_ack 0 (opened (noted t) h c0 a p 1)) as (t1 & E1 & Htr).
  rewrite (run_wbind _ _ t tt t1) by by rewrite (run_recv_request true name mode a p t h c0).
  destruct (run_upload 1 l c Hup t1 h a p w) as (t' & c' & h' & E & Hc & _ & Hw' & Hcs).
  { rewrite Htr. by constructor. }
  by exists t', c'.
Qed.
End write.
End transfer.

(** ** The SD card as a context *)

Section card.
Context `{FatFs, !TftpFile, !FatFsLaws tftp_fil}.

Definition card_reading (h : FIL) (x : FS) (rest : list Z) : Prop :=
  h = tftp_fil ∧ ∃ name c pos, open_file (view x) name c pos ∧ rest = drop pos c.

#[export] Instance card_reads : TftpReads card_reading.
Proof.
  intros h n x rest (-> & name & c & pos & Ho & ->).
  pose proof (law_read n x name c pos Ho) as L. cbn [ctx_read ctxt]. unfold tftp_sdcard_read.
  destruct (f_read tftp_fil n x) as [[r d] x']. destruct L as [[= -> ->] V].
  exists x'. cbn [negb Z.eqb FR_OK]. rewrite take_idemp. split; [done|]. split; [done|].
  exists name, c, (pos + length (take n (drop pos c)))%nat. split; [destruct Ho; by rewrite V|].
  rewrite drop_drop. destruct (decide (n ≤ length (drop pos c))%nat).
  - by rewrite length_take, Nat.min_l by done.
  - rewrite (take_ge (drop pos c)) by lia. rewrite length_drop in *. by rewrite !drop_ge by lia.
Qed.

(** [w] has been written over the beginning of [old]. *)
Definition card_writing (name : string) (old : list Z) (h : FIL) (x : FS) (w : list Z) : Prop :=
  h = tftp_fil ∧ open_file (view x) name (w ++ drop (length w) old) (length w).

Lemma write_segments name old p x w :
  card_writing name old tftp_fil x w →
  ∃ x', tftp_sdcard_write tftp_fil p x = (0, x') ∧ card_writing name old tftp_fil x' (w ++ mjoin p).
Proof.
  revert x w. induction p as [|seg p IH]; intros x w Hw; cbn [tftp_sdcard_write].
  { exists x. by rewrite app_nil_r. }
  destruct (Z.eqb_spec (tot_len (seg :: p)) 0) as [Hz|Hnz].
  { assert (mjoin (seg :: p) = []) as -> by (apply length_zero_iff_nil; unfold tot_len in Hz; lia).
    exists x. by rewrite app_nil_r. }
  destruct (Nat.eqb_spec (length seg) 0) as [Hs|Hs].
  { apply length_zero_iff_nil in Hs as ->. by apply IH. }
  destruct Hw as [_ Ho]. pose proof (law_write seg x name _ _ Ho) as L.
  destruct (f_write tftp_fil seg x) as [[r n] x1]. destruct L as [[= -> ->] V].
  cbn [negb Z.eqb FR_OK]. rewrite Z.eqb_refl. cbn [negb].
  destruct (IH x1 (w ++ seg)) as (x' & E & Hw').
  - split; [done|]. split; [by rewrite V, length_app|]. rewrite V. cbn [files].
    rewrite lookup_insert_eq, take_app_length, length_app, <- app_assoc.
    rewrite drop_app_ge by lia. replace (length w + length seg - length w)%nat with (length seg) by lia.
    by rewrite drop_drop.
  - exists x'. split; [done|]. change (mjoin (seg :: p)) with (seg ++ mjoin p). by rewrite app_assoc.
Qed.

#[export] Instance card_writes name old : TftpWrites (card_writing name old).
Proof. intros h p x w [-> Ho]. by apply write_segments. Qed.

(** An upload to the card replaces only the beginning of an existing
    file: what the old contents had behind the length of the new ones stays. *)
Theorem upload_keeps_tail `{Pbuf, !PbufLaws} name a p t l c old :
  tftp_inv t → handle t = None → good_names name (zs "octet") →
  old = default [] (files (view (cs t)) !! name_of name) → upload 1 l c →
  ∃ t', recv_all (request true name (zs "octet") :: l) a p t = Ok (tt, t') ∧ handle t' = None ∧
    files (view (cs t')) !! name_of name = Some (c ++ drop (length c) old).
Proof.
  intros Ht Hh Hg Hold Hup.
  pose proof (law_open_write (name_of name) (cs t)) as L.
  destruct (f_open tftp_fil (name_of name) (Z.lor FA_OPEN_ALWAYS FA_WRITE) (cs t)) as [r x] eqn:E.
  assert (r = FR_OK ∧ card_writing (name_of name) old tftp_fil x []) as [-> Hw].
  { unfold vol_open in L. unfold card_writing, open_file. cbn [length app]. rewrite drop_0, Hold.
    destruct (files (view (cs t)) !! name_of name) as [c0|] eqn:El; injection L as -> ->; cbn.
    - by rewrite El.
    - by rewrite lookup_insert_eq. }
  destruct (write_transfer (H := ctxt) (card_writing (name_of name) old) name (zs "octet") a p t tftp_fil x [] l c)
    as (t' & c' & E' & Hc & Hw' & Hcs); try done.
  { cbn [ctx_open ctxt]. unfold tftp_sdcard_open. rewrite bool_decide_true by done. cbn [negb].
    by rewrite E. }
  exists t'. split; [done|]. split; [done|]. rewrite Hcs. cbn [ctx_close ctxt].
  unfold tftp_sdcard_close. rewrite law_close. cbn [files]. by destruct Hw' as [_ [_ ->]].
Qed.
End card.
