(* ===== verification/Typed.v ===== *)
(** * Typing of the traffic

    The model computes with integers; the drivers take bytes and words of fixed
    width.  Everything the message handlers and the start-up send to a device is of
    the type its driver takes: no value escapes a width by accident of the model. *)

From S2P Require Import Prelude Words Floats Machine Regs Sadata Qspi Control ControlFrame.
From S2P Require Import ControlTotal ControlSpec SettingsSpec PscMsg Listener I2c Main.

Definition typed_event (e : event) : Prop :=
  match e with
  | Out32 a v => is_u32 a ∧ is_u32 v
  | QspiXfer tx => Forall is_u8 tx
  | I2cSend tx => Forall is_u8 tx
  | I2c0Send a tx => 0 ≤ a < 128 ∧ Forall is_u8 tx
  | I2c0Recv a n => 0 ≤ a < 128 ∧ 0 ≤ n
  | PscSend id body => is_u16 id ∧ Forall is_u8 body
  end.

Section typed.
Context `{Platform, Runtime, FpEnv}.

Definition well_typed (s s' : psc) : Prop :=
  ∃ evs, events s' = events s ++ evs ∧ Forall typed_event evs.

#[local] Instance well_typed_preorder : PreOrder well_typed.
Proof.
  split.
  - intros s. exists []. by rewrite app_nil_r.
  - intros s1 s2 s3 (e1 & E1 & H1') (e2 & E2 & H2'). exists (e1 ++ e2).
    rewrite E2, E1, app_assoc. split; [done|]. by apply Forall_app.
Qed.

(** [typed m Q]: well-typed traffic, and the result has [Q]. *)
Definition typed {A} (m : M A) (Q : A → Prop) : Prop :=
  ∀ s a s', m s = Ok (a, s') → well_typed s s' ∧ Q a.

Lemma typed_silent {A} (m : M A) (Q : A → Prop) :
  (∀ s a s', m s = Ok (a, s') → events s' = events s ∧ Q a) → typed m Q.
Proof.
  intros Hm s a s' E. destruct (Hm _ _ _ E) as [Ev Hq]. split; [|done]. exists [].
  by rewrite app_nil_r.
Qed.
Lemma typed_bind {A B} (m : M A) (f : A → M B) Q Q' :
  typed m Q → (∀ a, Q a → typed (f a) Q') → typed (m ≫= f) Q'.
Proof.
  intros Hm Hf s b s2 E. destruct (run_bind_inv _ _ _ _ _ E) as (a & s1 & E1 & E2).
  destruct (Hm _ _ _ E1) as [H1' Hq]. destruct (Hf a Hq _ _ _ E2) as [H2' Hq'].
  split; [by transitivity s1|done].
Qed.
Lemma typed_weaken {A} (m : M A) (Q Q' : A → Prop) : typed m Q → (∀ a, Q a → Q' a) → typed m Q'.
Proof. intros Hm HQ s a s' E. destruct (Hm _ _ _ E). auto. Qed.

Abbreviation T m := (typed m (λ _, True)).

Lemma typed_ret {A} (a : A) (Q : A → Prop) : Q a → typed (mret a) Q.
Proof. intros Hq. apply typed_silent. by intros s a' s' [= <- <-]. Qed.
Lemma typed_undefined {A} u Q : typed (undefined (A:=A) u) Q.
Proof. by intros s a s'. Qed.
Lemma typed_gets {A} (f : psc → A) : T (gets f).
Proof. apply typed_silent. by intros s a s' [= <- <-]. Qed.
Lemma typed_lift {A} (r : res A) (Q : A → Prop) : (∀ a, r = Ok a → Q a) → typed (lift r) Q.
Proof.
  intros Hr. apply typed_silent. intros s a s'. unfold lift. destruct r; [|done].
  intros [= <- <-]. auto.
Qed.
Lemma typed_In32 a : typed (Xil_In32 a) (λ v, is_u32 v).
Proof.
  apply typed_silent. intros s v s'. unfold Xil_In32. destruct (pl_in32 _ _) as [w p].
  intros [= <- <-]. split; [done|]. apply u32_range.
Qed.
Lemma typed_event_add {A} (e : event) (m : M A) :
  typed_event e → (∀ s a s', m s = Ok (a, s') → events s' = events s ++ [e]) → T m.
Proof. intros He Hm s a s' E. split; [|done]. exists [e]. split; [by eapply Hm|by constructor]. Qed.
Lemma typed_Out32 a v : T (Xil_Out32 a v).
Proof.
  apply (typed_event_add (Out32 (u32 a) (u32 v))); [split; apply u32_range|].
  by intros s x s' [= <- <-].
Qed.
Lemma typed_transfer tx : Forall is_u8 tx → T (PolledTransfer tx).
Proof.
  intros Hb. apply (typed_event_add (QspiXfer tx)); [done|]. intros s a s'.
  unfold PolledTransfer. destruct (flash_xfer _ _). by intros [= <- <-].
Qed.
Lemma typed_i2c1_write tx : Forall is_u8 tx → T (i2c1_write tx).
Proof. intros Hb. apply (typed_event_add (I2cSend tx)); [done|]. by intros s a s' [= <- <-]. Qed.
Lemma typed_i2c1_read n : T (i2c1_read n).
Proof.
  apply typed_silent. intros s a s'. unfold i2c1_read. destruct (eeprom_recv _ _).
  by intros [= <- <-].
Qed.
Lemma typed_i2c0_write buf a : 0 ≤ a < 128 → Forall is_u8 buf → T (i2c0_write buf a).
Proof. intros Ha Hb. apply (typed_event_add (I2c0Send a buf)); [done|]. by intros s x s' [= <- <-]. Qed.
Lemma typed_i2c0_read n a : 0 ≤ a < 128 → 0 ≤ n → T (i2c0_read n a).
Proof. intros Ha Hn. apply (typed_event_add (I2c0Recv a n)); [done|]. by intros s x s' [= <- <-]. Qed.
Lemma typed_get_scalefactor i : T (get_scalefactor i).
Proof.
  apply typed_silent. intros s a s'. unfold get_scalefactor. by destruct (_ ≫= _); intros [= <- <-].
Qed.
Lemma typed_update_scalefactor i f : T (update_scalefactor i f).
Proof.
  apply typed_silent. intros s a s'. unfold update_scalefactor.
  by destruct (sf_index _ _); intros [= <- <-].
Qed.
Lemma typed_conv v2b b2v : T (modify (set_conv v2b b2v)).
Proof. apply typed_silent. by intros s a s' [= <- <-]. Qed.
Lemma typed_if {A} (b : bool) (m1 m2 : M A) Q : typed m1 Q → typed m2 Q → typed (if b then m1 else m2) Q.
Proof. by destruct b. Qed.
Lemma typed_when b m : T m → T (when b m).
Proof. destruct b; [done|]. intros _. by apply typed_ret. Qed.
Lemma typed_for from n body : (∀ i, T (body i)) → T (for_range from n body).
Proof.
  intros Hb. revert from. induction n as [|n IH]; intros from; cbn; [by apply typed_ret|].
  eapply typed_bind; [apply Hb|]. intros _ _. apply IH.
Qed.
End typed.

Create HintDb typed discriminated.
#[export] Hint Resolve typed_Out32 typed_i2c1_read typed_get_scalefactor typed_update_scalefactor
  typed_conv typed_gets typed_undefined : typed.

(** Structural proof of [typed m (λ _, True)]. *)
Ltac typed_walk := cbv zeta; repeat first
  [ solve [auto 1 with typed nocore]
  | eapply typed_weaken; [apply typed_In32|done]
  | apply (typed_bind _ _ (λ _, True)); [|intros ? _]
  | apply typed_ret; done
  | apply typed_lift; done
  | apply typed_when
  | apply typed_for; intros ?
  | apply typed_if
  | case_match ].

Lemma is_u8_const z : (0 <=? z) && (z <? 256) = true → is_u8 z.
Proof. unfold is_u8. rewrite andb_true_iff, Z.leb_le, Z.ltb_lt. done. Qed.

(** Lists of bytes. *)
Ltac bytes :=
  repeat lazymatch goal with
  | |- Forall is_u8 (_ :: _) => apply Forall_cons; split
  | |- Forall is_u8 [] => apply Forall_nil_2
  | |- is_u8 (u8 _) => apply u8_range
  | |- is_u8 _ => apply is_u8_const; reflexivity
  end.

Section programs.
Context `{Platform, Runtime, FpEnv}.

Abbreviation T m := (typed m (λ _, True)).

Lemma address_bytes_u8 a : Forall is_u8 (address_bytes a).
Proof. unfold address_bytes. bytes. Qed.

Lemma typed_wait fuel : T (wait_ready fuel).
Proof.
  induction fuel as [|fuel IH]; cbn [wait_ready]; [auto with typed|].
  eapply typed_bind; [apply typed_transfer; bytes|]. intros r _.
  apply typed_if; [by apply typed_ret|done].
Qed.

Lemma typed_FlashRead a n : T (QspiFlashRead a n).
Proof.
  apply typed_transfer. apply Forall_cons. split; [bytes|]. apply Forall_app.
  split; [apply address_bytes_u8|apply stack_bytes_u8].
Qed.

Lemma typed_Erase chan : T (QspiFlashEraseSect chan).
Proof.
  unfold QspiFlashEraseSect. cbv zeta. eapply typed_bind; [apply typed_transfer; bytes|]. intros _ _.
  eapply typed_bind; [apply typed_transfer; bytes|]. intros _ _. apply typed_wait.
Qed.

Lemma typed_FlashWrite a buf : Forall is_u8 buf → T (QspiFlashWrite a buf).
Proof.
  intros Hb. unfold QspiFlashWrite. eapply typed_bind; [apply typed_transfer; bytes|]. intros _ _.
  eapply typed_bind; [apply typed_transfer|].
  { apply Forall_cons. split; [bytes|]. apply Forall_app.
    split; [apply address_bytes_u8|by apply Forall_drop]. }
  intros _ _. eapply typed_bind; [apply typed_wait|]. intros _ _. by apply typed_ret.
Qed.

Lemma qspi_store_u8 d wb b : Forall is_u8 wb → qspi_store d wb = Ok b → Forall is_u8 b.
Proof.
  intros Hb E. unfold qspi_store in E. destruct (_ <=? _)%nat; [|done].
  assert (b = bytes_of_words (qspi_words d) ++ drop (4 * QSPI_WORDS) wb) as -> by congruence.
  apply Forall_app. split; [apply bytes_of_words_u8|by apply Forall_drop].
Qed.

Lemma typed_Gather chan wb :
  Forall is_u8 wb → typed (QspiGatherData chan wb) (λ b, Forall is_u8 b).
Proof.
  intros Hb. unfold QspiGatherData. cbv zeta.
  do 37 (eapply typed_bind; [apply typed_In32|intros ? _]).
  eapply typed_bind; [apply typed_get_scalefactor|intros ? _].
  apply typed_lift. intros b. by apply qspi_store_u8.
Qed.

Lemma typed_Disperse chan rb : T (QspiDisperseData chan rb).
Proof. unfold QspiDisperseData. typed_walk. Qed.

Lemma typed_save chan : T (save_settings chan).
Proof.
  unfold save_settings. eapply typed_bind; [apply typed_Erase|]. intros _ _.
  eapply typed_bind; [apply typed_Gather, stack_bytes_u8|]. intros buf Hb.
  eapply typed_bind; [by apply typed_FlashWrite|]. intros _ _.
  eapply typed_bind; [apply typed_FlashRead|]. intros rb _. apply typed_Disperse.
Qed.
End programs.

#[export] Hint Resolve typed_FlashRead typed_Disperse typed_save : typed.

Section handlers.
Context `{Platform, Runtime, FpEnv}.

Abbreviation T m := (typed m (λ _, True)).

Lemma typed_ramptable chan msg n : T (write_ramptable chan msg n).
Proof. unfold write_ramptable. typed_walk. Qed.

Lemma typed_glob msg : T (glob_settings msg).
Proof.
  unfold glob_settings. do 2 (apply (typed_bind _ _ (λ _, True)); [by apply typed_lift|intros ? _]).
  apply (switch_Forall (λ m, T m)); [|by apply typed_ret].
  unfold glob_cases. forall_list; cbn [snd]; unfold soft_trig, set_fpleds, dump_adcs; typed_walk.
Qed.

Lemma typed_chan chan msg n : T (chan_settings chan msg n).
Proof.
  unfold chan_settings. do 2 (apply (typed_bind _ _ (λ _, True)); [by apply typed_lift|intros ? _]).
  apply (switch_Forall (λ m, T m)); [|by apply typed_ret]. unfold chan_cases.
  repeat (apply Forall_app; split); unfold chan_cases_dac, chan_cases_adc, chan_cases_fault,
    chan_cases_digital, chan_cases_sf, chan_cases_misc; forall_list; cbn [snd];
    unfold Set_dacOpmode, Set_dac, Calc_WriteSmooth, recall_settings, volts_to_dacbits,
      volts_to_16bits, out, sub_s32, abs_s32, div_u32; typed_walk.
Qed.

Lemma typed_client msgid n msg : T (client_msg msgid n msg).
Proof.
  unfold client_msg. do 2 (apply (typed_bind _ _ (λ _, True)); [apply typed_Out32|intros _ _]).
  apply (switch_Forall (λ m, T m)); [|by apply typed_ret].
  forall_list; cbn [snd]; first [apply typed_glob|apply typed_chan|apply typed_ramptable|by apply typed_ret].
Qed.

Lemma typed_si570 : T read_si570.
Proof.
  unfold read_si570. apply typed_for. intros i.
  apply (typed_bind _ _ (λ _, True)); [apply typed_i2c0_write; [done|bytes]|intros _ _].
  by apply typed_i2c0_read.
Qed.

Lemma typed_flavor : T ReadHardwareFlavor.
Proof.
  unfold ReadHardwareFlavor, i2c_eeprom_readBytes, recv_into, byte_at, glob_out.
  apply (typed_bind _ _ (λ _, True)); [|intros ? _; typed_walk].
  apply (typed_bind _ _ (λ _, True)); [apply typed_i2c1_write; bytes|intros _ _; typed_walk].
Qed.

Lemma si570_table : Forall (λ p, is_u8 p.1 ∧ is_u8 p.2) si570_values.
Proof. unfold si570_values. forall_list; split; apply is_u8_const; reflexivity. Qed.

Lemma typed_prog : T prog_si570.
Proof.
  unfold prog_si570. apply (typed_bind _ _ (λ _, True)); [apply typed_si570|intros _ _].
  apply (typed_bind _ _ (λ _, True)); [|intros _ _; apply typed_si570].
  apply typed_for. intros i. destruct (si570_values !! Z.to_nat i) as [[r v]|] eqn:E;
    [|apply typed_undefined].
  destruct (proj1 (Forall_lookup _ _) si570_table _ _ E) as [Hr Hv].
  apply typed_i2c0_write; [done|]. by repeat (apply Forall_cons; split).
Qed.

Lemma typed_boot : T boot.
Proof.
  unfold boot, main_init, print_firmware_version, InitSettingsfromQspi.
  pose proof typed_prog. pose proof typed_flavor. typed_walk.
Qed.

End handlers.
