(* ===== verification/TxRamptable.v ===== *)
(** * The ramp table sender ([testing/ramptable/tx_ramptable.c])

    A test program on another host sends a table of integers to the firmware.  The
    packet is built in a static buffer of 400,000 bytes that is sent as a whole.
    The program is older than the firmware: what the firmware makes of its packets
    is proved here. *)

From S2P Require Import Prelude Words Floats Machine Regs Control ControlSpec PscMsg Main CStr.

(** [while (fscanf(file, "%d", &value) == 1 && i < 100000)]: [values] are the numbers
    that [fscanf] reads before it fails. *)
Fixpoint value_loop (values : list Z) (i : Z) (msg : list Z) : res (Z * list Z) :=
  match values with
  | [] => Ok (i, msg)
  | value :: values =>
      if i <? 100000 then
        msg ← put_bytes msg (8 + 4 * Z.to_nat i) (le_bytes 4 (htonl (u32 value)));
        value_loop values (i + 1) msg
      else Ok (i, msg)
  end.

(** [size] is the size of the packet, which is cleared first. *)
Definition create_packet (size : nat) (values : list Z) : res (list Z) :=
  let msg := replicate size 0 in
  msg ← put_bytes msg 0 [0x50; 0x53; 0; 1];
  '(i, msg) ← value_loop values 0 msg;
  put_bytes msg 4 (le_bytes 4 (htonl i)).

(** [char packet[400000]] *)
Definition packet (values : list Z) : res (list Z) := create_packet (Z.to_nat 400000) values.

(** The sending loop of [main]: a [send] that takes nothing is repeated. *)
Fixpoint send_packet `{Sockets} (fuel : nat) (sock : Z) (packet : list Z) : N unit :=
  match packet with
  | [] => mret tt
  | _ :: _ =>
      match fuel with
      | O => nub ub_nonterm
      | S fuel =>
          result ← (λ net, Ok (sk_send sock packet 0 net));
          match result with
          | inl _ => mret tt
          | inr n => send_packet fuel sock (drop n packet)
          end
      end
  end.

(** ** The packet *)

(** The table as the program encodes it. *)
Definition table_bytes (values : list Z) : list Z := bytes_of_words ((λ v, htonl (u32 v)) <$> values).

Lemma length_table_bytes values : length (table_bytes values) = (4 * length values)%nat.
Proof. unfold table_bytes. by rewrite length_bytes_of_words, length_fmap. Qed.

Lemma run_value_loop values : ∀ i pre rest,
  length pre = (8 + 4 * Z.to_nat i)%nat → 0 ≤ i → i + Z.of_nat (length values) ≤ 100000 →
  (4 * length values ≤ length rest)%nat →
  value_loop values i (pre ++ rest)
  = Ok (i + Z.of_nat (length values), pre ++ table_bytes values ++ drop (4 * length values) rest).
Proof.
  induction values as [|v values IH]; intros i pre rest Hp Hi Hn Hr; cbn [value_loop length].
  - by rewrite Z.add_0_r, drop_0.
  - rewrite (proj2 (Z.ltb_lt _ _)) by (cbn in Hn; lia). rewrite <- Hp.
    rewrite <- (take_drop 4 rest) at 1.
    rewrite put_bytes_app by (rewrite length_take, length_le_bytes; cbn in Hr; lia). cbn [mbind res_bind].
    rewrite app_assoc, IH.
    + unfold table_bytes. rewrite fmap_cons, bytes_of_words_cons, <- !app_assoc, drop_drop.
      f_equal. f_equal; [lia|]. do 4 f_equal. lia.
    + rewrite length_app, length_le_bytes. lia.
    + lia.
    + cbn in Hn. lia.
    + rewrite length_drop. cbn in Hr. lia.
Qed.

Lemma run_start size :
  (8 ≤ size)%nat →
  put_bytes (replicate size 0) 0 [0x50; 0x53; 0; 1]
  = Ok ([0x50; 0x53; 0; 1] ++ replicate 4 0 ++ replicate (size - 8) 0).
Proof.
  intros Hs.
  replace (replicate size 0) with (replicate 4 0 ++ replicate 4 0 ++ replicate (size - 8) 0)
    by (rewrite <- !replicate_add; f_equal; lia).
  pose proof (put_bytes_app [] (replicate 4 0) [0x50; 0x53; 0; 1] (replicate 4 0 ++ replicate (size - 8) 0)
    eq_refl) as E0.
  by rewrite !app_nil_l in E0.
Qed.

(** A table that fits is preceded by the header of message 1, whose length is the
    number of values, and followed by zeros up to the size of the packet. *)
Lemma run_create_packet size values :
  Z.of_nat (length values) ≤ 100000 → (8 + 4 * length values ≤ size)%nat →
  create_packet size values = Ok (psc_header 1 (Z.of_nat (length values)) ++ table_bytes values ++
    replicate (size - 8 - 4 * length values) 0).
Proof.
  intros Hn Hsize. unfold create_packet.
  rewrite run_start by lia. cbn [mbind res_bind].
  rewrite (app_assoc _ (replicate 4 0)).
  rewrite (run_value_loop values 0 ([0x50; 0x53; 0; 1] ++ replicate 4 0)); [|done|lia|lia|].
  2:{ rewrite length_replicate. lia. }
  cbn [mbind res_bind]. rewrite <- app_assoc.
  rewrite (put_bytes_app [0x50; 0x53; 0; 1] (replicate 4 0)) by (by rewrite length_le_bytes).
  rewrite drop_replicate. unfold psc_header. by rewrite Z.add_0_l.
Qed.

(** There is room for [k] more values, and the loop stores another one. *)
Lemma value_loop_overflow k : ∀ values i msg,
  0 ≤ i → length msg = (8 + 4 * Z.to_nat i + 4 * k)%nat → (k < length values)%nat →
  i + Z.of_nat k < 100000 →
  value_loop values i msg = Ub (ub_index (Z.of_nat (length msg)) (Z.of_nat (length msg))).
Proof.
  induction k as [|k IH]; intros [|v values] i msg Hi Hl Hk Hn; cbn [length] in Hk; try lia;
    cbn [value_loop]; rewrite (proj2 (Z.ltb_lt _ _)) by lia; unfold put_bytes; rewrite length_le_bytes.
  - rewrite (proj2 (Nat.leb_gt _ _)) by lia. cbn [mbind res_bind]. do 2 f_equal. lia.
  - rewrite (proj2 (Nat.leb_le _ _)) by lia. cbn [mbind res_bind].
    set (msg' := take _ msg ++ _).
    assert (length msg' = length msg) as <-.
    { unfold msg'. rewrite !length_app, length_take, length_drop, length_le_bytes. lia. }
    apply IH; [lia| |lia|lia].
    unfold msg'. rewrite !length_app, length_take, length_drop, length_le_bytes. lia.
Qed.

Lemma create_packet_overflow size k values :
  size = (8 + 4 * k)%nat → (k < length values)%nat → (k < Z.to_nat 100000)%nat →
  create_packet size values = Ub (ub_index (Z.of_nat size) (Z.of_nat size)).
Proof.
  intros Hs Hk Hn. unfold create_packet.
  rewrite run_start by lia. cbn [mbind res_bind].
  set (msg := _ ++ _). assert (length msg = size) as Hl.
  { unfold msg. rewrite !length_app, !length_replicate. cbn [length]. lia. }
  rewrite (value_loop_overflow k values 0 msg); [by rewrite Hl|lia|lia|lia|lia].
Qed.

(** The bound of the loop is too large: from 99,999 values on the one of index 99,998
    is stored behind the packet. *)
Theorem packet_overflow values :
  99999 ≤ Z.of_nat (length values) → packet values = Ub (ub_index 400000 400000).
Proof.
  intros Hn. unfold packet. rewrite (create_packet_overflow (Z.to_nat 400000) (Z.to_nat 99998) values).
  - by rewrite Z2Nat.id by lia.
  - lia.
  - lia.
  - lia.
Qed.

(** ** What the firmware receives *)

Section received.
Context `{Platform, Runtime, FpEnv, Sockets, !SocketLaws _, !TcpStream _}.

Lemma run_send_packet p : ∀ fuel sock net,
  (length p ≤ fuel)%nat → up sock net →
  ∃ net', send_packet fuel sock p net = Ok (tt, net') ∧ up sock net' ∧
    tx_sent sock net' = tx_sent sock net ++ p.
Proof.
  intros fuel. revert p. induction fuel as [|fuel IH]; intros p sock net Hf Hup.
  { destruct p; cbn in Hf; [|lia]. cbn. rewrite app_nil_r. eauto. }
  destruct p as [|b p]; [cbn; rewrite app_nil_r; eauto|]. cbn [send_packet].
  destruct (stream_send sock (b :: p) 0 net) as (n & net1 & E & Hn & Ht & _ & Hup1); [done..|].
  rewrite (nrun_bind _ _ net (inr n) net1) by (by rewrite E).
  destruct (IH (drop n (b :: p)) sock net1) as (net' & Er & Hup' & Ht'); [|done|].
  { rewrite length_drop. cbn [length] in *. lia. }
  exists net'. split; [exact Er|]. split; [done|]. by rewrite Ht', Ht, <- app_assoc, take_drop.
Qed.

(** The first words of a table that is cut off after as many bytes as it has values. *)
Lemma table_message v0 v1 vs n :
  (8 ≤ n)%nat →
  take n (table_bytes (v0 :: v1 :: vs)) = message (u32 v0) (u32 v1) (take (n - 8) (table_bytes vs)).
Proof.
  intros Hn. unfold table_bytes, message. rewrite !fmap_cons.
  change (htonl (u32 v0) :: htonl (u32 v1) :: ?l) with ([htonl (u32 v0); htonl (u32 v1)] ++ l).
  rewrite bytes_of_words_app, take_app_ge by (rewrite length_bytes_of_words; cbn; lia).
  by rewrite length_bytes_of_words.
Qed.

(** A table of at least 8 values that the test program sends over any
    working connection is no ramp table for the firmware: the length in its header
    counts values instead of bytes, and its identifier is the one of channel 1, so
    the first value is executed as a command with the second one as its argument.
    What follows in the stream is no message, unless the table happens to hold the
    magic there, and is refused. *)
Theorem ramp_tool_misread hstack sstack ssock rsock v0 v1 vs m net rnet tl s :
  let values := v0 :: v1 :: vs in
  let n := Z.of_nat (length values) in
  let left := drop (length values) (table_bytes values) ++
    replicate (Z.to_nat 400000 - 8 - 4 * length values) 0 in
  8 ≤ n ≤ 99998 → length hstack = 8%nat → length sstack = 128%nat →
  n ≤ rx_msglen m ≤ Z.of_nat (length (rx_buf m)) → rx_msglen m < 2 ^ 32 →
  up ssock net →
  ∃ p net', packet values = Ok p ∧ send_packet (length p) ssock p net = Ok (tt, net') ∧
  (up rsock rnet →
   rx_pending rsock rnet = drop (length (tx_sent ssock net)) (tx_sent ssock net') ++ tl →
   ∃ m' rnet', psc_recvmsg hstack sstack rsock m 0 rnet = Ok ((0, m'), rnet') ∧
     rx_msgid m' = 1 ∧ rx_msglen m' = n ∧
     client_msg (rx_msgid m') (rx_msglen m') (rx_buf m') s
     = switch (u32 v0) (chan_cases 1 (u32 v1)) (mret tt) (blink s) ∧
     (take 2 left ≠ [0x50; 0x53] →
      ∃ rnet2, psc_recvmsg hstack sstack rsock m' 0 rnet' = Ok ((EIO, m'), rnet2))).
Proof.
  intros values n left Hn Hh Hs Hm Hm2 Hup.
  set (body := take (length values) (table_bytes values)).
  assert (Hbody : length body = length values)
    by (unfold body; rewrite length_take, length_table_bytes; lia).
  assert (Hmsg : body = message (u32 v0) (u32 v1) (take (length values - 8) (table_bytes vs)))
    by (apply table_message; lia).
  pose proof (run_create_packet (Z.to_nat 400000) values ltac:(lia) ltac:(lia)) as Ep.
  set (p := psc_header 1 _ ++ _) in Ep.
  assert (Hp : p = frame 1 body ++ left).
  { unfold p, frame. rewrite Hbody. unfold left, body. rewrite <- !app_assoc. f_equal.
    by rewrite (app_assoc (take _ _)), take_drop. }
  exists p. destruct (run_send_packet p (length p) ssock net) as (net' & Es & _ & Ht); [done..|].
  exists net'. split; [exact Ep|]. split; [exact Es|]. intros Hrup Hpend.
  rewrite Ht, drop_app_length, Hp, <- app_assoc in Hpend.
  destruct (run_recvmsg hstack sstack rsock 1 body (left ++ tl) m 0 rnet)
    as (rnet' & Er & Hup' & Hleft & _); try done; [lia|lia|].
  rewrite take_ge in Er by lia. eexists _, rnet'. split; [exact Er|].
  cbn [rx_msgid rx_msglen rx_buf]. rewrite Hbody. split; [done|]. split; [done|]. split.
  - rewrite run_client_msg. cbn [Z.eqb Z.leb Z.compare Pos.compare Pos.compare_cont andb].
    rewrite Hmsg. unfold message at 1. rewrite <- app_assoc.
    apply (run_chan_settings 1 (u32 v0) (u32 v1)); apply u32_range.
  - intros Hmagic. assert (Hleft8 : (8 ≤ length left)%nat).
    { unfold left. rewrite length_app, length_drop, length_table_bytes, length_replicate. lia. }
    rewrite <- (take_drop 8 left), <- app_assoc in Hleft.
    edestruct (recv_bad_magic hstack sstack rsock (take 8 left)) as (rnet2 & E2 & _);
      [by rewrite length_take_le|by rewrite take_take|done|done|exact Hleft|].
    exists rnet2. exact E2.
Qed.
End received.
