(* ===== verification/FastPacket.v ===== *)
(** * Fast set-point packets ([testing/fofb/caen_fast_genpacket.c])

    A test program (and its graphical version, which has the same function) builds the
    UDP packets from which the gateware takes set points for the fast orbit feedback:
    a protocol number, a command, a nonce, and pairs of an address and a [float]. *)

From S2P Require Import Prelude Words CStr.

Definition MAX_PAIRS : nat := 10.
Definition PACKET_MAX_SIZE : nat := Z.to_nat 1024.

(** The set point is the pattern of a [float]. *)
Record FastSetpoint := MkFast { address : Z; setpoint : Z }.

(** [buffer[offset++] = b] for each of the bytes *)
Definition append (bs : list Z) (st : list Z * nat) : res (list Z * nat) :=
  buffer ← put_bytes st.1 st.2 bs;
  Ok (buffer, (st.2 + length bs)%nat).

(** [(x >> (8 * i)) & 0xFF] for [i] from [n - 1] down to 0 *)
Fixpoint be_bytes (n : nat) (x : Z) : list Z :=
  match n with
  | O => []
  | S n => Z.land (Z.shiftr x (8 * Z.of_nat n)) 0xFF :: be_bytes n x
  end.

Fixpoint append_pairs (pairs : list FastSetpoint) (st : list Z * nat) : res (list Z * nat) :=
  match pairs with
  | [] => Ok st
  | p :: pairs =>
      st ← append (be_bytes 2 (address p)) st;
      st ← append (be_bytes 4 (setpoint p)) st;
      append_pairs pairs st
  end.

(** The datagram, or [None] when there are too many pairs; [buffer] is the
    uninitialised buffer of [PACKET_MAX_SIZE] bytes. *)
Definition send_fast_udp_packet (buffer : list Z) (protocol_id command nonce : Z)
    (pairs : list FastSetpoint) : res (option (list Z)) :=
  if (MAX_PAIRS <? length pairs)%nat then Ok None
  else
    st ← append (be_bytes 2 protocol_id) (buffer, 0%nat);
    st ← append (be_bytes 2 command) st;
    st ← append (be_bytes 8 nonce) st;
    st ← append_pairs pairs st;
    Ok (Some (take st.2 st.1)).

(** ** Reading a packet *)

Definition be_word (bs : list Z) : Z := foldl (λ v b, 2 ^ 8 * v + b) 0 bs.

(** A number of [n] bytes and the rest. *)
Definition read_be (n : nat) (bs : list Z) : option (Z * list Z) :=
  if (length bs <? n)%nat then None else Some (be_word (take n bs), drop n bs).

Fixpoint read_pairs (fuel : nat) (bs : list Z) : option (list FastSetpoint) :=
  match bs, fuel with
  | [], _ => Some []
  | _, O => None
  | _, S fuel =>
      '(a, bs) ← read_be 2 bs;
      '(f, bs) ← read_be 4 bs;
      ps ← read_pairs fuel bs;
      Some (MkFast a f :: ps)
  end.

Definition read_packet (bs : list Z) : option (Z * Z * Z * list FastSetpoint) :=
  '(protocol_id, bs) ← read_be 2 bs;
  '(command, bs) ← read_be 2 bs;
  '(nonce, bs) ← read_be 8 bs;
  pairs ← read_pairs (length bs) bs;
  Some (protocol_id, command, nonce, pairs).

(** ** Round trip *)

Lemma length_be_bytes n x : length (be_bytes n x) = n.
Proof. induction n; cbn; congruence. Qed.

Lemma foldl_be n x v :
  foldl (λ v b, 2 ^ 8 * v + b) v (be_bytes n x) = 2 ^ (8 * Z.of_nat n) * v + x mod 2 ^ (8 * Z.of_nat n).
Proof.
  revert v. induction n as [|n IH]; intros v; cbn [be_bytes foldl].
  - change (8 * Z.of_nat 0) with 0. rewrite Z.mod_1_r. lia.
  - rewrite IH. change 0xFF with (Z.ones 8). rewrite Z.land_ones, Z.shiftr_div_pow2 by lia.
    replace (8 * Z.of_nat (S n)) with (8 * Z.of_nat n + 8) by lia. rewrite Z.pow_add_r by lia.
    set (P := 2 ^ (8 * Z.of_nat n)). assert (0 < P) by (apply Z.pow_pos_nonneg; lia).
    rewrite (Z.rem_mul_r x P (2 ^ 8)) by lia. lia.
Qed.

Lemma read_be_bytes n x tl :
  0 ≤ x < 2 ^ (8 * Z.of_nat n) → read_be n (be_bytes n x ++ tl) = Some (x, tl).
Proof.
  intros Hx. unfold read_be. rewrite length_app, length_be_bytes, (proj2 (Nat.ltb_ge _ _)) by lia.
  rewrite take_app_length', drop_app_length' by (by rewrite length_be_bytes).
  unfold be_word. rewrite foldl_be. rewrite Z.mod_small by done. do 2 f_equal. lia.
Qed.

Definition pair_ok (p : FastSetpoint) : Prop := is_u16 (address p) ∧ is_u32 (setpoint p).

Definition pairs_bytes (pairs : list FastSetpoint) : list Z :=
  pairs ≫= λ p, be_bytes 2 (address p) ++ be_bytes 4 (setpoint p).

Lemma length_pairs_bytes pairs : length (pairs_bytes pairs) = (6 * length pairs)%nat.
Proof.
  induction pairs as [|p pairs IH]; [done|]. unfold pairs_bytes in *.
  rewrite bind_cons, !length_app, !length_be_bytes, IH. cbn. lia.
Qed.

Lemma read_pairs_bytes pairs : ∀ fuel,
  (length pairs ≤ fuel)%nat → Forall pair_ok pairs → read_pairs fuel (pairs_bytes pairs) = Some pairs.
Proof.
  induction pairs as [|p pairs IH]; intros [|fuel] Hf Hp; try done; [cbn in Hf; lia|].
  apply Forall_cons in Hp as [[Ha Hs] Hp]. unfold pairs_bytes. rewrite bind_cons, <- app_assoc.
  change (read_pairs (S fuel) (be_bytes 2 (address p) ++ ?t)) with
    ('(a, bs) ← read_be 2 (be_bytes 2 (address p) ++ t); '(f, bs) ← read_be 4 bs;
     ps ← read_pairs fuel bs; Some (MkFast a f :: ps)).
  rewrite read_be_bytes by done. cbn [mbind option_bind]. rewrite read_be_bytes by done.
  cbn [mbind option_bind]. fold (pairs_bytes pairs). rewrite IH by (done || cbn in Hf; lia). by destruct p.
Qed.

(** Bytes appended so far. *)
Lemma run_append pre rest bs :
  (length bs ≤ length rest)%nat →
  append bs (pre ++ rest, length pre) = Ok ((pre ++ bs) ++ drop (length bs) rest, length (pre ++ bs)).
Proof.
  intros Hl. unfold append. cbn [fst snd]. rewrite <- (take_drop (length bs) rest) at 1.
  rewrite put_bytes_app by (by rewrite length_take_le). cbn [mbind res_bind].
  by rewrite <- app_assoc, length_app.
Qed.

Lemma run_append_pairs pairs : ∀ pre rest,
  (6 * length pairs ≤ length rest)%nat →
  append_pairs pairs (pre ++ rest, length pre)
  = Ok ((pre ++ pairs_bytes pairs) ++ drop (6 * length pairs) rest, length (pre ++ pairs_bytes pairs)).
Proof.
  induction pairs as [|p pairs IH]; intros pre rest Hl; cbn [append_pairs length] in *.
  - cbn [pairs_bytes mbind list_bind]. by rewrite app_nil_r, drop_0.
  - rewrite run_append by (rewrite length_be_bytes; lia). cbn [mbind res_bind].
    rewrite run_append by (rewrite length_drop, !length_be_bytes; lia). cbn [mbind res_bind].
    rewrite IH by (rewrite !length_drop, !length_be_bytes; lia).
    unfold pairs_bytes. rewrite bind_cons, !length_be_bytes, !drop_drop, <- !app_assoc.
    do 4 f_equal. do 3 f_equal. lia.
Qed.

(** A packet of up to 10 pairs fits into the buffer, is built without writing outside of
    it, and holds exactly the numbers in network byte order; more are refused. *)
Lemma packet_read buffer protocol_id command nonce pairs :
  length buffer = PACKET_MAX_SIZE → is_u16 protocol_id → is_u16 command → 0 ≤ nonce < 2 ^ 64 →
  Forall pair_ok pairs →
  ∃ r, send_fast_udp_packet buffer protocol_id command nonce pairs = Ok r ∧
    match r with
    | Some p => length p = (12 + 6 * length pairs)%nat ∧
        read_packet p = Some (protocol_id, command, nonce, pairs)
    | None => (10 < length pairs)%nat
    end.
Proof.
  intros Hb Hid Hcmd Hn Hp. unfold send_fast_udp_packet. unfold PACKET_MAX_SIZE in Hb.
  destruct (Nat.ltb_spec MAX_PAIRS (length pairs)) as [Hgt|Hle]; [by exists None|].
  unfold MAX_PAIRS in Hle.
  change (buffer, 0%nat) with ([] ++ buffer, length (A := Z) []).
  do 3 (rewrite run_append by (rewrite ?length_drop, ?length_be_bytes; lia); cbn [mbind res_bind]).
  rewrite run_append_pairs by (rewrite ?length_drop, ?length_be_bytes; lia). cbn [mbind res_bind fst snd].
  rewrite take_app_length. eexists. split; [done|]. split.
  - rewrite !length_app, !length_be_bytes, length_pairs_bytes. cbn. lia.
  - rewrite app_nil_l, <- !app_assoc. unfold read_packet.
    do 3 (rewrite read_be_bytes by done; cbn [mbind option_bind]).
    rewrite read_pairs_bytes by (done || rewrite length_pairs_bytes; lia). done.
Qed.
