(* ===== verification/FastSend.v ===== *)
(** * Sending fast set points ([testing/fofb])

    [send_fast] is the whole function [send_fast_udp_packet] of both programs: the
    packet of [FastPacket.v] and the UDP socket it is sent on.  [main_packet] is the
    call of the command-line program; [on_send_clicked] the handler of the graphical
    one, which reads four addresses and set points from text fields. *)

From Stdlib Require Import SpecFloat.
From S2P Require Import Prelude Words Floats CStr Stdio FastPacket.

(** Sockets of the host: [inet_pton] is [None] for a text that is no address. *)
Class UdpHost := {
  UH : Type;
  uh_socket : UH → Z * UH;
  uh_pton : list Z → option (list Z);
  uh_sendto : Z → list Z → Z → list Z → UH → Z * UH;
  uh_close : Z → UH → UH;
}.

Section send.
Context `{UdpHost}.

(** [server_addr.sin_addr] after [memset] and [inet_pton], whose result is not used *)
Definition sin_addr (ip : list Z) : list Z := default [0; 0; 0; 0] (uh_pton ip).

Definition send_fast (buffer ip : list Z) (port protocol_id command nonce : Z)
    (pairs : list FastSetpoint) (h : UH) : res (Z * UH) :=
  p ← send_fast_udp_packet buffer protocol_id command nonce pairs;
  match p with
  | None => Ok (-1, h)
  | Some p =>
      let '(sockfd, h) := uh_socket h in
      if sockfd <? 0 then Ok (-1, h)
      else
        let '(sent, h) := uh_sendto sockfd p (u16 port) (sin_addr ip) h in
        let h := uh_close sockfd h in
        Ok (if sent =? Z.of_nat (length p) then 0 else -1, h)
  end.

Definition PROTOCOL_ID : Z := 0x7631.
Definition COMMAND : Z := 0x0010.
Definition NONCE : Z := 0x00000000BA5EBA11.
Definition TARGET_PORT : Z := 12345.

(** [m * 10^e] with the suffix [f] *)
Definition float_literal `{FpEnv} (m e : Z) : Z := bits_of_float (dec_float false m e).

Definition main_pairs `{FpEnv} : list FastSetpoint :=
  [MkFast 0x0 (float_literal 123451 (-5)); MkFast 0x1 (float_literal 567892 (-5));
   MkFast 0x2 (float_literal 7234567 (-6)); MkFast 0x3 (float_literal 8678912 (-6))].

Definition fast_main `{FpEnv} (buffer : list Z) (h : UH) : res (Z * UH) :=
  '(_, h) ← send_fast buffer (zs "10.0.142.100") TARGET_PORT PROTOCOL_ID COMMAND NONCE main_pairs h;
  Ok (0, h).

(** ** The graphical program *)

(** [strtoul(w, NULL, 0)] with a 64-bit [unsigned long] *)
Definition isxdigit (c : Z) : bool :=
  isdigit c || ((97 <=? c) && (c <=? 102)) || ((65 <=? c) && (c <=? 70)).
Definition isodigit (c : Z) : bool := (48 <=? c) && (c <=? 55).
Definition digit_value (c : Z) : Z := if isdigit c then c - 48 else toupper c - 55.
Definition base_value (base : Z) (ds : list Z) : Z :=
  foldl (λ v c, base * v + digit_value c) 0 ds.
Definition number_value (w : list Z) : Z :=
  match w with
  | a :: b :: c :: _ =>
      if (a =? 48) && (toupper b =? 88) && isxdigit c then base_value 16 (take_while isxdigit (drop 2 w))
      else if a =? 48 then base_value 8 (take_while isodigit w)
      else base_value 10 (take_while isdigit w)
  | a :: _ =>
      if a =? 48 then base_value 8 (take_while isodigit w) else base_value 10 (take_while isdigit w)
  | [] => 0
  end.
Definition strtoul0 (w : list Z) : Z :=
  let '(neg, w) := take_sign (drop_while isspace w) in
  let v := number_value w in
  if 2 ^ 64 <=? v then 2 ^ 64 - 1
  else if neg then (- v) mod 2 ^ 64 else v.

Definition field_pair `{FpEnv, Strtof} (f : list Z * list Z) : FastSetpoint :=
  MkFast (u16 (strtoul0 f.1)) (strtof f.2).

(** The result says whether success is printed; [fields] are the four rows of the window. *)
Definition on_send_clicked `{FpEnv, Strtof} (buffer ip : list Z) (fields : list (list Z * list Z))
    (h : UH) : res (bool * UH) :=
  '(r, h) ← send_fast buffer ip TARGET_PORT PROTOCOL_ID COMMAND NONCE (field_pair <$> fields) h;
  Ok (r =? 0, h).

(** The window when it opens: the address and the four rows. *)
Definition window_fields : list Z * list (list Z * list Z) :=
  (zs "10.0.142.100", replicate 4 (zs "0", zs "0.0")).

(** ** What is sent *)

Lemma run_send_fast buffer ip port protocol_id command nonce pairs h :
  length buffer = PACKET_MAX_SIZE → is_u16 protocol_id → is_u16 command → 0 ≤ nonce < 2 ^ 64 →
  Forall pair_ok pairs → (length pairs ≤ MAX_PAIRS)%nat →
  ∃ p, length p = (12 + 6 * length pairs)%nat ∧
    read_packet p = Some (protocol_id, command, nonce, pairs) ∧
    send_fast buffer ip port protocol_id command nonce pairs h =
      let '(sockfd, h1) := uh_socket h in
      if sockfd <? 0 then Ok (-1, h1)
      else
        let '(sent, h2) := uh_sendto sockfd p (u16 port) (sin_addr ip) h1 in
        Ok (if sent =? Z.of_nat (length p) then 0 else -1, uh_close sockfd h2).
Proof.
  intros Hb Hid Hc Hn Hp Hl.
  destruct (packet_read buffer protocol_id command nonce pairs) as (r & E & Hr); [done..|].
  destruct r as [p|]; [|unfold MAX_PAIRS in Hl; lia]. destruct Hr as [Hlen Hread].
  exists p. split; [done|]. split; [done|]. unfold send_fast. rewrite E. cbn [mbind res_bind].
  destruct (uh_socket h) as [sockfd h1]. destruct (sockfd <? 0); [done|].
  by destruct (uh_sendto _ _ _ _ _) as [sent h2].
Qed.

(** Pressing the button sends, on an open socket, one
    datagram of 36 bytes to port 12345 of the typed address (0.0.0.0 when it cannot be
    read), which holds the protocol number, the command, the nonce and the four typed
    set points in network byte order, the addresses reduced to 16 bits; the socket is
    closed and success is printed exactly if all bytes were sent. *)
Theorem gui_sends_fields `{FpEnv, Strtof} buffer ip f1 f2 f3 f4 h sockfd h1 :
  length buffer = PACKET_MAX_SIZE → Forall (λ f, is_u32 (strtof f.2)) [f1; f2; f3; f4] →
  uh_socket h = (sockfd, h1) → 0 ≤ sockfd →
  ∃ p sent h2, length p = 36%nat ∧
    read_packet p = Some (0x7631, 0x0010, 0xBA5EBA11, field_pair <$> [f1; f2; f3; f4]) ∧
    uh_sendto sockfd p 12345 (sin_addr ip) h1 = (sent, h2) ∧
    on_send_clicked buffer ip [f1; f2; f3; f4] h = Ok (sent =? 36, uh_close sockfd h2).
Proof.
  intros Hb Hf Hs Hge.
  destruct (run_send_fast buffer ip TARGET_PORT PROTOCOL_ID COMMAND NONCE
    (field_pair <$> [f1; f2; f3; f4]) h) as (p & Hl & Hr & E); [done|done|done|done| |cbn; unfold MAX_PAIRS; lia|].
  { apply Forall_fmap. eapply Forall_impl; [exact Hf|]. intros f Hu. split; [apply u16_range|done]. }
  destruct (uh_sendto sockfd p 12345 (sin_addr ip) h1) as [sent h2] eqn:Es.
  exists p, sent, h2. split; [done|]. split; [done|]. split; [done|].
  unfold on_send_clicked. rewrite E, Hs, (proj2 (Z.ltb_ge _ _)) by done.
  change (u16 TARGET_PORT) with 12345. rewrite Es. cbn [mbind res_bind].
  change (length (field_pair <$> [f1; f2; f3; f4])) with 4%nat in Hl. rewrite Hl.
  change (Z.of_nat (12 + 6 * 4)) with 36. by destruct (sent =? 36).
Qed.

(** An address that does not fit into 16 bits is sent to another one. *)
Lemma gui_address_wraps : u16 (strtoul0 (zs "0x10003")) = 3 ∧ u16 (strtoul0 (zs "65539")) = 3.
Proof. done. Qed.

(** An untouched window sets all four rows of address 0 to 0. *)
Lemma window_sends_zeros `{FpEnv, Strtof} : field_pair <$> window_fields.2 = replicate 4 (MkFast 0 0).
Proof. reflexivity. Qed.

(** Numbers in the three notations. *)
Example strtoul0_decimal : strtoul0 (zs " 42abc") = 42. Proof. reflexivity. Qed.
Example strtoul0_hex : strtoul0 (zs "0x1F") = 31. Proof. reflexivity. Qed.
Example strtoul0_octal : strtoul0 (zs "010") = 8. Proof. reflexivity. Qed.
Example strtoul0_negative : u16 (strtoul0 (zs "-1")) = 65535. Proof. reflexivity. Qed.
End send.
