(* ===== verification/Setup.v ===== *)
(** * Set-up of drivers, UDP services and tasks

    What the firmware asks of the drivers, of lwIP and of FreeRTOS before and when
    it starts, as lists of requests; what they answer are the fields of [Drivers]
    and [UdpStack].  [init_i2c] ([i2c.c]), [QspiFlashInit] ([qspi_flash.c]),
    [lstats_setup] ([lstats.c]), [discover_prep] ([discover.c]), [tftp_init]
    ([tftp_server.c]), [on_startup] and the end of [realmain] ([main.c]). *)

From S2P Require Import Prelude Words Floats Machine Regs CStr Tftp TftpSpec.

(** ** Drivers *)

(** Look-ups in the configuration tables ([None]: a null pointer, otherwise the base
    address) and the status of the initialisations. *)
Class Drivers := {
  XST_SUCCESS : Z;
  XST_FAILURE : Z;
  xst_differ : XST_FAILURE ≠ XST_SUCCESS;
  XIicPs_LookupConfig : Z → option Z;
  XIicPs_CfgInitialize : Z → Z → Z;
  XQspiPs_LookupConfig : option Z;
  XQspiPs_CfgInitialize : Z → Z;
  XSysMon_LookupConfig : option Z;
}.

Inductive request :=
| IicInit (bus base : Z)
| IicSetSClk (bus hz : Z)
| QspiInit (base : Z)
| QspiSetOptions            (** manual start, forced slave select *)
| QspiSetClkPrescaler       (** divide by 8 *)
| QspiSetSlaveSelect
| SysMonInit (base : Z)
| SysMonSafeMode
| SysMonAverage             (** 256 samples *)
| SysMonTemperature         (** averaging and sequencing of the temperature *)
| SysMonDivisor (d : Z)
| SysMonContinuous
| ThreadNew (name : string) (below : Z)   (** priority: the default one less [below] *)
| UdpBind (port : Z)
| UdpRemove
| UdpRecv (callback : string)
| PscRun (port : Z)
| Message (text : string).  (** printed *)

#[export] Instance request_eq_dec : EqDecision request.
Proof. solve_decision. Defined.

Section drivers.
Context `{Drivers}.

(** One bus of [init_i2c]: a failed look-up is only printed. *)
Definition init_bus (bus : Z) : res (list request) :=
  match XIicPs_LookupConfig bus with
  | None => Ub ub_null                         (* ConfigPtr->BaseAddress *)
  | Some base =>
      Ok (IicInit bus base ::
          if XIicPs_CfgInitialize bus base =? XST_SUCCESS then []
          else [Message "initialization failed!"])
  end.

Definition init_i2c : res (list request) :=
  r0 ← init_bus 0;
  r1 ← init_bus 1;
  Ok (r0 ++ r1 ++ [IicSetSClk 0 100000; IicSetSClk 1 100000]).

(** The result and the requests. *)
Definition QspiFlashInit : Z * list request :=
  match XQspiPs_LookupConfig with
  | None => (XST_FAILURE, [])
  | Some base =>
      if XQspiPs_CfgInitialize base =? XST_SUCCESS
      then (XST_SUCCESS, [QspiInit base; QspiSetOptions; QspiSetClkPrescaler; QspiSetSlaveSelect])
      else (XST_FAILURE, [QspiInit base])
  end.

Definition lstats_setup : list request :=
  match XSysMon_LookupConfig with
  | Some base =>
      [SysMonInit base; SysMonSafeMode; SysMonAverage; SysMonTemperature; SysMonTemperature;
       SysMonDivisor 32; SysMonContinuous]
  | None => []
  end ++ [ThreadNew "lstats" 0].

(** ** Tasks *)

Definition sadata_setup : list request := [ThreadNew "sadata" 0].
Definition snapshot_setup : list request := [ThreadNew "snapshot" 0].
Definition console_setup : list request := [ThreadNew "console" 1].

Definition on_startup : list request :=
  lstats_setup ++ sadata_setup ++ snapshot_setup ++ console_setup.

(** ** UDP services *)

(** [tcpip_callback] and [udp_bind] return [ERR_OK] or an error. *)
Class UdpStack := {
  ERR_OK : Z;
  ERR_MEM : Z;
  err_differ : ERR_MEM ≠ ERR_OK;
  tcpip_callback_err : Z;
  udp_new_ok : bool;
  udp_bind_err : Z → Z;
  reply_ok : bool;            (* pbuf_alloc_reference *)
}.

Context `{UdpStack}.

Definition discover_prep : list request :=
  if negb udp_new_ok then [Message "unable to allocate discovery socket"]
  else
    UdpBind 3000 ::
    (if udp_bind_err 3000 =? ERR_OK then [] else [Message "unable to bind UDP discovery"]) ++
    (if reply_ok then [UdpRecv "disco_recv"] else [Message "unable to allocate discovery reply pbuf"]).

Definition discover_setup : list request :=
  if tcpip_callback_err =? ERR_OK then discover_prep else [Message "unable to setup UDP discovery"].

(** [LWIP_IANA_PORT_TFTP] *)
Definition TFTP_PORT : Z := 69.

(** The whole of [tftp_init]: its result, its requests and the state afterwards. *)
Definition tftp_udp_init `{TftpContext} (t : tftp_state) : res (Z * list request * tftp_state) :=
  if negb udp_new_ok then Ok (ERR_MEM, [], t)
  else
    let ret := udp_bind_err TFTP_PORT in
    if negb (ret =? ERR_OK) then Ok (ret, [UdpBind TFTP_PORT; UdpRemove], t)
    else
      '(_, t) ← tftp_init t;
      Ok (ERR_OK, [UdpBind TFTP_PORT; UdpRecv "recv"], t).

(** [tftp_prepare] ignores the result. *)
Definition tftp_setup `{TftpContext} (t : tftp_state) : res (list request * tftp_state) :=
  if tcpip_callback_err =? ERR_OK
  then '(_, rs, t) ← tftp_udp_init t; Ok (rs, t)
  else Ok ([Message "unable to setup TFTP"], t).

(** [realmain] after the network set-up, up to the server loop; the server calls
    [on_startup] when it listens.  The call of [tftp_setup] is commented out. *)
Definition realmain_services : list request := discover_setup ++ PscRun 3000 :: on_startup.
End drivers.

(** ** What is set up *)

Ltac not_in_list := cbn; rewrite ?not_elem_of_cons; repeat (split; [discriminate|]);
  first [discriminate | apply not_elem_of_nil].

Section lemmas.
Context `{Drivers, UdpStack}.

(** The flash driver is ready only if both of its steps succeeded. *)
Lemma qspi_init_outcomes :
  match QspiFlashInit with
  | (st, rs) =>
      (st = XST_SUCCESS ∧ ∃ base, XQspiPs_LookupConfig = Some base ∧
         XQspiPs_CfgInitialize base = XST_SUCCESS ∧
         rs = [QspiInit base; QspiSetOptions; QspiSetClkPrescaler; QspiSetSlaveSelect]) ∨
      (st = XST_FAILURE ∧ QspiSetSlaveSelect ∉ rs)
  end.
Proof.
  unfold QspiFlashInit. destruct XQspiPs_LookupConfig as [base|] eqn:E.
  - destruct (Z.eqb_spec (XQspiPs_CfgInitialize base) XST_SUCCESS).
    + left. eauto.
    + right. split; [done|]. by intros ?%list_elem_of_singleton.
  - right. split; [done|]. by intros ?%not_elem_of_nil.
Qed.

(** A bus that is missing from the table is dereferenced after the message. *)
Lemma init_i2c_missing bus :
  bus = 0 ∨ bus = 1 → XIicPs_LookupConfig bus = None → init_i2c = Ub ub_null.
Proof.
  unfold init_i2c, init_bus. intros [-> | ->] E; [by rewrite E|].
  destruct (XIicPs_LookupConfig 0); cbn; [|done]. by rewrite E.
Qed.

Lemma init_i2c_present b0 b1 :
  XIicPs_LookupConfig 0 = Some b0 → XIicPs_LookupConfig 1 = Some b1 →
  ∃ rs, init_i2c = Ok rs ∧ IicInit 0 b0 ∈ rs ∧ IicInit 1 b1 ∈ rs ∧
    IicSetSClk 0 100000 ∈ rs ∧ IicSetSClk 1 100000 ∈ rs.
Proof.
  unfold init_i2c, init_bus. intros -> ->. cbn [mbind res_bind]. eexists. split; [done|].
  rewrite !elem_of_app, !elem_of_cons. tauto.
Qed.

(** A responder that cannot be bound is installed nevertheless. *)
Lemma discover_unbound :
  udp_new_ok = true → reply_ok = true → udp_bind_err 3000 ≠ ERR_OK →
  discover_prep = [UdpBind 3000; Message "unable to bind UDP discovery"; UdpRecv "disco_recv"].
Proof.
  unfold discover_prep. intros -> -> Hb. by rewrite (proj2 (Z.eqb_neq _ _)).
Qed.

(** Start-up creates each task exactly once, the console below
    the default priority and after the others, and the TFTP server is not among the
    services; when lwIP and the tables answer without error, the discovery responder
    listens on UDP port 3000 and the server on TCP port 3000, and nothing is reported. *)
Theorem services_started :
  omap (λ r, match r with ThreadNew n p => Some (n, p) | _ => None end) realmain_services
    = [("lstats", 0); ("sadata", 0); ("snapshot", 0); ("console", 1)]%string ∧
  (UdpRecv "recv" ∉ realmain_services) ∧
  (tcpip_callback_err = ERR_OK → udp_new_ok = true → udp_bind_err 3000 = ERR_OK → reply_ok = true →
   take 3 realmain_services = [UdpBind 3000; UdpRecv "disco_recv"; PscRun 3000] ∧
   ∀ text, Message text ∉ realmain_services).
Proof.
  unfold realmain_services, discover_setup, discover_prep, on_startup, lstats_setup,
    sadata_setup, snapshot_setup, console_setup.
  split; [|split].
  - destruct (tcpip_callback_err =? ERR_OK), udp_new_ok, (udp_bind_err 3000 =? ERR_OK), reply_ok,
      XSysMon_LookupConfig; reflexivity.
  - apply not_elem_of_app. split.
    + destruct (tcpip_callback_err =? ERR_OK), udp_new_ok, (udp_bind_err 3000 =? ERR_OK), reply_ok;
        not_in_list.
    + destruct XSysMon_LookupConfig; not_in_list.
  - intros -> -> -> ->. rewrite Z.eqb_refl. split; [done|]. intros text.
    destruct XSysMon_LookupConfig; not_in_list.
Qed.

(** Setting up the TFTP server either reports the error of
    lwIP, releases what it allocated and leaves the state alone, or installs the
    receive callback on UDP port 69 with an idle server. *)
Theorem tftp_init_outcomes `{TftpContext} c :
  ∃ ret rs, tftp_udp_init (initial c) = Ok (ret, rs, initial c) ∧
    ((ret = ERR_OK ∧ rs = [UdpBind 69; UdpRecv "recv"] ∧ tftp_inv (initial c)) ∨
     (ret ≠ ERR_OK ∧ (rs = [] ∨ rs = [UdpBind 69; UdpRemove]))).
Proof.
  unfold tftp_udp_init. destruct udp_new_ok; cbn [negb].
  2:{ eexists _, _. split; [done|]. right. split; [apply err_differ|by left]. }
  change TFTP_PORT with 69. destruct (Z.eqb_spec (udp_bind_err 69) ERR_OK) as [E|E]; cbn [negb].
  - eexists _, _. split; [done|]. left. split; [done|]. split; [done|].
    constructor; cbn; try done; by left.
  - eexists _, _. split; [done|]. right. split; [done|by right].
Qed.
End lemmas.
