(* ===== verification/Diagnostics.v ===== *)
(** * What is printed

    The values passed to [printf] by [QspiPrintData] ([qspi_flash.c], called when
    settings are saved), [load_ramptable] ([control.c]) and [printTaskStats]
    ([console.c]); the text around them is left out.  [local.h] has two accessors of
    registers by word offset. *)

From Stdlib Require Import SpecFloat.
From S2P Require Import Prelude Words Floats Machine Regs Sadata Qspi Control CStr.

Inductive printed :=
| Hex (v : Z)                   (** %08X *)
| Int (v : Z)                   (** %d, %lu *)
| Double (v : spec_float)       (** %f *)
| Char (c : Z)                  (** %c *)
| Text (s : list Z).            (** %s *)

Section prints.
Context `{Platform, FpEnv}.

(** ** Settings *)

Section settings.
Context (b2v : Z) (sf : ScaleFactorType).

(** [v * CONVDACBITSTOVOLTS * dac_dccts], in [float] *)
Definition amps_of (v : Z) : printed :=
  Double (d_of_f (fmul (fmul (f_of_int v) (float_of_bits b2v)) (float_of_bits (dac_dccts sf)))).
(** [v * CONV16BITSTOVOLTS * field], in [double] *)
Definition units_of (field : ScaleFactorType → Z) (v : Z) : printed :=
  Double (dmul (dmul (d_of_int v) CONV16BITSTOVOLTS) (d_of_f (float_of_bits (field sf)))).
Definition gain_of (v : Z) : printed := Double (ddiv (d_of_int v) GAIN20BITFRACT).
Definition seconds_of (v : Z) : printed := Double (ddiv (d_of_int v) SAMPLERATE).
Definition float_of (v : Z) : printed := Double (d_of_f (float_of_bits v)).

Definition settings_printed (data : QspiData_t) : list printed := [
  Hex data.(header);
  amps_of data.(dac_setpt_offset); gain_of data.(dac_setpt_gain);
  amps_of data.(dcct1_offset); gain_of data.(dcct1_gain);
  amps_of data.(dcct2_offset); gain_of data.(dcct2_gain);
  units_of dac_dccts data.(dacmon_offset); gain_of data.(dacmon_gain);
  units_of vout data.(volt_offset); gain_of data.(volt_gain);
  units_of ignd data.(gnd_offset); gain_of data.(gnd_gain);
  units_of spare data.(spare_offset); gain_of data.(spare_gain);
  units_of regulator data.(reg_offset); gain_of data.(reg_gain);
  units_of error data.(error_offset); gain_of data.(error_gain);
  amps_of data.(ovc1_thresh); amps_of data.(ovc2_thresh);
  units_of vout data.(ovv_thresh);
  units_of error data.(err1_thresh); units_of error data.(err2_thresh);
  units_of ignd data.(ignd_thresh);
  seconds_of data.(ovc1_cntlim); seconds_of data.(ovc2_cntlim); seconds_of data.(ovv_cntlim);
  seconds_of data.(err1_cntlim); seconds_of data.(err2_cntlim); seconds_of data.(ignd_cntlim);
  seconds_of data.(dcct_cntlim); seconds_of data.(flt1_cntlim); seconds_of data.(flt2_cntlim);
  seconds_of data.(flt3_cntlim); seconds_of data.(on_cntlim); seconds_of data.(heartbeat_cntlim);
  Hex data.(fault_mask);
  float_of data.(sf_ampspersec); float_of data.(sf_dac_dccts); float_of data.(sf_vout);
  float_of data.(sf_ignd); float_of data.(sf_spare); float_of data.(sf_regulator);
  float_of data.(sf_error) ].
End settings.

Definition QspiPrintData (data : QspiData_t) (chan : Z) : M (list printed) :=
  b2v ← gets CONVDACBITSTOVOLTS;
  sf ← get_scalefactor (chan - 1);
  mret (settings_printed b2v sf data).

(** ** Ramp tables *)

(** Never called. *)
Definition load_ramptable (chan : Z) (msg : list Z) (msglen : Z) : M (list printed) :=
  vs ← lift (mapM (λ i, w ← load32 msg (Z.of_nat i);
                        Ok [Int (Z.of_nat i); Double (d_of_f (float_of_bits (htonl w)))])
               (seq 0 (Z.to_nat (msglen / 4))));
  mret (Int msglen :: mjoin vs).

(** ** Tasks *)

Inductive eTaskState := eRunning | eReady | eBlocked | eSuspended | eDeleted | eInvalid.

Record TaskStatus_t := MkTask {
  pcTaskName : list Z;
  eCurrentState : eTaskState;
  uxCurrentPriority : Z;
  usStackHighWaterMark : Z;
  ulRunTimeCounter : Z;
}.

Definition stateChar (st : eTaskState) : Z :=
  match st with
  | eRunning => 0x52 | eReady => 0x59 | eBlocked => 0x42 | eSuspended => 0x53 | eDeleted => 0x44
  | _ => 0x3F
  end.

Definition cpuPercent (runtime total : Z) : spec_float :=
  if 0 <? total then fdiv (fmul (f_of_int runtime) (f_of_int 100)) (f_of_int total) else f_of_int 0.

(** [tasks] and [totalRunTime] are what [uxTaskGetSystemState] has stored. *)
Definition printTaskStats (tasks : list TaskStatus_t) (totalRunTime : Z) : list (list printed) :=
  (λ t, [Text (pcTaskName t); Char (stateChar (eCurrentState t)); Int (uxCurrentPriority t);
         Int (usStackHighWaterMark t); Int (ulRunTimeCounter t);
         Double (d_of_f (cpuPercent (ulRunTimeCounter t) totalRunTime))]) <$> tasks.

(** ** Registers by word offset ([local.h]) *)

Definition Controller_GitHash : Z := 27.
Definition Controller_read_ (reg : Z) : M Z := Xil_In32 (XPAR_M_AXI_BASEADDR + 4 * reg).
Definition Controller_write_ (reg val : Z) : M unit := Xil_Out32 (XPAR_M_AXI_BASEADDR + 4 * reg) val.
End prints.

(** ** Properties *)

Section properties.
Context `{Platform, FpEnv}.

(** Saving prints from the gathered structure and changes nothing. *)
Lemma run_print data chan s sf :
  1 ≤ chan ≤ 4 → scalefactors s !! Z.to_nat (chan - 1) = Some sf →
  QspiPrintData data chan s = Ok (settings_printed (CONVDACBITSTOVOLTS s) sf data, s).
Proof.
  intros Hc Hsf. unfold QspiPrintData.
  rewrite (run_bind _ _ s (CONVDACBITSTOVOLTS s) s) by done.
  by rewrite (run_bind _ _ _ _ _ (run_get_scalefactor (chan - 1) s sf ltac:(lia) Hsf)).
Qed.

Lemma load_pair msg i w :
  load32 msg (Z.of_nat i) = Ok w →
  (w ← load32 msg (Z.of_nat i);
   Ok [Int (Z.of_nat i); Double (d_of_f (float_of_bits (htonl w)))]) =
  Ok [Int (Z.of_nat i); Double (d_of_f (float_of_bits (htonl w)))].
Proof. by intros ->. Qed.

(** Without run time the share is 0, and a share is never undefined. *)
Lemma cpuPercent_idle runtime : cpuPercent runtime 0 = S754_zero false.
Proof. reflexivity. Qed.

(** ** The thresholds and the DCCT offsets are unsigned in the structure

    With the factor 1 and the conversion 1, the offset -1 is printed as 4294967296. *)
Lemma dcct_offset_unsigned :
  let sf := MkSF 0x3F800000 0x3F800000 0x3F800000 0x3F800000 0x3F800000 0x3F800000 0x3F800000 in
  amps_of 0x3F800000 sf (u32 (s32 0xFFFFFFFF)) = Double (d_of_int 4294967296) ∧
  amps_of 0x3F800000 sf (s32 0xFFFFFFFF) = Double (d_of_int (-1)).
Proof. split; reflexivity. Qed.
End properties.
