(* ===== verification/Smoothing.v ===== *)
(** * The table of a smooth transition ([testing/smoothing/smoothing_calc.c])

    A program on the host tabulates the half-cosine that the gateware follows
    between two set points, in [double]; the cosine of the C library is the function
    of [Libm].  Texts are outside: the arguments are the converted ones and a row is
    the pair that is printed. *)

From Stdlib Require Import SpecFloat.
From S2P Require Import Prelude Words Floats.

Class Libm := { cos : spec_float → spec_float }.

Definition dadd : spec_float → spec_float → spec_float := SFadd 53 1024.
Definition dsub : spec_float → spec_float → spec_float := SFsub 53 1024.

(** 3.14159265358979323846 *)
Definition M_PI : spec_float := S754_finite false 7074237752028440 (-51).

Section smoothing.
Context `{Libm}.

Definition smooth_transition (s1 s2 : spec_float) (ramp_step T : Z) : spec_float :=
  dadd s1
    (dmul (dmul (dsub s2 s1) (dlit 1 2))
       (dsub (d_of_int 1) (cos (ddiv (dmul (d_of_int ramp_step) M_PI) (d_of_int T))))).

(** The loop; an [int] counter never passes a bound of 2^31 - 1. *)
Definition smooth_rows (s1 s2 : spec_float) (T : Z) : res (list (Z * spec_float)) :=
  if T =? 2 ^ 31 - 1 then Ub (ub_overflow (2 ^ 31))
  else Ok ((λ i, (Z.of_nat i, smooth_transition s1 s2 (Z.of_nat i) T)) <$> seq 0 (Z.to_nat (T + 1))).

(** The exit status and the rows of the file. *)
Definition smooth_main (argc : Z) (s1 s2 : spec_float) (T : Z) (fopen_ok : bool)
    : res (Z * list (Z * spec_float)) :=
  if negb (argc =? 4) then Ok (1, [])
  else if negb fopen_ok then Ok (1, [])
  else rows ← smooth_rows s1 s2 T; Ok (0, rows).

(** ** The first row *)

Definition d_finite (x : spec_float) : bool :=
  match x with S754_zero _ | S754_finite _ _ _ => true | _ => false end.

Lemma d_of_int_pos m : Zpos m < 2 ^ 53 → ∃ m' e, d_of_int (Zpos m) = S754_finite false m' e.
Proof.
  intros Hm. destruct (binary_round_fits 53 1024 false m 0) as (m' & j & _ & _ & E);
    [apply digits2_pos_le; lia|by unfold emin|lia|lia|].
  exists m', (0 - j). exact E.
Qed.

Lemma dmul_zero x s : d_finite x = true → ∃ s', dmul x (S754_zero s) = S754_zero s'.
Proof. destruct x; try done; intros _; by eexists. Qed.

Lemma dadd_zero s m e z : dadd (S754_finite s m e) (S754_zero z) = S754_finite s m e.
Proof. done. Qed.

(** A table over a positive number of steps has one row
    more than steps, numbered from 0, and starts at the first set point, when this is
    not zero, half the difference is finite and the cosine of 0 is 1. *)
Theorem smooth_first_row s m e s2 T :
  0 < T < 2 ^ 31 - 1 → cos (S754_zero false) = d_of_int 1 →
  d_finite (dmul (dsub s2 (S754_finite s m e)) (dlit 1 2)) = true →
  ∃ rows, smooth_main 4 (S754_finite s m e) s2 T true = Ok (0, rows) ∧
    length rows = Z.to_nat (T + 1) ∧ rows.*1 = Z.of_nat <$> seq 0 (Z.to_nat (T + 1)) ∧
    head rows = Some (0, S754_finite s m e).
Proof.
  intros HT Hcos Hfin. unfold smooth_main, smooth_rows.
  rewrite (proj2 (Z.eqb_neq T _)) by lia. cbn [negb Z.eqb mbind res_bind Pos.eqb].
  eexists. split; [done|]. split; [by rewrite length_fmap, length_seq|]. split.
  { by rewrite <- list_fmap_compose. }
  replace (Z.to_nat (T + 1)) with (S (Z.to_nat T)) by lia. cbn [seq fmap list_fmap head].
  change (Z.of_nat 0) with 0. do 2 f_equal. unfold smooth_transition.
  destruct T as [|p|p]; [lia| |lia]. destruct (d_of_int_pos p) as (m' & e' & ->); [lia|].
  change (ddiv (dmul (d_of_int 0) M_PI) (S754_finite false m' e')) with (S754_zero false).
  rewrite Hcos. change (dsub (d_of_int 1) (d_of_int 1)) with (S754_zero false).
  destruct (dmul_zero _ false Hfin) as [z ->]. apply dadd_zero.
Qed.
End smoothing.

(** From 1 to 3 in two steps, with a cosine that is 1 at 0 and 0 elsewhere. *)
Definition step_cos : Libm :=
  {| cos := λ x, match x with S754_zero _ => d_of_int 1 | _ => S754_zero false end |}.

Lemma smooth_first_row_witness :
  ∃ rows, smooth_main (H := step_cos) 4 (d_of_int 1) (d_of_int 3) 2 true = Ok (0, rows) ∧
    head rows = Some (0, d_of_int 1).
Proof.
  destruct (smooth_first_row (H := step_cos) false 4503599627370496 (-52) (d_of_int 3) 2)
    as (rows & E & _ & _ & Hh); [lia|reflexivity|vm_compute; reflexivity|].
  exists rows. split; [exact E|exact Hh].
Defined.
