(* ===== verification/Tasks.v ===== *)
(** * Tasks: the firmware's programs one device access at a time

    The lwIP client threads, the console and the periodic tasks run preemptively
    and call the same functions on the same devices and globals without a lock
    ([listener.c], [main.c]).  A [prog] is a program cut at its accesses to the
    shared state: a register access, a flash transfer, a read or an update of the
    scale factors, a read of a conversion constant or of the DMA memory, a message to
    the clients.  [Threaded m] gives the [prog] of a program of [M] with the proof that
    running it without interruption is [m]; the instances follow the structure of the
    program.  [pool_step] lets any task make its next access. *)

From S2P Require Import Prelude Words Floats Machine.

(** ** Accesses to the shared state *)

Inductive prim : Set → Type :=
| PIn32 (addr : Z) : prim Z
| POut32 (addr val : Z) : prim unit
| PXfer (tx : list Z) : prim (list Z)
| PGetSf (i : Z) : prim ScaleFactorType
| PUpdSf (i : Z) (f : ScaleFactorType → ScaleFactorType) : prim unit
| PV2b : prim Z
| PB2v : prim Z
| PDma : prim (Z → Z)
| PSend (msgid : Z) (body : list Z) : prim unit.

Inductive prog (A : Type) : Type :=
| PRet (a : A)
| PUb (u : ub)
| PDo {X : Set} (o : prim X) (k : X → prog A).
Arguments PRet {A} a.
Arguments PUb {A} u.
Arguments PDo {A X} o k.

Fixpoint pbind {A B} (f : A → prog B) (p : prog A) : prog B :=
  match p with
  | PRet a => f a
  | PUb u => PUb u
  | PDo o k => PDo o (λ x, pbind f (k x))
  end.

Fixpoint pfor (from : Z) (n : nat) (body : Z → prog unit) : prog unit :=
  match n with
  | O => PRet tt
  | S n => pbind (λ _, pfor (from + 1) n body) (body from)
  end.

Section tasks.
Context `{Platform}.

Definition exec {X} (o : prim X) : M X :=
  match o with
  | PIn32 a => Xil_In32 a
  | POut32 a v => Xil_Out32 a v
  | PXfer tx => PolledTransfer tx
  | PGetSf i => get_scalefactor i
  | PUpdSf i f => update_scalefactor i f
  | PV2b => gets CONVVOLTSTODACBITS
  | PB2v => gets CONVDACBITSTOVOLTS
  | PDma => gets dma_memory
  | PSend msgid body => psc_send_event msgid body
  end.

(** The program without interruption. *)
Fixpoint run_prog {A} (p : prog A) : M A :=
  match p with
  | PRet a => mret a
  | PUb u => undefined u
  | PDo o k => x ← exec o; run_prog (k x)
  end.

Lemma run_pbind {A B} (f : A → prog B) p s :
  run_prog (pbind f p) s = (run_prog p ≫= λ a, run_prog (f a)) s.
Proof.
  revert s. induction p as [a|u|X o k IH]; intros s; [done|done|].
  cbn [pbind run_prog]. unfold mbind, M_bind.
  destruct (exec o s) as [[x s1]|]; [|done]. apply IH.
Qed.

(** ** One access of one task *)

Definition advance {A} (p : prog A) (s : psc) : option (res (prog A * psc)) :=
  match p with
  | PDo o k => Some (match exec o s with Ok (x, s') => Ok (k x, s') | Ub u => Ub u end)
  | _ => None
  end.

(** The tasks of a pool take turns in any order. *)
Inductive pool_step : list (prog unit) * psc → list (prog unit) * psc → Prop :=
| pool_advance ts s i p p' s' :
    ts !! i = Some p → advance p s = Some (Ok (p', s')) →
    pool_step (ts, s) (<[i := p']> ts, s').

(** A task has undefined behaviour next. *)
Definition faulty (p : prog unit) (s : psc) : Prop :=
  (∃ u, p = PUb u) ∨ ∃ u, advance p s = Some (Ub u).

(** Every schedule is finite: a task is a well-founded tree of accesses. *)
(** A task in front of a pool: the pool moves on, or the task does. *)
Lemma sn_in_front n p :
  (∀ ts s, length ts = n → sn pool_step (ts, s)) →
  ∀ ts s, length ts = n → sn pool_step (p :: ts, s).
Proof.
  intros IHn. induction p as [a|u|X o k IHk]; intros ts s Hl.
  all: pose proof (IHn ts s Hl) as Hsn; remember (ts, s) as c eqn:Ec; revert ts s Ec Hl.
  all: induction Hsn as [c Hacc IH]; intros ts s Ec Hl; constructor; intros [ts' s'] Hst.
  all: inversion Hst as [ts0 s0 i q q' t Hi Ha E1 E2]; subst ts' t c ts0 s0; destruct i as [|i].
  all: cbn in Hi; try (injection Hi as <-; discriminate Ha).
  all: try (apply (IH (<[i := q']> ts, s') (pool_advance ts s i q q' s' Hi Ha) _ _ eq_refl);
            by rewrite length_insert).
  injection Hi as <-. cbn in Ha. destruct (exec o s) as [[x s1]|]; [|done].
  injection Ha as <- <-. by apply IHk.
Qed.

Lemma pool_terminates_length n ts s : length ts = n → sn pool_step (ts, s).
Proof.
  revert ts s. induction n as [|n IHn]; intros ts s Hl.
  { constructor. intros [ts' s'] Hst. inversion Hst as [? ? i p ? ? Hi]; subst.
    apply nil_length_inv in Hl as ->. done. }
  destruct ts as [|p ts]; [done|]. apply (sn_in_front n); [done|by injection Hl].
Qed.

Lemma pool_terminates ts s : sn pool_step (ts, s).
Proof. by eapply pool_terminates_length. Qed.

(** ** The programs of [M] as tasks *)

Class Threaded {A} (m : M A) := {
  code : prog A;
  code_run : ∀ s, run_prog code s = m s;
}.
Arguments code {A} m {_}.

#[global, refine] Instance threaded_ret {A} (a : A) : Threaded (mret a) := { code := PRet a }.
Proof. done. Defined.
#[global, refine] Instance threaded_undefined {A} u : Threaded (undefined (A:=A) u) := { code := PUb u }.
Proof. done. Defined.
#[global, refine] Instance threaded_lift {A} (r : res A) : Threaded (lift r) :=
  { code := match r with Ok a => PRet a | Ub u => PUb u end }.
Proof. by destruct r. Defined.

Lemma run_single {X} (o : prim X) s : run_prog (PDo o PRet) s = exec o s.
Proof. cbn. unfold mbind, M_bind. by destruct (exec o s) as [[??]|]. Qed.

#[global, refine] Instance threaded_In32 a : Threaded (Xil_In32 a) := { code := PDo (PIn32 a) PRet }.
Proof. apply (run_single (PIn32 a)). Defined.
#[global, refine] Instance threaded_Out32 a v : Threaded (Xil_Out32 a v) := { code := PDo (POut32 a v) PRet }.
Proof. apply (run_single (POut32 a v)). Defined.
#[global, refine] Instance threaded_Xfer tx : Threaded (PolledTransfer tx) := { code := PDo (PXfer tx) PRet }.
Proof. apply (run_single (PXfer tx)). Defined.
#[global, refine] Instance threaded_get_sf i : Threaded (get_scalefactor i) := { code := PDo (PGetSf i) PRet }.
Proof. apply (run_single (PGetSf i)). Defined.
#[global, refine] Instance threaded_upd_sf i f : Threaded (update_scalefactor i f) :=
  { code := PDo (PUpdSf i f) PRet }.
Proof. apply (run_single (PUpdSf i f)). Defined.
#[global, refine] Instance threaded_v2b : Threaded (gets CONVVOLTSTODACBITS) := { code := PDo PV2b PRet }.
Proof. apply (run_single PV2b). Defined.
#[global, refine] Instance threaded_b2v : Threaded (gets CONVDACBITSTOVOLTS) := { code := PDo PB2v PRet }.
Proof. apply (run_single PB2v). Defined.
#[global, refine] Instance threaded_dma : Threaded (gets dma_memory) := { code := PDo PDma PRet }.
Proof. apply (run_single PDma). Defined.
#[global, refine] Instance threaded_send msgid body : Threaded (psc_send_event msgid body) :=
  { code := PDo (PSend msgid body) PRet }.
Proof. apply (run_single (PSend msgid body)). Defined.

#[global, refine] Instance threaded_bind {A B} (m : M A) (f : A → M B)
    `(Hm : !Threaded m) `(Hf : ∀ a, Threaded (f a)) : Threaded (m ≫= f) :=
  { code := pbind (λ a, code (f a)) (code m) }.
Proof.
  intros s. rewrite run_pbind. unfold mbind, M_bind. rewrite code_run.
  destruct (m s) as [[a s1]|]; [apply code_run|done].
Defined.

#[global, refine] Instance threaded_if {A} (b : bool) (m1 m2 : M A)
    `(H1 : !Threaded m1) `(H2 : !Threaded m2) : Threaded (if b then m1 else m2) :=
  { code := if b then code m1 else code m2 }.
Proof. destruct b; apply code_run. Defined.
#[global, refine] Instance threaded_when (b : bool) m `(Hm : !Threaded m) : Threaded (when b m) :=
  { code := if b then code m else PRet tt }.
Proof. destruct b; [apply code_run|done]. Defined.

#[global, refine] Instance threaded_for from n body
    `(Hb : ∀ i, Threaded (body i)) : Threaded (for_range from n body) :=
  { code := pfor from n (λ i, code (body i)) }.
Proof.
  revert from. induction n as [|n IH]; intros from s; [done|].
  cbn [pfor for_range]. rewrite run_pbind. unfold mbind, M_bind. rewrite code_run.
  destruct (body from s) as [[a s1]|]; [apply IH|done].
Defined.

(** The cases of a [switch]. *)
Class ThreadedCases {A} (l : list (Z * M A)) := {
  case_codes : list (Z * prog A);
  case_codes_run : ∀ k d (Hd : Threaded d) s,
    run_prog (switch k case_codes (code d)) s = switch k l d s;
}.
Arguments case_codes {A} l {_}.

#[global, refine] Instance cases_nil {A} : ThreadedCases (A:=A) [] := { case_codes := [] }.
Proof. intros k d Hd s. apply code_run. Defined.
#[global, refine] Instance cases_cons {A} k (m : M A) l
    `(Hm : !Threaded m) `(Hl : !ThreadedCases l) : ThreadedCases ((k, m) :: l) :=
  { case_codes := (k, code m) :: case_codes l }.
Proof.
  intros k' d Hd s. cbn [switch]. destruct (k' =? k); [apply code_run|apply case_codes_run].
Defined.

#[global, refine] Instance threaded_switch {A} k (l : list (Z * M A)) d
    `(Hl : !ThreadedCases l) `(Hd : !Threaded d) : Threaded (switch k l d) :=
  { code := switch k (case_codes l) (code d) }.
Proof. apply case_codes_run. Defined.

#[global, refine] Instance cases_app {A} (l1 l2 : list (Z * M A))
    `(H1 : !ThreadedCases l1) `(H2 : !ThreadedCases l2) : ThreadedCases (l1 ++ l2) :=
  { case_codes := case_codes l1 ++ case_codes l2 }.
Proof.
  intros k d Hd s. rewrite !switch_app.
  apply (case_codes_run k (switch k l2 d) (threaded_switch k l2 d H2 Hd)).
Defined.

(** ** Accesses a task may make *)

Fixpoint all_prims (P : ∀ X : Set, prim X → Prop) {A} (p : prog A) : Prop :=
  match p with
  | PRet _ | PUb _ => True
  | PDo o k => P _ o ∧ ∀ x, all_prims P (k x)
  end.

Section all_prims.
Context (P : ∀ X : Set, prim X → Prop).

Lemma all_prims_pbind {A B} (f : A → prog B) p :
  all_prims P p → (∀ a, all_prims P (f a)) → all_prims P (pbind f p).
Proof.
  intros Hp Hf. induction p as [a|u|X o k IH]; cbn; [done|done|].
  destruct Hp as [Ho Hk]. split; [done|]. intros x. by apply IH.
Qed.
Lemma all_prims_pfor from n body :
  (∀ i, all_prims P (body i)) → all_prims P (pfor from n body).
Proof.
  intros Hb. revert from. induction n as [|n IH]; intros from; [done|].
  cbn [pfor]. by apply all_prims_pbind.
Qed.
Lemma all_prims_lift {A} (r : res A) : all_prims P (code (lift r)).
Proof. by destruct r. Qed.
Lemma all_prims_if {A} (b : bool) (p1 p2 : prog A) :
  all_prims P p1 → all_prims P p2 → all_prims P (if b then p1 else p2).
Proof. by destruct b. Qed.
Lemma all_prims_one {A} (o : prim A) : P _ o → all_prims P (PDo o PRet).
Proof. by split. Qed.
End all_prims.
End tasks.
Arguments code {_ A} m {_}.
Arguments case_codes {_ A} l {_}.

(** Derives the code of a program from its structure. *)
Ltac threaded := cbv zeta; repeat first [typeclasses eauto | simple apply threaded_bind | intros ?
  | simple apply threaded_if | simple apply threaded_when | simple apply threaded_for].
