(* ===== verification/Concurrent.v ===== *)
(** * Client tasks on different blocks do not interfere

    Register block 0 holds the global registers, block [c] those of channel [c];
    a message with identifier 0 to 4 (or a ramp table) works on one block, on the
    scale factors of its channel and on the front-panel access register.  Tasks
    that handle messages of different blocks see, under every interleaving of
    their accesses, what they see alone; observers, which read any block, send
    messages and write nothing but front-panel registers, do not change it. *)

From S2P Require Import Prelude Words Floats Machine Regs Sadata Qspi Control ControlFrame.
From S2P Require Import Main Tasks.

(** ** What the register blocks share *)

Section blocks.
Context `{Platform}.

Definition res_addr : Z := u32 (XPAR_M_AXI_BASEADDR + RESOLUTION_REG).

(** Registers that blink a light of the front panel. *)
Definition indicator (a : Z) : Prop :=
  a = u32 (XPAR_M_AXI_BASEADDR + IOC_ACCESS_REG) ∨
  a = u32 (XPAR_M_AXI_BASEADDR + TENHZ_DATASEND_REG).

(** Registers a task of block [b] reads and writes, and those an observer reads: also
    those of the snapshots, which follow the block of channel 4. *)
Definition may_read (b a : Z) : Prop := (in_block b a ∧ ¬ indicator a) ∨ a = res_addr.
Definition may_write (b a : Z) : Prop := in_block b a ∧ ¬ indicator a ∧ a ≠ res_addr.
Definition monitored (a : Z) : Prop :=
  (∃ b, 0 ≤ b ≤ 5 ∧ in_block b a) ∨ a = u32 (XPAR_M_AXI_BASEADDR + PRJ_SHASUM).

#[global] Instance indicator_dec a : Decision (indicator a).
Proof. unfold indicator. apply _. Defined.
#[global] Instance in_block_dec b a : Decision (in_block b a).
Proof.
  destruct (decide (is_u32 a ∧ (a - chan_addr b 0) mod 2 ^ 32 < CHBASEADDR)) as [[Ha Hm]|Hn].
  - left. exists ((a - chan_addr b 0) mod 2 ^ 32). split; [zmod_lia|].
    unfold chan_addr, u32, is_u32 in *. rewrite Z.add_0_r in *.
    rewrite Zplus_mod_idemp_r. replace (_ + _) with a by lia. by rewrite Z.mod_small.
  - right. intros (off & Hoff & ->). apply Hn. split; [apply u32_range|].
    unfold u32. rewrite Zminus_mod_idemp_l. unfold chan_addr, CHBASEADDR in *.
    replace (_ - _) with off by lia. rewrite Z.mod_small; lia.
Defined.

Lemma blocks_disjoint b b' a :
  0 ≤ b ≤ 4 → 0 ≤ b' ≤ 4 → in_block b a → in_block b' a → b = b'.
Proof.
  unfold in_block, chan_addr, CHBASEADDR. intros Hb Hb' (o & Ho & ->) (o' & Ho' & Heq).
  rewrite <- !Z.add_assoc in Heq. unfold u32 in Heq. Z.div_mod_to_equations. lia.
Qed.

Lemma in_block_off b a off : a = chan_addr b off → 0 ≤ off < CHBASEADDR → in_block b (u32 a).
Proof. intros -> Hoff. by exists off. Qed.

Lemma global_reg r : 0 ≤ r < CHBASEADDR → in_block 0 (u32 (XPAR_M_AXI_BASEADDR + r)).
Proof. intros Hr. apply (in_block_off _ _ r); [|done]. unfold chan_addr. lia. Qed.

(** The registers of a channel's block belong to the channel's tasks. *)
Lemma chan_write chan a off :
  1 ≤ chan ≤ 4 → a = chan_addr chan off → 0 ≤ off < CHBASEADDR → may_write chan (u32 a).
Proof.
  intros Hc Ha Hoff. pose proof (in_block_off chan a off Ha Hoff) as Hb.
  assert (∀ r, 0 ≤ r < CHBASEADDR → u32 a ≠ u32 (XPAR_M_AXI_BASEADDR + r)) as Hne.
  { intros r Hr Heq. rewrite Heq in Hb. assert (chan = 0); [|lia].
    eapply (blocks_disjoint chan 0); [lia|lia|exact Hb|by apply global_reg]. }
  split; [done|]. split; [intros [Hi|Hi]|intros Hi]; revert Hi; by apply Hne.
Qed.

Lemma block_monitored b a off :
  0 ≤ b ≤ 5 → a = chan_addr b off → 0 ≤ off < CHBASEADDR → monitored (u32 a).
Proof. intros Hb Ha Hoff. left. exists b. split; [done|by eapply in_block_off]. Qed.

Lemma read_monitored b a : 0 ≤ b ≤ 4 → may_read b a → monitored a.
Proof.
  intros Hb [[Ha _]| ->]; left; [exists b; split; [lia|done]|].
  exists 0. split; [lia|]. by apply global_reg.
Qed.

Lemma write_read b a : may_write b a → may_read b a.
Proof. intros (? & ? & _). by left. Qed.

(** The writes a state has recorded in block [b]. *)
Definition block_write (b : Z) (e : event) : Prop :=
  match e with Out32 a _ => may_write b a | _ => False end.
#[global] Instance block_write_dec b e : Decision (block_write b e).
Proof. destruct e; cbn; unfold may_write; apply _. Defined.
Definition block_writes (b : Z) (s : psc) : list event := filter (block_write b) (events s).
End blocks.

(** Documented behaviour of the register map: [same_regs b] relates two states of
    the programmable logic in which the registers that a task of block [b] reads
    behave alike.  It depends on writes in block [b] only: reading a register has
    no effect, the front-panel registers drive lights, the resolution register is
    read-only. *)
Class BlockRegisters (P : Platform) := {
  same_regs : Z → PL → PL → Prop;
  same_regs_equiv : ∀ b, Equivalence (same_regs b);
  blk_read : ∀ b a p1 p2, 0 ≤ b ≤ 4 → may_read b a → same_regs b p1 p2 →
    (pl_in32 a p1).1 = (pl_in32 a p2).1;
  blk_read_pure : ∀ b a p, 0 ≤ b ≤ 4 → monitored a → same_regs b p (pl_in32 a p).2;
  blk_write : ∀ b a v p1 p2, 0 ≤ b ≤ 4 → may_write b a → same_regs b p1 p2 →
    same_regs b (pl_out32 a v p1) (pl_out32 a v p2);
  blk_write_other : ∀ b b' a v p, 0 ≤ b ≤ 4 → 0 ≤ b' ≤ 4 → b ≠ b' → may_write b' a →
    same_regs b p (pl_out32 a v p);
  blk_indicator : ∀ b a v p, 0 ≤ b ≤ 4 → indicator a → same_regs b p (pl_out32 a v p);
}.
#[global] Existing Instance same_regs_equiv.

Section concurrent.
Context `{Platform, !BlockRegisters _}.

(** The accesses of a task of block [b]. *)
Definition own (b : Z) (X : Set) (o : prim X) : Prop :=
  match o with
  | PIn32 a => may_read b (u32 a)
  | POut32 a _ => indicator (u32 a) ∨ may_write b (u32 a)
  | PXfer _ | PSend _ _ | PDma => False
  | PGetSf i | PUpdSf i _ => 1 ≤ b ∧ i = b - 1
  | PV2b | PB2v => True
  end.

(** The accesses of an observer. *)
Definition observe (X : Set) (o : prim X) : Prop :=
  match o with
  | PIn32 a => monitored (u32 a)
  | POut32 a _ => indicator (u32 a)
  | PXfer _ | PUpdSf _ _ => False
  | PGetSf _ | PV2b | PB2v | PDma | PSend _ _ => True
  end.

Inductive role := Block (b : Z) | Observer.
Definition role_prims (r : role) : ∀ X : Set, prim X → Prop :=
  match r with Block b => own b | Observer => observe end.
Definition role_ok (r : role) : Prop := match r with Block b => 0 ≤ b ≤ 4 | Observer => True end.

(** Two states that a task of block [b] does not distinguish. *)
Record same_block (b : Z) (s1 s2 : psc) : Prop := {
  sb_regs : same_regs b (pl s1) (pl s2);
  sb_sf : 1 ≤ b → scalefactors s1 !! Z.to_nat (b - 1) = scalefactors s2 !! Z.to_nat (b - 1);
  sb_length : length (scalefactors s1) = length (scalefactors s2);
  sb_v2b : CONVVOLTSTODACBITS s1 = CONVVOLTSTODACBITS s2;
  sb_b2v : CONVDACBITSTOVOLTS s1 = CONVDACBITSTOVOLTS s2;
  sb_writes : block_writes b s1 = block_writes b s2;
}.

#[global] Instance same_block_equiv b : Equivalence (same_block b).
Proof.
  split.
  - intros s. by split.
  - intros s1 s2 [R S L V B W]. split; [by symmetry|intros Hb; by rewrite S|done..].
  - intros s1 s2 s3 [R1 S1 L1 V1 B1 W1] [R2 S2 L2 V2 B2 W2].
    split; try congruence; [by etrans|]. intros Hb. by rewrite S1, S2.
Qed.

Lemma block_writes_out b a v s :
  block_writes b (out32 a v s) =
  block_writes b s ++ (if decide (may_write b (u32 a)) then [Out32 (u32 a) (u32 v)] else []).
Proof.
  unfold block_writes, out32, add_event; cbn [events]. rewrite filter_app. by f_equal.
Qed.

Lemma may_write_other b b' a :
  0 ≤ b ≤ 4 → 0 ≤ b' ≤ 4 → b ≠ b' → may_write b' a → ¬ may_write b a.
Proof. intros Hb Hb' Hne [H1 _] [H2 _]. by apply Hne, (blocks_disjoint b b' a). Qed.

(** ** One access *)

Lemma block_writes_not b s s' evs :
  events s' = events s ++ evs → Forall (λ e, ¬ block_write b e) evs → block_writes b s = block_writes b s'.
Proof.
  intros Ev Hf. unfold block_writes. rewrite Ev, filter_app.
  assert (filter (block_write b) evs = []) as ->; [|by rewrite app_nil_r].
  clear Ev. induction Hf as [|e evs' He _ IH]; [done|]. by rewrite filter_cons_False.
Qed.

Lemma exec_other b r X (o : prim X) s x s' :
  0 ≤ b ≤ 4 → role_ok r → r ≠ Block b → role_prims r X o → exec o s = Ok (x, s') →
  same_block b s s'.
Proof.
  intros Hb Hr Hne Ho. destruct o as [a|a v|tx|i|i f| | | |msgid body]; cbn [exec].
  - assert (monitored (u32 a)) as Hm by (destruct r; [by eapply read_monitored|done]).
    unfold Xil_In32. pose proof (blk_read_pure b (u32 a) (pl s) Hb Hm) as Hp.
    destruct (pl_in32 (u32 a) (pl s)) as [v p]. by intros [= <- <-].
  - assert (indicator (u32 a) ∨ ∃ b', 0 ≤ b' ≤ 4 ∧ b ≠ b' ∧ may_write b' (u32 a)) as Hw.
    { destruct r as [b'|]; [|by left]. destruct Ho as [Ho|Ho]; [by left|right].
      exists b'. split; [done|]. split; [by intros ->|done]. }
    intros [= <- <-]. split; try done.
    + cbn. destruct Hw as [Hw|(b' & Hb' & Hd & Hw)]; [by apply blk_indicator|].
      by apply (blk_write_other b b').
    + rewrite block_writes_out, decide_False, app_nil_r; [done|].
      destruct Hw as [Hw|(b' & Hb' & Hd & Hw)]; [by intros (_ & ? & _)|].
      by apply (may_write_other b b').
  - by destruct r.
  - unfold get_scalefactor. destruct (_ ≫= _); by intros [= <- <-].
  - destruct r as [b'|]; [|done]. destruct Ho as [Hi ->]. unfold update_scalefactor, sf_index.
    cbn in Hr. rewrite u32_id by (unfold is_u32; lia).
    destruct (_ && _); [|done]. intros [= <- <-]. assert (b ≠ b') by (by intros ->).
    split; try done.
    + intros Hb1. cbn. symmetry. apply list_lookup_alter_ne. lia.
    + cbn. by rewrite length_alter.
  - by intros [= <- <-].
  - by intros [= <- <-].
  - by intros [= <- <-].
  - intros [= <- <-]. split; try done. eapply block_writes_not; [done|].
    apply Forall_singleton. by intros [].
Qed.

Lemma exec_own b X (o : prim X) s1 s2 :
  0 ≤ b ≤ 4 → own b X o → same_block b s1 s2 →
  match exec o s1, exec o s2 with
  | Ok (x1, s1'), Ok (x2, s2') => x1 = x2 ∧ same_block b s1' s2'
  | Ub u1, Ub u2 => u1 = u2
  | _, _ => False
  end.
Proof.
  intros Hb Ho Hs. pose proof Hs as [R S L V B W].
  destruct o as [a|a v|tx|i|i f| | | |msgid body]; cbn in Ho |- *.
  - unfold Xil_In32. pose proof (blk_read b (u32 a) _ _ Hb Ho R) as Hv.
    pose proof (read_monitored _ _ Hb Ho) as Hm.
    pose proof (blk_read_pure b (u32 a) (pl s1) Hb Hm) as Hp1.
    pose proof (blk_read_pure b (u32 a) (pl s2) Hb Hm) as Hp2.
    destruct (pl_in32 (u32 a) (pl s1)) as [v1 p1], (pl_in32 (u32 a) (pl s2)) as [v2 p2].
    cbn in Hv, Hp1, Hp2. subst v2. split; [done|]. split; try done.
    cbn. etrans; [symmetry; exact Hp1|]. etrans; [exact R|exact Hp2].
  - split; [done|]. split; try done.
    + destruct Ho as [Ho|Ho]; [|by apply blk_write]. cbn.
      etrans; [symmetry; by apply blk_indicator|]. etrans; [done|by apply blk_indicator].
    + by rewrite !block_writes_out, W.
  - done.
  - destruct Ho as [Hi ->]. unfold get_scalefactor, sf_index.
    rewrite u32_id by (unfold is_u32; lia). rewrite L.
    destruct (_ && _); cbn; [|done]. rewrite S by done.
    destruct (scalefactors s2 !! Z.to_nat (b - 1)) as [sf|]; [by split|done].
  - destruct Ho as [Hi ->]. unfold update_scalefactor, sf_index.
    rewrite u32_id by (unfold is_u32; lia). rewrite L.
    destruct (_ && _); cbn; [|done]. split; [done|]. split; try done.
    + intros _. cbn. by rewrite !list_lookup_alter_eq, S.
    + cbn. by rewrite !length_alter.
  - done.
  - done.
  - done.
  - done.
Qed.

(** ** One task *)

Lemma run_advance {A} (p p' : prog A) s s' r :
  advance p s = Some (Ok (p', s')) → run_prog p s = r → run_prog p' s' = r.
Proof.
  destruct p as [a|u|X o k]; [done..|]. cbn [advance run_prog]. unfold mbind, M_bind.
  destruct (exec o s) as [[x s1]|]; [|done]. by intros [= <- <-].
Qed.

Lemma role_advance {A} r (p p' : prog A) s s' :
  all_prims (role_prims r) p → advance p s = Some (Ok (p', s')) → all_prims (role_prims r) p'.
Proof.
  destruct p as [a|u|X o k]; [done..|]. cbn. intros [_ Hk].
  destruct (exec o s) as [[x s1]|]; [|done]. by intros [= <- <-].
Qed.

Lemma advance_own {A} b (p p' : prog A) s1 s1' s2 :
  0 ≤ b ≤ 4 → all_prims (own b) p → same_block b s1 s2 →
  advance p s1 = Some (Ok (p', s1')) →
  ∃ s2', advance p s2 = Some (Ok (p', s2')) ∧ same_block b s1' s2'.
Proof.
  intros Hb Hp Hs. destruct p as [a|u|X o k]; [done..|]. destruct Hp as [Ho _]. cbn.
  pose proof (exec_own b X o s1 s2 Hb Ho Hs) as He.
  destruct (exec o s1) as [[x1 t1]|], (exec o s2) as [[x2 t2]|]; try done.
  destruct He as [-> He]. intros [= <- <-]. eauto.
Qed.

Lemma advance_other {A} b r (p p' : prog A) s s' :
  0 ≤ b ≤ 4 → role_ok r → r ≠ Block b → all_prims (role_prims r) p →
  advance p s = Some (Ok (p', s')) → same_block b s s'.
Proof.
  intros Hb Hr Hne Hp. destruct p as [a|u|X o k]; [done..|]. destruct Hp as [Ho _]. cbn.
  destruct (exec o s) as [[x t]|] eqn:E; [|done]. intros [= _ <-]. by eapply exec_other.
Qed.

Lemma run_own {A} b (p : prog A) s1 s2 a s1' :
  0 ≤ b ≤ 4 → all_prims (own b) p → same_block b s1 s2 → run_prog p s1 = Ok (a, s1') →
  ∃ s2', run_prog p s2 = Ok (a, s2') ∧ same_block b s1' s2'.
Proof.
  intros Hb. revert s1 s2. induction p as [a'|u|X o k IH]; intros s1 s2 Hp Hs.
  - cbn. intros [= -> ->]. eauto.
  - done.
  - destruct Hp as [Ho Hk]. cbn. unfold mbind, M_bind.
    pose proof (exec_own b X o s1 s2 Hb Ho Hs) as He.
    destruct (exec o s1) as [[x1 t1]|], (exec o s2) as [[x2 t2]|]; try done.
    destruct He as [-> He]. by apply IH.
Qed.

Lemma run_other {A} b r (p : prog A) s a s' :
  0 ≤ b ≤ 4 → role_ok r → r ≠ Block b → all_prims (role_prims r) p → run_prog p s = Ok (a, s') →
  same_block b s s'.
Proof.
  intros Hb Hr Hne. revert s. induction p as [a'|u|X o k IH]; intros s Hp.
  - by intros [= _ ->].
  - done.
  - destruct Hp as [Ho Hk]. cbn. unfold mbind, M_bind.
    destruct (exec o s) as [[x t]|] eqn:E; [|done]. intros Er.
    etrans; [by eapply exec_other|by eapply IH].
Qed.

(** A task that can run to its end has no undefined behaviour next and is either
    finished or can advance. *)
Lemma run_not_faulty (p : prog unit) s a s' :
  run_prog p s = Ok (a, s') →
  ¬ faulty p s ∧ (p = PRet tt ∨ ∃ p' t, advance p s = Some (Ok (p', t))).
Proof.
  destruct p as [[]|u|X o k]; cbn.
  - intros _. split; [|by left]. by intros [[u [=]]|[u [=]]].
  - done.
  - unfold mbind, M_bind. unfold faulty. cbn. destruct (exec o s) as [[x t]|] eqn:E; [|done].
    intros _. split; [by intros [[v [=]]|[v [=]]]|right; eauto].
Qed.

(** ** The pool *)

(** [rs] are the roles of the tasks: no two tasks work on one block. *)
Record separate (rs : list role) (ts : list (prog unit)) : Prop := {
  sep_once : ∀ i j b, rs !! i = Some (Block b) → rs !! j = Some (Block b) → i = j;
  sep_ok : Forall role_ok rs;
  sep_prims : Forall2 (λ r p, all_prims (role_prims r) p) rs ts;
}.

Lemma separate_lookup rs ts i r p :
  separate rs ts → rs !! i = Some r → ts !! i = Some p → role_ok r ∧ all_prims (role_prims r) p.
Proof.
  intros [_ Hok Hp] Hr Ht. split; [by apply (Forall_lookup_1 _ _ _ _ Hok Hr)|].
  by eapply (Forall2_lookup_lr _ _ _ _ _ _ Hp).
Qed.

(** What the pool did to the block of one task is what the task does alone. *)
Definition progress_alone (s0 : psc) (b : Z) (p0 p : prog unit) (s : psc) : Prop :=
  ∃ sa, same_block b sa s ∧ ∀ r, run_prog p0 s0 = r → run_prog p sa = r.

Lemma separate_step rs ts s ts' s' :
  separate rs ts → pool_step (ts, s) (ts', s') → separate rs ts'.
Proof.
  intros Hsep Hst. inversion Hst as [ts0 s0 i p p' s1 Hi Ha]; subst.
  split; [apply Hsep|apply Hsep|]. apply Forall2_same_length_lookup_2.
  { rewrite length_insert. eapply Forall2_length, Hsep. }
  intros j r q Hr Hq. destruct (decide (j = i)) as [->|Hne].
  - rewrite list_lookup_insert_eq in Hq by (by eapply lookup_lt_Some). injection Hq as <-.
    eapply role_advance; [|done]. by eapply separate_lookup.
  - rewrite list_lookup_insert_ne in Hq by done. by eapply separate_lookup.
Qed.

(** The step of a task with another role. *)
Lemma step_other rs ts s i p p' s' b :
  separate rs ts → ts !! i = Some p → advance p s = Some (Ok (p', s')) → 0 ≤ b ≤ 4 →
  rs !! i ≠ Some (Block b) → same_block b s s'.
Proof.
  intros Hsep Hi Ha Hb Hne.
  destruct (Forall2_lookup_r _ _ _ _ _ (sep_prims _ _ Hsep) Hi) as (r & Hr & Hp).
  eapply advance_other; [done| | |exact Hp|exact Ha].
  - by eapply separate_lookup.
  - intros ->. by apply Hne.
Qed.

Lemma pool_step_other rs ts s ts' s' b :
  separate rs ts → pool_step (ts, s) (ts', s') → 0 ≤ b ≤ 4 → Block b ∉ rs → same_block b s s'.
Proof.
  intros Hsep Hst Hb Hin. inversion Hst as [ts0 s0 i p p' s1 Hi Ha]; subst.
  eapply step_other; [done..|]. intros Hr. apply Hin. by eapply list_elem_of_lookup_2.
Qed.

Lemma pool_step_task rs ts s ts' s' j b q s0 q0 :
  separate rs ts → pool_step (ts, s) (ts', s') → rs !! j = Some (Block b) → ts !! j = Some q →
  progress_alone s0 b q0 q s →
  ∃ q', ts' !! j = Some q' ∧ progress_alone s0 b q0 q' s'.
Proof.
  intros Hsep Hst Hbj Hqj (sa & Hsa & Hrun).
  inversion Hst as [ts0 s1 i p p' s2 Hi Ha]; subst.
  destruct (separate_lookup rs ts j (Block b) q Hsep Hbj Hqj) as [Hb Hq].
  destruct (decide (j = i)) as [->|Hne].
  - rewrite Hqj in Hi. injection Hi as <-. exists p'.
    rewrite list_lookup_insert_eq by (by eapply lookup_lt_Some). split; [done|].
    destruct (advance_own b q p' s s' sa Hb Hq) as (sa' & Ha' & Hs'); [by symmetry|done|].
    exists sa'. split; [by symmetry|]. intros r E. eapply run_advance; [done|by apply Hrun].
  - exists q. rewrite list_lookup_insert_ne by done. split; [done|].
    exists sa. split; [|done]. etrans; [done|].
    eapply step_other; [done..|]. intros Hr. apply Hne. by eapply sep_once.
Qed.

Lemma pool_run_task rs ts s ts' s' j b q s0 q0 :
  separate rs ts → rtc pool_step (ts, s) (ts', s') → rs !! j = Some (Block b) → ts !! j = Some q →
  progress_alone s0 b q0 q s →
  ∃ q', ts' !! j = Some q' ∧ progress_alone s0 b q0 q' s'.
Proof.
  intros Hsep Hrun Hb. remember (ts, s) as c eqn:Ec. remember (ts', s') as c' eqn:Ec'.
  revert ts s q Ec Hsep.
  induction Hrun as [c|c [ts1 s1] c' Hst Hrun IH]; intros ts s q -> Hsep Hq Hp.
  - injection Ec' as -> ->. eauto.
  - destruct (pool_step_task rs ts s ts1 s1 j b q s0 q0) as (q1 & Hq1 & Hp1); [done..|].
    eapply (IH Ec' ts1 s1 q1); [done|by eapply separate_step|done|done].
Qed.

Lemma pool_run_other rs ts s ts' s' b :
  separate rs ts → rtc pool_step (ts, s) (ts', s') → 0 ≤ b ≤ 4 → Block b ∉ rs → same_block b s s'.
Proof.
  intros Hsep Hrun Hb Hin. remember (ts, s) as c eqn:Ec. remember (ts', s') as c' eqn:Ec'.
  revert ts s Ec Hsep. induction Hrun as [c|c [ts1 s1] c' Hst Hrun IH]; intros ts s -> Hsep.
  - by injection Ec' as -> ->.
  - etrans; [by eapply pool_step_other|]. eapply IH; [done|done|by eapply separate_step].
Qed.

Lemma separate_tail r rs p ts : separate (r :: rs) (p :: ts) → separate rs ts.
Proof.
  intros [Honce Hok Hp]. apply Forall_cons in Hok as [_ Hok]. apply Forall2_cons in Hp as [_ Hp].
  split; [|done..]. intros i j b Hi Hj. apply Nat.succ_inj. by apply (Honce (S i) (S j) b).
Qed.

(** ** One after the other *)

Fixpoint run_all (ts : list (prog unit)) : M unit :=
  match ts with
  | [] => mret tt
  | p :: ts => run_prog p;; run_all ts
  end.

Lemma run_all_serial bs ts s :
  separate (Block <$> bs) ts → Forall (λ p, ∃ s1, run_prog p s = Ok (tt, s1)) ts →
  ∃ s', run_all ts s = Ok (tt, s') ∧
    (∀ b, 0 ≤ b ≤ 4 → b ∉ bs → same_block b s s') ∧
    (∀ j b p s1, bs !! j = Some b → ts !! j = Some p → run_prog p s = Ok (tt, s1) →
       same_block b s1 s').
Proof.
  revert bs s. induction ts as [|p ts IH]; intros bs s Hsep Hrun.
  { exists s. split; [done|]. split; [done|]. by intros j b p s1 _ ?. }
  destruct bs as [|b bs]; [by pose proof (Forall2_length _ _ _ (sep_prims _ _ Hsep))|].
  assert (separate (Block <$> bs) ts) as Hsep' by (eapply separate_tail; exact Hsep).
  destruct (separate_lookup _ _ 0 (Block b) p Hsep) as [Hb Hp]; [done..|].
  apply Forall_cons in Hrun as [(s1 & E1) Hrun].
  assert (∀ b', 0 ≤ b' ≤ 4 → b' ≠ b → same_block b' s s1) as Hother.
  { intros b' Hb' Hne. eapply (run_other b' (Block b)); [done|done|by intros [= ->]|done|done]. }
  assert (∀ j b' q, bs !! j = Some b' → ts !! j = Some q →
            0 ≤ b' ≤ 4 ∧ b' ≠ b ∧ all_prims (own b') q) as Hj.
  { intros j b' q Hb' Hq. assert ((Block <$> bs) !! j = Some (Block b')) as Hr
      by (by rewrite list_lookup_fmap, Hb').
    destruct (separate_lookup _ _ j _ q Hsep' Hr Hq) as [? ?]. split; [done|]. split; [|done].
    intros ->. by pose proof (sep_once _ _ Hsep 0 (S j) b eq_refl Hr). }
  destruct (IH bs s1) as (s' & E & Hout & Hin).
  { done. }
  { apply Forall_lookup_2. intros j q Hq. destruct (Forall_lookup_1 _ _ _ _ Hrun Hq) as (t & Et).
    destruct (Forall2_lookup_r _ _ _ _ _ (sep_prims _ _ Hsep') Hq) as (r & Hr & _).
    rewrite list_lookup_fmap in Hr. destruct (bs !! j) as [b'|] eqn:Hb'; [|done].
    destruct (Hj j b' q Hb' Hq) as (? & ? & ?).
    destruct (run_own b' q s s1 tt t) as (t' & ? & _); eauto. }
  exists s'. split; [by cbn; rewrite (run_bind _ _ _ _ _ E1)|]. split.
  - intros b' Hb' Hnin. apply not_elem_of_cons in Hnin as [Hne Hnin].
    etrans; [by apply Hother|by apply Hout].
  - intros [|j] b' q t; cbn.
    + intros [= ->] [= ->] Et. rewrite E1 in Et. injection Et as <-. apply Hout; [done|].
      intros Hbin. apply list_elem_of_lookup in Hbin as [j Hbj].
      assert ((Block <$> bs) !! j = Some (Block b')) as Hr by (by rewrite list_lookup_fmap, Hbj).
      by pose proof (sep_once _ _ Hsep 0 (S j) b' eq_refl Hr).
    + intros Hb' Hq Et. destruct (Hj j b' q Hb' Hq) as (? & ? & ?).
      destruct (run_own b' q s s1 tt t) as (t' & Et' & Hs); [done|done|by apply Hother|done|].
      etrans; [exact Hs|by eapply Hin].
Qed.
End concurrent.
