(* ===== verification/ClientTasks.v ===== *)
(** * The receive callback as a task

    The code of [client_msg] ([main.c]) and of every program of [control.c] and
    [qspi_flash.c] it runs, cut at the accesses to shared state, and the accesses
    of each: those of one register block, except for the triggers and the flash. *)

From S2P Require Import Prelude Words Floats Machine Regs Sadata Qspi Control ControlFrame.
From S2P Require Import ControlSpec Main Tasks Concurrent.

Section instances.
Context `{Platform, Runtime, FpEnv}.

#[global] Instance threaded_v2d c field f : Threaded (volts_to_dacbits c field f).
Proof. unfold volts_to_dacbits. threaded. Defined.
#[global] Instance threaded_v2_16 c field f : Threaded (volts_to_16bits c field f).
Proof. unfold volts_to_16bits. threaded. Defined.
#[global] Instance threaded_out c r v : Threaded (out c r v).
Proof. unfold out. threaded. Defined.
#[global] Instance threaded_sub a b : Threaded (sub_s32 a b).
Proof. unfold sub_s32. threaded. Defined.
#[global] Instance threaded_abs a : Threaded (abs_s32 a).
Proof. unfold abs_s32. threaded. Defined.
#[global] Instance threaded_div a b : Threaded (div_u32 a b).
Proof. unfold div_u32. threaded. Defined.
#[global] Instance threaded_shift k : Threaded (shift_one k).
Proof. unfold shift_one. threaded. Defined.
#[global] Instance threaded_ReadAccumSA a m : Threaded (ReadAccumSA a m).
Proof. unfold ReadAccumSA. threaded. Defined.
#[global] Instance threaded_soft_trig u : Threaded (soft_trig u).
Proof. unfold soft_trig. threaded. Defined.
#[global] Instance threaded_fpleds u : Threaded (set_fpleds u).
Proof. unfold set_fpleds. threaded. Defined.
#[global] Instance threaded_dump_adcs c : Threaded (dump_adcs c).
Proof. unfold dump_adcs. threaded. Defined.
#[global] Instance threaded_saturate r v : Threaded (saturate_ramp r v).
Proof. unfold saturate_ramp. threaded. Defined.
#[global] Instance threaded_ramptable c msg n : Threaded (write_ramptable c msg n).
Proof. unfold write_ramptable. threaded. Defined.
#[global] Instance threaded_smooth c v : Threaded (Calc_WriteSmooth c v).
Proof. unfold Calc_WriteSmooth. threaded. Defined.
#[global] Instance threaded_opmode c m : Threaded (Set_dacOpmode c m).
Proof. unfold Set_dacOpmode. threaded. Defined.
#[global] Instance threaded_Set_dac c f : Threaded (Set_dac c f).
Proof. unfold Set_dac. threaded. Defined.

#[global] Instance threaded_wait_ready fuel : Threaded (wait_ready fuel).
Proof. induction fuel as [|fuel IH]; cbn [wait_ready]; threaded. Defined.
#[global] Instance threaded_FlashRead a n : Threaded (QspiFlashRead a n).
Proof. unfold QspiFlashRead. threaded. Defined.
#[global] Instance threaded_FlashWrite a wb : Threaded (QspiFlashWrite a wb).
Proof. unfold QspiFlashWrite. threaded. Defined.
#[global] Instance threaded_EraseSect c : Threaded (QspiFlashEraseSect c).
Proof. unfold QspiFlashEraseSect. threaded. Defined.
#[global] Instance threaded_Gather c wb : Threaded (QspiGatherData c wb).
Proof. unfold QspiGatherData. threaded. Defined.
#[global] Instance threaded_Disperse c rb : Threaded (QspiDisperseData c rb).
Proof. unfold QspiDisperseData. threaded. Defined.
#[global] Instance threaded_recall c : Threaded (recall_settings c).
Proof. unfold recall_settings. threaded. Defined.
#[global] Instance threaded_save c : Threaded (save_settings c).
Proof. unfold save_settings. threaded. Defined.

#[global] Instance cases_glob u : ThreadedCases (glob_cases u).
Proof. unfold glob_cases. typeclasses eauto. Defined.
#[global] Instance cases_dac c u : ThreadedCases (chan_cases_dac c u).
Proof. unfold chan_cases_dac. cbv zeta. typeclasses eauto. Defined.
#[global] Instance cases_adc c u : ThreadedCases (chan_cases_adc c u).
Proof. unfold chan_cases_adc. cbv zeta. typeclasses eauto. Defined.
#[global] Instance cases_fault c u : ThreadedCases (chan_cases_fault c u).
Proof. unfold chan_cases_fault. cbv zeta. typeclasses eauto. Defined.
#[global] Instance cases_digital c u : ThreadedCases (chan_cases_digital c u).
Proof. unfold chan_cases_digital. cbv zeta. typeclasses eauto. Defined.
#[global] Instance cases_sf c u : ThreadedCases (chan_cases_sf c u).
Proof. unfold chan_cases_sf. cbv zeta. typeclasses eauto. Defined.
#[global] Instance cases_misc c u : ThreadedCases (chan_cases_misc c u).
Proof. unfold chan_cases_misc. cbv zeta. typeclasses eauto. Defined.
#[global] Instance cases_chan c u : ThreadedCases (chan_cases c u).
Proof. unfold chan_cases. typeclasses eauto. Defined.

#[global] Instance threaded_glob msg : Threaded (glob_settings msg).
Proof. unfold glob_settings. threaded. Defined.
#[global] Instance threaded_chan c msg n : Threaded (chan_settings c msg n).
Proof. unfold chan_settings. threaded. Defined.
#[global] Instance threaded_client msgid n msg : Threaded (client_msg msgid n msg).
Proof. unfold client_msg. threaded. Defined.
End instances.

(** ** The accesses of the programs *)

Create HintDb own discriminated.
Ltac own_code := cbv zeta; cbn [code threaded_bind threaded_ret threaded_undefined threaded_if
  threaded_when threaded_for threaded_lift threaded_In32 threaded_Out32 threaded_get_sf
  threaded_upd_sf threaded_v2b threaded_b2v].
(** [XPAR_M_AXI_BASEADDR + chan * CHBASEADDR + off] is a register of channel [chan]. *)
Ltac own_reg :=
  lazymatch goal with
  | |- context [u32 (_ + _ * CHBASEADDR + ?r)] => eapply (chan_write _ _ r)
  | |- context [u32 (_ + ?r + _ * CHBASEADDR)] => eapply (chan_write _ _ r)
  | |- context [u32 (_ + (?r + _ * CHBASEADDR))] => eapply (chan_write _ _ r)
  end; [assumption|unfold chan_addr; ring|reg_lia].
Ltac own_prim :=
  split; [cbn [own]; first [exact I | split; [lia|reflexivity] | right; reflexivity | right; own_reg | left; reflexivity | apply write_read; own_reg | idtac]|intros ?; exact I].
Ltac own_step :=
  first
    [ solve [auto 2 with own nocore]
    | exact I
    | apply all_prims_pbind; [|intros ?]
    | apply all_prims_pfor; intros ?
    | apply all_prims_if
    | apply (all_prims_lift (own _))
    | own_prim ].
Ltac own_tac := own_code; repeat (own_step; own_code).

Section own.
Context `{Platform, Runtime, FpEnv, !BlockRegisters _}.
Context (chan : Z) (Hchan : 1 ≤ chan ≤ 4).
Abbreviation O m := (all_prims (own chan) (code m)).

Lemma own_v2d field f : O (volts_to_dacbits chan field f).
Proof. unfold threaded_v2d. own_tac. Qed.
Lemma own_v2_16 field f : O (volts_to_16bits chan field f).
Proof. unfold threaded_v2_16. own_tac. Qed.
Lemma own_out r v : 0 ≤ r < CHBASEADDR → O (out chan r v).
Proof.
  intros Hr. unfold threaded_out. own_code. split; [|done]. right.
  apply (chan_write chan _ r); [done|unfold chan_addr; ring|done].
Qed.
Lemma own_sub a b : O (sub_s32 a b).
Proof. unfold threaded_sub. own_tac. Qed.
Lemma own_abs a : O (abs_s32 a).
Proof. unfold threaded_abs. own_tac. Qed.
Lemma own_div a b : O (div_u32 a b).
Proof. unfold threaded_div. own_tac. Qed.
#[local] Hint Resolve own_v2d own_v2_16 own_sub own_abs own_div : own.
#[local] Hint Extern 2 (all_prims _ (code (out _ _ _))) => (apply own_out; reg_lia) : own.

Lemma own_ReadAccumSA r m :
  0 ≤ r < CHBASEADDR → O (ReadAccumSA (XPAR_M_AXI_BASEADDR + chan * CHBASEADDR + r) m).
Proof.
  intros Hr. unfold threaded_ReadAccumSA. own_code. split; [|intros ?; exact I].
  apply write_read, (chan_write chan _ r); [done|unfold chan_addr; ring|done].
Qed.
#[local] Hint Extern 2 (all_prims _ (code (ReadAccumSA _ _))) =>
  (apply own_ReadAccumSA; reg_lia) : own.

Lemma own_dump_adcs : O (dump_adcs chan).
Proof. unfold threaded_dump_adcs. own_tac. Qed.
Lemma own_saturate r v : O (saturate_ramp r v).
Proof. unfold threaded_saturate. own_tac. Qed.
#[local] Hint Resolve own_saturate : own.
Lemma own_ramptable msg n : O (write_ramptable chan msg n).
Proof. unfold threaded_ramptable. own_tac. Qed.
Lemma own_smooth v : O (Calc_WriteSmooth chan v).
Proof. unfold threaded_smooth. own_tac. Qed.
Lemma own_opmode m : O (Set_dacOpmode chan m).
Proof. unfold threaded_opmode. own_tac. Qed.
#[local] Hint Resolve own_dump_adcs own_smooth own_opmode : own.
Lemma own_Set_dac f : O (Set_dac chan f).
Proof. unfold threaded_Set_dac. own_tac. Qed.
#[local] Hint Resolve own_Set_dac : own.

(** Channel messages whose effect leaves the channel's block. *)
Definition leaves_block (msgid id : Z) : bool :=
  if msgid =? 0 then (id =? SOFT_TRIG_MSG) || (id =? TEST_TRIG_MSG)
  else if msgid =? 101 then false
  else (id =? USR_TRIG_MSG) || (id =? WRITE_QSPI_MSG) || (id =? READ_QSPI_MSG).

Lemma own_chan_cases u :
  Forall (λ c, leaves_block chan c.1 = false → all_prims (own chan) c.2)
    (case_codes (chan_cases chan u)).
Proof.
  unfold leaves_block. rewrite (proj2 (Z.eqb_neq chan 0)), (proj2 (Z.eqb_neq chan 101)) by lia.
  unfold cases_chan. cbn [case_codes cases_app].
  unfold cases_dac, cases_adc, cases_fault, cases_digital, cases_sf, cases_misc.
  cbn [case_codes cases_nil cases_cons].
  repeat apply Forall_app_2; forall_list; cbn [fst snd]; intros Hne;
    try discriminate Hne; clear Hne; own_tac.
Qed.

Lemma own_chan_settings msg n :
  (∀ w, load32 msg 0 = Ok w → leaves_block chan (htonl w) = false) →
  O (chan_settings chan msg n).
Proof.
  intros Hid. unfold threaded_chan. own_code.
  destruct (load32 msg 0) as [w0|u0]; [|exact I]. specialize (Hid w0 eq_refl).
  cbn [pbind]. apply all_prims_pbind; [by apply (all_prims_lift (own _))|intros w1].
  apply (switch_Forall_key (all_prims (own chan))); [|exact I].
  eapply Forall_impl; [apply own_chan_cases|]. intros [k p] Hp Hk. apply Hp. by rewrite Hk.
Qed.
End own.

Section own_client.
Context `{Platform, Runtime, FpEnv, !BlockRegisters _}.

(** A global register but the resolution. *)
Lemma own_global r v :
  0 ≤ r < CHBASEADDR → r ≠ RESOLUTION_REG →
  all_prims (own 0) (code (Xil_Out32 (XPAR_M_AXI_BASEADDR + r) v)).
Proof.
  intros Hr Hne. split; [|intros ?; exact I]. cbn.
  destruct (decide (indicator (u32 (XPAR_M_AXI_BASEADDR + r)))) as [Hi|Hi]; [by left|right].
  split; [by apply global_reg|]. split; [done|].
  unfold res_addr. intros Heq. apply u32_add_inj in Heq; [done|].
  unfold CHBASEADDR, RESOLUTION_REG in *. lia.
Qed.

Lemma own_glob_settings msg :
  (∀ w, load32 msg 0 = Ok w → leaves_block 0 (htonl w) = false) →
  all_prims (own 0) (code (glob_settings msg)).
Proof.
  intros Hid. unfold threaded_glob. own_code.
  destruct (load32 msg 0) as [w0|u0]; [|exact I]. specialize (Hid w0 eq_refl).
  cbn [pbind]. apply all_prims_pbind; [by apply (all_prims_lift (own _))|intros w1].
  cbn [code threaded_switch].
  apply (switch_Forall_key (all_prims (own 0))); [|exact I].
  unfold cases_glob. cbn [case_codes cases_nil cases_cons].
  forall_list; cbn [fst snd]; intros Hk; rewrite <- Hk in Hid;
    try discriminate Hid; unfold threaded_fpleds; (apply own_global; [reg_lia|discriminate]).
Qed.

Lemma own_ioc b v : all_prims (own b) (code (Xil_Out32 (XPAR_M_AXI_BASEADDR + IOC_ACCESS_REG) v)).
Proof. split; [left; by left|intros ?; exact I]. Qed.

Lemma own_client id n msg :
  0 ≤ msg_chan id ≤ 4 →
  (∀ w, load32 msg 0 = Ok w → leaves_block id (htonl w) = false) →
  all_prims (own (msg_chan id)) (code (client_msg id n msg)).
Proof.
  intros Hb Hid. unfold threaded_client. cbn [code threaded_bind].
  do 2 (apply all_prims_pbind; [apply own_ioc|intros _]). cbn [code threaded_switch].
  apply (switch_Forall_key (all_prims (own (msg_chan id)))); [|exact I].
  cbn [case_codes cases_nil cases_cons].
  forall_list; cbn [fst snd]; intros Hk; subst id; try exact I;
    first [by apply own_glob_settings | by apply own_chan_settings | by apply own_ramptable].
Qed.
End own_client.
