(* ===== verification/MonitorTasks.v ===== *)
(** * The 10 Hz task as an observer

    The code of the loop of [sadata_push] ([sadata.c]), cut at its accesses: it
    reads registers of all blocks and the scale factors, blinks a light and sends
    a message. *)

From S2P Require Import Prelude Words Floats Machine Regs Sadata Qspi SadataPush.
From S2P Require Import ControlFrame Tasks Concurrent ClientTasks.

Section instances.
Context `{Platform, Runtime, FpEnv}.

#[global] Instance threaded_acc_dac b m v sf r : Threaded (acc_dac b m v sf r).
Proof. unfold acc_dac. threaded. Defined.
#[global] Instance threaded_acc_16 b m sf field r : Threaded (acc_16 b m sf field r).
Proof. unfold acc_16. threaded. Defined.
#[global] Instance threaded_dac_bits b v sf r : Threaded (dac_bits b v sf r).
Proof. unfold dac_bits. threaded. Defined.
#[global] Instance threaded_s_16 b sf field r : Threaded (s_16 b sf field r).
Proof. unfold s_16. threaded. Defined.
#[global] Instance threaded_u_16 b sf field r : Threaded (u_16 b sf field r).
Proof. unfold u_16. threaded. Defined.
#[global] Instance threaded_gain_20 b r : Threaded (gain_20 b r).
Proof. unfold gain_20. threaded. Defined.
#[global] Instance threaded_seconds b r : Threaded (seconds b r).
Proof. unfold seconds. threaded. Defined.
#[global] Instance threaded_word b r : Threaded (word b r).
Proof. unfold word. threaded. Defined.
#[global] Instance threaded_word_s b r : Threaded (word_s b r).
Proof. unfold word_s. threaded. Defined.
#[global] Instance threaded_sa_channel b m v sf rsvd : Threaded (sa_channel b m v sf rsvd).
Proof. unfold sa_channel. threaded. Defined.
#[global] Instance threaded_frequency r : Threaded (frequency r).
Proof. unfold frequency. threaded. Defined.
#[global] Instance threaded_sa_channels n c : Threaded (sa_channels n c).
Proof. revert c. induction n as [|n IH]; intros c; cbn [sa_channels]; threaded. Defined.
#[global] Instance threaded_sadata_push msg : Threaded (sadata_push msg).
Proof. unfold sadata_push. threaded. Defined.

(** [n] iterations of the endless loop on its static buffer. *)
Fixpoint sadata_loop (n : nat) (msg : list Z) : M unit :=
  match n with
  | O => mret tt
  | S n => msg ← sadata_push msg; sadata_loop n msg
  end.

#[global] Instance threaded_sadata_loop n msg : Threaded (sadata_loop n msg).
Proof. revert msg. induction n as [|n IH]; intros msg; cbn [sadata_loop]; threaded. Defined.
End instances.

(** ** It is an observer *)

Section observe.
Context `{Platform, Runtime, FpEnv}.
Abbreviation O m := (all_prims observe (code m)).

(** A read of a register of a channel, followed by a computation. *)
Lemma observe_read {A} c base r (f : Z → A) :
  1 ≤ c ≤ 4 → base = XPAR_M_AXI_BASEADDR + c * CHBASEADDR → 0 ≤ r < CHBASEADDR →
  all_prims observe (PDo (PIn32 (base + r)) (λ v, PRet (f v))).
Proof.
  intros Hc -> Hr. split; [|intros ?; exact I].
  apply (block_monitored c _ r); [lia|unfold chan_addr; ring|done].
Qed.

Lemma observe_global r : 0 ≤ r < CHBASEADDR → O (Xil_In32 (XPAR_M_AXI_BASEADDR + r)).
Proof.
  intros Hr. split; [|intros ?; exact I].
  left. exists 0. split; [lia|by apply global_reg].
Qed.

Lemma observe_light r v :
  r = IOC_ACCESS_REG ∨ r = TENHZ_DATASEND_REG → O (Xil_Out32 (XPAR_M_AXI_BASEADDR + r) v).
Proof. intros [-> | ->]; (split; [|intros ?; exact I]); [by left|by right]. Qed.

Lemma observe_sa_channel c m v sf rsvd :
  1 ≤ c ≤ 4 → O (sa_channel (XPAR_M_AXI_BASEADDR + c * CHBASEADDR) m v sf rsvd).
Proof.
  intros Hc. unfold threaded_sa_channel. own_code.
  repeat first
    [ exact I
    | apply all_prims_pbind; [|intros ?]
    | eapply (observe_read c); [done|reflexivity|reg_lia] ].
Qed.

Lemma observe_one {A} (o : prim A) : observe A o → all_prims observe (PDo o PRet).
Proof. by split. Qed.

Lemma observe_frequency r : 0 ≤ r < CHBASEADDR → O (frequency r).
Proof.
  intros Hr. unfold threaded_frequency. own_code. split; [|intros ?; exact I].
  left. exists 0. split; [lia|by apply global_reg].
Qed.

Lemma observe_sa_channels n c : 0 ≤ c → c + Z.of_nat n ≤ 4 → O (sa_channels n c).
Proof.
  revert c. induction n as [|n IH]; intros c Hc Hn; cbn [threaded_sa_channels nat_rect].
  { exact I. }
  cbv zeta. own_code.
  apply all_prims_pbind; [apply (observe_read (c + 1) _ _ (λ v, v)); [lia|reflexivity|reg_lia]|intros m].
  apply all_prims_pbind; [by apply observe_one|intros v].
  apply all_prims_pbind; [by apply observe_one|intros sf].
  apply all_prims_pbind; [apply observe_sa_channel; lia|intros ch].
  apply all_prims_pbind; [apply IH; lia|intros ?; exact I].
Qed.

Lemma observe_sadata_push msg : O (sadata_push msg).
Proof.
  unfold threaded_sadata_push. own_code.
  do 2 (apply all_prims_pbind; [apply observe_light; by right|intros _]).
  do 4 (apply all_prims_pbind; [apply observe_global; reg_lia|intros ?]).
  apply all_prims_pbind; [apply observe_one; by right|intros ?].
  do 5 (apply all_prims_pbind; [apply observe_global; reg_lia|intros ?]).
  do 2 (apply all_prims_pbind; [apply observe_frequency; reg_lia|intros ?]).
  apply all_prims_pbind; [apply observe_sa_channels; lia|intros ps].
  apply all_prims_pbind; [apply (all_prims_lift observe)|intros buf].
  apply all_prims_pbind; [by apply observe_one|intros ?; exact I].
Qed.

Lemma observe_sadata_loop n msg : O (sadata_loop n msg).
Proof.
  revert msg. induction n as [|n IH]; intros msg; cbn [threaded_sadata_loop nat_rect]; [exact I|].
  own_code. apply all_prims_pbind; [apply observe_sadata_push|apply IH].
Qed.
End observe.
