(* ===== verification/Defined.v ===== *)
(** * Programs that are defined under any interference

    [defined Q p]: every access of [p] is defined in every state with four scale
    factors, whatever the earlier accesses returned, and its result has [Q].  This
    does not depend on what other tasks do meanwhile, so a pool of such tasks never
    reaches undefined behaviour; alone, such a program is [total]. *)

From S2P Require Import Prelude Words Floats Machine Tasks.

Section defined.
Context `{Platform}.

(** An access that is defined in every state with four scale factors. *)
Definition valid (X : Set) (o : prim X) : Prop :=
  match o with
  | PGetSf i | PUpdSf i _ => 0 ≤ i < 4
  | _ => True
  end.

(** What an access can return: a register holds what the gateware can put there. *)
Definition possible (X : Set) (o : prim X) : X → Prop :=
  match o in prim X return X → Prop with
  | PIn32 a => λ v, ∃ p, v = u32 (pl_in32 (u32 a) p).1
  | _ => λ _, True
  end.

(** No undefined behaviour, whatever the accesses return, and a result with [Q]. *)
Fixpoint defined {A} (Q : A → Prop) (p : prog A) : Prop :=
  match p with
  | PRet a => Q a
  | PUb _ => False
  | PDo o k => valid _ o ∧ ∀ x, possible _ o x → defined Q (k x)
  end.

Lemma defined_one {X : Set} (o : prim X) (Q : X → Prop) :
  valid X o → (∀ x, possible X o x → Q x) → defined Q (PDo o PRet).
Proof. intros Ho HQ. split; [done|]. intros x Hx. by apply HQ. Qed.
Lemma defined_lift {A} (r : res A) (Q : A → Prop) a : r = Ok a → Q a → defined Q (code (lift r)).
Proof. by intros ->. Qed.
Lemma defined_bind {A B} (f : A → prog B) p Q Q' :
  defined Q p → (∀ a, Q a → defined Q' (f a)) → defined Q' (pbind f p).
Proof.
  intros Hp Hf. induction p as [a|u|X o k IH]; cbn; [by apply Hf|done|].
  destruct Hp as [Ho Hk]. split; [done|]. intros x Hx. apply IH. by apply Hk.
Qed.
Lemma defined_pbind {A B} (f : A → prog B) p Q :
  defined (λ _, True) p → (∀ a, defined Q (f a)) → defined Q (pbind f p).
Proof. intros Hp Hf. eapply defined_bind; [exact Hp|]. intros a _. apply Hf. Qed.
Lemma defined_if {A} (b : bool) (p1 p2 : prog A) Q :
  defined Q p1 → defined Q p2 → defined Q (if b then p1 else p2).
Proof. by destruct b. Qed.
Lemma defined_weaken {A} (p : prog A) (Q Q' : A → Prop) :
  defined Q p → (∀ a, Q a → Q' a) → defined Q' p.
Proof.
  intros Hp HQ. induction p as [a|u|X o k IH]; cbn in *; [by apply HQ|done|].
  destruct Hp as [Ho Hk]. split; [done|]. intros x Hx. apply IH. by apply Hk.
Qed.

Definition four_channels (s : psc) : Prop := length (scalefactors s) = 4%nat.

Lemma exec_valid X (o : prim X) s :
  valid X o → four_channels s →
  ∃ x s', exec o s = Ok (x, s') ∧ possible X o x ∧ four_channels s'.
Proof.
  unfold four_channels. intros Ho Hs. destruct o as [a|a v|tx|i|i f| | | |msgid body]; cbn [exec].
  - unfold Xil_In32. destruct (pl_in32 (u32 a) (pl s)) as [v p] eqn:E.
    eexists _, _. split; [done|]. split; [|done]. exists (pl s). by rewrite E.
  - by eexists _, _.
  - unfold PolledTransfer. destruct (flash_xfer tx (flash s)) as [rx f]. by eexists _, _.
  - cbn in Ho. destruct (lookup_lt_is_Some_2 (scalefactors s) (Z.to_nat i)) as [sf Hsf]; [lia|].
    exists sf, s. split; [|done]. apply run_get_scalefactor; [lia|done].
  - cbn in Ho. eexists _, _. split; [apply run_update_scalefactor; lia|].
    split; [done|]. cbn. by rewrite length_alter.
  - by eexists _, _.
  - by eexists _, _.
  - by eexists _, _.
  - by eexists _, _.
Qed.

(** Without interference: a total program. *)
Lemma defined_run {A} (Q : A → Prop) (p : prog A) :
  defined Q p → total four_channels (run_prog p) Q.
Proof.
  induction p as [a|u|X o k IH]; intros Hp; [by apply total_ret|done|].
  destruct Hp as [Ho Hk]. intros s Hs.
  destruct (exec_valid X o s Ho Hs) as (x & s1 & E & Hx & Hs1).
  destruct (IH x (Hk x Hx) s1 Hs1) as (a & s2 & E2 & H2). exists a, s2. split; [|done].
  cbn [run_prog]. by rewrite (run_bind _ _ _ _ _ E).
Qed.

Lemma defined_total {A} (m : M A) `{!Threaded m} (Q : A → Prop) :
  defined Q (code m) → total four_channels m Q.
Proof.
  intros Hd s Hs. destruct (defined_run Q _ Hd s Hs) as (a & s' & E & Ha).
  exists a, s'. split; [|done]. by rewrite <- code_run.
Qed.

Definition total_task : prog unit → Prop := defined (λ _, True).

Lemma advance_defined (p : prog unit) s :
  total_task p → four_channels s →
  p = PRet tt ∨ ∃ p' s', advance p s = Some (Ok (p', s')) ∧ total_task p' ∧ four_channels s'.
Proof.
  unfold total_task. destruct p as [[]|u|X o k]; [by left|done|]. intros [Ho Hk] Hs. right. cbn.
  destruct (exec_valid X o s Ho Hs) as (x & s' & -> & Hx & Hs').
  exists (k x), s'. split; [done|]. split; [by apply Hk|done].
Qed.

(** The invariant of a pool of defined tasks. *)
Definition pool_defined (c : list (prog unit) * psc) : Prop :=
  Forall total_task c.1 ∧ four_channels c.2.

Lemma pool_defined_step c c' : pool_step c c' → pool_defined c → pool_defined c'.
Proof.
  intros [ts s i p p' s' Hi Ha] [Hts Hs]. cbn in *.
  destruct (advance_defined p s) as [->|(q & t & Ha' & Hq & Ht)];
    [by apply (Forall_lookup_1 _ _ _ _ Hts Hi)|done|done|].
  rewrite Ha in Ha'. injection Ha' as <- <-. split; [|done]. by apply Forall_insert.
Qed.

Lemma pool_defined_rtc c c' : rtc pool_step c c' → pool_defined c → pool_defined c'.
Proof. induction 1; eauto using pool_defined_step. Qed.

Lemma pool_defined_safe ts s :
  pool_defined (ts, s) →
  Forall (λ p, ¬ faulty p s) ts ∧
  ((∀ c, ¬ pool_step (ts, s) c) → Forall (λ p, p = PRet tt) ts).
Proof.
  intros [Hts Hs]. cbn in *. split.
  - eapply Forall_impl; [exact Hts|]. intros p Hp.
    destruct (advance_defined p s Hp Hs) as [->|(q & t & Ha & _)].
    + intros [[u [=]]|[u [=]]].
    + intros [[u ->]|[u Hu]]; [done|]. rewrite Ha in Hu. discriminate Hu.
  - intros Hstuck. apply Forall_lookup_2. intros i p Hi.
    destruct (advance_defined p s (Forall_lookup_1 _ _ _ _ Hts Hi) Hs) as [?|(q & t & Ha & _)];
      [done|]. exfalso. by eapply Hstuck, pool_advance.
Qed.
End defined.
