(* ===== verification/SnapshotTask.v ===== *)
(** * The snapshot task among the other tasks

    The code of [snapshot_push] ([snapshots.c]), cut at its accesses: it reads the
    trigger registers, the DMA memory and the scale factors, and sends messages; it
    writes nothing.  As long as the pointer registers hold sample addresses it is
    defined under any interference: whatever the other tasks write meanwhile, every
    waveform fits its message buffer.  ([CopyDataChan] runs in a critical section;
    here its accesses may even be interleaved with those of other tasks.) *)

From S2P Require Import Prelude Words Floats Machine Regs Snapshot SnapshotSpec.
From S2P Require Import Sadata Qspi Control ControlFrame Tasks Concurrent ClientTasks MonitorTasks Defined.

Section instances.
Context `{Platform, Runtime, FpEnv}.

#[global] Instance threaded_check_one reg t : Threaded (check_one reg t).
Proof. unfold check_one. threaded. Defined.
#[global] Instance threaded_check_bank regs ts : Threaded (check_bank regs ts).
Proof.
  revert ts. induction regs as [|r regs IH]; intros ts; [cbn [check_bank]; threaded|].
  destruct ts as [|t ts]; cbn [check_bank]; threaded.
Defined.
#[global] Instance threaded_Check trig : Threaded (CheckforTriggers trig).
Proof. unfold CheckforTriggers. threaded. Defined.
#[global] Instance threaded_copy_samples chan off base n : Threaded (copy_samples chan off base n).
Proof. unfold copy_samples. threaded. Defined.
#[global] Instance threaded_CopyDataChan base n chan : Threaded (CopyDataChan base n chan).
Proof. unfold CopyDataChan. threaded. Defined.
#[global] Instance threaded_dma_words t : Threaded (dma_words t).
Proof. unfold dma_words. threaded. Defined.
#[global] Instance threaded_ReadDMABuf msg t : Threaded (ReadDMABuf msg t).
Proof. unfold ReadDMABuf. threaded. Defined.
#[global] Instance threaded_SendWfmData msg t : Threaded (SendWfmData msg t).
Proof. unfold SendWfmData. threaded. Defined.
#[global] Instance threaded_trig_stats b1 b2 b3 act : Threaded (trig_stats b1 b2 b3 act).
Proof. unfold trig_stats. threaded. Defined.
#[global, refine] Instance threaded_let5 {A B C D E X} (r : A * B * C * D * E)
    (f : A → B → C → D → E → M X) `(Hf : ∀ a b c d e, Threaded (f a b c d e)) :
    Threaded (let '(a, b, c, d, e) := r in f a b c d e) :=
  { code := let '(a, b, c, d, e) := r in code (f a b c d e) }.
Proof. destruct r as [[[[??]?]?]?]. apply code_run. Defined.
#[global] Instance threaded_stats_loop n i trig : Threaded (stats_loop n i trig).
Proof.
  revert i. induction n as [|n IH]; intros i; cbn [stats_loop]; [apply threaded_ret|].
  cbv zeta. do 5 (apply threaded_bind; [apply threaded_trig_stats|intros ?]).
  apply threaded_bind; [apply IH|intros r]. apply (threaded_let5 r). intros. apply threaded_ret.
Defined.
#[global] Instance threaded_stats msg trig : Threaded (SendSnapShotStats msg trig).
Proof.
  unfold SendSnapShotStats. do 2 (apply threaded_bind; [apply threaded_In32|intros ?]).
  apply threaded_bind; [apply threaded_stats_loop|intros r]. apply (threaded_let5 r). intros.
  threaded.
Defined.
#[global] Instance threaded_send_if_ready buf t : Threaded (send_if_ready buf t).
Proof. unfold send_if_ready. threaded. Defined.
#[global] Instance threaded_get_trigger ts i : Threaded (get_trigger ts i).
Proof. unfold get_trigger. threaded. Defined.
#[global] Instance threaded_get_buffer bs i : Threaded (get_buffer bs i).
Proof. unfold get_buffer. threaded. Defined.
#[global] Instance threaded_send_entry i ts bufs : Threaded (send_entry i ts bufs).
Proof. unfold send_entry. threaded. Defined.
#[global] Instance threaded_send_row i st : Threaded (send_row i st).
Proof. unfold send_row. threaded. Defined.
#[global] Instance threaded_tick st : Threaded (snapshot_tick st).
Proof. unfold snapshot_tick. threaded. Defined.

(** Any number of iterations of the task. *)
Fixpoint snapshot_run (n : nat) (st : snap_state) : M snap_state :=
  match n with
  | O => mret st
  | S n => st ← snapshot_tick st; snapshot_run n st
  end.

#[global] Instance threaded_run n st : Threaded (snapshot_run n st).
Proof. revert st. induction n as [|n IH]; intros st; cbn [snapshot_run]; threaded. Defined.

(** The task. *)
Definition snapshot_loop (n : nat) (st : snap_state) : M unit := _ ← snapshot_run n st; mret tt.
#[global] Instance threaded_snapshot_loop n st : Threaded (snapshot_loop n st).
Proof. unfold snapshot_loop. threaded. Defined.
End instances.

(** ** It is an observer *)

Section observe.
Context `{Platform, Runtime, FpEnv}.
Abbreviation O m := (all_prims observe (code m)).

(** The registers of the snapshots. *)
Lemma observe_snap_reg r :
  0 ≤ r - 5 * CHBASEADDR < CHBASEADDR → O (Xil_In32 (XPAR_M_AXI_BASEADDR + r)).
Proof.
  intros Hr. split; [|intros ?; exact I].
  apply (block_monitored 5 _ (r - 5 * CHBASEADDR)); [lia|unfold chan_addr; ring|done].
Qed.

Lemma observe_check_bank regs ts :
  Forall (λ r, 0 ≤ r - 5 * CHBASEADDR < CHBASEADDR) regs → O (check_bank regs ts).
Proof.
  intros Hr. revert ts. induction Hr as [|r regs Hr _ IH]; intros ts;
    cbn [threaded_check_bank list_rect]; [exact I|].
  destruct ts as [|t ts]; [exact I|]. own_code. unfold threaded_check_one. own_code.
  apply all_prims_pbind; [|intros ?; apply all_prims_pbind; [apply IH|intros ?; exact I]].
  apply all_prims_pbind; [apply all_prims_if; [|exact I]|intros ?; exact I].
  by apply (all_prims_pbind observe); [apply observe_snap_reg|intros ?; exact I].
Qed.

Lemma observe_Check trig : O (CheckforTriggers trig).
Proof.
  unfold threaded_Check. own_code.
  do 5 (apply all_prims_pbind; [apply observe_check_bank; forall_list; reg_lia|intros ?]).
  exact I.
Qed.

Lemma observe_dma_words t : O (dma_words t).
Proof.
  assert (∀ base n chan, O (CopyDataChan base n chan)) as Hcopy.
  { intros base n chan. unfold threaded_CopyDataChan, threaded_copy_samples. cbn [code threaded_switch].
    apply switch_Forall; [|exact I]. cbn [case_codes cases_nil cases_cons].
    forall_list; cbn [snd]; own_code; repeat apply all_prims_if; try exact I; repeat split. }
  unfold threaded_dma_words. own_code.
  repeat first [exact I | apply Hcopy | apply all_prims_if | apply all_prims_pbind; [|intros ?]].
Qed.

Lemma observe_send_entry i ts bs : O (send_entry i ts bs).
Proof.
  unfold threaded_send_entry, threaded_send_if_ready, threaded_get_trigger, threaded_get_buffer.
  own_code. apply all_prims_pbind; [apply (all_prims_lift observe)|intros t].
  apply all_prims_pbind; [apply (all_prims_lift observe)|intros b].
  apply all_prims_pbind; [|intros ?; exact I]. apply all_prims_if; [|exact I].
  unfold threaded_SendWfmData, threaded_ReadDMABuf. own_code.
  apply all_prims_pbind; [apply all_prims_pbind; [apply observe_dma_words|intros ws]|intros msg].
  { apply all_prims_if; exact I. }
  apply all_prims_pbind; [apply (all_prims_lift observe)|intros m].
  apply all_prims_pbind; [by apply observe_one|intros ?; exact I].
Qed.

Ltac snap_lia := cbv -[Z.le Z.lt Z.of_nat Z.mul Z.add Z.sub]; lia.

Lemma observe_stats msg trig : O (SendSnapShotStats msg trig).
Proof.
  unfold threaded_stats. own_code.
  do 2 (apply all_prims_pbind; [apply observe_snap_reg; reg_lia|intros ?]).
  apply all_prims_pbind; [|intros [[[[us fs] es] js] vs]].
  - assert (∀ n i, (n + i = 4)%nat → O (stats_loop n i trig)) as Hl; [|by apply Hl].
    induction n as [|n IH]; intros i Hi; cbn [threaded_stats_loop nat_rect]; [exact I|].
    own_code. unfold threaded_trig_stats. own_code.
    do 5 (apply all_prims_pbind;
      [do 3 (apply all_prims_pbind; [apply observe_snap_reg; snap_lia|intros ?]);
       exact I|intros ?]).
    apply all_prims_pbind; [apply IH; lia|]. intros [[[[us fs] es] js] vs]. exact I.
  - own_code. cbn [code threaded_let5]. own_code.
    apply all_prims_pbind; [apply (all_prims_lift observe)|intros m].
    apply all_prims_pbind; [by apply observe_one|intros ?; exact I].
Qed.

Lemma observe_snapshot_loop n st : O (snapshot_loop n st).
Proof.
  unfold threaded_snapshot_loop. own_code. apply all_prims_pbind; [|intros ?; exact I].
  revert st. induction n as [|n IH]; intros st; cbn [threaded_run nat_rect]; [exact I|].
  own_code. apply all_prims_pbind; [|apply IH]. unfold threaded_tick. own_code.
  apply all_prims_pbind; [apply observe_Check|intros t].
  do 4 (apply all_prims_pbind; [unfold threaded_send_row; own_code;
    do 5 (apply all_prims_pbind; [apply observe_send_entry|intros ?]); exact I|intros ?]).
  apply all_prims_pbind; [apply observe_stats|intros ?; exact I].
Qed.
End observe.

(** ** It never leaves its buffers *)

Section safe.
Context `{Platform, Runtime, FpEnv}.

(** A value that points to a sample of the circular buffer. *)
Definition sample_addr (a : Z) : Prop := ∃ q, a = BUFSTART + 160 * q ∧ 0 ≤ q < NSAMPLES.

Definition bufptr_regs : list Z := [
  USR1TRIG_BUFPTR; USR2TRIG_BUFPTR; USR3TRIG_BUFPTR; USR4TRIG_BUFPTR;
  FLT1TRIG_BUFPTR; FLT2TRIG_BUFPTR; FLT3TRIG_BUFPTR; FLT4TRIG_BUFPTR;
  ERR1TRIG_BUFPTR; ERR2TRIG_BUFPTR; ERR3TRIG_BUFPTR; ERR4TRIG_BUFPTR;
  INJ1TRIG_BUFPTR; INJ2TRIG_BUFPTR; INJ3TRIG_BUFPTR; INJ4TRIG_BUFPTR; EVRTRIG_BUFPTR ].

(** The gateware latches sample addresses into its pointer registers. *)
Definition pointers_ok : Prop := ∀ reg p, reg ∈ bufptr_regs →
  sample_addr (u32 (pl_in32 (u32 (XPAR_M_AXI_BASEADDR + reg)) p).1).

(** An entry of a bank and its message buffer. *)
Record entry_ok (t : TriggerInfo) (b : list Z) : Prop := {
  eo_buf : Z.of_nat (length b) = MSGWFMLEN;
  eo_chan : 1 ≤ channum t ≤ 4;
  eo_pre : 0 ≤ pretrigpts t;
  eo_post : 0 ≤ posttrigpts t;
  eo_size : pretrigpts t + posttrigpts t ≤ 100000;
  eo_flags : (active t = 0 ∧ sendbuf t = 0) ∨
             (active t = 1 ∧ (sendbuf t = 0 ∨ sendbuf t = 1) ∧ sample_addr (addr t));
}.

Definition bank_ok (ts : list TriggerInfo) (bs : list (list Z)) : Prop :=
  length ts = 4%nat ∧ Forall2 entry_ok ts bs.

Record snap_ok (st : snap_state) : Prop := {
  so_usr : bank_ok (usr (trigs st)) (usr_buf st);
  so_flt : bank_ok (flt (trigs st)) (flt_buf st);
  so_err : bank_ok (err (trigs st)) (err_buf st);
  so_inj : bank_ok (inj (trigs st)) (inj_buf st);
  so_evr : bank_ok (evr (trigs st)) (evr_buf st);
  so_stats : Z.of_nat (length (stats_buf st)) = MSGWFMSTATSLEN;
}.

Lemma ProcessTrigger_ok t b : entry_ok t b → (active t = 0 → sample_addr (addr t)) →
  entry_ok (ProcessTrigger t) b.
Proof.
  intros [Hb Hc Hpre Hpost Hsz Hfl] Ha. unfold ProcessTrigger.
  destruct Hfl as [[Ha0 Hs0]|(Ha1 & Hs1 & Hq)].
  - rewrite Ha0, andb_true_r. destruct (addr t =? addr_last t); cbn [negb].
    + rewrite Ha0. cbn [Z.eqb]. split; try done. by left.
    + cbn [active addr pretrigpts posttrigpts postdlycnt sendbuf msgID channum addr_last Z.eqb Pos.eqb].
      destruct (_ <? _); split; cbn; try done; right; rewrite ?Hs0; auto 6.
  - rewrite Ha1, andb_false_r. rewrite Ha1. cbn [Z.eqb Pos.eqb].
    destruct (_ <? _); split; cbn; try done; right; auto 6.
Qed.

(** *** Triggers *)

Abbreviation D Q m := (defined Q (code m)).

Lemma defd_read a : D (λ v, ∃ p, v = u32 (pl_in32 (u32 a) p).1) (Xil_In32 a).
Proof. by apply defined_one. Qed.
Lemma defd_send msgid body : D (λ _, True) (psc_send_event msgid body).
Proof. by apply defined_one. Qed.

Lemma defd_check_one reg t b :
  pointers_ok → reg ∈ bufptr_regs → entry_ok t b → D (λ t', entry_ok t' b) (check_one reg t).
Proof.
  intros Hptr Hreg Ht. unfold threaded_check_one. own_code.
  apply (defined_bind _ _ (λ t', entry_ok t' b ∧ (active t' = 0 → sample_addr (addr t')))).
  - destruct (Z.eqb_spec (active t) 0) as [Ha|Ha]; [|by split].
    eapply defined_bind; [apply defd_read|]. intros a (p & ->).
    split; [|intros _; by apply Hptr]. destruct Ht as [? ? ? ? ? Hfl]. split; try done.
    cbn. left. destruct Hfl as [[? ?]|[Ha1 _]]; [done|congruence].
  - intros t' [Hok Ha]. by apply ProcessTrigger_ok.
Qed.

Lemma defd_check_bank regs ts bs :
  pointers_ok → Forall (λ r, r ∈ bufptr_regs) regs → bank_ok ts bs →
  D (λ ts', bank_ok ts' bs) (check_bank regs ts).
Proof.
  intros Hptr Hregs [Hl Hts].
  apply (defined_weaken _ (λ ts', Forall2 entry_ok ts' bs ∧ length ts' = length ts)).
  2:{ intros ts' [Hts' Hl']. by split; [rewrite Hl'|]. }
  clear Hl. revert ts bs Hts.
  induction Hregs as [|r regs Hr _ IH]; intros ts bs Hts; cbn [threaded_check_bank list_rect].
  - done.
  - destruct Hts as [|t b ts bs Ht Hts]; [done|]. own_code.
    eapply defined_bind; [by apply defd_check_one|]. intros t' Ht'.
    eapply defined_bind; [by apply IH|]. intros ts' [Hts' Hl].
    split; [by constructor|cbn; lia].
Qed.

Lemma defd_Check st :
  pointers_ok → snap_ok st →
  D (λ t', snap_ok (MkSnap t' (usr_buf st) (flt_buf st) (err_buf st) (inj_buf st) (evr_buf st)
    (stats_buf st))) (CheckforTriggers (trigs st)).
Proof.
  intros Hptr [Hu Hf He Hj Hv Hs]. unfold threaded_Check. own_code.
  do 5 (eapply defined_bind;
    [apply defd_check_bank; [done|unfold bufptr_regs; forall_list; list_elem|done]|intros ? ?]).
  by split.
Qed.

(** *** Waveforms *)

Lemma length_samples (f : Z → list Z) l :
  (∀ k, length (f k) = 10%nat) → length (mjoin (f <$> l)) = (10 * length l)%nat.
Proof.
  intros Hf. induction l as [|k l IH]; [done|]. rewrite fmap_cons.
  change (mjoin (?x :: ?y)) with (x ++ mjoin y). rewrite length_app, IH, Hf. cbn [length]. lia.
Qed.

(** [n] samples of a channel, whatever the memory holds meanwhile. *)
Lemma defd_CopyDataChan base numwords chan n :
  1 ≤ chan ≤ 4 → numwords = 40 * n → 0 ≤ n ≤ NSAMPLES →
  D (λ w, Z.of_nat (length w) = 10 * n) (CopyDataChan base numwords chan).
Proof.
  unfold NSAMPLES. intros Hc -> Hn.
  assert (∀ off, D (λ w, Z.of_nat (length w) = 10 * n) (copy_samples chan off base (40 * n))) as Hs.
  { intros off. unfold threaded_copy_samples. own_code. rewrite (proj2 (Z.ltb_ge _ _)) by lia.
    destruct (Z.eqb_spec (40 * n) 0) as [E|E]; [cbn; lia|].
    cbn [pbind threaded_dma code]. split; [done|]. intros ddr _. split; [done|]. intros b2v _.
    split; [cbn; lia|]. intros sf _. cbn [pbind defined]. rewrite length_samples by done.
    rewrite length_seqZ. replace ((40 * n + 39) / 40) with n by zmod_lia. lia. }
  unfold threaded_CopyDataChan. own_code. cbn [code threaded_switch case_codes cases_cons cases_nil switch].
  destruct (Z.eqb_spec chan 1) as [->|]; [apply Hs|].
  destruct (Z.eqb_spec chan 2) as [->|]; [apply Hs|].
  destruct (Z.eqb_spec chan 3) as [->|]; [apply Hs|].
  destruct (Z.eqb_spec chan 4) as [->|]; [apply Hs|]. lia.
Qed.

Lemma defd_dma_words q t :
  trig_at q t → D (λ w, Z.of_nat (length w) = 10 * (pretrigpts t + posttrigpts t)) (dma_words t).
Proof.
  intros (Ha & Hq & Hc & Hpre & Hpost & Hsum). unfold threaded_dma_words. own_code.
  unfold BUFSTEPBYTES, BUFSTEPWORDS, WORDSPERSAMPLE, BUFSTEPBYTES. rewrite Ha. change (0xA0 / 4) with 40.
  set (pre := pretrigpts t) in *. set (post := posttrigpts t) in *. set (c := channum t) in *.
  assert (BUFSTART = 0x10000000) as HB by done. assert (BUFLEN = 160 * NSAMPLES) as HL by done.
  assert (NSAMPLES = 200000) as HN by done.
  rewrite !Z.shiftr_div_pow2 by lia. change (2 ^ 2) with 4. u32_simpl.
  replace ((BUFSTART + 160 * q - BUFSTART) / 4) with (40 * q) by (clear; zmod_lia).
  replace ((BUFSTART + BUFLEN - (BUFSTART + 160 * q)) / 4) with (40 * (NSAMPLES - q))
    by (rewrite HL; clear; zmod_lia). u32_simpl.
  pose proof (λ b w n, defd_CopyDataChan b w c n Hc) as Hcopy.
  destruct (Z.ltb_spec (BUFSTART + 160 * q - pre * 160) 0x10000000) as [Hw|Hnw].
  - u32_simpl.
    eapply defined_bind; [apply (Hcopy _ _ (pre - q)); lia|intros w1 L1].
    eapply defined_bind; [apply (Hcopy _ _ q); lia|intros w2 L2].
    eapply defined_bind; [apply (Hcopy _ _ post); lia|intros w3 L3].
    cbn [defined] in *. rewrite !length_app. cbv beta in *. lia.
  - destruct (Z.ltb_spec (BUFSTART + BUFLEN) (BUFSTART + 160 * q + post * 160)) as [Hw|Hnw2].
    + u32_simpl.
      eapply defined_bind; [apply (Hcopy _ _ pre); lia|intros w1 L1].
      eapply defined_bind; [apply (Hcopy _ _ (NSAMPLES - q)); lia|intros w2 L2].
      eapply defined_bind; [apply (Hcopy _ _ (post - (NSAMPLES - q))); lia|intros w3 L3].
      cbn [defined] in *. rewrite !length_app. cbv beta in *. lia.
    + apply (Hcopy _ _ (pre + post)); lia.
Qed.

(** An entry that has nothing to send, as it is after a transmission. *)
Definition idle_ok (t : TriggerInfo) (b : list Z) : Prop := entry_ok t b ∧ sendbuf t = 0.

Lemma defd_SendWfmData b t :
  entry_ok t b → sample_addr (addr t) → D (λ r, idle_ok r.2 r.1) (SendWfmData b t).
Proof.
  intros [Hb Hc Hpre Hpost Hsz Hfl] (q & Hq & Hrange). unfold threaded_SendWfmData. own_code.
  fold (sent_trigger t). assert (MSGWFMLEN = 4000000) as HM by done.
  assert (trig_at q (sent_trigger t)) as Hat by (unfold trig_at, NSAMPLES in *; cbn; lia).
  apply (defined_bind _ _ (λ m, length m = length b)).
  - unfold threaded_ReadDMABuf. own_code. eapply defined_bind; [by apply (defd_dma_words q)|].
    cbn [pretrigpts posttrigpts sent_trigger]. intros w Hw. rewrite (proj2 (Z.ltb_ge _ _)) by lia.
    cbn [defined]. rewrite length_app, length_bytes_of_words, length_drop. lia.
  - intros m Hm. destruct (hton_conv_length m MSGWFMLEN) as (m' & Hc' & Hlm); [lia| |].
    { rewrite HM. change ((4000000 + 3) / 4) with 1000000. lia. }
    eapply defined_bind; [by apply (defined_lift _ (eq m') m')|intros ? <-].
    eapply defined_bind; [apply defd_send|intros _ _].
    split; [|done]. split; cbn; try done; [congruence|by left].
Qed.

Lemma defd_send_if_ready b t : entry_ok t b → D (λ r, idle_ok r.2 r.1) (send_if_ready b t).
Proof.
  intros Ht. unfold threaded_send_if_ready. own_code. pose proof (eo_flags _ _ Ht) as Hfl.
  destruct (Z.eqb_spec (sendbuf t) 1) as [Hs|Hs].
  - apply defd_SendWfmData; [done|]. destruct Hfl as [[_ ?]|(_ & _ & ?)]; [lia|done].
  - split; [done|]. destruct Hfl as [[_ ?]|(_ & [?|?] & _)]; done.
Qed.

(** [send_entry] for entry [i]: the others keep what they had. *)
Lemma defd_send_entry i ts bs :
  (i < 4)%nat → bank_ok ts bs →
  D (λ r, bank_ok r.1 r.2 ∧ (∀ k, k ≠ i → r.1 !! k = ts !! k) ∧
    ∃ t, r.1 !! i = Some t ∧ sendbuf t = 0) (send_entry i ts bs).
Proof.
  intros Hi [Hl Hts]. unfold threaded_send_entry, threaded_get_trigger, threaded_get_buffer.
  destruct (lookup_lt_is_Some_2 ts i) as [t Ht]; [lia|].
  destruct (Forall2_lookup_l _ _ _ _ _ Hts Ht) as (b & Hb & Hok). own_code. rewrite Ht, Hb.
  cbn [pbind]. eapply defined_bind; [by apply defd_send_if_ready|]. intros [b' t'] [Hok' Hs'].
  cbn in *. split; [split|split].
  - by rewrite length_insert.
  - by apply Forall2_insert.
  - intros k Hk. by apply list_lookup_insert_ne.
  - exists t'. by rewrite list_lookup_insert_eq by lia.
Qed.

(** Nothing left to send in the first [n] entries. *)
Definition quiet (n : nat) (ts : list TriggerInfo) : Prop :=
  ∀ k t, (k < n)%nat → ts !! k = Some t → sendbuf t = 0.

Lemma defd_send_quiet i ts bs :
  (i < 4)%nat → bank_ok ts bs → quiet i ts →
  D (λ r, bank_ok r.1 r.2 ∧ quiet (S i) r.1) (send_entry i ts bs).
Proof.
  intros Hi Hok Hq. eapply defined_weaken; [by apply defd_send_entry|].
  intros [ts' bs'] (Hok' & Hother & t & Ht & Hs). cbn in *. split; [done|].
  intros k t0 Hk Ht0. destruct (decide (k = i)) as [->|Hne].
  - congruence.
  - apply (Hq k t0); [lia|]. by rewrite <- Hother.
Qed.

Definition all_quiet (n : nat) (t : TriggerTypes) : Prop :=
  quiet n (usr t) ∧ quiet n (flt t) ∧ quiet n (err t) ∧ quiet n (inj t) ∧ quiet n (evr t).

Lemma defd_send_row i st :
  (i < 4)%nat → snap_ok st → all_quiet i (trigs st) →
  D (λ st', snap_ok st' ∧ all_quiet (S i) (trigs st')) (send_row i st).
Proof.
  intros Hi [Hu Hf He Hj Hv Hs] (Qu & Qf & Qe & Qj & Qv). unfold threaded_send_row. own_code.
  eapply defined_bind; [by apply defd_send_quiet|intros u [? ?]].
  eapply defined_bind; [by apply defd_send_quiet|intros f [? ?]].
  eapply defined_bind; [by apply defd_send_quiet|intros e [? ?]].
  eapply defined_bind; [by apply defd_send_quiet|intros j [? ?]].
  eapply defined_bind; [by apply defd_send_quiet|intros v [? ?]].
  by split; [split|split_and!].
Qed.

(** *** Statistics *)

Lemma defd_trig_stats b1 b2 b3 act : D (λ l, length l = 4%nat) (trig_stats b1 b2 b3 act).
Proof.
  unfold threaded_trig_stats. own_code.
  by do 3 (eapply defined_bind; [apply defd_read|intros ? _]).
Qed.

Lemma defd_stats_loop n i t :
  D (λ '(us, fs, es, js, vs),
    length us = (4 * n)%nat ∧ length fs = (4 * n)%nat ∧ length es = (4 * n)%nat ∧
    length js = (4 * n)%nat ∧ length vs = (4 * n)%nat) (stats_loop n i t).
Proof.
  revert i. induction n as [|n IH]; intros i; cbn [threaded_stats_loop nat_rect]; [done|].
  own_code. do 5 (eapply defined_bind; [apply defd_trig_stats|intros ? ?]).
  eapply defined_bind; [apply IH|]. intros [[[[us fs] es] js] vs] (? & ? & ? & ? & ?).
  cbn [code threaded_let5 defined]. own_code. cbn [defined]. cbv beta in *. rewrite !length_app. lia.
Qed.

Lemma defd_stats msg t :
  Z.of_nat (length msg) = MSGWFMSTATSLEN →
  D (λ m, Z.of_nat (length m) = MSGWFMSTATSLEN) (SendSnapShotStats msg t).
Proof.
  intros Hl. unfold threaded_stats, MSGWFMSTATSLEN in *. own_code.
  eapply defined_bind; [apply defd_read|intros ? _].
  eapply defined_bind; [apply defd_read|intros ? _].
  eapply defined_bind; [apply defd_stats_loop|].
  intros [[[[us fs] es] js] vs] (Lu & Lf & Le & Lj & Lv).
  cbn [code threaded_let5]. own_code.
  set (st := bytes_of_words _). assert (length st = 328%nat) as Hst.
  { unfold st. rewrite length_bytes_of_words, !length_app. cbn [length]. lia. }
  destruct (hton_conv_length (st ++ drop (length st) msg) (Z.of_nat (length st)))
    as (m & Hm & Hlm); [lia| |].
  { rewrite length_app, length_drop, Hst. zmod_lia. }
  eapply defined_bind; [by apply (defined_lift _ (eq m) m)|intros ? <-].
  eapply defined_bind; [apply defd_send|intros _ _].
  cbn [defined]. rewrite Hlm, length_app, length_drop, Hst. lia.
Qed.

(** *** The task *)

Context (Hptr : pointers_ok).

Lemma defd_tick st :
  snap_ok st → D (λ st', snap_ok st' ∧ all_quiet 4 (trigs st')) (snapshot_tick st).
Proof.
  intros Hst. unfold threaded_tick. own_code.
  eapply defined_bind; [by apply defd_Check|intros t Ht].
  eapply defined_bind; [apply defd_send_row; [lia|done|]|intros s1 [? ?]].
  { by split_and!; intros k t0 Hk; lia. }
  do 3 (eapply defined_bind; [apply defd_send_row; [lia|done|done]|intros ? [? ?]]).
  match goal with Hok : snap_ok ?x, Hq : all_quiet 4 (trigs ?x) |- _ =>
    rename Hok into Hok4; rename Hq into Hq4 end.
  pose proof Hok4 as [? ? ? ? ? Hstats].
  eapply defined_bind; [by apply defd_stats|intros m Hm]. by split; [split|].
Qed.

Lemma defd_run n st : snap_ok st → D snap_ok (snapshot_run n st).
Proof.
  revert st. induction n as [|n IH]; intros st Hst; cbn [threaded_run nat_rect]; [done|].
  own_code. eapply defined_bind; [by apply defd_tick|]. intros st' [Hst' _]. by apply IH.
Qed.

Lemma defd_snapshot_loop n st : snap_ok st → D (λ _, True) (snapshot_loop n st).
Proof.
  intros Hst. unfold threaded_snapshot_loop. own_code.
  by eapply defined_bind; [by apply defd_run|].
Qed.
End safe.

Section start.
Context `{Platform, Runtime, FpEnv}.

Lemma init_bank_ok pre post msg B :
  0 ≤ pre → 0 ≤ post → pre + post ≤ 100000 → Z.of_nat (length B) = MSGWFMLEN →
  bank_ok ((λ i, init_trigger pre post (msg + i) (i + 1)) <$> [0; 1; 2; 3]) (replicate 4 B).
Proof.
  intros Hpre Hpost Hsum HB. split; [done|].
  assert (∀ i, 0 ≤ i < 4 → entry_ok (init_trigger pre post (msg + i) (i + 1)) B) as He.
  { intros i Hi. split; cbn [init_trigger channum pretrigpts posttrigpts active sendbuf]; lia. }
  cbn [fmap list_fmap replicate].
  repeat (apply Forall2_cons; split; [apply He; lia|]). by apply Forall2_nil.
Qed.

Lemma snapshot_start_ok : snap_ok snapshot_start.
Proof.
  assert (Z.of_nat (length (replicate (Z.to_nat MSGWFMLEN) 0)) = MSGWFMLEN) as HB
    by (rewrite length_replicate; apply Z2Nat.id; unfold MSGWFMLEN; lia).
  unfold snapshot_start. set (B := replicate (Z.to_nat MSGWFMLEN) 0) in *. clearbody B. cbv zeta.
  split; cbn [InitTriggerInfo trigs usr flt err inj evr usr_buf flt_buf err_buf
    inj_buf evr_buf stats_buf]; try (apply init_bank_ok; done || lia).
  rewrite length_replicate. unfold MSGWFMSTATSLEN. lia.
Qed.
End start.

