(* ===== verification/Clients.v ===== *)
(** * Concurrent clients ([listener.c], [main.c])

    The receive callback runs in the thread of its client, without a lock.  Tasks
    of messages for different register blocks are serialisable; tasks that meet on
    one channel, or on the flash, are not. *)

From S2P Require Import Prelude Words Floats Machine Regs Sadata Qspi Control ControlFrame.
From S2P Require Import ControlTotal ControlSpec Main Tasks Concurrent ClientTasks.

(** A received message on its way to the callback. *)
Record client_job := MkJob { job_id : Z; job_len : Z; job_msg : list Z }.

Section clients.
Context `{Platform, Runtime, FpEnv}.

Definition job_code (j : client_job) : prog unit :=
  code (client_msg (job_id j) (job_len j) (job_msg j)).
Definition job_block (j : client_job) : Z := msg_chan (job_id j).

(** The messages served one after the other. *)
Fixpoint serve (js : list client_job) : M unit :=
  match js with
  | [] => mret tt
  | j :: js => client_msg (job_id j) (job_len j) (job_msg j);; serve js
  end.

(** A message that stays in its block: no trigger, no flash command. *)
Definition job_local (j : client_job) : Prop :=
  0 ≤ job_block j ≤ 4 ∧
  ∀ w, load32 (job_msg j) 0 = Ok w → leaves_block (job_id j) (htonl w) = false.

Lemma run_serve js s : serve js s = run_all (job_code <$> js) s.
Proof.
  revert s. induction js as [|j js IH]; intros s; [done|]. cbn [serve run_all fmap list_fmap].
  unfold mbind, M_bind. unfold job_code at 1. rewrite code_run.
  by destruct (client_msg _ _ _ s) as [[? s1]|].
Qed.

Context `{!BlockRegisters _}.

Lemma own_job j : job_local j → all_prims (own (job_block j)) (job_code j).
Proof.
  intros [Hb Hl]. unfold job_code, job_block in *. exact (own_client _ _ _ Hb Hl).
Qed.

(** The clients' tasks, followed by observers. *)
Definition pool (js : list client_job) (obs : list (prog unit)) : list (prog unit) :=
  (job_code <$> js) ++ obs.
Definition roles (js : list client_job) (obs : list (prog unit)) : list role :=
  (Block <$> (job_block <$> js)) ++ replicate (length obs) Observer.

Lemma jobs_separate js obs :
  NoDup (job_block <$> js) → Forall job_local js → Forall (all_prims observe) obs →
  separate (roles js obs) (pool js obs).
Proof.
  intros Hn Hl Ho. unfold roles, pool. split.
  - assert (∀ i b, ((Block <$> (job_block <$> js)) ++ replicate (length obs) Observer) !! i
      = Some (Block b) → (job_block <$> js) !! i = Some b) as Hlook.
    { intros i b. rewrite lookup_app_Some, list_lookup_fmap.
      intros [Hi|[_ Hi]]; [by destruct (_ !! i); [injection Hi as ->|]|].
      by apply lookup_replicate in Hi as [? _]. }
    intros i j b Hi%Hlook Hj%Hlook. by eapply NoDup_lookup.
  - apply Forall_app_2; [|by apply Forall_replicate].
    do 2 apply Forall_fmap. eapply Forall_impl; [done|]. by intros j [? _].
  - apply Forall2_app.
    + do 2 apply Forall2_fmap_l. apply Forall2_fmap_r, Forall_Forall2_diag.
      eapply Forall_impl; [done|]. apply own_job.
    + apply Forall2_same_length_lookup_2; [by rewrite length_replicate|].
      intros i r p Hr Hp. apply lookup_replicate in Hr as [-> _].
      by apply (Forall_lookup_1 _ _ _ _ Ho Hp).
Qed.

(** Each message alone returns. *)
Definition job_returns (s : psc) (j : client_job) : Prop :=
  ∃ s1, client_msg (job_id j) (job_len j) (job_msg j) s = Ok (tt, s1).

Lemma run_job j s : run_prog (job_code j) s = client_msg (job_id j) (job_len j) (job_msg j) s.
Proof. apply code_run. Qed.

Context (js : list client_job) (obs : list (prog unit)) (s : psc).
Context (Hn : NoDup (job_block <$> js)) (Hl : Forall job_local js).
Context (Hobs : Forall (all_prims observe) obs).

Lemma job_task ts s' i j :
  rtc pool_step (pool js obs, s) (ts, s') → js !! i = Some j →
  ∃ p, ts !! i = Some p ∧ progress_alone s (job_block j) (job_code j) p s'.
Proof.
  intros Hrun Hj.
  eapply (pool_run_task (roles js obs) (pool js obs) s ts s');
    [by apply jobs_separate|done| | |by exists s].
  - apply lookup_app_l_Some. by rewrite !list_lookup_fmap, Hj.
  - apply lookup_app_l_Some. by rewrite list_lookup_fmap, Hj.
Qed.

Lemma pool_separate rs ts t ts' t' :
  separate rs ts → rtc pool_step (ts, t) (ts', t') → separate rs ts'.
Proof.
  intros Hsep Hrun. remember (ts, t) as c eqn:Ec. remember (ts', t') as c' eqn:Ec'.
  revert ts t Ec Hsep. induction Hrun as [c|c [t1 s1] c' Hst Hrun IH]; intros ts t -> Hsep.
  - by injection Ec' as -> ->.
  - eapply IH; [done|done|by eapply separate_step].
Qed.

(** The rest of a task still returns. *)
Lemma job_now ts s' i j :
  Forall (job_returns s) js → rtc pool_step (pool js obs, s) (ts, s') → js !! i = Some j →
  ∃ p s2, ts !! i = Some p ∧ run_prog p s' = Ok (tt, s2).
Proof.
  intros Hret Hrun Hj. destruct (job_task ts s' i j Hrun Hj) as (p & Hp & sa & Hsa & Halone).
  destruct (Forall_lookup_1 _ _ _ _ Hret Hj) as (s1 & E). rewrite <- run_job in E.
  pose proof (pool_separate _ _ _ _ _ (jobs_separate js obs Hn Hl Hobs) Hrun) as Hsep.
  destruct (separate_lookup _ _ i (Block (job_block j)) p Hsep) as [Hb Ho]; [|done|].
  { apply lookup_app_l_Some. by rewrite !list_lookup_fmap, Hj. }
  destruct (run_own (job_block j) p sa s' tt s1) as (s2 & E2 & _); eauto.
Qed.


End clients.
