(* ===== verification/Sim.v ===== *)
(** * A simulated board

    Instances of the classes that stand for hardware, drivers and libraries outside
    of the repository, small enough to be evaluated: registers as a finite map, a
    NOR flash with sectors, a write-enable latch and a busy flag, an EEPROM with an address pointer, and
    a TCP stack that transfers three bytes at a time.  They show that the laws
    assumed of these devices can hold together. *)

From Stdlib Require Import SpecFloat.
From S2P Require Import Prelude Words Floats Machine Regs Qspi I2c Snapshot SnapshotSpec SnapshotTask PscMsg.
From S2P Require Import Listener.

(** ** Devices *)

Definition SIM_BASE : Z := 0x43C00000.

(** The trigger pointer registers: 17 words, 16 bytes apart. *)
Definition is_bufptr (a : Z) : bool :=
  (SIM_BASE + 0xA20 <=? a) && (a <=? SIM_BASE + 0xB20) && (a mod 16 =? 0).

Record sim_flash := MkSimFlash { sf_mem : Z → Z; sf_wel : bool; sf_busy : nat }.
Record sim_eeprom := MkSimEeprom { se_mem : Z → Z; se_ptr : Z }.

Definition addr_of (a2 a1 a0 : Z) : Z := a2 * 2 ^ 16 + a1 * 2 ^ 8 + a0.

Definition sim_flash_xfer (tx : list Z) (f : sim_flash) : list Z * sim_flash :=
  match tx with
  | [0x06] => ([0], MkSimFlash (sf_mem f) true (sf_busy f))
  | [0x05; _] => ([0; if (0 <? sf_busy f)%nat then 1 else 0],
                  MkSimFlash (sf_mem f) (sf_wel f) (pred (sf_busy f)))
  | 0xD8 :: a2 :: a1 :: a0 :: _ =>
      ([0; 0; 0; 0], if negb (sf_wel f) then f else
       MkSimFlash (λ x, if x / FLASH_SECTOR_SIZE =? addr_of a2 a1 a0 / FLASH_SECTOR_SIZE
                        then 0xFF else sf_mem f x) false 2)
  | 0x02 :: a2 :: a1 :: a0 :: data =>
      (replicate (length tx) 0, if negb (sf_wel f) then f else
       MkSimFlash (λ x, match (if addr_of a2 a1 a0 <=? x
                               then data !! Z.to_nat (x - addr_of a2 a1 a0) else None) with
                        | Some d => Z.land (u8 (sf_mem f x)) d
                        | None => sf_mem f x
                        end) false 2)
  | 0x03 :: a2 :: a1 :: a0 :: rest =>
      ([0; 0; 0; 0] ++
       ((λ i, u8 (sf_mem f (addr_of a2 a1 a0 + Z.of_nat i))) <$> seq 0 (length rest)), f)
  | _ => ([], f)
  end.

Definition sim_eeprom_send (tx : list Z) (e : sim_eeprom) : sim_eeprom :=
  match tx with
  | a :: data =>
      MkSimEeprom (λ x, match (if a <=? x then data !! Z.to_nat (x - a) else None) with
                        | Some d => d
                        | None => se_mem e x
                        end) a
  | [] => e
  end.

#[export] Instance SimPlatform : Platform := {|
  PL := gmap Z Z;
  XPAR_M_AXI_BASEADDR := SIM_BASE;
  pl_in32 := λ a p, (if is_bufptr a then BUFSTART else u32 (default 0 (p !! a)), p);
  pl_out32 := λ a v p, <[a := v]> p;
  pl_ddr := λ p a, a;
  FLASH := sim_flash;
  flash_xfer := sim_flash_xfer;
  EEPROM := sim_eeprom;
  eeprom_send := sim_eeprom_send;
  eeprom_recv := λ n e, ((λ i, u8 (se_mem e (se_ptr e + Z.of_nat i))) <$> seq 0 n, e);
|}.

#[export] Program Instance SimRuntime : Runtime := {|
  stack_bytes := λ n, replicate n 0;
  poll_fuel := 10;
|}.
Next Obligation. intros n. apply length_replicate. Qed.
Next Obligation. intros n. apply Forall_replicate. by unfold is_u8. Qed.

#[export] Program Instance SimFp : FpEnv := {|
  fp_nan32 := 0x7FC00000;
  fp_s32_invalid := λ _, 0;
  fp_u32_invalid := λ _, 0;
|}.
Next Obligation. by unfold is_u32. Qed.

(** ** The laws hold *)

Lemma addr_of_addr24 a : addr_of (a / 2 ^ 16) ((a / 2 ^ 8) mod 2 ^ 8) (a mod 2 ^ 8) = a.
Proof. unfold addr_of. zmod_lia. Qed.

Lemma u8_land m d : u8 (Z.land (u8 m) d) = Z.land (u8 m) d.
Proof.
  unfold u8. rewrite <- !Z.land_ones by lia. apply Z.bits_inj'. intros n _.
  rewrite !Z.land_spec. by destruct (Z.testbit m n), (Z.testbit (Z.ones 8) n), (Z.testbit d n).
Qed.

#[export] Program Instance SimFlashLaws : FlashLaws := {|
  fl_mem := λ (f : sim_flash) x, u8 (sf_mem f x);
  fl_wel := sf_wel;
  fl_busy := sf_busy;
|}.
Next Obligation. intros f x. apply u8_range. Qed.
Next Obligation. done. Qed.
Next Obligation.
  intros f a _ Hw Ha. unfold addr24. cbn -[addr_of u8 FLASH_SECTOR_SIZE Z.div Z.modulo Z.pow].
  rewrite Hw, addr_of_addr24. split; [|cbn; lia].
  intros x. cbn. by destruct (_ =? _).
Qed.
Next Obligation.
  intros f a data _ Hw Ha _ _. unfold addr24.
  cbn -[addr_of u8 Z.div Z.modulo Z.pow Z.land Z.to_nat Z.sub Z.leb].
  rewrite Hw, addr_of_addr24. split; [|cbn; lia].
  intros x. cbn -[Z.leb Z.land u8]. destruct (if a <=? x then _ else _) as [d|]; [|done].
  apply u8_land.
Qed.
Next Obligation.
  intros f dummy. cbn. split; [|done]. exists 0. eexists. split; [done|].
  by destruct (sf_busy f).
Qed.
Next Obligation.
  intros f a rest Hb Ha. unfold addr24. cbn -[addr_of u8 Z.div Z.modulo Z.pow].
  rewrite addr_of_addr24. split; [|done]. exists [0; 0; 0; 0]. split; [done|]. split; [|done].
  forall_list; by unfold is_u8.
Qed.

#[export] Program Instance SimEepromLaws : EepromLaws := {|
  ee_mem := λ (e : sim_eeprom) x, u8 (se_mem e x);
  ee_ptr := se_ptr;
|}.
Next Obligation. intros e x. apply u8_range. Qed.
Next Obligation.
  intros e a data _ _ _ Hu e' x. subst e'. cbn.
  destruct (if a <=? x then _ else _) as [d|] eqn:E; [|done].
  destruct (a <=? x); [|done]. apply u8_id. by eapply Forall_lookup_1.
Qed.
Next Obligation.
  intros e a _ e'. subst e'. cbn. split; [|done]. intros x. by destruct (a <=? x).
Qed.
Next Obligation. done. Qed.

(** Every register but the trigger pointers is plain. *)
Definition sim_plain (a : Z) : Prop := is_bufptr a = false.

#[export] Instance SimPlain : PlainRegisters SimPlatform sim_plain.
Proof.
  split; cbn.
  - done.
  - intros a p ->. apply u32_range.
  - intros a b p -> Hb. rewrite Hb. destruct (decide (a = b)) as [->|Hne].
    + rewrite lookup_insert_eq. cbn. apply u32_u32.
    + by rewrite lookup_insert_ne.
Qed.

Lemma sim_bufptr reg p :
  reg ∈ bufptr_regs → sample_addr (u32 (pl_in32 (u32 (XPAR_M_AXI_BASEADDR + reg)) p).1).
Proof.
  intros Hreg. assert (is_bufptr (u32 (SIM_BASE + reg)) = true) as Hb.
  { revert reg Hreg. apply Forall_forall. unfold bufptr_regs. forall_list; by vm_compute. }
  cbn [pl_in32 SimPlatform fst XPAR_M_AXI_BASEADDR]. rewrite Hb.
  exists 0. split; [by vm_compute|unfold NSAMPLES; lia].
Qed.

(** A board with unit scale factors and all registers 0. *)
Definition sim_sf : ScaleFactorType :=
  MkSF 0x3F800000 0x3F800000 0x3F800000 0x3F800000 0x3F800000 0x3F800000 0x3F800000.

Definition sim_psc : psc :=
  MkPsc _ (∅ : gmap Z Z) (MkSimFlash (λ _, 0xFF) false 0) (MkSimEeprom (λ _, 1) 0) []
    (replicate 4 sim_sf) 0x474CCCCD 0x37A00000.

(** ** A TCP stack that transfers at most three bytes per call *)

Record sim_net := MkSimNet { sn_rx : Z → list Z; sn_tx : Z → list Z; sn_next : Z }.

Definition upd {A} (k : Z) (v : A) (f : Z → A) : Z → A := λ x, if x =? k then v else f x.

Definition SimSockets : Sockets := {|
  ENOTCONN := 128; EIO := 5;
  NET := sim_net;
  sk_send := λ sock data _ net,
    (inr (Nat.min 3 (length data)),
     MkSimNet (sn_rx net) (upd sock (sn_tx net sock ++ take (Nat.min 3 (length data)) data) (sn_tx net))
       (sn_next net));
  sk_recv := λ sock len _ net,
    let n := Nat.min 3 (Z.to_nat len) in
    (inr (u8 <$> take n (sn_rx net sock)),
     MkSimNet (upd sock (drop n (sn_rx net sock)) (sn_rx net)) (sn_tx net) (sn_next net));
  sk_close := λ _ net, net;
  sk_accept := λ _ net,
    ((sn_next net, 0), MkSimNet (sn_rx net) (sn_tx net) (sn_next net + 1));
|}.

#[export] Instance SimSocketLaws : SocketLaws SimSockets.
Proof.
  split; try done.
  - intros sock data flags net n net' [= <- <-]. apply (Nat.le_min_r 3).
  - intros sock len flags net data net' E Hlen. cbn [sk_recv SimSockets] in E.
    set (n := Nat.min 3 (Z.to_nat len)) in E. assert (Z.of_nat n ≤ len) by lia. clearbody n.
    injection E as <- <-.
    rewrite length_fmap, length_take. split; [lia|].
    apply Forall_fmap, Forall_true. intros x. apply u8_range.
Qed.

#[export] Program Instance SimTcp : TcpStream SimSockets := {|
  rx_pending := λ sock (net : sim_net), u8 <$> sn_rx net sock;
  tx_sent := λ sock (net : sim_net), sn_tx net sock;
  up := λ _ _, True;
|}.
Next Obligation.
  intros sock len flags net _ Hlen Hne. change ((u8 <$> sn_rx net sock) ≠ []) in Hne.
  cbn [sk_recv SimSockets].
  set (n := Nat.min 3 (Z.to_nat len)). assert (0 < n)%nat as Hn by lia. clearbody n.
  eexists _, _. split; [reflexivity|]. cbn [sn_rx sn_tx]. unfold upd. rewrite Z.eqb_refl.
  split; [|by rewrite <- fmap_app, take_drop].
  destruct (sn_rx net sock) as [|b l]; [done|]. destruct n; [lia|done].
Qed.
Next Obligation.
  intros sock data flags net _ Hne. cbn [sk_send SimSockets].
  assert (Nat.min 3 (length data) ≠ 0%nat) as Hn by (destruct data; cbn in *; [done|lia]).
  revert Hn. set (n := Nat.min 3 (length data)). clearbody n. intros Hn.
  eexists _, _. split; [reflexivity|]. split; [done|]. cbn [sn_rx sn_tx]. unfold upd.
  by rewrite Z.eqb_refl.
Qed.

#[export] Instance SimIndependent : TcpIndependent SimSockets.
Proof.
  split; [|done]. intros sock sock' data flags net r net' [= <- <-] Hne _. split; [done|].
  cbn. unfold upd. by rewrite (proj2 (Z.eqb_neq _ _)).
Qed.
