(* ===== verification/SimIo.v ===== *)
(** * Simulated files, serial port and network libraries

    Instances of the classes that the SD card, the console, the network and the TFTP
    server use, small enough to be evaluated; the laws assumed of these libraries
    hold of them. *)

From S2P Require Import Prelude Words Floats Machine CStr Stdio FatFs Sdcard SdcardSpec Console.
From S2P Require Import ConsoleSpec Lstats NetSetup Tftp TftpHandler TftpSpec.

(** ** A volume with two file objects: [false] of [sdcard.c], [true] of [tftp_handler.c] *)

Record sim_fs := MkSimFs { sx_files : gmap string (list Z); sx_open : bool → option (string * nat) }.

Definition sx_set (fd : bool) (h : option (string * nat)) (x : sim_fs) : sim_fs :=
  MkSimFs (sx_files x) (λ b, if Bool.eqb b fd then h else sx_open x b).
Definition sx_view (fd : bool) (x : sim_fs) : Vol := MkVol (sx_files x) (sx_open x fd).

(** A function of the open file: its name, contents and position. *)
Definition sx_with {A} (fd : bool) (x : sim_fs) (err : A) (f : string → list Z → nat → A * sim_fs)
    : A * sim_fs :=
  match sx_open x fd with
  | Some (name, pos) =>
      match sx_files x !! name with Some c => f name c pos | None => (err, x) end
  | None => (err, x)
  end.

Definition sx_put (fd : bool) (name : string) (c : list Z) (pos : nat) (x : sim_fs) : sim_fs :=
  sx_set fd (Some (name, pos)) (MkSimFs (<[name := c]> (sx_files x)) (sx_open x)).

Definition FR_INVALID_OBJECT : Z := 9.

#[export] Instance SimFatFs : FatFs := {|
  FS := sim_fs;
  FIL := bool;
  sd_fil := false;
  f_mount := λ _ x, (FR_OK, x);
  f_unmount := λ _ x, (FR_OK, x);
  f_chdir := λ _ x, (FR_OK, x);
  f_open := λ fd name mode x,
    match sx_files x !! name with
    | Some _ => (FR_OK, sx_set fd (Some (name, 0%nat)) x)
    | None => if Z.testbit mode 4 then (FR_OK, sx_put fd name [] 0 x) else (FR_NO_FILE, x)
    end;
  f_close := λ fd x, (FR_OK, sx_set fd None x);
  f_read := λ fd n x, sx_with fd x (FR_INVALID_OBJECT, []) (λ name c pos,
    ((FR_OK, take n (drop pos c)), sx_set fd (Some (name, (pos + length (take n (drop pos c)))%nat)) x));
  f_gets := λ fd n x, sx_with fd x None (λ name c pos,
    let l := line_of (pred n) (drop pos c) in
    ((if decide (l = []) then None else Some l), sx_set fd (Some (name, (pos + length l)%nat)) x));
  f_lseek := λ fd p x, sx_with fd x FR_INVALID_OBJECT (λ name c pos,
    (FR_OK, sx_set fd (Some (name, Z.to_nat p)) x));
  f_truncate := λ fd x, sx_with fd x FR_INVALID_OBJECT (λ name c pos,
    (FR_OK, sx_put fd name (take pos c) pos x));
  f_write := λ fd data x, sx_with fd x (FR_INVALID_OBJECT, 0) (λ name c pos,
    ((FR_OK, Z.of_nat (length data)),
     sx_put fd name (take pos c ++ data ++ drop (pos + length data) c) (pos + length data) x));
  f_sync := λ _ x, (FR_OK, x);
  f_unlink := λ name x, (FR_OK, MkSimFs (delete name (sx_files x)) (sx_open x));
|}.

Lemma sx_view_set fd h x : sx_view fd (sx_set fd h x) = MkVol (sx_files x) h.
Proof. unfold sx_view, sx_set. cbn. by rewrite eqb_reflx. Qed.

Lemma sx_with_open {A} fd x name c pos (err : A) f :
  open_file (sx_view fd x) name c pos → sx_with fd x err f = f name c pos.
Proof. intros [Eh Ef]. unfold sx_with. cbn in Eh, Ef. by rewrite Eh, Ef. Qed.

Lemma sx_view_put fd name c pos x :
  sx_view fd (sx_put fd name c pos x) = MkVol (<[name := c]> (sx_files x)) (Some (name, pos)).
Proof. unfold sx_put. by rewrite sx_view_set. Qed.

#[export] Program Instance SimFatFsLaws (fd : FIL) : FatFsLaws fd := {| view := sx_view fd |}.
Next Obligation.
  intros fd name x. cbn -[sx_view]. unfold vol_open. cbn [files sx_view].
  destruct (sx_files x !! name); cbn -[sx_view]; [by rewrite sx_view_set|done].
Qed.
Next Obligation.
  intros fd name x. cbn -[sx_view sx_put Z.testbit]. unfold vol_open. cbn [files sx_view].
  change (Z.testbit (Z.lor (Z.lor FA_OPEN_ALWAYS FA_READ) FA_WRITE) 4) with true.
  destruct (sx_files x !! name); cbn -[sx_view sx_put]; [by rewrite sx_view_set|by rewrite sx_view_put].
Qed.
Next Obligation.
  intros fd name x. cbn -[sx_view sx_put Z.testbit]. unfold vol_open. cbn [files sx_view].
  change (Z.testbit (Z.lor FA_OPEN_ALWAYS FA_WRITE) 4) with true.
  destruct (sx_files x !! name); cbn -[sx_view sx_put]; [by rewrite sx_view_set|by rewrite sx_view_put].
Qed.
Next Obligation. intros fd x. cbn -[sx_view]. by rewrite sx_view_set. Qed.
Next Obligation. done. Qed.
Next Obligation.
  intros fd n x name c pos Ho. cbn -[sx_view line_of]. rewrite (sx_with_open _ _ _ _ _ _ _ Ho).
  cbn -[sx_view line_of]. by rewrite sx_view_set.
Qed.
Next Obligation.
  intros fd n x name c pos Ho. cbn -[sx_view]. rewrite (sx_with_open _ _ _ _ _ _ _ Ho).
  by rewrite sx_view_set.
Qed.
Next Obligation.
  intros fd x name c pos Ho. cbn -[sx_view]. rewrite (sx_with_open _ _ _ _ _ _ _ Ho).
  by rewrite sx_view_set.
Qed.
Next Obligation.
  intros fd x name c pos Ho. cbn -[sx_view sx_put]. rewrite (sx_with_open _ _ _ _ _ _ _ Ho).
  by rewrite sx_view_put.
Qed.
Next Obligation.
  intros fd data x name c pos Ho. cbn -[sx_view sx_put]. rewrite (sx_with_open _ _ _ _ _ _ _ Ho).
  by rewrite sx_view_put.
Qed.
Next Obligation. done. Qed.

(** ** Memory and lwIP *)

#[export] Program Instance SimHeap : Heap := {| malloc := λ _ n, Some (replicate n 0xA5) |}.
Next Obligation. intros k n b [= <-]. apply length_replicate. Qed.

(** Four decimal numbers are read as one address; anything else is refused. *)
Definition sim_aton (s : list Z) : option Z :=
  match scan_octets 3 (s ++ [0]) 0 [] with
  | Ok [a; b; c; d] => Some (a + 2 ^ 8 * b + 2 ^ 16 * c + 2 ^ 24 * d)
  | _ => None
  end.

#[export] Instance SimLwip : Lwip := {| lwip_isspace := isspace; inet_aton := sim_aton |}.
#[export] Instance SimLwipLaws : LwipLaws.
Proof. split. exact isspace_range. Qed.

#[export] Instance SimNetif : Netif := {|
  xemac_add_ok := true;
  dhcp_start_err := 0;
  DHCP_FINE_TIMER_MSECS := 500;
  DHCP_COARSE_TIMER_SECS := 60;
|}.

#[export] Instance SimStats : StatsConfig := {|
  configTICK_RATE_HZ := 100;
  LWIP_STATS := true;
  LINK_STATS := true;
  MEM_STATS := false;
|}.

(** The first zero byte at or behind an offset. *)
Fixpoint sim_memfind (bytes : list Z) (off : Z) : Z :=
  match bytes with
  | [] => 0xFFFF
  | b :: bytes => if b =? 0 then off else sim_memfind bytes (off + 1)
  end.

#[export] Instance SimPbuf : Pbuf := {|
  pbuf_ok := λ _, true;
  pbuf_memfind := λ bytes start, sim_memfind (drop (Z.to_nat start) bytes) start;
  pbuf_remove_header := λ p,
    match p with
    | seg :: p => (if (4 <=? length seg)%nat then drop 4 seg else seg) :: p
    | [] => []
    end;
|}.

#[export] Instance SimPbufLaws : PbufLaws.
Proof.
  split.
  - intros pre w r Hw _. cbn [pbuf_memfind SimPbuf]. rewrite Nat2Z.id, drop_app_length, Nat2Z.inj_add.
    generalize (Z.of_nat (length pre)) as off. clear pre. induction w as [|c w IH]; intros off; cbn [app sim_memfind length].
    + by rewrite Z.add_0_r.
    + apply not_elem_of_cons in Hw as [Hc Hw]. rewrite (proj2 (Z.eqb_neq _ _)) by done.
      rewrite IH by done. lia.
  - intros seg p Hl. cbn [pbuf_remove_header SimPbuf]. by rewrite (proj2 (Nat.leb_le _ _)).
Qed.

#[export] Instance SimTftpFile : TftpFile := {| tftp_fil := true |}.

(** ** The serial port *)

#[export] Instance SimStrtof : Strtof := {| strtof_special := λ _, 0 |}.
#[export] Instance SimSysCtrl : SysCtrl := {| XPS_SYS_CTRL_BASEADDR := 0xF8000000 |}.

Definition not_sp (c : Z) : bool := negb (isspace c).

Definition sim_scanf (n : nat) (i : list Z) : option (option (list Z) * list Z) :=
  let l := drop_while isspace (u8 <$> i) in
  let w := take n (take_while not_sp l) in
  if decide (drop (length w) l = []) then None else Some (Some w, drop (length w) l).

#[export] Instance SimUart : Uart := {|
  IN := list Z;
  uart_byte := λ i, match i with c :: r => Some (c, r) | [] => None end;
  scanf_s := sim_scanf;
|}.

Lemma u8_fmap_u8 (l : list Z) : u8 <$> (u8 <$> l) = u8 <$> l.
Proof. rewrite <- list_fmap_compose. apply list_fmap_ext. intros i x _. unfold compose, u8. by rewrite Z.mod_mod. Qed.

Lemma suffix_u8 (k l : list Z) l0 : u8 <$> l0 = k ++ l → u8 <$> l = l.
Proof.
  intros E. pose proof (u8_fmap_u8 l0) as F. rewrite E, fmap_app in F.
  apply app_inj_1 in F as [_ F]; [done|]. by rewrite length_fmap.
Qed.

Lemma sim_rest n (i : list Z) :
  let l := drop_while isspace (u8 <$> i) in let w := take n (take_while not_sp l) in
  ∃ used, u8 <$> i = used ++ drop (length w) l.
Proof.
  intros l w. exists (take_while isspace (u8 <$> i) ++ take (length w) l).
  rewrite <- app_assoc, take_drop. symmetry. apply take_drop_while.
Qed.

#[export] Program Instance SimUartLaws : UartLaws := {| pending := λ i : list Z, u8 <$> i |}.
Next Obligation. by intros [|c r]. Qed.
Next Obligation.
  intros n i. cbn. unfold sim_scanf. destruct (decide _) as [|Hne]; [done|]. split.
  - destruct (sim_rest n i) as [used E]. exists used. by rewrite (suffix_u8 _ _ _ E).
  - eexists. split; [done|]. rewrite length_take. lia.
Qed.
Next Obligation.
  intros n i sp w c r E Hsp Hc Hne Hw Hl. cbn in *. unfold sim_scanf.
  assert (Hns : Forall (λ c, not_sp c = true) w).
  { eapply Forall_impl; [done|]. intros x Hx. unfold not_sp. by rewrite Hx. }
  destruct (take_while_app isspace sp (w ++ c :: r)) as [_ Hd]; [done| |].
  { intros x s' Ex. destruct w as [|y w]; [done|]. injection Ex as -> _.
    by apply Forall_cons in Hw as [? _]. }
  destruct (take_while_app not_sp w (c :: r)) as [Ht _]; [done| |].
  { intros x s' [= <- _]. unfold not_sp. by rewrite Hc. }
  rewrite E, Hd, Ht, take_ge by done. rewrite drop_app_length. rewrite decide_False by done.
  eexists. split; [reflexivity|]. exists (sp ++ w). rewrite <- app_assoc.
  rewrite (suffix_u8 (sp ++ w) (c :: r) i) by (by rewrite <- app_assoc). done.
Qed.
