(* ===== verification/ClientsAny.v ===== *)
(** * Clients on the same channel

    Tasks whose messages meet on one channel are not serialisable, but still free of
    undefined behaviour: their accesses are always defined, whatever the other tasks
    have written in between.  Set points (whose arithmetic can divide by zero), ramp
    tables and flash commands are left out. *)

From S2P Require Import Prelude Words Floats Machine Regs Sadata Qspi Control ControlFrame.
From S2P Require Import ControlTotal ControlSpec Main Snapshot SnapshotSpec SadataPush.
From S2P Require Import Tasks Concurrent ClientTasks MonitorTasks Defined SnapshotTask Clients.

(** ** The accesses of the messages *)

Create HintDb defd discriminated.
Ltac defd_prim := split; [cbn [valid]; first [exact I | lia]|intros ? ?; exact I].
Ltac defd_step :=
  first
    [ solve [auto 2 with defd nocore]
    | exact I
    | apply defined_pbind; [|intros ?]
    | apply defined_if
    | defd_prim ].
Ltac defd_tac := own_code; repeat (defd_step; own_code).

Section programs.
Context `{Platform, Runtime, FpEnv}.
Context (chan : Z) (Hchan : 1 ≤ chan ≤ 4).
Abbreviation D m := (defined (λ _, True) (code m)).

Lemma defd_v2d field f : D (volts_to_dacbits chan field f).
Proof. unfold threaded_v2d. defd_tac. Qed.
Lemma defd_v2_16 field f : D (volts_to_16bits chan field f).
Proof. unfold threaded_v2_16. defd_tac. Qed.
Lemma defd_out r v : D (out chan r v).
Proof. unfold threaded_out. defd_tac. Qed.
Lemma defd_ReadAccumSA r m : D (ReadAccumSA r m).
Proof. unfold threaded_ReadAccumSA. defd_tac. Qed.
#[local] Hint Resolve defd_v2d defd_v2_16 defd_out defd_ReadAccumSA : defd.

Lemma defd_dump_adcs : D (dump_adcs chan).
Proof. unfold threaded_dump_adcs. defd_tac. Qed.
Lemma defd_opmode m : D (Set_dacOpmode chan m).
Proof. unfold threaded_opmode. defd_tac. Qed.
Lemma defd_soft_trig u : D (soft_trig u).
Proof. unfold threaded_soft_trig. defd_tac. Qed.
#[local] Hint Resolve defd_dump_adcs defd_opmode defd_soft_trig : defd.

Lemma defd_shift : D (shift_one (u32 (chan - 1))).
Proof.
  unfold threaded_shift. own_code. rewrite u32_id by (unfold is_u32; lia).
  assert ((0 <=? chan - 1) && (chan - 1 <? 31) = true) as -> by (case_Zb; cbn; lia). exact I.
Qed.
#[local] Hint Resolve defd_shift : defd.

(** Messages whose accesses can be undefined, or poll the flash. *)
Definition delicate (id : Z) : bool :=
  (id =? DAC_SETPT_MSG) || (id =? WRITE_QSPI_MSG) || (id =? READ_QSPI_MSG).

Lemma defd_chan_cases u :
  Forall (λ c, delicate c.1 = false → total_task c.2) (case_codes (chan_cases chan u)).
Proof.
  unfold cases_chan. cbn [case_codes cases_app].
  unfold cases_dac, cases_adc, cases_fault, cases_digital, cases_sf, cases_misc.
  cbn [case_codes cases_nil cases_cons].
  repeat apply Forall_app_2; forall_list; cbn [fst snd]; intros Hne;
    try discriminate Hne; clear Hne; unfold total_task; defd_tac.
Qed.

Lemma defd_chan_settings msg n w0 w1 :
  load32 msg 0 = Ok w0 → load32 msg 1 = Ok w1 → delicate (htonl w0) = false →
  D (chan_settings chan msg n).
Proof.
  intros E0 E1 Hid. unfold threaded_chan. own_code. rewrite E0, E1. cbn [pbind].
  cbn [code threaded_switch]. apply (switch_Forall_key total_task); [|exact I].
  eapply Forall_impl; [apply defd_chan_cases|]. intros [k p] Hp Hk. apply Hp. by rewrite Hk.
Qed.

Lemma defd_glob_settings msg w0 w1 :
  load32 msg 0 = Ok w0 → load32 msg 1 = Ok w1 → D (glob_settings msg).
Proof.
  intros E0 E1. unfold threaded_glob. own_code. rewrite E0, E1. cbn [pbind].
  cbn [code threaded_switch]. apply (switch_Forall_key total_task); [|exact I].
  unfold cases_glob. cbn [case_codes cases_nil cases_cons].
  forall_list; intros _; cbn [snd]; unfold total_task, threaded_fpleds; defd_tac.
Qed.

(** ** The 10 Hz task *)

Lemma defd_sa_channel b m v sf rsvd :
  defined (λ c, length (sa_words c) = 65 + length rsvd)%nat (code (sa_channel b m v sf rsvd)).
Proof.
  unfold threaded_sa_channel. own_code.
  repeat first
    [ apply defined_pbind; [split; [exact I|intros ? ?; exact I]|intros ?]
    | exact (length_app _ _) ].
Qed.

Lemma defd_sa_channels n c :
  0 ≤ c → c + Z.of_nat n ≤ 4 →
  defined (λ cs, length (mjoin (sa_words <$> cs)) = 75 * n)%nat (code (sa_channels n c)).
Proof.
  revert c. induction n as [|n IH]; intros c Hc Hn; cbn [threaded_sa_channels nat_rect].
  { done. }
  cbv zeta. own_code.
  do 2 (apply defined_pbind; [defd_prim|intros ?]).
  apply defined_pbind; [split; [cbn [valid]; lia|intros ? ?; exact I]|intros sf].
  eapply defined_bind; [apply defd_sa_channel|intros ch Hch].
  eapply defined_bind; [apply IH; lia|intros cs Hcs].
  cbn [defined]. change (length (sa_words ch ++ mjoin (sa_words <$> cs)) = 75 * S n)%nat.
  rewrite length_app, Hch, Hcs, length_fmap, length_seq. lia.
Qed.

Lemma defd_frequency r : D (frequency r).
Proof. unfold threaded_frequency. own_code. split; [exact I|intros ? ?; exact I]. Qed.

Lemma defd_sadata_push msg :
  length msg = 1400%nat → defined (λ msg', length msg' = 1400%nat) (code (sadata_push msg)).
Proof.
  intros Hl. unfold threaded_sadata_push. own_code.
  do 12 (apply defined_pbind; [split; [exact I|intros ? ?; exact I]|intros ?]).
  do 2 (apply defined_pbind; [apply defd_frequency|intros ?]).
  eapply defined_bind; [apply defd_sa_channels; lia|intros ps Hps].
  lazymatch goal with |- context [bytes_of_words (sm_words ?m)] => set (sm := m) end.
  assert (length (bytes_of_words (sm_words sm)) = 1300%nat) as Hb.
  { rewrite length_bytes_of_words. unfold sm_words. rewrite !length_app. subst sm. cbn [sm_ps sm_rsvd].
    rewrite Hps, length_fmap, length_seq. done. }
  clearbody sm.
  destruct (hton_conv_length (bytes_of_words (sm_words sm) ++
    drop (length (bytes_of_words (sm_words sm))) msg) (Z.of_nat (length (bytes_of_words (sm_words sm)))))
    as (msg' & E & Hl'); [lia|rewrite length_app, length_drop, Hb, Hl; done|].
  rewrite E. cbn [pbind]. split; [exact I|]. intros ? _. cbn [pbind defined].
  rewrite Hl', length_app, length_drop, Hb, Hl. done.
Qed.

Lemma defd_sadata_loop n msg : length msg = 1400%nat → D (sadata_loop n msg).
Proof.
  revert msg. induction n as [|n IH]; intros msg Hl; cbn [threaded_sadata_loop nat_rect]; [exact I|].
  own_code. eapply defined_bind; [by apply defd_sadata_push|apply IH].
Qed.
End programs.

(** ** The theorem *)

Section clients.
Context `{Platform, Runtime, FpEnv}.

(** A message of at least two words: any global setting, or a channel message that
    is no set point and no flash command. *)
Definition job_plain (j : client_job) : Prop :=
  8 ≤ Z.of_nat (length (job_msg j)) ∧ job_id j ≠ 101 ∧
  ∀ w, load32 (job_msg j) 0 = Ok w → 1 ≤ job_id j ≤ 4 → delicate (htonl w) = false.

Lemma defd_job j : job_plain j → total_task (job_code j).
Proof.
  intros (Hl & Hid & Hd). unfold job_code.
  destruct (load32_in (job_msg j) 0) as [w0 E0]; [lia|lia|].
  destruct (load32_in (job_msg j) 1) as [w1 E1]; [lia|lia|].
  specialize (Hd w0 E0). destruct j as [id n msg]. cbn [job_id job_len job_msg] in *.
  unfold total_task, threaded_client. cbn [code threaded_bind].
  do 2 (apply defined_pbind; [split; [exact I|intros ? ?; exact I]|intros _]). cbn [code threaded_switch].
  apply (switch_Forall_key total_task); [|exact I].
  cbn [case_codes cases_nil cases_cons].
  forall_list; cbn [fst snd]; intros Hk; subst id; try exact I; try done.
  - exact (defd_glob_settings msg w0 w1 E0 E1).
  - exact (defd_chan_settings 1 ltac:(lia) msg n w0 w1 E0 E1 (Hd ltac:(lia))).
  - exact (defd_chan_settings 2 ltac:(lia) msg n w0 w1 E0 E1 (Hd ltac:(lia))).
  - exact (defd_chan_settings 3 ltac:(lia) msg n w0 w1 E0 E1 (Hd ltac:(lia))).
  - exact (defd_chan_settings 4 ltac:(lia) msg n w0 w1 E0 E1 (Hd ltac:(lia))).
Qed.

End clients.
