(* ===== verification/Races.v ===== *)
(** * Client tasks on the simulated board: schedules and races

    The laws of the register blocks hold on the board of [Sim.v].  Two schedules
    show what the missing lock around the receive callback costs: ramp tables of
    two clients mix, and settings saved at the same time are corrupted. *)

From S2P Require Import Prelude Words Floats Machine Regs Sadata Qspi Control ControlFrame.
From S2P Require Import ControlTotal ControlSpec Main Tasks Concurrent ClientTasks MonitorTasks Clients ClientsAny Sim.
From S2P Require Import Snapshot SnapshotTask.

(** ** Schedules as lists of task numbers *)

Section schedules.
Context `{Platform}.

Fixpoint run_schedule (sched : list nat) (ts : list (prog unit)) (s : psc)
    : option (list (prog unit) * psc) :=
  match sched with
  | [] => Some (ts, s)
  | i :: sched =>
      match ts !! i ≫= λ p, advance p s with
      | Some (Ok (p', s')) => run_schedule sched (<[i := p']> ts) s'
      | _ => None
      end
  end.

Lemma run_schedule_sound sched ts s c :
  run_schedule sched ts s = Some c → rtc pool_step (ts, s) c.
Proof.
  revert ts s. induction sched as [|i sched IH]; intros ts s; cbn.
  { by intros [= <-]. }
  destruct (ts !! i) as [p|] eqn:Hi; [|done]. cbn.
  destruct (advance p s) as [[[p' s']|]|] eqn:Ha; [|done..]. intros E.
  eapply rtc_l; [by eapply pool_advance|by apply IH].
Qed.

(** All tasks of the pool have finished. *)
Definition finished (p : prog unit) : bool := match p with PRet _ => true | _ => false end.

Lemma finished_replicate ts : forallb finished ts = true → ts = replicate (length ts) (PRet tt).
Proof.
  induction ts as [|[[]|u|X o k] ts IH]; cbn; [done| |done|done]. intros E. by rewrite <- IH.
Qed.

(** A schedule that ends with the first [n] tasks finished, seen through [f]. *)
Definition outcome {A} (n : nat) (sched : list nat) (ts : list (prog unit)) (s : psc)
    (f : psc → A) : option A :=
  match run_schedule sched ts s with
  | Some (ts', s') =>
      if forallb finished (take n ts') && (n <=? length ts')%nat then Some (f s') else None
  | None => None
  end.

Lemma outcome_sound {A} n sched ts s (f : psc → A) x :
  outcome n sched ts s f = Some x →
  ∃ ts' s', rtc pool_step (ts, s) (ts', s') ∧ take n ts' = replicate n (PRet tt) ∧ f s' = x.
Proof.
  unfold outcome. destruct (run_schedule _ _ _) as [[ts' s']|] eqn:E; [|done].
  destruct (forallb _ _) eqn:Hf; [|done]. destruct (n <=? length ts')%nat eqn:Hlen; [|done].
  intros [= <-]. exists ts', s'. split; [by eapply run_schedule_sound|]. split; [|done].
  rewrite (finished_replicate _ Hf). f_equal. apply length_take_le, Nat.leb_le, Hlen.
Qed.
End schedules.

(** ** The simulated board *)

#[export] Instance SimBlocks : BlockRegisters SimPlatform.
Proof.
  refine (Build_BlockRegisters SimPlatform
    (λ b p1 p2, ∀ a, may_read b a → (p1 : gmap Z Z) !! a = (p2 : gmap Z Z) !! a) _ _ _ _ _ _).
  - intros b. split; [done|intros p1 p2 E a Ha; by rewrite E|].
    intros p1 p2 p3 E1 E2 a Ha. by rewrite E1, E2.
  - intros b a p1 p2 _ Ha E. cbn. by rewrite (E a Ha).
  - done.
  - intros b a v p1 p2 _ Ha E x Hx. cbn. destruct (decide (a = x)) as [->|Hne].
    + by rewrite !lookup_insert_eq.
    + rewrite !lookup_insert_ne by done. by apply E.
  - intros b b' a v p Hb Hb' Hne (Ha & Hi & Hr) x Hx. cbn.
    rewrite lookup_insert_ne; [done|]. intros ->.
    destruct Hx as [[Hx _]|Hx]; [|done]. by apply Hne, (blocks_disjoint b b' x).
  - intros b a v p _ Ha x Hx. cbn. rewrite lookup_insert_ne; [done|]. intros <-.
    destruct Hx as [[_ Hx]|Hx]; [done|]. subst a. by destruct Ha.
Defined.

Definition set_job (msgid id v : Z) : client_job := MkJob msgid 8 (message id v []).

(** The state a computation returns, tested by a boolean function. *)
Definition returns (r : res (unit * psc)) (f : psc → bool) : bool :=
  match r with Ok (_, s') => f s' | Ub _ => false end.
Lemma returns_true r f : returns r f = true → ∃ s', r = Ok (tt, s') ∧ f s' = true.
Proof. destruct r as [[[] s']|]; [|done]. intros E. by exists s'. Qed.

Lemma returns_some r : returns r (λ _, true) = true → ∃ s', r = Ok (tt, s').
Proof. intros E. destruct (returns_true _ _ E) as (s' & ? & _). by exists s'. Qed.

(** ** Two ramp tables *)

(** The table memory behind the address and data registers of a channel. *)
Definition ramp_write (chan : Z) (r : Z * gmap Z Z) (e : event) : Z * gmap Z Z :=
  match e with
  | Out32 a v =>
      if a =? u32 (chan_addr chan DAC_RAMPADDR_REG) then (v, r.2)
      else if a =? u32 (chan_addr chan DAC_RAMPDATA_REG) then (r.1, <[r.1 := v]> r.2)
      else r
  | _ => r
  end.
Definition ramp_table (chan : Z) (s : psc) : gmap Z Z :=
  (foldl (ramp_write chan) (0, ∅) (events s)).2.

Definition ramp_job (w : list Z) : client_job :=
  MkJob 101 (4 * Z.of_nat (length w)) (bytes_of_words (htonl <$> w)).

(** Ramps of 1 A, 2 A and of 3 A, 4 A. *)
Definition two_ramps : list client_job :=
  [ramp_job [0x3F800000; 0x40000000]; ramp_job [0x40400000; 0x40800000]].

(** C26: two clients send a ramp table each; under one
    schedule of their threads both are served without undefined behaviour and the
    table memory holds the first point of one ramp and the second of the other,
    which serving them one after the other never gives. *)
Theorem ramptables_mix :
  (∃ ts s', rtc pool_step (pool two_ramps [], sim_psc) (ts, s') ∧
     take 2 ts = replicate 2 (PRet tt) ∧ ramp_table 1 s' = {[0 := 157286; 1 := 104857]}) ∧
  (∃ s', serve two_ramps sim_psc = Ok (tt, s') ∧ ramp_table 1 s' = {[0 := 157286; 1 := 209715]}) ∧
  (∃ s', serve (reverse two_ramps) sim_psc = Ok (tt, s') ∧
     ramp_table 1 s' = {[0 := 52428; 1 := 104857]}).
Proof.
  split; [|split].
  - apply (outcome_sound 2 (replicate 8 0%nat ++ replicate 13 1%nat ++ replicate 5 0%nat)).
    by vm_compute.
  - destruct (returns_true (serve two_ramps sim_psc)
      (λ s, bool_decide (ramp_table 1 s = {[0 := 157286; 1 := 209715]}))) as (s' & E & Hb);
      [by vm_compute|]. exists s'. split; [done|]. by apply bool_decide_eq_true in Hb.
  - destruct (returns_true (serve (reverse two_ramps) sim_psc)
      (λ s, bool_decide (ramp_table 1 s = {[0 := 52428; 1 := 104857]}))) as (s' & E & Hb);
      [by vm_compute|]. exists s'. split; [done|]. by apply bool_decide_eq_true in Hb.
Qed.

(** ** Two saves *)

(** The fault mask of channel 2. *)
Definition fault_mask2 (s : psc) : Z := (pl_in32 (u32 (chan_addr 2 FAULT_MASK_REG)) (pl s)).1.

(** Channel 2 has an older mask in the flash than in its register. *)
Definition earlier : list client_job :=
  [set_job 2 FAULT_MASK_MSG 0x05; set_job 2 WRITE_QSPI_MSG 1; set_job 2 FAULT_MASK_MSG 0xA0].
Definition two_saves : list client_job := [set_job 1 WRITE_QSPI_MSG 1; set_job 2 WRITE_QSPI_MSG 1].

(** Both tasks enable writing before either erases: the second erase is lost. *)
Definition lost_erase : list nat :=
  [0; 0; 0; 1; 1; 1; 0; 1]%nat ++ replicate 91 0%nat ++ replicate 89 1%nat.

(** C15: one client saves the settings of channel
    1 while another saves those of channel 2; under one schedule both are served
    without undefined behaviour and the fault mask of channel 2, 0xA0 before, is 0
    after (old and new contents of its flash page are combined and read back),
    while serving them one after the other keeps it. *)
Theorem concurrent_saves_corrupt :
  ∃ s0, serve earlier sim_psc = Ok (tt, s0) ∧ fault_mask2 s0 = 0xA0 ∧
    (∃ ts s', rtc pool_step (pool two_saves [], s0) (ts, s') ∧
       take 2 ts = replicate 2 (PRet tt) ∧ fault_mask2 s' = 0) ∧
    (∃ s', serve two_saves s0 = Ok (tt, s') ∧ fault_mask2 s' = 0xA0).
Proof.
  destruct (returns_true (serve earlier sim_psc) (λ s0, (fault_mask2 s0 =? 0xA0) &&
    bool_decide (outcome 2 lost_erase (pool two_saves []) s0 fault_mask2 = Some 0) &&
    returns (serve two_saves s0) (λ s', fault_mask2 s' =? 0xA0))) as (s0 & E0 & Hb); [by vm_compute|].
  apply andb_prop in Hb as [Hb Hs]. apply andb_prop in Hb as [Hm Ho].
  exists s0. split; [done|]. split; [by apply Z.eqb_eq|]. split.
  - apply (outcome_sound 2 lost_erase). by apply bool_decide_eq_true in Ho.
  - destruct (returns_true _ _ Hs) as (s' & E & Hm'). exists s'. split; [done|]. by apply Z.eqb_eq.
Qed.

(** ** The serialisability theorems hold of something *)

(** The LEDs, a digital output of channel 2 and the fault mask of channel 3. *)
Definition three_jobs : list client_job :=
  [set_job 0 FP_LED_MSG 5; set_job 2 DIGOUT_ON1_MSG 1; set_job 3 FAULT_MASK_MSG 0xA0].

Lemma three_jobs_local : NoDup (job_block <$> three_jobs) ∧ Forall job_local three_jobs.
Proof.
  split; [apply (bool_decide_unpack (NoDup (job_block <$> three_jobs))); vm_compute; exact I|]. unfold three_jobs.
  forall_list; (split; [vm_compute; by split|]); intros w Hw; vm_compute in Hw; injection Hw as <-; vm_compute; reflexivity.
Qed.
Lemma three_jobs_return : Forall (job_returns sim_psc) three_jobs.
Proof.
  unfold three_jobs. forall_list; unfold job_returns;
    (apply returns_some; vm_compute; reflexivity).
Qed.

(** The 10 Hz task and the snapshot task run at the same time. *)
Definition monitor : list (prog unit) :=
  [code (sadata_loop 1 (replicate 1400 0)); code (snapshot_loop 1 snapshot_start)].
Lemma monitor_observes : Forall (all_prims observe) monitor.
Proof. unfold monitor. forall_list; [apply observe_sadata_loop|apply observe_snapshot_loop]. Qed.

(** They make accesses between those of the clients. *)
Definition three_schedule : list nat :=
  [3; 0; 3; 1; 2]%nat ++ mjoin (replicate 10 [3; 4]%nat) ++ [1; 0; 2]%nat ++
  mjoin (replicate 10 [4; 3]%nat) ++ [2; 0; 1]%nat.



(** Three messages for channel 2, one of them to the DAC mode. *)
Definition same_channel : list client_job :=
  [set_job 2 DAC_OPMODE_MSG 3; set_job 2 DIGOUT_ON1_MSG 1; set_job 2 DAC_OPMODE_MSG 0].

Lemma same_channel_plain : Forall job_plain same_channel.
Proof.
  unfold same_channel. forall_list; (split; [vm_compute; discriminate|]); (split; [discriminate|]);
    intros w Hw; vm_compute in Hw; injection Hw as <-; vm_compute; reflexivity.
Qed.

