(* ===== verification/Witness.v ===== *)
(** * The properties on the simulated board

    Each property with hypotheses is applied at a concrete input of [Sim], where
    every hypothesis is evaluated. *)

From Stdlib Require Import SpecFloat.
From S2P Require Import Prelude Words Floats Machine Regs Sadata Qspi Control ControlFrame.
From S2P Require Import ControlTotal ControlSpec SettingsSpec PscMsg Listener I2c Main Snapshot.
From S2P Require Import SnapshotSpec SnapshotTask SadataPush Sim.

Ltac in_table := unfold setting_table; list_elem.
Ltac word := solve [unfold is_u32, is_u16, is_s32; lia | by vm_compute].

Lemma sim_wf : psc_wf sim_psc.
Proof. by split. Qed.

Lemma sim_sf_wf : sf_wf sim_sf.
Proof. unfold sf_wf, qspi_sf. forall_list; by vm_compute. Qed.

(** ** Control messages *)

Lemma chan_settings_table_witness :
  chan_settings 1 (message DAC_RUNRAMP_MSG 1 []) 8 sim_psc =
  Ok (tt, out32 (chan_addr 1 DAC_RUNRAMP_REG) 1 sim_psc).
Proof.
  apply (chan_settings_table 1 DAC_RUNRAMP_MSG DAC_RUNRAMP_REG Raw 1 [] 8 sim_psc sim_sf);
    [lia|in_table|word|reflexivity].
Defined.

(** Half a second is 5000 samples. *)
Lemma count_limit_exact_witness :
  chan_settings 2 (message OVC1_CNTLIM_MSG 0x3F000000 []) 8 sim_psc =
  Ok (tt, out32 (chan_addr 2 OVC1_CNTLIM_REG) 5000 sim_psc).
Proof.
  apply (count_limit_exact 2 OVC1_CNTLIM_MSG OVC1_CNTLIM_REG 0x3F000000 [] 8 sim_psc sim_sf
    false 8388608 (-24)); [lia|in_table|word|reflexivity|reflexivity|].
  vm_compute. split; discriminate || reflexivity.
Defined.

Lemma gain_exact_witness :
  chan_settings 2 (message DCCT1_GAIN_MSG 0x3F800000 []) 8 sim_psc =
  Ok (tt, out32 (chan_addr 2 DCCT1_GAIN_REG) 1048575 sim_psc).
Proof.
  apply (gain_exact 2 DCCT1_GAIN_MSG DCCT1_GAIN_REG 0x3F800000 [] 8 sim_psc sim_sf
    false 8388608 (-23)); [lia|in_table|word|reflexivity|reflexivity|].
  vm_compute. split; discriminate || reflexivity.
Defined.

(** 100 V at unit scale is far above 16 bits. *)
Lemma threshold_bounded_witness :
  ∃ v, chan_settings 1 (message OVV_THRESH_MSG 0x42C80000 []) 8 sim_psc =
       Ok (tt, out32 (chan_addr 1 OVV_THRESH_REG) v sim_psc) ∧ - 2 ^ 31 ≤ v ≤ 32767.
Proof.
  apply (threshold_bounded 1 OVV_THRESH_MSG OVV_THRESH_REG vout 0x42C80000 [] 8 sim_psc sim_sf);
    [lia|in_table|word|reflexivity].
Defined.

Lemma chan_settings_unknown_witness :
  chan_settings 3 (message 999 7 []) 8 sim_psc = Ok (tt, sim_psc).
Proof.
  apply (chan_settings_unknown 3 999 7 [] 8 sim_psc); [word|word|].
  apply (bool_decide_unpack _). by vm_compute.
Defined.

Lemma chan_settings_isolated_witness :
  ∃ s', chan_settings 1 (message DIGOUT_ON1_MSG 1 []) 8 sim_psc = Ok (tt, s') ∧
    scalefactors s' !! 1%nat = scalefactors sim_psc !! 1%nat ∧
    ∃ evs, events s' = events sim_psc ++ evs ∧ ∀ a v, Out32 a v ∈ evs → ¬ in_block 2 a.
Proof.
  exists (out32 (chan_addr 1 DIGOUT_ON1_REG) 1 sim_psc).
  assert (chan_settings 1 (message DIGOUT_ON1_MSG 1 []) 8 sim_psc =
          Ok (tt, out32 (chan_addr 1 DIGOUT_ON1_REG) 1 sim_psc)) as E by reflexivity.
  destruct (chan_settings_isolated 1 2 _ _ _ _ ltac:(lia) ltac:(lia) ltac:(lia) E)
    as ((evs & Hev & _ & Hout) & Hsf & _).
  split; [exact E|]. split; [exact Hsf|]. exists evs. split; [exact Hev|exact Hout].
Defined.


Lemma opmode_switch_witness :
  Set_dacOpmode 1 FOFB sim_psc =
  Ok (tt, out_all [(chan_addr 1 FOFB_SCALEFACTOR_REG, fofb_scale sim_psc sim_sf);
                   (chan_addr 1 DAC_OPMODE_REG, FOFB)] sim_psc).
Proof. apply (opmode_switch 1 FOFB sim_psc sim_sf); [lia|reflexivity]. Defined.

Lemma sf_dac_dccts_consistent_witness :
  let sf' := MkSF 0x3F800000 0x40000000 0x3F800000 0x3F800000 0x3F800000 0x3F800000 0x3F800000 in
  let s' := set_scalefactors (<[1%nat := sf']> (scalefactors sim_psc)) sim_psc in
  chan_settings 2 (message SF_DAC_DCCTS_MSG 0x40000000 []) 8 sim_psc =
  Ok (tt, out32 (chan_addr 2 FOFB_SCALEFACTOR_REG) (fofb_scale s' sf') s').
Proof.
  apply (sf_dac_dccts_consistent 2 0x40000000 [] 8 sim_psc sim_sf); [lia|word|reflexivity].
Defined.

Lemma smooth_writes_witness :
  Calc_WriteSmooth 1 52429 sim_psc =
  Ok (tt, out_all [(chan_addr 1 SMOOTH_PHASEINC_REG, 42165);
                   (chan_addr 1 DAC_SETPT_REG, 52429)] sim_psc).
Proof.
  destruct (smooth_writes 1 52429 sim_psc sim_sf 0) as [_ Hw];
    [lia|reflexivity|by vm_compute|by vm_compute|].
  apply Hw. by vm_compute.
Defined.

Lemma smooth_same_setpoint_div0_witness : Calc_WriteSmooth 1 0 sim_psc = Ub ub_div0.
Proof.
  apply (smooth_same_setpoint_div0 1 sim_psc sim_sf 0 false 13421773 (-8));
    [lia|reflexivity|by vm_compute|by vm_compute].
Defined.

(** The board with channel 1 in jump mode. *)
Definition sim_jump : psc :=
  set_pl (λ p, <[u32 (chan_addr 1 DAC_OPMODE_REG) := JUMP]> (p : gmap Z Z)) sim_psc.


Lemma ramptable_too_long_witness :
  write_ramptable 1 (ramp_msg (replicate (Z.to_nat 50001) 0) [])
    (4 * Z.of_nat (length (replicate (Z.to_nat 50001) 0)) + 0) sim_psc = Ok (tt, sim_psc).
Proof.
  apply (ramptable_too_long 1 (replicate (Z.to_nat 50001) 0) [] 0 sim_psc);
    [rewrite length_replicate; lia|lia].
Defined.

Lemma ramptable_written_witness :
  write_ramptable 1 (ramp_msg [0x3F800000; 0xBF800000] []) 8 sim_psc =
  Ok (tt, out_all [(chan_addr 1 DAC_RAMPLEN_REG, 2);
                   (chan_addr 1 DAC_RAMPADDR_REG, 0); (chan_addr 1 DAC_RAMPDATA_REG, 52428);
                   (chan_addr 1 DAC_RAMPADDR_REG, 1); (chan_addr 1 DAC_RAMPDATA_REG, -52428)] sim_psc).
Proof.
  apply (ramptable_written 1 [0x3F800000; 0xBF800000] [] 0 sim_psc sim_sf 0);
    [lia|cbn; lia|lia|forall_list; word|reflexivity|word|by vm_compute|forall_list; by vm_compute].
Defined.

Lemma ramp_saturation_witness :
  ∃ w, saturate_ramp 1 2000000 sim_psc = Ok (w, sim_psc) ∧ - 2 ^ 20 ≤ w ≤ 2 ^ 20.
Proof. apply (ramp_saturation 2000000 sim_psc). lia. Defined.

(** ** Saved settings *)

Lemma sim_plain_channels : Forall (plain_channel sim_plain) [1; 2; 3; 4].
Proof. forall_list; unfold plain_channel, sim_plain; by vm_compute; repeat constructor. Qed.

Lemma save_preserves_witness :
  ∃ s', chan_settings 3 (message WRITE_QSPI_MSG 1 []) 8 sim_psc = Ok (tt, s') ∧
    scalefactors s' = scalefactors sim_psc ∧
    stored 3 (settings_of 3 sim_psc) sim_sf (flash s').
Proof.
  destruct (save_preserves sim_plain 3 [] 8 sim_psc sim_sf)
    as (s' & E & _ & _ & Hsf & Hst & _);
    [lia|exact (Forall_lookup_1 _ _ 2 _ sim_plain_channels eq_refl)|exact sim_wf|reflexivity|
     exact sim_sf_wf|].
  exists s'. split; [exact E|]. split; [exact Hsf|exact Hst].
Defined.

(** A save directly followed by a recall. *)
Lemma save_recall_roundtrip_witness :
  ∃ s' t1, chan_settings 2 (message WRITE_QSPI_MSG 1 []) 8 sim_psc = Ok (tt, s') ∧
    chan_settings 2 (message READ_QSPI_MSG 1 []) 8 s' =
    Ok (tt, set_scalefactors (<[1%nat := sim_sf]> (scalefactors s'))
              (out_all (settings_writes 2 (settings_of 2 sim_psc)) t1)).
Proof.
  destruct (total_chan_settings 2 ltac:(lia) (message WRITE_QSPI_MSG 1 []) 8 sim_psc)
    as (s' & E & Hwf); [exact sim_wf|by vm_compute|eexists; split; [reflexivity|discriminate]|].
  destruct (lookup_lt_is_Some_2 (scalefactors s') 1) as [sf0 Hsf0]; [destruct Hwf; lia|].
  destruct (save_recall_roundtrip sim_plain 2 [] [] 8 8 sim_psc s' s' sim_sf sf0)
    as (t1 & _ & _ & _ & Er);
    [lia|exact (Forall_lookup_1 _ _ 1 _ sim_plain_channels eq_refl)|exact sim_wf|reflexivity|
     exact sim_sf_wf|exact E|exact Hwf|exact Hsf0|reflexivity|].
  exists s', t1. split; [exact E|exact Er].
Defined.

(** An erased sector holds the word 0xFFFFFFFF everywhere. *)
Definition erased_words : list Z := replicate 37 0xFFFFFFFF.
Definition erased_sf : ScaleFactorType :=
  MkSF 0xFFFFFFFF 0xFFFFFFFF 0xFFFFFFFF 0xFFFFFFFF 0xFFFFFFFF 0xFFFFFFFF 0xFFFFFFFF.

Lemma erased_stored c : stored c erased_words erased_sf (flash sim_psc).
Proof.
  exists (replicate (252 - length (qspi_body erased_words erased_sf)) 0xFF). split; [done|].
  intros i b Hb. change (0xFF = b).
  assert (Forall (eq 0xFF) (qspi_body erased_words erased_sf ++
    replicate (252 - length (qspi_body erased_words erased_sf)) 0xFF)) as Hall
    by (vm_compute; repeat constructor).
  by apply (Forall_lookup_1 _ _ _ _ Hall Hb).
Qed.

Lemma erased_wf :
  Forall (λ v, length v = 37%nat ∧ Forall is_u32 v)
    [erased_words; erased_words; erased_words; erased_words] ∧
  Forall sf_wf [erased_sf; erased_sf; erased_sf; erased_sf].
Proof.
  assert (Forall is_u32 erased_words) by (apply Forall_replicate; word).
  assert (sf_wf erased_sf) by (unfold sf_wf, qspi_sf; forall_list; word).
  split; forall_list; done.
Qed.

Lemma startup_recall_witness :
  ∃ s', InitSettingsfromQspi sim_psc = Ok (tt, s') ∧
    scalefactors s' = [erased_sf; erased_sf; erased_sf; erased_sf].
Proof.
  destruct (startup_recall erased_words erased_words erased_words erased_words
    erased_sf erased_sf erased_sf erased_sf sim_psc) as (s' & E & _ & Hsf & _);
    [exact sim_wf|exact (proj1 erased_wf)|exact (proj2 erased_wf)|apply erased_stored..|].
  exists s'. split; [exact E|exact Hsf].
Defined.


Lemma glob_settings_spec_witness :
  glob_settings (message SOFT_TRIG_MSG 5 []) sim_psc =
  Ok (tt, out_all [(XPAR_M_AXI_BASEADDR + SOFTTRIG, 5); (XPAR_M_AXI_BASEADDR + SOFTTRIG, 0)] sim_psc).
Proof. apply (glob_settings_spec SOFT_TRIG_MSG 5 [] sim_psc); word. Defined.

(** ** Messages and clients *)

#[local] Existing Instance SimSockets.

(** A connection on which [bytes] arrive. *)
Definition sim_rx (bytes : list Z) : @NET SimSockets := MkSimNet (λ _, bytes) (λ _, []) 1.

Definition zeros8 : list Z := replicate 8 0.
Definition zeros128 : list Z := replicate 128 0.

Lemma zeros_u8 n : Forall is_u8 (replicate n 0).
Proof. apply Forall_replicate. by unfold is_u8. Qed.

(** Seven bytes into a buffer of four: truncated, and the byte behind is next. *)
Lemma message_roundtrip_witness :
  ∃ net' rnet', psc_sendmsg 1 50 [1; 2; 3; 4; 5; 6; 7] 7 0 (sim_rx []) = Ok (0, net') ∧
    psc_recvmsg zeros8 zeros128 2 (MkRx 0 4 [0; 0; 0; 0]) 0
      (sim_rx (frame 50 [1; 2; 3; 4; 5; 6; 7] ++ [99])) =
    Ok ((0, MkRx 50 4 [1; 2; 3; 4]), rnet') ∧ rx_pending 2 rnet' = [99].
Proof.
  destruct (run_sendmsg 1 50 [1; 2; 3; 4; 5; 6; 7] 0 (sim_rx [])) as (net' & E & _ & Ht & _);
    [cbn; lia|exact I|].
  destruct (message_roundtrip zeros8 zeros128 1 2 50 [1; 2; 3; 4; 5; 6; 7] [99]
    (MkRx 0 4 [0; 0; 0; 0]) 0 (sim_rx []) net'
    (sim_rx (frame 50 [1; 2; 3; 4; 5; 6; 7] ++ [99]))) as (rnet' & Er & _ & Hp);
    [word|cbn; lia|reflexivity|reflexivity|cbn; lia|cbn; lia|exact I|exact E|exact I| |].
  { rewrite Ht. reflexivity. }
  exists net', rnet'. split; [exact E|]. split; [exact Er|exact Hp].
Defined.

Lemma recv_bad_magic_witness :
  ∃ net', psc_recvmsg zeros8 zeros128 2 (MkRx 0 4 [0; 0; 0; 0]) 0
      (sim_rx [0x50; 0x52; 0; 1; 0; 0; 0; 0; 7]) = Ok ((5, MkRx 0 4 [0; 0; 0; 0]), net') ∧
    rx_pending 2 net' = [7].
Proof.
  destruct (recv_bad_magic zeros8 zeros128 2 [0x50; 0x52; 0; 1; 0; 0; 0; 0] [7]
    (MkRx 0 4 [0; 0; 0; 0]) 0 (sim_rx [0x50; 0x52; 0; 1; 0; 0; 0; 0; 7]))
    as (net' & E & _ & Hp); [reflexivity|discriminate|reflexivity|exact I|reflexivity|].
  exists net'. split; [exact E|exact Hp].
Defined.

Lemma recvmsg_outcomes_witness :
  (∃ ret m' net', psc_recvmsg zeros8 zeros128 2 (MkRx 0 4 [0; 0; 0; 0]) 0 (sim_rx [0x50]) =
     Ok ((ret, m'), net') ∧ length (rx_buf m') = 4%nat) ∨
  (∃ i n, psc_recvmsg zeros8 zeros128 2 (MkRx 0 4 [0; 0; 0; 0]) 0 (sim_rx [0x50]) =
     Ub (ub_index i n) ∧ n ≤ 128).
Proof.
  destruct (recvmsg_outcomes zeros8 zeros128 2 (MkRx 0 4 [0; 0; 0; 0]) 0 (sim_rx [0x50]))
    as [(ret & m' & net' & E & Hl & _)|Hub];
    [reflexivity|apply zeros_u8|reflexivity|apply zeros_u8|cbn; lia|cbn; lia|
     apply (zeros_u8 4)| |].
  - left. exists ret, m', net'. split; [exact E|exact Hl].
  - right. exact Hub.
Defined.

(** The server after one connection has been accepted. *)
Definition sim_step := step (X := unit) (λ _, None) (λ _ _ _ x, Ok x) zeros8 zeros128 0.

Definition one_client : server (X := unit) :=
  MkServer (psc_client_alloc new_key).1 (MkSimNet (λ _, []) (λ _, []) 2 : @NET SimSockets) tt
    (Some (0%nat, (1, 0))) [].

Lemma one_client_reachable : star sim_step (server_start (sim_rx []) tt) one_client.
Proof.
  eapply star_step; [|apply star_refl]. eapply s_accept_alloc; solve [reflexivity | discriminate | lia].
Qed.

Lemma server_slots_exclusive_witness : server_ok one_client.
Proof.
  apply (server_slots_exclusive (λ _, None) (λ _ _ _ x, Ok x) zeros8 zeros128 0 (sim_rx []) tt);
    [reflexivity|apply zeros_u8|reflexivity|apply zeros_u8|exact one_client_reachable].
Defined.

Lemma fifth_client_dropped_witness :
  (psc_client_alloc (srv_key one_client)).2 = None ↔
  length (owners (accepting one_client) (threads one_client)) = PSC_MAX_CLIENTS.
Proof.
  apply (fifth_client_dropped (λ _, None) (λ _ _ _ x, Ok x) zeros8 zeros128 0 (sim_rx []) tt);
    [reflexivity|apply zeros_u8|reflexivity|apply zeros_u8|exact one_client_reachable].
Defined.

(** A connected client in slot 0 with socket 1, and nobody else. *)
Definition sim_client : psc_client := MkClient 0 1 0 true (cl_rxbuf zero_client).
Definition sim_key : psc_key := MkKey 1 (sim_client :: replicate 3 zero_client).

Lemma client_messages_in_order_witness :
  ∃ buf' net', star sim_step
    (MkServer sim_key (sim_rx (stream_of [(7, [1; 2]); (8, [])])) tt None [(0%nat, HRecv 1)])
    (MkServer (MkKey 1 (<[0%nat := set_rxbuf buf' sim_client]> (clients sim_key))) net' tt None
       [(0%nat, HRecv 1)]) ∧ rx_pending 1 net' = [].
Proof.
  destruct (client_messages_in_order (λ _, None) (λ _ _ _ x, Ok x) zeros8 zeros128 0
    [(7, [1; 2]); (8, [])] [] sim_key (sim_rx (stream_of [(7, [1; 2]); (8, [])])) tt None [] []
    0%nat 1 sim_client ([1; 2] ++ drop 2 (cl_rxbuf zero_client)) tt) as (net' & Hs & _ & Hp);
    [reflexivity|reflexivity|reflexivity|exact length_zero_rxbuf| |exact I|reflexivity| |].
  { forall_list; split; first [word|cbn; lia]. }
  { cbn [process]. rewrite !take_ge by (unfold RXBUF_SIZE, PSC_MAX_RX_MSG_LEN; cbn [length]; lia).
    cbn [length app]. rewrite drop_0. reflexivity. }
  eexists _, net'. split; [exact Hs|exact Hp].
Defined.

Lemma broadcast_delivers_witness :
  ∃ key' net', psc_send (Some sim_key) 60 3 [1; 2; 3] (sim_rx []) = Ok (Some key', net') ∧
    clients key' !! 0%nat = Some sim_client ∧ tx_sent 1 net' = frame 60 [1; 2; 3].
Proof.
  destruct (broadcast_delivers sim_key 60 [1; 2; 3] (sim_rx []) 0 sim_client [])
    as (key' & net' & E & HC & _ & Ht);
    [unfold PSC_MAX_CLIENTS; lia|reflexivity|reflexivity|discriminate|cbn; lia| |exact I|
     reflexivity|].
  { intros k C' Hk HC. destruct k as [|k]; [done|]. cbn [sim_key clients lookup list_lookup] in HC.
    by apply lookup_replicate in HC as [-> _]. }
  exists key', net'. split; [exact E|]. split; [exact HC|exact Ht].
Defined.

Lemma eeprom_roundtrip_witness :
  ∃ s1 s2, i2c_eeprom_writeBytes 0x10 [1; 0; 1; 0] sim_psc = Ok (tt, s1) ∧
    i2c_eeprom_readBytes 0x10 [9; 9; 9; 9; 9] 4 s1 = Ok ([1; 0; 1; 0; 9], s2).
Proof.
  destruct (eeprom_roundtrip 0x10 [1; 0; 1; 0] [9; 9; 9; 9; 9] sim_psc)
    as (s1 & s2 & E1 & E2 & _);
    [lia|by vm_compute|by vm_compute|forall_list; by unfold is_u8|cbn; lia|].
  exists s1, s2. split; [exact E1|exact E2].
Defined.

(** ** Dispatch *)

Lemma client_msg_isolated_witness :
  ∃ s', client_msg 2 8 (message DIGOUT_ON1_MSG 1 []) sim_psc = Ok (tt, s') ∧
    ∃ evs, events s' = ioc_pulse ++ evs ∧ ∀ a v, Out32 a v ∈ evs → ¬ in_block 4 a.
Proof.
  exists (out32 (chan_addr 2 DIGOUT_ON1_REG) 1 (blink sim_psc)).
  assert (client_msg 2 8 (message DIGOUT_ON1_MSG 1 []) sim_psc =
          Ok (tt, out32 (chan_addr 2 DIGOUT_ON1_REG) 1 (blink sim_psc))) as E by reflexivity.
  split; [exact E|].
  destruct (client_msg_isolated 2 8 _ _ _ ltac:(discriminate) E) as [Hiso _].
  destruct (Hiso ltac:(left; lia)) as [_ Hother].
  destruct (Hother 4 ltac:(lia) ltac:(discriminate)) as (_ & evs & Hev & Hout).
  exists evs. split; [exact Hev|exact Hout].
Defined.

Lemma end_to_end_setting_witness :
  ∃ net' buf', star (step (λ _, client_event true) recv_callback zeros8 zeros128 0)
    (MkServer sim_key (sim_rx (frame 1 (message DAC_RUNRAMP_MSG 1 []))) sim_psc None [(0%nat, HRecv 1)])
    (MkServer (MkKey 1 (<[0%nat := set_rxbuf buf' sim_client]> (clients sim_key))) net'
       (out32 (chan_addr 1 DAC_RUNRAMP_REG) 1 (blink sim_psc)) None [(0%nat, HRecv 1)]) ∧
    up 1 net' ∧ rx_pending 1 net' = [].
Proof.
  apply (end_to_end_setting zeros8 zeros128 0 1 DAC_RUNRAMP_MSG DAC_RUNRAMP_REG Raw 1 [] sim_key
    (sim_rx (frame 1 (message DAC_RUNRAMP_MSG 1 []))) sim_psc None [] [] 0 1 sim_client sim_sf);
    [reflexivity|reflexivity|reflexivity|exact length_zero_rxbuf|lia|in_table|word|reflexivity|
     exact I|reflexivity].
Defined.

Lemma empty_message_repeats_witness :
  ∃ buf', process recv_callback [(1, message DAC_RUNRAMP_MSG 1 []); (2, [])] [] sim_psc =
  Ok (buf', out32 (chan_addr 2 DAC_RUNRAMP_REG) 1
       (blink (out32 (chan_addr 1 DAC_RUNRAMP_REG) 1 (blink sim_psc)))).
Proof.
  apply (empty_message_repeats 1 2 DAC_RUNRAMP_MSG DAC_RUNRAMP_REG Raw 1 [] sim_psc sim_sf sim_sf);
    [lia|lia|in_table|word|reflexivity|reflexivity].
Defined.

(** ** Snapshots *)

Lemma hton_conv_network_order_witness :
  hton_conv ([4; 3; 2; 1; 0xDD; 0xCC; 0xBB; 0xAA] ++ [9]) 8 =
  Ok ([1; 2; 3; 4; 0xAA; 0xBB; 0xCC; 0xDD] ++ [9]).
Proof.
  apply (hton_conv_network_order [0x01020304; 0xAABBCCDD] [9]). forall_list; word.
Defined.

(** A trigger at sample 5 with ten samples before it: the window starts at the end
    of the buffer. *)
Definition sim_trigger : TriggerInfo := MkTrig (BUFSTART + 160 * 5) 0 10 3 1 0 1 MSGUSRCH1 1.

Lemma sim_trig_at : trig_at 5 sim_trigger.
Proof. unfold trig_at, sim_trigger, NSAMPLES; cbn; lia. Qed.

Lemma snapshot_window_witness :
  let w := window sim_psc sim_sf 1 5 10 3 in
  ReadDMABuf (replicate 600 0) sim_trigger sim_psc =
  Ok (bytes_of_words w ++ drop (4 * length w) (replicate 600 0), sim_psc) ∧
  Z.of_nat (length w) = 130.
Proof.
  apply (snapshot_window 5 sim_trigger sim_psc sim_sf (replicate 600 0));
    [exact sim_trig_at|reflexivity|by vm_compute].
Defined.

Lemma waveform_message_witness :
  ∃ msg', SendWfmData (replicate (Z.to_nat MSGWFMLEN) 0) sim_trigger sim_psc =
    Ok ((msg', sent_trigger sim_trigger), add_event (PscSend MSGUSRCH1 msg') sim_psc) ∧
    Z.of_nat (length msg') = MSGWFMLEN.
Proof.
  destruct (bytes_are_words (drop (4 * length (window sim_psc sim_sf 1 5 10 3))
    (replicate (Z.to_nat MSGWFMLEN) 0))) as (ws & Hws & _).
  { apply Forall_drop, zeros_u8. }
  { rewrite length_drop, length_replicate.
    rewrite length_window by lia. exists (1000000 - 130). unfold MSGWFMLEN. lia. }
  eexists.
  apply (waveform_message 5 sim_trigger sim_psc sim_sf (replicate (Z.to_nat MSGWFMLEN) 0) ws);
    [exact sim_trig_at|reflexivity| |by vm_compute|exact Hws].
  rewrite length_replicate. unfold MSGWFMLEN. lia.
Defined.

(** 8000 samples after the trigger: not sent by the first eight checks, sent by the
    ninth. *)
Lemma trigger_latency_witness :
  let t := MkTrig 100 0 0 8000 0 0 0 MSGINJCH1 1 in
  sendbuf (Nat.iter 8 ProcessTrigger t) = 0 ∧ sendbuf (Nat.iter 9 ProcessTrigger t) = 1.
Proof.
  destruct (trigger_latency (MkTrig 100 0 0 8000 0 0 0 MSGINJCH1 1)) as [Hbefore [Hsend _]];
    [reflexivity|reflexivity|discriminate|cbn; lia|].
  change (Z.to_nat (posttrigpts (MkTrig 100 0 0 8000 0 0 0 MSGINJCH1 1) / 1000)) with 8%nat in *.
  split; [apply (Hbefore 8%nat); lia|exact Hsend].
Defined.


(** ** 10 Hz data *)

Lemma sim_sa_plain : sa_plain sim_plain.
Proof.
  unfold sa_plain, sim_plain. split; apply (bool_decide_unpack _); vm_compute; reflexivity.
Qed.

Lemma sadata_message_witness :
  ∃ msg' s', sadata_push (replicate 1400 0) sim_psc = Ok (msg', s') ∧ length msg' = 1400%nat.
Proof.
  destruct (sadata_message sim_plain (replicate 1400 0) sim_psc) as [E Hl];
    [exact sim_sa_plain|reflexivity|reflexivity|].
  eexists _, _. split; [exact E|exact Hl].
Defined.
