(* ===== verification/WitnessIo.v ===== *)
(** * The properties of files, console, network and TFTP on the simulated board *)

From S2P Require Import Prelude Words Floats Machine Regs Sadata Qspi Control ControlFrame.
From S2P Require Import ControlTotal ControlSpec PscMsg Listener I2c Main CStr Stdio FatFs Sdcard.
From S2P Require Import SdcardSpec Console ConsoleSpec Discover Lstats NetSetup Tftp TftpHandler.
From S2P Require Import TftpSpec Typed Sim SimIo.

(** ** SD card *)

Definition sim_cnf : list Z :=
  zs "# network" ++ [10] ++ zs "hwaddr 00:11:22:aa:BB:cc" ++ [10] ++ zs " addr 10.0.142.100 " ++ [10].

Definition sim_card : FS :=
  MkSimFs (<["NET.CNF" := sim_cnf]> {["EEPROM.NEW" := [1; 2; 3; 4]]}) (λ _, None).

Definition sim_conf : net_config := MkConf 0x648E000A 0 0 1 [0x00; 0x11; 0x22; 0xAA; 0xBB; 0xCC].


Definition sim_open_card : FS := sx_set false (Some ("NET.CNF", 0%nat)) sim_card.

Lemma netconf_refines_witness :
  ∃ x', sdcard_netconf 100 zero_conf sd_fil sim_open_card sim_psc = Ok ((sim_conf, x'), sim_psc).
Proof.
  destruct (netconf_refines "NET.CNF" sim_cnf sim_open_card 0 100 zero_conf sim_psc)
    as (x' & _ & Hrun); [split; vm_compute; reflexivity|apply Nat.ltb_lt; vm_compute; reflexivity|].
  exists x'. rewrite Hrun. reflexivity.
Defined.

Lemma hwaddr_roundtrip_witness :
  ∃ lbuf', netconf_line zero_conf (zs "hwaddr 01:23:45:67:89:ab" ++ 0 :: replicate 39 7) sim_psc
           = Ok ((set_hwaddr [0x01; 0x23; 0x45; 0x67; 0x89; 0xAB] zero_conf, lbuf'), sim_psc).
Proof.
  apply (hwaddr_roundtrip false zero_conf [0x01; 0x23; 0x45; 0x67; 0x89; 0xAB] (replicate 39 7) sim_psc);
    [reflexivity|bytes].
Defined.

Lemma hwaddr_no_argument_witness :
  netconf_line zero_conf (zs "hwaddr" ++ [32; 10] ++ 0 :: []) sim_psc = Ub ub_null.
Proof. apply (hwaddr_no_argument zero_conf [32; 10] [] sim_psc). forall_list; reflexivity. Defined.

Lemma sdcard_only_reads_mac_witness :
  ∃ conf x s', sdcard_handle 100 zero_conf sim_card sim_psc = Ok ((conf, x), s') ∧
    flash s' = flash sim_psc.
Proof.
  eexists _, _, _. split; [reflexivity|].
  eapply (sdcard_only_reads_mac 100 zero_conf sim_card sim_psc). reflexivity.
Defined.

(** ** Console *)

Definition sim_line : list Z := zs "2 3 1".

Lemma sim_command : command_line sim_line (zs "2") (zs "3") (zs "1").
Proof.
  split; try (by vm_compute); try (split; [done|]; forall_list; reflexivity).
  - split; [done|]. split; [forall_list; reflexivity|vm_compute; lia].
  - vm_compute. lia.
Qed.

Definition keys (l : list Z) : IN := l.

Lemma console_like_client_witness :
  ∃ i', receive_console_cmd (keys (sim_line ++ 13 :: zs "Q")) (blink sim_psc)
    = run (client_msg 2 8 (message 3 1 [])) i' sim_psc.
Proof.
  destruct (console_like_client sim_line (zs "2") (zs "3") (zs "1") 13 (zs "Q")
    (keys (sim_line ++ 13 :: zs "Q")) sim_psc) as (i' & _ & E);
    [exact sim_command|reflexivity|by left|vm_compute; split; discriminate|].
  exists i'. exact E.
Defined.

Definition sim_bad_line : list Z := zs "0 104 9".

Lemma sim_bad_command : command_line sim_bad_line (zs "0") (zs "104") (zs "9").
Proof.
  split; try (by vm_compute); try (split; [done|]; forall_list; reflexivity).
  - split; [done|]. split; [forall_list; reflexivity|vm_compute; lia].
  - vm_compute. lia.
Qed.

Lemma console_channel_unchecked_witness :
  receive_console_cmd (keys (sim_bad_line ++ [10])) sim_psc = Undef (ub_index 4294967295 4).
Proof.
  apply (console_channel_unchecked sim_bad_line (zs "0") (zs "104") (zs "9") 10 []
    (keys (sim_bad_line ++ [10])) sim_psc);
    [exact sim_bad_command|reflexivity|by right|reflexivity|split; [discriminate|reflexivity]|reflexivity|].
  vm_compute. intros [H _]. by apply H.
Defined.

Lemma uart_line_bounded_witness :
  ∃ line i', uart_read_line (replicate 8 0) 4 (keys (zs "abcdef")) sim_psc
      = Done (line ++ 0 :: drop (S (length line)) (replicate 8 0)) i' sim_psc ∧
    Z.of_nat (length line) ≤ 3.
Proof.
  destruct (uart_line_bounded (replicate 8 0) 4 (keys (zs "abcdef")) sim_psc)
    as [(_ & _ & Hl)|(line & i' & E & _ & Hl & _)]; [split; [discriminate|discriminate]|discriminate Hl|].
  exists line, i'. by split.
Defined.

Lemma setting_takes_effect_witness :
  ∃ i' s', set_resolution (keys (zs "1B")) sim_psc = Done tt i' s' ∧ pending i' = zs "B" ∧
    (CONVVOLTSTODACBITS s', CONVDACBITSTOVOLTS s') = flavor_conv 1 sim_psc.
Proof.
  destruct (setting_takes_effect 0x11 49 (zs "B") (keys (zs "1B")) sim_psc)
    as (i' & s' & E & Hp & _ & Hc); [by vm_compute; set_solver|reflexivity|].
  exists i', s'. split; [exact E|]. split; [exact Hp|exact Hc].
Defined.

Lemma eeprom_patterns_witness :
  (∃ i' s', clear_eeprom (keys (zs "yes" ++ [10])) sim_psc = Done tt i' s' ∧
     lower_half (λ _, 0xFF) (eeprom sim_psc) (eeprom s')) ∧
  (∃ i', test_eeprom (keys (zs "no" ++ [10])) sim_psc = Done tt i' sim_psc).
Proof.
  split.
  - destruct (eeprom_patterns [] (zs "yes") 10 [] (keys (zs "yes" ++ [10])) sim_psc)
      as [(i' & s' & E & Hs) _];
      [reflexivity|constructor|reflexivity|done|forall_list; reflexivity|vm_compute; lia|].
    exists i', s'. split; [exact E|]. exact (proj2 Hs).
  - destruct (eeprom_patterns [] (zs "no") 10 [] (keys (zs "no" ++ [10])) sim_psc)
      as [_ (i' & s' & E & Hs)];
      [reflexivity|constructor|reflexivity|done|forall_list; reflexivity|vm_compute; lia|].
    exists i'. rewrite E. cbn in Hs. by rewrite Hs.
Defined.

Lemma menu_never_stops_witness :
  ∃ s', console_menu 100 (keys (zs "ab1Hcx?" ++ zs "QI no ")) sim_psc = Wait s'.
Proof.
  apply (menu_never_stops 100 (keys (zs "ab1Hcx?" ++ zs "QI no ")) sim_psc).
  - apply Nat.ltb_lt. reflexivity.
  - unfold no_calibration. cbn. forall_list; split; discriminate.
Defined.

Lemma ipaddr_overflow_witness :
  menu_get_ipaddr 50 [0; 0; 0; 0] (keys (replicate 41 48)) sim_psc = Undef (ub_index 40 40).
Proof.
  apply (ipaddr_overflow 50 (replicate 41 48) [] [0; 0; 0; 0] (keys (replicate 41 48)) sim_psc);
    [reflexivity|apply Forall_replicate; split; discriminate|reflexivity|lia].
Defined.

(** ** Network *)

Lemma discovery_reply_witness :
  disco_recv true (frame 1234 [1; 2; 3; 4] ++ [5]) = Some (frame 1234 (replicate 8 0)).
Proof.
  apply (discovery_reply true (frame 1234 [1; 2; 3; 4] ++ [5]) (frame 1234 (replicate 8 0))).
  - vm_compute. forall_list; (split; [discriminate|reflexivity]).
  - split; [done|]. split; [done|]. exists [1; 2; 3; 4], [5]. split; [cbn; lia|done].
Defined.

Definition sim_counters : Counters :=
  MkCounters 12345 9 [1; 2; 3; 4; 5; 6; 7] [8; 9; 10; 11; 12] 13 14 15 16 17 true
    0x42280000 0x3F800000 0x3FE66666.

Lemma lstats_message_witness :
  ∃ body, lstats_push sim_counters sim_psc = Ok (tt, add_event (PscSend 101 body) sim_psc) ∧
    be32_at 4 body = 9 ∧ be32_at 16 body = 3 ∧ be32_at 36 body = 0 ∧ be32_at 56 body = 0x42280000.
Proof.
  destruct (lstats_message sim_counters sim_psc) as (body & E & _ & Hv); [by split|].
  exists body. split; [exact E|].
  pose proof (λ k, f_equal (lookup k) Hv) as Hk.
  pose proof (Hk 1%nat) as [= ->]. pose proof (Hk 4%nat) as [= ->]. pose proof (Hk 9%nat) as [= ->].
  pose proof (Hk 14%nat) as [= ->]. done.
Defined.

Definition sim_ips : list Z := replicate 360 0x648E000A.

Lemma dhcp_timers_witness :
  ∃ evs d, dhcp_run sim_ips dhcp_start_state = (evs, d) ∧ count_event DhcpCoarse evs = 3.
Proof.
  destruct (dhcp_run sim_ips dhcp_start_state) as [evs d] eqn:E. exists evs, d. split; [reflexivity|].
  destruct (dhcp_timers sim_ips evs d) as [_ ->]; [done|done|exact E|]. reflexivity.
Defined.


(** ** TFTP on the simulated card *)

Definition sim_boot : FS := MkSimFs {["BOOT.BIN" := replicate 600 7]} (λ _, None).
Definition sim_tftp : tftp_state := initial sim_boot.

Lemma sim_tftp_inv : tftp_inv sim_tftp.
Proof. split; cbn; try done; by left. Qed.

Lemma sim_names : good_names (zs "BOOT.BIN") (zs "octet").
Proof. split; (split; [apply (bool_decide_unpack _); reflexivity|by vm_compute]). Qed.

(** The state in which a block of the file has been sent to port 69 of host 5. *)
Definition sim_reading : tftp_state :=
  match recv [request false (zs "BOOT.BIN") (zs "octet")] 5 69 sim_tftp with
  | Ok (_, t) => t
  | Ub _ => sim_tftp
  end.

Lemma tftp_invariant_witness :
  recv [request false (zs "BOOT.BIN") (zs "octet")] 5 69 sim_tftp = Ok (tt, sim_reading) ∧
  tftp_inv sim_reading.
Proof.
  assert (recv [request false (zs "BOOT.BIN") (zs "octet")] 5 69 sim_tftp = Ok (tt, sim_reading)) as E
    by (vm_compute; reflexivity).
  split; [exact E|]. apply (tftp_invariant (cs sim_tftp)).
  eapply star_step; [|apply star_refl]. eapply step_recv. exact E.
Defined.

Lemma foreign_peer_witness :
  ∃ t', recv [[0; 9]] 5 70 sim_reading = Ok (tt, t') ∧
    tried (5, 70, error_msg TFTP_ERROR_ACCESS_VIOLATION
      (zs "Only one connection at a time is supported")) sim_reading t'.
Proof. apply (foreign_peer [[0; 9]] 5 70 sim_reading). reflexivity. Defined.

Lemma short_datagram_witness : recv [[0]] 5 69 sim_tftp = Ub (ub_index 0 0).
Proof. apply (short_datagram 0 5 69 sim_tftp). reflexivity. Defined.


Lemma sim_pool n : pbuf_ok n = true.
Proof. done. Qed.

Lemma read_transfer_witness :
  ∃ t', recv_all [request false (zs "BOOT.BIN") (zs "octet"); [0; 4; 0; 1]; [0; 4; 0; 2]] 5 69 sim_tftp
      = Ok (tt, t') ∧ handle t' = None ∧
    sent t' = [(5, 69, data_msg 1 (replicate 512 7)); (5, 69, data_msg 2 (replicate 88 7))].
Proof.
  destruct (read_transfer (H := ctxt) sim_pool card_reading (zs "BOOT.BIN") (zs "octet") 5 69 sim_tftp
    true (sx_set true (Some ("BOOT.BIN", 0%nat)) sim_boot) (replicate 600 7)) as (t' & E & Hh & Hs & _);
    [exact sim_tftp_inv|reflexivity|exact sim_names|reflexivity| |].
  - split; [reflexivity|]. exists "BOOT.BIN", (replicate 600 7), 0%nat. split; [split|]; reflexivity.
  - exists t'. split; [exact E|]. split; [exact Hh|]. rewrite Hs. reflexivity.
Defined.

(** One full block, sent twice, and a last one of three bytes. *)
Definition sim_blocks : list (list Z) :=
  [data_msg 1 (replicate 512 1); data_msg 1 (replicate 512 1); data_msg 2 [4; 5; 6]].
Definition sim_contents : list Z := replicate 512 1 ++ [4; 5; 6].

Lemma sim_upload : upload 1 sim_blocks sim_contents.
Proof.
  apply (up_block 1 (replicate 512 1)); [done|]. apply (up_again 2 (replicate 512 1)).
  apply (up_last 2). cbn. lia.
Qed.

Lemma write_transfer_witness :
  ∃ t', recv_all (request true (zs "BOOT.BIN") (zs "octet") :: sim_blocks) 5 69 sim_tftp = Ok (tt, t') ∧
    handle t' = None ∧ sx_files (cs t') !! "BOOT.BIN" = Some (sim_contents ++ replicate 85 7).
Proof.
  destruct (write_transfer (H := ctxt) (card_writing "BOOT.BIN" (replicate 600 7)) (zs "BOOT.BIN")
    (zs "octet") 5 69 sim_tftp true (sx_set true (Some ("BOOT.BIN", 0%nat)) sim_boot) []
    sim_blocks sim_contents) as (t' & c' & E & Hh & [_ Hw] & Hc);
    [exact sim_tftp_inv|reflexivity|exact sim_names|reflexivity| |exact sim_upload|].
  - split; [reflexivity|]. split; reflexivity.
  - exists t'. split; [exact E|]. split; [exact Hh|]. rewrite Hc. exact (proj2 Hw).
Defined.

Lemma upload_keeps_tail_witness :
  ∃ t', recv_all (request true (zs "BOOT.BIN") (zs "octet") :: sim_blocks) 5 69 sim_tftp = Ok (tt, t') ∧
    handle t' = None ∧ sx_files (cs t') !! "BOOT.BIN" = Some (sim_contents ++ replicate 85 7).
Proof.
  destruct (upload_keeps_tail (zs "BOOT.BIN") 5 69 sim_tftp sim_blocks sim_contents (replicate 600 7))
    as (t' & E & Hh & Hf); [exact sim_tftp_inv|reflexivity|exact sim_names|reflexivity|exact sim_upload|].
  exists t'. split; [exact E|]. split; [exact Hh|]. exact Hf.
Defined.

(** ** Traffic *)

