(* ===== verification/WitnessReal.v ===== *)
(** * The accuracy theorem on the simulated board *)

From Stdlib Require Import SpecFloat Reals Lra.
From S2P Require Import Prelude Words Floats FloatError Machine Regs Qspi Control ControlSpec.
From S2P Require Import Accuracy Sim Witness.

(** 1.0 and 52428.8 *)
Lemma value_one : pattern_value 0x3F800000 = 1%R.
Proof.
  change (pattern_value 0x3F800000) with (1 * (IZR (2 ^ 23) * bp (-23)))%R.
  rewrite <- bp_IZR, <- bp_add by lia. change (bp (23 + -23)) with 1%R. ring.
Qed.

Lemma value_factor : (bp 15 <= pattern_value 0x474CCCCD <= bp 16)%R.
Proof.
  change (pattern_value 0x474CCCCD) with (1 * (IZR 13421773 * bp (-8)))%R.
  pose proof (bp_pos (-8)).
  change 15 with (23 + -8). change 16 with (24 + -8). rewrite !bp_add, !bp_IZR by lia.
  assert (IZR (2 ^ 23) <= IZR 13421773 <= IZR (2 ^ 24))%R by (split; apply IZR_le; vm_compute; discriminate). rewrite Rmult_1_l.
  split; apply Rmult_le_compat_r; try lra. rewrite bp_IZR by lia. lra.
Qed.

Lemma sim_scalable : scalable 0x474CCCCD 0x3F800000 0x3F800000.
Proof.
  pose proof value_factor as [Hlo Hhi]. pose proof (bp_pos 15).
  assert (Hexact : exact_bits 0x474CCCCD 0x3F800000 0x3F800000 = pattern_value 0x474CCCCD).
  { unfold exact_bits. rewrite value_one. field. }
  assert (Habs : Rabs (pattern_value 0x474CCCCD) = pattern_value 0x474CCCCD) by (apply Rabs_right; lra).
  split; [done|done|done| |].
  - unfold normal. rewrite value_one, Rmult_1_l, Habs.
    pose proof (bp_mono (-126) 15 ltac:(lia)). split; [lra|].
    apply Rle_lt_trans with (bp 16); [done|]. replace 127 with (16 + 111) by lia.
    rewrite bp_add, (bp_IZR 111) by lia. pose proof (bp_pos 16).
    assert (1 < IZR (2 ^ 111))%R by (apply IZR_lt; reflexivity). nra.
  - rewrite Hexact, Habs. pose proof (bp_mono (-125) 15 ltac:(lia)). pose proof (bp_mono 16 30 ltac:(lia)). lra.
Qed.

Lemma dac_accuracy_witness :
  ∃ w, chan_settings 1 (message DAC_SETPT_MSG 0x3F800000 []) 8 sim_jump
      = Ok (tt, out32 (chan_addr 1 DAC_SETPT_REG) w sim_jump) ∧
    accurate w (exact_bits 0x474CCCCD 0x3F800000 0x3F800000).
Proof.
  apply (dac_accuracy 1 0x3F800000 [] 8 sim_jump sim_sf);
    [lia|unfold is_u32; lia|reflexivity|exact sim_scalable|by vm_compute|by vm_compute].
Defined.
